(* ===== verification/_CoqProject ===== *)
-Q . S2P
Prelude.v
ByteMem.v
CString.v
Bitmap.v
Interrupt.v
DList.v
Format.v
Paging.v
Idt.v
Memory.v
Words.v
Malloc.v
Loader.v
Kernel.v
Sched.v
Sync.v
Alloc.v
Thread.v
Spawn.v
Process.v
AddrSpace.v
Execute.v
IoQueue.v
Keyboard.v
Timer.v
Tss.v
Main.v
Boot.v
FirstSwitch.v
UserPage.v
FirstProcess.v
PoolRace.v
Typed.v
Switching.v
LockSys.v
Fair.v
RingSys.v
