(* ===== verification/Prelude.v ===== *)
(** * LiziOS: a verification development

    LiziOS is a small operating system for 32-bit x86 machines: it sets up its own
    page tables and interrupt tables, shares the processor between kernel threads by
    a clock interrupt, protects its allocators and the screen with re-entrant locks,
    reads the keyboard through a ring buffer and starts user processes with their own
    page directory.  All of its C code (src/kernel, src/lib, src/include) is modelled
    here as executable definitions; this file is the root and the shared prelude.

    ** How C becomes Rocq

    A C function is a [prog S A]: from a state it returns a value, stops in
    panic_spin ([Panic], with the arguments of the PANIC macro), touches memory the
    page tables do not map ([Fault]), runs into undefined behaviour of C ([Undef]), or
    exhausts the fuel of a loop ([NoFuel]).  [wp] is total correctness: no theorem
    that uses it is satisfied by a program that stops early.  Machine integers are [Z]
    with the wrap-around written out ([u8], [u16], [u32], [i8], [i32]).  A component
    works on its part of the state; a [lens] and [zoom] run it inside the larger one.

    ** The files

    - ByteMem: the interface of a byte-addressed memory, [ByteMem] with its laws
      [ByteMemOk]; CString (lib/string.c) and Bitmap (lib/bitmap.c) are proved against
      it, for a flat memory as well as for memory behind page tables.
    - Interrupt: the interrupt flag of kernel/interrupt.c; DList: kernel/list.c on a
      store of nodes, with [dlist] for the list it represents; Format: lib/vsprintf.c
      and lib/printf.c on lists of characters.
    - Paging: RAM, CR3, the two-level walk of the processor, loads and stores through
      it, and the recursive mapping kernel/memory.c relies on ([pde_ptr], [pte_ptr],
      [vaddr_to_paddr]); an instance of [ByteMem].
    - Idt: descriptors, handlers and controllers of kernel/interrupt.c; panic_spin of
      kernel/assert.c.
    - Memory: the pools, virtual ranges and table entries of kernel/memory.c; Malloc:
      malloc_pages and the invariant of the kernel heap, for heap pages in the page
      table the loader gave to 0xc0000000; Loader: the page tables boot/loader.asm
      leaves, and the heap mem_pool_init makes of them.
    - Kernel: the whole state, one record, with PCBs, locks and queues as typed
      objects by address, and the lenses to every component; the printing of the
      kernel, which goes through the descriptor of the screen.
    - Sched (schedule, thread_block, thread_unblock of kernel/thread.c,
      process_activate of kernel/process.c), Sync (kernel/sync.c, kernel/console.c),
      Alloc (the locked entry points of kernel/memory.c), Thread (the rest of
      kernel/thread.c), Process (kernel/process.c), IoQueue, Keyboard, Timer, Tss and
      Main: the file of the same name in kernel/.
    - Compositions: Spawn follows thread_start through the locked allocator, the new
      page and both lists; AddrSpace is the directory of create_page_dir as the
      processor reads it; Execute follows process_execute from its first page to the
      lists of threads; Boot is main() from what the loader leaves ([loader_state]) to
      its loop ([booted]), and FirstSwitch the clock interrupts after it; UserPage is
      what the process itself runs, start_process with get_a_page, in its own address
      space, on the words of Words, and FirstProcess joins it to start-up; PoolRace
      runs get_a_page in the middle of the kernel's own allocation; Typed is the invariant of C types through every
      function of the kernel up to main.
    - Switching: the code cut at the context switch, and the invariant of the
      scheduler's data that the interleavings share.  LockSys: the lock under
      preemption, a transition system of any number of threads, the clock and the
      scheduler; interrupts arrive between its steps.  Fair bounds how long a thread in
      it waits for the processor.  RingSys: the keyboard's queue between the keyboard
      interrupt and a thread that reads, with the clock and any other threads.

    ** What is proved

    - Concurrency (LockSys): the code of the lock is cut at every point where the clock
      can interrupt it, the cut code is shown to be the code, and in every reachable
      state of any number of threads there is mutual exclusion, no failed assertion, no
      fault and no lost wake-up.
    - The keyboard's queue under interrupts (RingSys): one reader gets what was typed,
      in order, and sleeps only on an empty queue; a second reader can sleep with a
      character in the queue.
    - The whole system (Loader, Execute, Boot, FirstSwitch): from the loader's memory
      main() reaches its loop with every part started and the first process made; the
      32nd clock interrupt switches to that process and faults.
    - Scheduling (Sched, Timer, Fair): schedule is round robin and keeps time slices;
      no ready thread starves.
    - Threads and address spaces (Spawn, AddrSpace): thread_start leaves a thread that
      can run, and changes no other; a process shares the kernel's mappings, has an
      empty lower part, and cannot be switched to, because the descriptor table is
      mapped below.
    - The way to ring 3 (UserPage, FirstProcess): a process that runs start_process in
      its own directory gets its stack page, with every bitmap and table as it should
      be, and leaves the frame that enters the program.  What main() leaves is enough
      for that: with the descriptor table at the address the loader used, the first
      process goes from main() through the scheduler to that frame.
    - Types (Typed): every PCB, lock, ring buffer and TSS keeps its C types, whatever
      the outcome of the code that runs.
    - Memory (Paging, Memory, Malloc): the C expressions for the table entries are what
      the processor reads; mapping a page changes no other mapping; frames and ranges
      handed out are fresh; malloc_pages keeps the invariant of the heap.
    - Data structures: lists, bitmaps and the ring buffer refine their abstract
      counterparts, with frame conditions.
    - Text: printing and reading back numbers, the layout of every integer conversion,
      termination of vsprintf; the string functions against their documentation.
    - Devices: descriptors read back by the processor, what tss_init loads, the keyboard
      against its layout and up to the characters in its buffer.
    - Errors: the theorems of kind error are defects of the code, shown on the
      definitions: the fault at the first switch, the reader that oversleeps, and the
      frame of the kernel pool that is handed out twice (PoolRace), because the two
      pools have a lock each and new page tables take frames from one of them with
      either lock.  The manifest's findings say where.

    ** Bounds and fuel

    Loops over data that the C code does not bound take fuel, one unit per round; the
    theorems give enough: the length of the string or list plus one, the length of the
    bitmap plus one, nine bits of a byte, 33 digits of a number.  vsprintf gets one
    unit per character of its format.  A thread that waits for a lock may find it taken
    again any number of times; [wait_fuel] bounds that number in the sequential model
    (theorems ask for at least one), and LockSys and RingSys have no such bound: there
    a wait is a step that can be taken again.  Boot asks for 64 free pages: of the
    32 that go to the kernel the first process takes 25, and one more when it starts.
    main()'s loop is where the theorem of Boot ends.

    ** Not modelled

    - boot/*.asm: real-mode assembly.  The page tables and the words at 0xd00 and 0xd04
      it leaves are the initial states the theorems allow.
    - kernel/interrupt_handler.asm, kernel/switch.asm: the entry stubs are addresses in
      the descriptor table; a context switch is the change of the running thread, and
      the stack pointer it saves is the parameter [esp_at].  What runs while a thread is
      switched out is the parameter [others]; LockSys and RingSys replace it by the
      other threads.
    - lib/prints.asm: characters and cursor are an output log; that print_char loads a
      segment register, and so needs the descriptor table mapped, is kept.
    - src/test: host programs that try parts of the code.
    - Devices answer nothing except the byte from port 0x60, an argument of the handler.
    - The precision in which the compiler evaluates expressions of type double is a
      parameter ([FpEval]); the arithmetic itself is the standard library's
      specification of binary floating point. *)

From Stdlib Require Import ZArith Lia.
From stdpp Require Import base tactics gmap strings fin_maps functions list.
From Stdlib Require Import String.

#[global] Open Scope Z_scope.

(** ** Machine integers of [include/types.h]

    A [w]-bit integer is a [Z]; the wrap-around of an operation is written out
    with these functions.  [char] is signed on the i386 target of the Makefile. *)

Definition u8 (z : Z) : Z := z mod 2 ^ 8.

Definition u16 (z : Z) : Z := z mod 2 ^ 16.

Definition u32 (z : Z) : Z := z mod 2 ^ 32.

Definition i8 (z : Z) : Z := (z + 2 ^ 7) mod 2 ^ 8 - 2 ^ 7.

Definition i32 (z : Z) : Z := (z + 2 ^ 31) mod 2 ^ 32 - 2 ^ 31.

(** [NULL] of include/types.h *)
Definition NULL : Z := 0.

(** The C truth value of a comparison. *)
Definition c_bool (b : bool) : Z := if b then 1 else 0.

(** ** The program monad

    A C function is a state transformer that returns a result, stops in
    [panic_spin] (a failed [ASSERT] or a [PANIC], [include/assert.h]), touches
    memory that is not there, runs into undefined behaviour of C, or exhausts
    the fuel of a loop.  Every stop keeps the state it stopped in. *)

(** The arguments the [PANIC] macro passes to [panic_spin]. *)
Record panic_site := PanicSite {
  p_file : string;
  p_line : Z;
  p_func : string;
  p_cond : string
}.

Inductive res (S A : Type) : Type :=
  | Ok (a : A) (s : S)
  | Panic (p : panic_site) (s : S)
  | Fault (addr : Z) (s : S)
  | Undef (why : string) (s : S)
  | NoFuel (s : S).

Arguments Ok {S A} a s.
Arguments Panic {S A} p s.
Arguments Fault {S A} addr s.
Arguments Undef {S A} why s.
Arguments NoFuel {S A} s.

Definition prog (S A : Type) : Type := S → res S A.

#[global] Instance prog_ret {S} : MRet (prog S) := λ A a s, Ok a s.

#[global] Instance prog_bind {S} : MBind (prog S) := λ A B f p s,
  match p s with
  | Ok a s' => f a s'
  | Panic x s' => Panic x s'
  | Fault a s' => Fault a s'
  | Undef w s' => Undef w s'
  | NoFuel s' => NoFuel s'
  end.

Section operations.
Context {S : Type}.

Definition get : prog S S := λ s, Ok s s.

Definition gets {A} (f : S → A) : prog S A := λ s, Ok (f s) s.

Definition modify (f : S → S) : prog S unit := λ s, Ok tt (f s).

Definition panic {A} (p : panic_site) : prog S A := λ s, Panic p s.

Definition fault {A} (addr : Z) : prog S A := λ s, Fault addr s.

Definition undef {A} (why : string) : prog S A := λ s, Undef why s.

Definition no_fuel {A} : prog S A := λ s, NoFuel s.

(** The [ASSERT(CONDITION)] macro: [panic_spin] unless the condition holds. *)
Definition c_assert (site : panic_site) (b : bool) : prog S unit :=
  if b then mret tt else panic site.

Definition when (b : bool) (p : prog S unit) : prog S unit :=
  if b then p else mret tt.

(** [n] rounds of a loop body that threads a value: the structural form of
    a counted loop. *)
Fixpoint repeat_prog {A} (n : nat) (body : A → prog S A) (a : A) : prog S A :=
  match n with
  | O => mret a
  | Datatypes.S n' => a' ← body a; repeat_prog n' body a'
  end.
End operations.

(** ** Lenses: a component of a larger state *)

Record lens (K S : Type) := Lens {
  lget : K → S;
  lput : S → K → K;
  lget_lput : ∀ s k, lget (lput s k) = s;
  lput_lget : ∀ k, lput (lget k) k = k;
  lput_lput : ∀ s s' k, lput s (lput s' k) = lput s k
}.
Arguments lget {K S} _ _.
Arguments lput {K S} _ _ _.
Arguments Lens {K S} _ _ _ _ _.

(** A program of the component, run inside the larger state. *)
Definition zoom {K S A} (l : lens K S) (p : prog S A) : prog K A := λ k,
  match p (lget l k) with
  | Ok a s => Ok a (lput l s k)
  | Panic x s => Panic x (lput l s k)
  | Fault a s => Fault a (lput l s k)
  | Undef w s => Undef w (lput l s k)
  | NoFuel s => NoFuel (lput l s k)
  end.

(** ** Weakest preconditions

    [wpp p Q E s]: run from [s], [p] ends with a value and a state in [Q], or
    panics at a site and in a state allowed by [E]; it never faults, never meets
    undefined behaviour and never runs out of fuel.  [wp p Q s] also rules panics
    out: it is total correctness. *)

Definition wpp {S A} (p : prog S A) (Q : A → S → Prop)
    (E : panic_site → S → Prop) (s : S) : Prop :=
  match p s with
  | Ok a s' => Q a s'
  | Panic x s' => E x s'
  | _ => False
  end.

Definition wp {S A} (p : prog S A) (Q : A → S → Prop) (s : S) : Prop :=
  wpp p Q (λ _ _, False) s.

Section wp_rules.
Context {S : Type}.
Implicit Types E : panic_site → S → Prop.

Lemma bind_unfold {A B} (p : prog S A) (f : A → prog S B) s :
  (p ≫= f) s =
    match p s with
    | Ok a s' => f a s'
    | Panic x s' => Panic x s'
    | Fault a s' => Fault a s'
    | Undef w s' => Undef w s'
    | NoFuel s' => NoFuel s'
    end.
Proof. reflexivity. Qed.

Lemma bind_Ok {A B} (p : prog S A) (f : A → prog S B) s a s' :
  p s = Ok a s' → (p ≫= f) s = f a s'.
Proof. intros H. rewrite bind_unfold, H. reflexivity. Qed.

Lemma bind_Panic {A B} (p : prog S A) (f : A → prog S B) s x s' :
  p s = Panic x s' → (p ≫= f) s = Panic x s'.
Proof. intros H. rewrite bind_unfold, H. reflexivity. Qed.

Lemma bind_Fault {A B} (p : prog S A) (f : A → prog S B) s a s' :
  p s = Fault a s' → (p ≫= f) s = Fault a s'.
Proof. intros H. rewrite bind_unfold, H. reflexivity. Qed.

Lemma wpp_ret {A} (a : A) Q E s : Q a s → wpp (mret a) Q E s.
Proof. done. Qed.

Lemma wpp_bind {A B} (p : prog S A) (f : A → prog S B) Q E s :
  wpp p (λ a s', wpp (f a) Q E s') E s → wpp (p ≫= f) Q E s.
Proof. unfold wpp. rewrite bind_unfold. by destruct (p s). Qed.

Lemma wpp_mono {A} (p : prog S A) (Q Q' : A → S → Prop) (E E' : panic_site → S → Prop) s :
  wpp p Q E s → (∀ a s', Q a s' → Q' a s') → (∀ x s', E x s' → E' x s') →
  wpp p Q' E' s.
Proof. unfold wpp. destruct (p s); naive_solver. Qed.

Lemma wp_mono {A} (p : prog S A) (Q Q' : A → S → Prop) s :
  wp p Q s → (∀ a s', Q a s' → Q' a s') → wp p Q' s.
Proof. intros H HQ. eapply wpp_mono; eauto. Qed.

Lemma wp_wpp {A} (p : prog S A) Q E s : wp p Q s → wpp p Q E s.
Proof. intros H. eapply wpp_mono; [exact H | done | done]. Qed.

Lemma wp_bind {A B} (p : prog S A) (f : A → prog S B) Q s :
  wp p (λ a s', wp (f a) Q s') s → wp (p ≫= f) Q s.
Proof. apply wpp_bind. Qed.

Lemma wp_Ok {A} (p : prog S A) Q s : wp p Q s ↔ ∃ a s', p s = Ok a s' ∧ Q a s'.
Proof.
  unfold wp, wpp. split.
  - destruct (p s); naive_solver.
  - intros (a & s' & -> & HQ). done.
Qed.

Lemma wpp_assert site b Q E s :
  (b = true → Q tt s) → (b = false → E site s) → wpp (c_assert site b) Q E s.
Proof. destruct b; unfold wpp; naive_solver. Qed.

Lemma wp_assert site (b : bool) (Q : unit → S → Prop) s :
  b = true → Q tt s → wp (c_assert site b) Q s.
Proof. intros -> ?. done. Qed.

(** A first operation whose result is known. *)
Lemma wpp_step {A B} (p : prog S A) (f : A → prog S B) s a s' Q E :
  p s = Ok a s' → wpp (f a) Q E s' → wpp (p ≫= f) Q E s.
Proof. intros Hp Hf. unfold wpp. by rewrite (bind_Ok _ _ _ _ _ Hp). Qed.

Lemma wpp_eq {A} (p q : prog S A) s s' Q E : p s = q s' → wpp q Q E s' → wpp p Q E s.
Proof. intros Hp Hf. unfold wpp. by rewrite Hp. Qed.

Lemma bind_assert {B} site (f : unit → prog S B) s :
  (c_assert site true ≫= f) s = f tt s.
Proof. reflexivity. Qed.

Lemma bind_gets {A B} (g : S → A) (f : A → prog S B) s :
  (gets g ≫= f) s = f (g s) s.
Proof. reflexivity. Qed.

Lemma bind_modify {B} (g : S → S) (f : unit → prog S B) s :
  (modify g ≫= f) s = f tt (g s).
Proof. reflexivity. Qed.

Lemma bind_ret {A B} (a : A) (f : A → prog S B) s : (mret a ≫= f) s = f a s.
Proof. reflexivity. Qed.

Lemma bind_assoc {A B C} (p : prog S A) (f : A → prog S B) (g : B → prog S C) s :
  ((p ≫= f) ≫= g) s = (p ≫= λ a, f a ≫= g) s.
Proof. rewrite !bind_unfold. by destruct (p s). Qed.
End wp_rules.

(** Programs are compared pointwise; [bind] respects that. *)
#[global] Instance prog_equiv {S A} : Equiv (prog S A) := λ p q, ∀ s, p s = q s.

#[global] Instance prog_equivalence {S A} : Equivalence (≡@{prog S A}).
Proof. split; intros ?*; unfold equiv, prog_equiv; congruence. Qed.

#[global] Instance bind_proper {S A B} :
  Proper (pointwise_relation A (≡) ==> (≡@{prog S A}) ==> (≡@{prog S B})) mbind.
Proof.
  intros f g Hfg p q Hpq s. rewrite !bind_unfold, (Hpq s).
  destruct (q s); [apply Hfg | done..].
Qed.

Lemma wpp_zoom {K S A} (l : lens K S) (p : prog S A) Q E k :
  wpp p (λ a s, Q a (lput l s k)) (λ x s, E x (lput l s k)) (lget l k) →
  wpp (zoom l p) Q E k.
Proof. unfold wpp, zoom. by destruct (p (lget l k)). Qed.

Lemma wp_zoom {K S A} (l : lens K S) (p : prog S A) Q k :
  wp p (λ a s, Q a (lput l s k)) (lget l k) → wp (zoom l p) Q k.
Proof. exact (wpp_zoom l p Q (λ _ _, False) k). Qed.

Lemma zoom_Ok {K S A} (l : lens K S) (p : prog S A) k a s :
  p (lget l k) = Ok a s → zoom l p k = Ok a (lput l s k).
Proof. unfold zoom. by intros ->. Qed.

Lemma zoom_bind {K S A B} (l : lens K S) (p : prog S A) (f : A → prog S B) :
  zoom l (p ≫= f) ≡ (zoom l p ≫= λ a, zoom l (f a)).
Proof.
  intros k. unfold zoom. rewrite !bind_unfold.
  destruct (p (lget l k)); [|done..]. rewrite lget_lput.
  destruct (f a s); by rewrite lput_lput.
Qed.

(** ** Tactics *)

(** One step of symbolic execution: rewrite the first operation of a bind. *)
Ltac pstep := first
  [ rewrite bind_ret | rewrite bind_gets | rewrite bind_modify
  | rewrite bind_assert | rewrite bind_assoc
  | erewrite bind_Ok; [|first [eassumption | reflexivity]] ]; cbv beta.

Ltac psteps := repeat pstep.

(** Turn boolean comparisons on [Z] into facts [lia] reads. *)
Ltac zb := repeat match goal with
  | H : (_ =? _) = true |- _ => apply Z.eqb_eq in H
  | H : (_ =? _) = false |- _ => apply Z.eqb_neq in H
  | H : (_ <? _) = true |- _ => apply Z.ltb_lt in H
  | H : (_ <? _) = false |- _ => apply Z.ltb_ge in H
  | H : (_ <=? _) = true |- _ => apply Z.leb_le in H
  | H : (_ <=? _) = false |- _ => apply Z.leb_gt in H
  | H : (_ && _)%bool = true |- _ => apply andb_prop in H as [? ?]
  | H : negb _ = true |- _ => apply negb_true_iff in H
  | H : negb _ = false |- _ => apply negb_false_iff in H
  end.

(** A decidable fact about concrete data, by computation. *)
Ltac decided := apply (bool_decide_unpack _); vm_compute; exact I.

(** [lia] with division and remainder by constants. *)
Ltac zlia := Z.div_mod_to_equations; lia.

(** ** Lemmas on machine integers *)

Section machine_integers.
Lemma u8_range z : 0 ≤ u8 z < 256.
Proof. apply Z.mod_pos_bound. lia. Qed.

Lemma u32_range z : 0 ≤ u32 z < 2 ^ 32.
Proof. apply Z.mod_pos_bound. lia. Qed.

Lemma u8_small z : 0 ≤ z < 256 → u8 z = z.
Proof. apply Z.mod_small. Qed.

Lemma u16_small z : 0 ≤ z < 65536 → u16 z = z.
Proof. apply Z.mod_small. Qed.

Lemma u32_small z : 0 ≤ z < 2 ^ 32 → u32 z = z.
Proof. apply Z.mod_small. Qed.

Lemma i8_range z : -128 ≤ i8 z < 128.
Proof. unfold i8. pose proof (Z.mod_pos_bound (z + 2 ^ 7) (2 ^ 8)). lia. Qed.

Lemma i32_range z : - 2 ^ 31 ≤ i32 z < 2 ^ 31.
Proof. unfold i32. pose proof (Z.mod_pos_bound (z + 2 ^ 31) (2 ^ 32)). lia. Qed.

(** Casting to [unsigned] and back keeps the [int]. *)
Lemma i32_u32 z : i32 (u32 z) = i32 z.
Proof. unfold i32, u32. zlia. Qed.

Lemma u32_i32 z : u32 (i32 z) = u32 z.
Proof. unfold i32, u32. zlia. Qed.

Lemma i8_small z : -128 ≤ z < 128 → i8 z = z.
Proof. intros. unfold i8. rewrite Z.mod_small; lia. Qed.

Lemma i32_small z : - 2 ^ 31 ≤ z < 2 ^ 31 → i32 z = z.
Proof. intros. unfold i32. rewrite Z.mod_small; lia. Qed.

Lemma u8_i8 z : u8 (i8 z) = u8 z.
Proof. unfold u8, i8. zlia. Qed.

Lemma i8_u8 z : i8 (u8 z) = i8 z.
Proof. unfold u8, i8. zlia. Qed.

(** Two bytes read as [char] are equal exactly when the bytes are. *)
Lemma i8_inj a b : 0 ≤ a < 256 → 0 ≤ b < 256 → i8 a = i8 b → a = b.
Proof.
  intros Ha Hb H.
  rewrite <- (u8_small a), <- (u8_small b) by done.
  by rewrite <- (u8_i8 a), H, u8_i8.
Qed.

Lemma i8_eqb a b : 0 ≤ a < 256 → 0 ≤ b < 256 → (i8 a =? i8 b) = (a =? b).
Proof.
  intros Ha Hb. destruct (Z.eqb_spec a b) as [->|Hne].
  - apply Z.eqb_refl.
  - apply Z.eqb_neq. intros H. by apply i8_inj in H.
Qed.

(** A byte read as [char] is the terminator exactly when it is zero. *)
Lemma i8_zero a : 0 ≤ a < 256 → (i8 a =? 0) = (a =? 0).
Proof. intros. apply (i8_eqb a 0); lia. Qed.

Lemma u32_idemp z : u32 (u32 z) = u32 z.
Proof. apply Z.mod_mod. lia. Qed.
End machine_integers.

(** ** Lemmas on bits *)

Section bits.
Lemma testbit_above n k z : 0 ≤ z < 2 ^ n → n ≤ k → Z.testbit z k = false.
Proof.
  intros Hz Hk. destruct (decide (z = 0)) as [->|Hne]; [apply Z.bits_0|].
  apply Z.bits_above_log2; [lia|].
  apply Z.lt_le_trans with n; [|done]. apply Z.log2_lt_pow2; lia.
Qed.

Lemma land_pow2 z k : 0 ≤ k → Z.land z (2 ^ k) = if Z.testbit z k then 2 ^ k else 0.
Proof.
  intros Hk. apply Z.bits_inj'. intros n Hn.
  rewrite Z.land_spec, Z.pow2_bits_eqb by done.
  destruct (Z.eqb_spec k n) as [<-|Hne].
  - rewrite andb_true_r. destruct (Z.testbit z k) eqn:E.
    + by rewrite Z.pow2_bits_true.
    + by rewrite Z.bits_0.
  - rewrite andb_false_r. destruct (Z.testbit z k).
    + rewrite Z.pow2_bits_false; congruence.
    + by rewrite Z.bits_0.
Qed.

Lemma lor_range a b n : 0 ≤ n → 0 ≤ a < 2 ^ n → 0 ≤ b < 2 ^ n → 0 ≤ Z.lor a b < 2 ^ n.
Proof.
  intros Hn Ha Hb. assert (0 ≤ Z.lor a b) by (apply Z.lor_nonneg; lia).
  split; [done|]. destruct (decide (Z.lor a b = 0)) as [->|Hne]; [lia|].
  apply Z.log2_lt_pow2; [lia|].
  destruct (Z.lt_ge_cases (Z.log2 (Z.lor a b)) n) as [?|Hge]; [done|].
  pose proof (Z.bit_log2 (Z.lor a b) ltac:(lia)) as Hbit.
  by rewrite Z.lor_spec, !(testbit_above n) in Hbit.
Qed.

Lemma land_range_r a b n : 0 ≤ b < 2 ^ n → 0 ≤ Z.land a b < 2 ^ n.
Proof.
  intros Hb. assert (0 ≤ Z.land a b) by (apply Z.land_nonneg; lia).
  split; [done|]. destruct (decide (Z.land a b = 0)) as [->|Hne]; [lia|].
  apply Z.log2_lt_pow2; [lia|].
  destruct (Z.lt_ge_cases (Z.log2 (Z.land a b)) n) as [?|Hge]; [done|].
  pose proof (Z.bit_log2 (Z.land a b) ltac:(lia)) as Hbit.
  by rewrite Z.land_spec, (testbit_above n (Z.log2 (Z.land a b)) b), andb_false_r in Hbit.
Qed.

Lemma land_shiftl_low a b k : 0 ≤ k → 0 ≤ b < 2 ^ k → Z.land (Z.shiftl a k) b = 0.
Proof.
  intros Hk Hb. apply Z.bits_inj'. intros n Hn. rewrite Z.land_spec, Z.bits_0.
  destruct (Z.lt_ge_cases n k).
  - by rewrite Z.shiftl_spec_low.
  - by rewrite (testbit_above k n b), andb_false_r.
Qed.

(** Bits below a shifted value: or is addition. *)
Lemma lor_shiftl_low a b k :
  0 ≤ k → 0 ≤ b < 2 ^ k → Z.lor (Z.shiftl a k) b = a * 2 ^ k + b.
Proof.
  intros Hk Hb. pose proof (Z.add_lor_land (Z.shiftl a k) b) as Hadd.
  rewrite land_shiftl_low, Z.shiftl_mul_pow2 in Hadd by done.
  rewrite Z.shiftl_mul_pow2 by done. lia.
Qed.

(** An aligned value carries flag bits by addition. *)
Lemma lor_mul_low a b k :
  0 ≤ k → 0 ≤ b < 2 ^ k → Z.lor (a * 2 ^ k) b = a * 2 ^ k + b.
Proof. intros. rewrite <- (Z.shiftl_mul_pow2 a k) at 1 by done. by apply lor_shiftl_low. Qed.

(** Masking the low [k] bits away. *)
Lemma land_high z k n :
  0 ≤ k ≤ n → 0 ≤ z < 2 ^ n → Z.land z (2 ^ n - 2 ^ k) = z / 2 ^ k * 2 ^ k.
Proof.
  intros Hk Hz. replace (2 ^ n - 2 ^ k) with (Z.shiftl (Z.ones (n - k)) k).
  2: { rewrite Z.shiftl_mul_pow2, Z.ones_equiv by lia.
       replace (2 ^ n) with (2 ^ (n - k) * 2 ^ k) by (rewrite <- Z.pow_add_r by lia; f_equal; lia).
       lia. }
  rewrite <- Z.shiftl_mul_pow2, <- Z.shiftr_div_pow2 by lia.
  apply Z.bits_inj'. intros i Hi. rewrite Z.land_spec.
  destruct (Z.lt_ge_cases i k).
  - rewrite !Z.shiftl_spec_low by lia. apply andb_false_r.
  - rewrite !Z.shiftl_spec, Z.shiftr_spec by lia. replace (i - k + k) with i by lia.
    destruct (Z.lt_ge_cases i n).
    + by rewrite Z.ones_spec_low, andb_true_r by lia.
    + by rewrite (testbit_above n i z).
Qed.

Lemma testbit_zero_iff z : (∀ k, 0 ≤ k → Z.testbit z k = false) → z = 0.
Proof. intros H. apply Z.bits_inj'. intros n Hn. by rewrite H, Z.bits_0. Qed.
End bits.

#[global] Arguments Z.eqb : simpl never.
#[global] Arguments Z.ltb : simpl never.
#[global] Arguments Z.leb : simpl never.
#[global] Arguments u8 : simpl never.
#[global] Arguments u16 : simpl never.
#[global] Arguments u32 : simpl never.
#[global] Arguments i8 : simpl never.
#[global] Arguments i32 : simpl never.

(** ** Reflexive transitive closure of a step relation *)

Inductive star {A : Type} (R : A → A → Prop) : A → A → Prop :=
  | star_nil a : star R a a
  | star_cons a b c : R a b → star R b c → star R a c.

Lemma star_invariant {A} (R : A → A → Prop) (P : A → Prop) :
  (∀ a b, P a → R a b → P b) → ∀ a b, star R a b → P a → P b.
Proof. intros Hstep a b. induction 1; eauto. Qed.

Lemma star_snoc {A} (R : A → A → Prop) a b c : star R a b → R b c → star R a c.
Proof. induction 1; eauto using star. Qed.

Create HintDb lizi.
Create Rewrite HintDb lizi.
#[export] Hint Resolve u8_range u32_range i8_range wpp_ret : lizi.
#[export] Hint Rewrite u8_i8 i8_u8 u32_idemp : lizi.
