(* ===== verification/ByteMem.v ===== *)
(** * Byte-addressed memory

    The interface the byte-level code of the kernel (string.c, bitmap.c) is
    modelled and verified against: loads and stores of one byte, and the laws a
    memory promises for the region a function owns.  The flat memory at the end
    of the file is one implementation; the paged memory of Paging.v, where every
    access goes through the page tables, is the other. *)

From Stdlib Require Import ZArith Lia.
From stdpp Require Import base tactics gmap strings fin_maps functions list.
From S2P Require Import Prelude.

(** ** The interface *)

Class ByteMem (M : Type) := {
  mload : M → Z → option Z;
  mstore : M → Z → Z → option M
}.

(** [owns m D]: every address of [D] is backed by memory of its own, so that
    loads and stores inside [D] behave like an array.  [changes D m m']: the
    memories differ at most in the cells behind [D]. *)
Class ByteMemOk (M : Type) `{ByteMem M} := {
  owns : M → (Z → Prop) → Prop;
  changes : (Z → Prop) → M → M → Prop;
  owns_mono m (D D' : Z → Prop) : owns m D → (∀ a, D' a → D a) → owns m D';
  owns_load m (D : Z → Prop) a :
    owns m D → D a → ∃ b, mload m a = Some b ∧ 0 ≤ b < 256;
  owns_store m (D : Z → Prop) a b :
    owns m D → D a → 0 ≤ b < 256 →
    ∃ m', mstore m a b = Some m' ∧ owns m' D ∧ changes D m m' ∧
      ∀ a', D a' → mload m' a' = if decide (a' = a) then Some b else mload m a';
  changes_refl D m : changes D m m;
  changes_trans D m1 m2 m3 : changes D m1 m2 → changes D m2 m3 → changes D m1 m3
}.

Section access.
Context {M : Type} `{ByteMem M}.

(** [*(u8 * )a] *)
Definition load8 (a : Z) : prog M Z := λ m,
  match mload m a with Some b => Ok b m | None => Fault a m end.

(** [*(u8 * )a = v]: the low byte of [v] is stored. *)
Definition store8 (a v : Z) : prog M unit := λ m,
  match mstore m a (u8 v) with Some m' => Ok tt m' | None => Fault a m end.

(** [*(char * )a], sign-extended *)
Definition load_char (a : Z) : prog M Z := b ← load8 a; mret (i8 b).
End access.

(** ** Contents of an owned region

    [holds m D f]: the region [D] is owned and its bytes are given by [f].
    Proofs about byte-level code compute with [f]. *)

Definition region (a n : Z) : Z → Prop := λ x, a ≤ x < a + n.

#[global] Instance region_dec a n x : Decision (region a n x).
Proof. unfold region. apply _. Defined.

(** [f] with the bytes [bs] written at [a]. *)
Definition blit (f : Z → Z) (a : Z) (bs : list Z) : Z → Z := λ x,
  if decide (region a (Z.of_nat (length bs)) x)
  then default 0 (bs !! Z.to_nat (x - a)) else f x.

(** The [n] bytes at [a]. *)
Definition peek (f : Z → Z) (a : Z) (n : nat) : list Z :=
  (λ i, f (a + Z.of_nat i)) <$> seq 0 n.

Section holds.
Context {M : Type} `{ByteMemOk M}.
Implicit Types (D : Z → Prop) (f : Z → Z).

Definition holds (m : M) D f : Prop :=
  owns m D ∧ ∀ a, D a → mload m a = Some (f a).

Lemma holds_byte m D f a : holds m D f → D a → 0 ≤ f a < 256.
Proof.
  intros [Ho Hf] Ha. destruct (owns_load m D a Ho Ha) as (b & Hb & ?).
  rewrite (Hf a Ha) in Hb. by simplify_eq.
Qed.

Lemma holds_ext m D f g : holds m D f → (∀ a, D a → f a = g a) → holds m D g.
Proof. intros [Ho Hf] Hfg. split; [done|]. intros a Ha. by rewrite Hf, Hfg. Qed.

Lemma holds_mono m D D' f : holds m D f → (∀ a, D' a → D a) → holds m D' f.
Proof. intros [Ho Hf] Hsub. split; [by eapply owns_mono | auto]. Qed.

Lemma holds_load m D f a : holds m D f → D a → load8 a m = Ok (f a) m.
Proof. intros [Ho Hf] Ha. unfold load8. by rewrite Hf. Qed.

Lemma holds_load_char m D f a : holds m D f → D a → load_char a m = Ok (i8 (f a)) m.
Proof. intros Hm Ha. unfold load_char. by rewrite (bind_Ok _ _ _ _ _ (holds_load _ _ _ _ Hm Ha)). Qed.

Lemma holds_store m D f a v :
  holds m D f → D a →
  ∃ m', store8 a v m = Ok tt m' ∧ holds m' D (<[a:=u8 v]> f) ∧ changes D m m'.
Proof.
  intros [Ho Hf] Ha.
  destruct (owns_store m D a (u8 v) Ho Ha (u8_range v)) as (m' & Hst & Ho' & Hch & Hld).
  exists m'. unfold store8. rewrite Hst. split_and!; [done| |done].
  split; [done|]. intros a' Ha'. rewrite Hld by done. case_decide as Heq.
  - subst. by rewrite fn_lookup_insert.
  - rewrite fn_lookup_insert_ne by congruence. by apply Hf.
Qed.

Lemma wp_load8 m D f a (Q : Z → M → Prop) :
  holds m D f → D a → Q (f a) m → wp (load8 a) Q m.
Proof. intros Hm Ha HQ. unfold wp, wpp. by rewrite (holds_load _ _ _ _ Hm Ha). Qed.

Lemma wp_load_char m D f a (Q : Z → M → Prop) :
  holds m D f → D a → Q (i8 (f a)) m → wp (load_char a) Q m.
Proof. intros Hm Ha HQ. unfold wp, wpp. by rewrite (holds_load_char _ _ _ _ Hm Ha). Qed.

Lemma wp_store8 m D f a v (Q : unit → M → Prop) :
  holds m D f → D a →
  (∀ m', holds m' D (<[a:=u8 v]> f) → changes D m m' → Q tt m') → wp (store8 a v) Q m.
Proof.
  intros Hm Ha HQ. destruct (holds_store m D f a v Hm Ha) as (m' & Hst & ? & ?).
  unfold wp, wpp. rewrite Hst. auto.
Qed.
End holds.

(** ** Lemmas on [blit] and [peek] *)

Section blit.
Implicit Types (f : Z → Z) (bs : list Z).

Lemma blit_outside f a bs x :
  ¬ region a (Z.of_nat (length bs)) x → blit f a bs x = f x.
Proof. intros. unfold blit. by rewrite decide_False. Qed.

Lemma blit_inside f a bs (i : nat) b :
  bs !! i = Some b → blit f a bs (a + Z.of_nat i) = b.
Proof.
  intros Hi. pose proof (lookup_lt_Some _ _ _ Hi). unfold blit, region.
  rewrite decide_True by lia. replace (Z.to_nat (a + Z.of_nat i - a)) with i by lia.
  by rewrite Hi.
Qed.

Lemma blit_replicate f a n c x :
  region a n x → blit f a (replicate (Z.to_nat n) c) x = c.
Proof.
  unfold region. intros Hx. replace x with (a + Z.of_nat (Z.to_nat (x - a))) by lia.
  apply blit_inside, lookup_replicate_2. lia.
Qed.

Lemma blit_nil f a x : blit f a [] x = f x.
Proof. apply blit_outside. unfold region. simpl. lia. Qed.

(** Writing a byte and then the rest is writing the whole list. *)
Lemma blit_cons f a b bs x : blit (<[a:=b]> f) (a + 1) bs x = blit f a (b :: bs) x.
Proof.
  destruct (decide (x = a)) as [->|Hne].
  - rewrite blit_outside by (unfold region; lia). rewrite fn_lookup_insert.
    pose proof (blit_inside f a (b :: bs) 0 b eq_refl) as Hb.
    by rewrite Z.add_0_r in Hb.
  - destruct (decide (region (a + 1) (Z.of_nat (length bs)) x)) as [Hin|Hout].
    + unfold blit, region in *. rewrite !decide_True by (simpl; lia).
      replace (Z.to_nat (x - a)) with (S (Z.to_nat (x - (a + 1)))) by lia. done.
    + rewrite blit_outside by done. rewrite fn_lookup_insert_ne by congruence.
      rewrite blit_outside; [done|]. unfold region in *. simpl. lia.
Qed.

Lemma blit_app f a bs1 bs2 x :
  blit (blit f a bs1) (a + Z.of_nat (length bs1)) bs2 x = blit f a (bs1 ++ bs2) x.
Proof.
  unfold blit, region. rewrite length_app.
  destruct (decide (a + Z.of_nat (length bs1) ≤ x < _)) as [Hr|Hr].
  { rewrite decide_True by lia. rewrite lookup_app_r by lia. f_equal. f_equal. lia. }
  destruct (decide (a ≤ x < a + Z.of_nat (length bs1))) as [Hl|Hl].
  - rewrite decide_True by lia. by rewrite lookup_app_l by lia.
  - by rewrite decide_False by lia.
Qed.

Lemma length_peek f a n : length (peek f a n) = n.
Proof. unfold peek. by rewrite length_fmap, length_seq. Qed.

Lemma peek_lookup f a n i : (i < n)%nat → peek f a n !! i = Some (f (a + Z.of_nat i)).
Proof.
  intros Hi. unfold peek. rewrite list_lookup_fmap, lookup_seq_lt by done. done.
Qed.

Lemma peek_S f a n : peek f a (S n) = f a :: peek f (a + 1) n.
Proof.
  unfold peek. simpl. rewrite Z.add_0_r. f_equal. rewrite <- fmap_S_seq, <- list_fmap_compose.
  apply list_fmap_ext. intros i k _. simpl. f_equal. lia.
Qed.

Lemma peek_ext f g a n :
  (∀ x, region a (Z.of_nat n) x → f x = g x) → peek f a n = peek g a n.
Proof.
  intros Hfg. apply list_fmap_ext. intros i k Hk. apply lookup_seq in Hk as [-> Hi].
  apply Hfg. unfold region. lia.
Qed.

Lemma peek_blit f a bs : peek (blit f a bs) a (length bs) = bs.
Proof.
  apply list_eq. intros i. destruct (decide (i < length bs)%nat) as [Hi|Hi].
  - destruct (lookup_lt_is_Some_2 bs i Hi) as [b Hb].
    rewrite peek_lookup by done. by rewrite (blit_inside _ _ _ _ _ Hb), Hb.
  - rewrite !lookup_ge_None_2; rewrite ?length_peek; [done|lia|lia].
Qed.
End blit.

(** ** The flat memory *)

#[global] Instance flat_bytemem : ByteMem (gmap Z Z) := {
  mload m a := m !! a;
  mstore m a b := match m !! a with Some _ => Some (<[a:=b]> m) | None => None end
}.

#[global] Instance flat_bytemem_ok : ByteMemOk (gmap Z Z).
Proof.
  refine {|
    owns (m : gmap Z Z) D := ∀ a, D a → ∃ b, m !! a = Some b ∧ 0 ≤ b < 256;
    changes D (m m' : gmap Z Z) := ∀ a, ¬ D a → m' !! a = m !! a
  |}.
  - intros m D D' Hm Hsub a Ha. auto.
  - intros m D a Hm Ha. exact (Hm a Ha).
  - intros m D a b Hm Ha Hb. simpl. destruct (Hm a Ha) as (b0 & Hb0 & ?). rewrite Hb0.
    eexists. split_and!; [done| | |].
    + intros a' Ha'. destruct (decide (a' = a)) as [->|?].
      * rewrite lookup_insert_eq. eauto.
      * rewrite lookup_insert_ne by congruence. auto.
    + intros a' Ha'. apply lookup_insert_ne. congruence.
    + intros a' _. rewrite lookup_insert. repeat case_decide; congruence.
  - done.
  - intros D m1 m2 m3 H12 H23 a Ha. by rewrite H23, H12.
Defined.

(** A concrete flat memory: the bytes [bs] at address [a]. *)
Fixpoint flat_of (a : Z) (bs : list Z) : gmap Z Z :=
  match bs with [] => ∅ | b :: bs' => <[a:=b]> (flat_of (a + 1) bs') end.

Lemma flat_of_lookup a bs x :
  flat_of a bs !! x = if decide (a ≤ x) then bs !! Z.to_nat (x - a) else None.
Proof.
  revert a. induction bs as [|b bs IH]; intros a; simpl.
  - rewrite lookup_empty. by case_decide.
  - rewrite lookup_insert. case_decide as Hx.
    + subst. rewrite decide_True by lia. by rewrite Z.sub_diag.
    + rewrite IH. repeat case_decide; try lia; [|done].
      replace (Z.to_nat (x - a)) with (S (Z.to_nat (x - (a + 1)))) by lia. done.
Qed.

Lemma flat_of_holds a bs :
  Forall (λ b, 0 ≤ b < 256) bs →
  holds (flat_of a bs) (region a (Z.of_nat (length bs))) (blit (λ _, 0) a bs).
Proof.
  intros Hbs. split.
  - intros x Hx. unfold region in Hx. simpl. rewrite flat_of_lookup, decide_True by lia.
    destruct (lookup_lt_is_Some_2 bs (Z.to_nat (x - a))) as [b Hb]; [lia|].
    rewrite Hb. exists b. split; [done|]. exact (Forall_lookup_1 _ _ _ _ Hbs Hb).
  - intros x Hx. simpl. rewrite flat_of_lookup. unfold blit, region in *.
    rewrite !decide_True by lia.
    by destruct (lookup_lt_is_Some_2 bs (Z.to_nat (x - a)) ltac:(lia)) as [b ->].
Qed.

#[export] Hint Resolve changes_refl holds_byte : lizi.
