(* ===== verification/CString.v ===== *)
(** * lib/string.c: C strings and memory blocks

    Every function of lib/string.c over the memory interface of ByteMem.v, and
    what it computes.  [char] is signed, so a byte is read with [load_char] and
    compared as a signed value.  A loop without a bound of its own takes fuel,
    one unit per iteration; the theorems give enough of it.  Pointers are
    integers, [NULL] is 0. *)

From Stdlib Require Import ZArith Lia.
From stdpp Require Import base tactics gmap strings fin_maps functions list.
From S2P Require Import Prelude ByteMem.

Definition EOS : Z := 0.

(** [IS_SEPARATOR(c)]: '/' or '\' *)
Definition IS_SEPARATOR (c : Z) : bool := (c =? 47) || (c =? 92).

Section string_c.
Context {M : Type} `{ByteMem M}.

(** [*ptr++ = *src; if ( *src++ == EOS) return]: the byte is read again after
    the store. *)
Fixpoint strcpy_loop (fuel : nat) (ptr src : Z) : prog M unit :=
  match fuel with
  | O => no_fuel
  | S fuel' =>
      c ← load_char src;
      _ ← store8 ptr c;
      c' ← load_char src;
      if c' =? EOS then mret tt else strcpy_loop fuel' (ptr + 1) (src + 1)
  end.

Definition strcpy (fuel : nat) (dest src : Z) : prog M Z :=
  _ ← strcpy_loop fuel dest src; mret dest.

(** [true] when the loop returned from the function. *)
Fixpoint strncpy_loop (count : nat) (ptr src : Z) : prog M bool :=
  match count with
  | O => mret false
  | S count' =>
      c ← load_char src;
      _ ← store8 ptr c;
      c' ← load_char src;
      if c' =? EOS then mret true else strncpy_loop count' (ptr + 1) (src + 1)
  end.

Definition strncpy (dest src count : Z) : prog M Z :=
  returned ← strncpy_loop (Z.to_nat count) dest src;
  if (returned : bool) then mret dest else
  _ ← store8 (u32 (dest + u32 (count - 1))) EOS;
  mret dest.

(** [while ( *ptr != EOS) ptr++]: the final [ptr]. *)
Fixpoint scan_eos (fuel : nat) (ptr : Z) : prog M Z :=
  match fuel with
  | O => no_fuel
  | S fuel' => c ← load_char ptr; if c =? EOS then mret ptr else scan_eos fuel' (ptr + 1)
  end.

Definition strcat (fuel : nat) (dest src : Z) : prog M Z :=
  ptr ← scan_eos fuel dest;
  _ ← strcpy_loop fuel ptr src;
  mret dest.

(** [while ( *ptr != EOS && maxlen--) ptr++] *)
Fixpoint strnlen_loop (maxlen : nat) (ptr : Z) : prog M Z :=
  c ← load_char ptr;
  if c =? EOS then mret ptr else
  match maxlen with O => mret ptr | S maxlen' => strnlen_loop maxlen' (ptr + 1) end.

Definition strnlen (str maxlen : Z) : prog M Z :=
  ptr ← strnlen_loop (Z.to_nat maxlen) str; mret (u32 (ptr - str)).

Definition strlen (fuel : nat) (str : Z) : prog M Z :=
  ptr ← scan_eos fuel str; mret (u32 (ptr - str)).

(** [*lhs < *rhs ? -1 : *lhs > *rhs] *)
Definition char_order (l r : Z) : Z := if l <? r then -1 else c_bool (r <? l).

Fixpoint strcmp (fuel : nat) (lhs rhs : Z) : prog M Z :=
  match fuel with
  | O => no_fuel
  | S fuel' =>
      l ← load_char lhs;
      r ← load_char rhs;
      if ((l =? r) && negb (l =? EOS) && negb (r =? EOS))%bool
      then strcmp fuel' (lhs + 1) (rhs + 1)
      else mret (char_order l r)
  end.

Fixpoint strchr (fuel : nat) (ptr ch : Z) : prog M Z :=
  match fuel with
  | O => no_fuel
  | S fuel' =>
      c ← load_char ptr;
      if c =? ch then mret ptr else
      if c =? EOS then mret NULL else strchr fuel' (ptr + 1) ch
  end.

Fixpoint strrchr_loop (fuel : nat) (last ptr ch : Z) : prog M Z :=
  match fuel with
  | O => no_fuel
  | S fuel' =>
      c ← load_char ptr;
      let last := if c =? ch then ptr else last in
      if c =? EOS then mret last else strrchr_loop fuel' last (ptr + 1) ch
  end.

Definition strrchr (fuel : nat) (str ch : Z) : prog M Z := strrchr_loop fuel NULL str ch.

Fixpoint memcmp_loop (count : nat) (lptr rptr : Z) : prog M Z :=
  match count with
  | O => mret 0
  | S count' =>
      l ← load_char lptr;
      r ← load_char rptr;
      if l =? r then memcmp_loop count' (lptr + 1) (rptr + 1) else mret (char_order l r)
  end.

Definition memcmp (lhs rhs count : Z) : prog M Z := memcmp_loop (Z.to_nat count) lhs rhs.

Fixpoint memset_loop (count : nat) (ptr ch : Z) : prog M unit :=
  match count with
  | O => mret tt
  | S count' => _ ← store8 ptr ch; memset_loop count' (ptr + 1) ch
  end.

Definition memset (dest ch count : Z) : prog M Z :=
  _ ← memset_loop (Z.to_nat count) dest ch; mret dest.

Fixpoint memcpy_loop (count : nat) (ptr src : Z) : prog M unit :=
  match count with
  | O => mret tt
  | S count' =>
      c ← load_char src; _ ← store8 ptr c; memcpy_loop count' (ptr + 1) (src + 1)
  end.

Definition memcpy (dest src count : Z) : prog M Z :=
  _ ← memcpy_loop (Z.to_nat count) dest src; mret dest.

(** [None]: the function runs off its end without a [return]. *)
Fixpoint memchr_loop (count : nat) (ptr ch : Z) : prog M (option Z) :=
  match count with
  | O => mret None
  | S count' =>
      c ← load_char ptr;
      if c =? ch then mret (Some ptr) else memchr_loop count' (ptr + 1) ch
  end.

Definition memchr (str ch count : Z) : prog M (option Z) :=
  memchr_loop (Z.to_nat count) str ch.

Fixpoint strsep (fuel : nat) (ptr : Z) : prog M Z :=
  match fuel with
  | O => no_fuel
  | S fuel' =>
      c ← load_char ptr;
      if IS_SEPARATOR c then mret ptr else
      if c =? EOS then mret NULL else strsep fuel' (ptr + 1)
  end.

Fixpoint strrsep_loop (fuel : nat) (last ptr : Z) : prog M Z :=
  match fuel with
  | O => no_fuel
  | S fuel' =>
      c ← load_char ptr;
      let last := if IS_SEPARATOR c then ptr else last in
      if c =? EOS then mret last else strrsep_loop fuel' last (ptr + 1)
  end.

Definition strrsep (fuel : nat) (str : Z) : prog M Z := strrsep_loop fuel NULL str.
End string_c.

(** ** What a C string is *)

(** [cstr f a s]: the bytes [s], none of them zero, stand at [a] and are
    followed by the terminator. *)
Fixpoint cstr (f : Z → Z) (a : Z) (s : list Z) : Prop :=
  match s with
  | [] => f a = 0
  | c :: s' => c ≠ 0 ∧ f a = c ∧ cstr f (a + 1) s'
  end.

(** The order strcmp and memcmp decide: lexicographic on signed bytes. *)
Fixpoint str_order (s1 s2 : list Z) : Z :=
  match s1, s2 with
  | [], [] => 0
  | [], c2 :: _ => char_order 0 (i8 c2)
  | c1 :: _, [] => char_order (i8 c1) 0
  | c1 :: s1', c2 :: s2' =>
      if c1 =? c2 then str_order s1' s2' else char_order (i8 c1) (i8 c2)
  end.

(** The index of the first (last) byte that satisfies [p]. *)
Fixpoint first_index (p : Z → bool) (s : list Z) : option nat :=
  match s with
  | [] => None
  | c :: s' => if p c then Some O else S <$> first_index p s'
  end.

Fixpoint last_index (p : Z → bool) (s : list Z) : option nat :=
  match s with
  | [] => None
  | c :: s' =>
      match last_index p s' with
      | Some i => Some (S i)
      | None => if p c then Some O else None
      end
  end.

(** A pointer into the string at [a], or [NULL]. *)
Definition ptr_at (a : Z) (i : option nat) : Z :=
  match i with Some i => a + Z.of_nat i | None => NULL end.

Definition len (s : list Z) : Z := Z.of_nat (length s).

Section cstr_lemmas.
Implicit Types (f : Z → Z) (s : list Z).

Lemma cstr_ext f g a s :
  cstr f a s → (∀ x, region a (len s + 1) x → f x = g x) → cstr g a s.
Proof.
  unfold len, region. revert a. induction s as [|c s IH]; intros a Hs Hfg; simpl in *.
  - rewrite <- Hfg; [done|lia].
  - destruct Hs as (Hc & Hfa & Hs). split_and!; [done| |].
    + rewrite <- Hfg; [done|lia].
    + apply IH; [done|]. intros x Hx. apply Hfg. lia.
Qed.

Lemma cstr_inj f a s1 s2 : cstr f a s1 → cstr f a s2 → s1 = s2.
Proof.
  revert a s2. induction s1 as [|c1 s1 IH]; intros a [|c2 s2]; simpl.
  - done.
  - naive_solver.
  - naive_solver.
  - intros (? & H1 & Hs1) (? & H2 & Hs2). f_equal; [congruence | by eapply IH].
Qed.

(** Copying a terminated string leaves a terminated string. *)
Lemma cstr_blit f a s : Forall (λ c, c ≠ 0) s → cstr (blit f a (s ++ [0])) a s.
Proof.
  revert f a. induction s as [|c s IH]; intros f a Hs.
  - pose proof (blit_inside f a [0] 0 0 eq_refl) as Hb. simpl in *.
    by rewrite Z.add_0_r in Hb.
  - apply Forall_cons in Hs as [Hc Hs]. simpl. split_and!; [done| |].
    + pose proof (blit_inside f a (c :: s ++ [0]) 0 c eq_refl) as Hb.
      by rewrite Z.add_0_r in Hb.
    + apply (cstr_ext (blit (<[a:=c]> f) (a + 1) (s ++ [0]))); [by apply IH|].
      intros x _. by rewrite blit_cons.
Qed.

Lemma cstr_nonzero f a s : cstr f a s → Forall (λ c, c ≠ 0) s.
Proof. revert a. induction s; intros a' Hs; constructor; naive_solver. Qed.

Lemma str_order_refl s : str_order s s = 0.
Proof. induction s as [|c s IH]; simpl; [done|]. by rewrite Z.eqb_refl. Qed.

Lemma char_order_zero l r : char_order l r = 0 ↔ l = r.
Proof.
  unfold char_order, c_bool.
  destruct (l <? r) eqn:?, (r <? l) eqn:?; zb; lia.
Qed.

(** Equal exactly when the strings are. *)
Lemma str_order_zero s1 s2 :
  Forall (λ c, 0 < c < 256) s1 → Forall (λ c, 0 < c < 256) s2 →
  str_order s1 s2 = 0 ↔ s1 = s2.
Proof.
  revert s2. induction s1 as [|c1 s1 IH]; intros [|c2 s2] H1 H2; simpl; [done|..].
  - apply Forall_cons in H2 as [Hc2 _]. rewrite char_order_zero.
    split; [|done]. intros Hz. symmetry in Hz. apply (i8_inj c2 0) in Hz; lia.
  - apply Forall_cons in H1 as [Hc1 _]. rewrite char_order_zero.
    split; [|done]. intros Hz. apply (i8_inj c1 0) in Hz; lia.
  - apply Forall_cons in H1 as [Hc1 H1]. apply Forall_cons_1 in H2 as [Hc2 H2].
    destruct (Z.eqb_spec c1 c2) as [->|Hne].
    + rewrite IH by done. naive_solver.
    + rewrite char_order_zero. split; [|naive_solver].
      intros Heq. apply i8_inj in Heq; lia.
Qed.

(** Swapping the arguments flips the sign. *)
Lemma char_order_antisym l r : char_order l r = - char_order r l.
Proof.
  unfold char_order, c_bool. destruct (l <? r) eqn:?, (r <? l) eqn:?; zb; lia.
Qed.

Lemma str_order_antisym s1 s2 : str_order s1 s2 = - str_order s2 s1.
Proof.
  revert s2. induction s1 as [|c1 s1 IH]; intros [|c2 s2]; simpl; try done.
  - apply char_order_antisym.
  - apply char_order_antisym.
  - rewrite (Z.eqb_sym c2 c1). destruct (c1 =? c2); [apply IH | apply char_order_antisym].
Qed.
End cstr_lemmas.

(** ** What the functions compute *)

Section string_c_spec.
Context {M : Type} `{ByteMemOk M}.
Implicit Types (m : M) (D : Z → Prop) (f : Z → Z) (s : list Z).

Lemma scan_eos_spec m D f a s fuel :
  holds m D f → cstr f a s → (∀ x, region a (len s + 1) x → D x) →
  (length s < fuel)%nat → scan_eos fuel a m = Ok (a + len s) m.
Proof.
  unfold len, region. intros Hm. revert a fuel.
  induction s as [|c s IH]; intros a fuel Hs HD Hfuel;
    (destruct fuel as [|fuel]; [simpl in *; lia|]); simpl in *;
    rewrite (bind_Ok _ _ _ _ _ (holds_load_char _ _ _ a Hm ltac:(apply HD; lia)));
    unfold EOS; rewrite i8_zero by (apply (holds_byte _ _ _ _ Hm), HD; lia).
  - rewrite Hs. rewrite Z.eqb_refl, Z.add_0_r. done.
  - destruct Hs as (Hc & Hfa & Hs). rewrite Hfa. rewrite (proj2 (Z.eqb_neq c 0)) by done.
    rewrite (IH (a + 1)); [f_equal; lia|done| |lia]. intros x Hx. apply HD. lia.
Qed.

Lemma strlen_ok m D f a s fuel :
  holds m D f → cstr f a s → (∀ x, region a (len s + 1) x → D x) →
  len s < 2 ^ 32 → (length s < fuel)%nat → strlen fuel a m = Ok (len s) m.
Proof.
  intros Hm Hs HD Hlen Hfuel. unfold strlen.
  rewrite (bind_Ok _ _ _ _ _ (scan_eos_spec _ _ _ _ _ _ Hm Hs HD Hfuel)).
  rewrite Z.add_simpl_l, u32_small; [done|]. unfold len in *. lia.
Qed.

(** The copy loop of strcpy and strcat. *)
Lemma strcpy_loop_spec m D f dest src s fuel :
  holds m D f → cstr f src s →
  (∀ x, region src (len s + 1) x → D x) → (∀ x, region dest (len s + 1) x → D x) →
  (∀ x, region src (len s + 1) x → region dest (len s + 1) x → False) →
  (length s < fuel)%nat →
  wp (strcpy_loop fuel dest src)
    (λ _ m', holds m' D (blit f dest (s ++ [0])) ∧ changes D m m') m.
Proof.
  unfold len, region. intros Hm Hs Hsrc Hdst Hdisj.
  revert m f dest src fuel Hm Hs Hsrc Hdst Hdisj.
  induction s as [|c s IH]; intros m f dest src fuel Hm Hs Hsrc Hdst Hdisj Hfuel;
    (destruct fuel as [|fuel]; [simpl in *; lia|]); simpl in *;
    apply wp_bind; apply (wp_load_char _ _ _ _ _ Hm); try (apply Hsrc; lia);
    apply wp_bind; apply (wp_store8 _ _ _ _ _ _ Hm); try (apply Hdst; lia);
    intros m' Hm' Hch; apply wp_bind; apply (wp_load_char _ _ _ _ _ Hm'); try (apply Hsrc; lia);
    (rewrite fn_lookup_insert_ne by (intros ->; eapply (Hdisj src); lia));
    unfold EOS; rewrite i8_zero by (apply (holds_byte _ _ _ _ Hm), Hsrc; lia);
    rewrite u8_i8, (u8_small (f src)) in Hm' by (apply (holds_byte _ _ _ _ Hm), Hsrc; lia).
  - rewrite Hs, Z.eqb_refl. split; [|done].
    eapply holds_ext; [exact Hm'|]. intros x _. by rewrite <- blit_cons, blit_nil, Hs.
  - destruct Hs as (Hc & Hfa & Hs). rewrite Hfa in Hm' |- *.
    rewrite (proj2 (Z.eqb_neq c 0)) by done.
    eapply wp_mono; [apply (IH _ _ _ _ _ Hm')|].
    + eapply cstr_ext; [exact Hs|]. unfold region, len. intros x Hx.
      rewrite fn_lookup_insert_ne; [done|]. intros <-. apply (Hdisj dest); lia.
    + intros x Hx. apply Hsrc. lia.
    + intros x Hx. apply Hdst. lia.
    + intros x Hx Hy. apply (Hdisj x); lia.
    + lia.
    + intros _ m'' [Hm'' Hch'']. split; [|by eapply changes_trans].
      eapply holds_ext; [exact Hm''|]. intros x _. apply blit_cons.
Qed.

Lemma strcpy_ok m D f dest src s fuel :
  holds m D f → cstr f src s →
  (∀ x, region src (len s + 1) x → D x) → (∀ x, region dest (len s + 1) x → D x) →
  (∀ x, region src (len s + 1) x → region dest (len s + 1) x → False) →
  (length s < fuel)%nat →
  wp (strcpy fuel dest src)
    (λ r m', r = dest ∧ changes D m m' ∧ holds m' D (blit f dest (s ++ [0])) ∧
             cstr (blit f dest (s ++ [0])) dest s) m.
Proof.
  intros Hm Hs Hsrc Hdst Hdisj Hfuel. unfold strcpy. apply wp_bind.
  eapply wp_mono; [by apply strcpy_loop_spec|]. intros _ m' [Hm' Hch].
  split_and!; [done..|]. eapply cstr_blit, cstr_nonzero, Hs.
Qed.

Lemma strcat_ok m D f dest src d s fuel :
  holds m D f → cstr f dest d → cstr f src s →
  (∀ x, region src (len s + 1) x → D x) →
  (∀ x, region dest (len d + len s + 1) x → D x) →
  (∀ x, region src (len s + 1) x → region dest (len d + len s + 1) x → False) →
  (length d < fuel)%nat → (length s < fuel)%nat →
  wp (strcat fuel dest src)
    (λ r m', r = dest ∧ changes D m m' ∧
             holds m' D (blit f (dest + len d) (s ++ [0]))) m.
Proof.
  intros Hm Hd Hs Hsrc Hdst Hdisj Hfd Hfs. unfold strcat. unfold len, region in *.
  rewrite wp_Ok. rewrite (bind_Ok _ _ _ _ _ (scan_eos_spec _ _ _ _ _ _ Hm Hd
    ltac:(intros x Hx; unfold region, len in *; apply Hdst; lia) Hfd)).
  rewrite <- wp_Ok. apply wp_bind. eapply wp_mono; [apply (strcpy_loop_spec _ _ _ _ _ _ _ Hm Hs)|].
  - unfold region, len. auto.
  - unfold region, len. intros x Hx. apply Hdst. lia.
  - unfold region, len. intros x Hx Hy. apply (Hdisj x); lia.
  - done.
  - intros _ m' [Hm' Hch]. done.
Qed.

Lemma memset_loop_spec m D f dest ch n :
  holds m D f → (∀ x, region dest (Z.of_nat n) x → D x) →
  wp (memset_loop n dest ch)
    (λ _ m', holds m' D (blit f dest (replicate n (u8 ch))) ∧ changes D m m') m.
Proof.
  unfold region. revert m f dest. induction n as [|n IH]; intros m f dest Hm HD; simpl.
  - split; [|apply changes_refl]. eapply holds_ext; [exact Hm|]. intros x _. by rewrite blit_nil.
  - apply wp_bind, (wp_store8 _ _ _ _ _ _ Hm); [apply HD; lia|]. intros m' Hm' Hch.
    eapply wp_mono; [apply (IH _ _ _ Hm')|].
    + intros x Hx. apply HD. lia.
    + intros _ m'' [Hm'' Hch'']. split; [|by eapply changes_trans].
      eapply holds_ext; [exact Hm''|]. intros x _. apply blit_cons.
Qed.

Lemma memset_ok m D f dest ch count :
  holds m D f → 0 ≤ count → (∀ x, region dest count x → D x) →
  wp (memset dest ch count)
    (λ r m', r = dest ∧ changes D m m' ∧
             holds m' D (blit f dest (replicate (Z.to_nat count) (u8 ch)))) m.
Proof.
  intros Hm Hc HD. unfold memset. apply wp_bind.
  eapply wp_mono; [apply (memset_loop_spec _ _ _ _ _ _ Hm)|].
  - rewrite Z2Nat.id by done. done.
  - intros _ m' [Hm' Hch]. done.
Qed.

(** The forward copy is right when the blocks are disjoint, and when the
    destination starts below the source. *)
Lemma memcpy_loop_spec m D f dest src n :
  holds m D f → (∀ x, region dest (Z.of_nat n) x → D x) →
  (∀ x, region src (Z.of_nat n) x → D x) →
  (dest ≤ src ∨ src + Z.of_nat n ≤ dest) →
  wp (memcpy_loop n dest src)
    (λ _ m', holds m' D (blit f dest (peek f src n)) ∧ changes D m m') m.
Proof.
  unfold region. revert m f dest src. induction n as [|n IH]; intros m f dest src Hm HD HS Hord; simpl.
  - split; [|apply changes_refl]. eapply holds_ext; [exact Hm|]. intros x _. by rewrite blit_nil.
  - apply wp_bind, (wp_load_char _ _ _ _ _ Hm); [apply HS; lia|].
    apply wp_bind, (wp_store8 _ _ _ _ _ _ Hm); [apply HD; lia|]. intros m' Hm' Hch.
    rewrite u8_i8, u8_small in Hm' by (apply (holds_byte _ _ _ _ Hm), HS; lia).
    eapply wp_mono; [apply (IH _ _ _ _ Hm')|].
    + intros x Hx. apply HD. lia.
    + intros x Hx. apply HS. lia.
    + lia.
    + intros _ m'' [Hm'' Hch'']. split; [|by eapply changes_trans].
      eapply holds_ext; [exact Hm''|]. intros x _. rewrite peek_S, <- blit_cons.
      rewrite (peek_ext (<[dest:=f src]> f) f); [done|]. unfold region. intros y Hy.
      apply fn_lookup_insert_ne. lia.
Qed.

Lemma memcpy_ok m D f dest src count :
  holds m D f → 0 ≤ count →
  (∀ x, region dest count x → D x) → (∀ x, region src count x → D x) →
  (dest ≤ src ∨ src + count ≤ dest) →
  wp (memcpy dest src count)
    (λ r m', r = dest ∧ changes D m m' ∧
             holds m' D (blit f dest (peek f src (Z.to_nat count)))) m.
Proof.
  intros Hm Hc HD HS Hord. unfold memcpy. apply wp_bind.
  eapply wp_mono; [apply (memcpy_loop_spec _ _ _ _ _ _ Hm)|];
    rewrite ?Z2Nat.id by done; [done..|].
  intros _ m' [Hm' Hch]. done.
Qed.

(** Start of a scanning proof: one unit of fuel, one byte read. *)
Local Ltac scan_step Hm fuel HD a :=
  destruct fuel as [|fuel]; [simpl in *; lia|]; simpl in *;
  rewrite (bind_Ok _ _ _ _ _ (holds_load_char _ _ _ a Hm ltac:(apply HD; unfold region, len; simpl; lia))).

(** The terminator test on a byte of the region. *)
Local Ltac eos_test Hm HD :=
  unfold EOS; rewrite i8_zero by (apply (holds_byte _ _ _ _ Hm), HD; unfold region, len; simpl; lia).

Lemma strchr_ok m D f a s ch fuel :
  holds m D f → cstr f a s → (∀ x, region a (len s + 1) x → D x) →
  (length s < fuel)%nat →
  strchr fuel a ch m = Ok (ptr_at a (first_index (λ c, i8 c =? ch) (s ++ [0]))) m.
Proof.
  unfold len, region. intros Hm. revert a fuel.
  induction s as [|c s IH]; intros a fuel Hs HD Hfuel; scan_step Hm fuel HD a;
    eos_test Hm HD.
  - rewrite Hs. destruct (i8 0 =? ch); simpl; [by rewrite Z.add_0_r|done].
  - destruct Hs as (Hc & -> & Hs). destruct (i8 c =? ch); simpl; [by rewrite Z.add_0_r|].
    rewrite (proj2 (Z.eqb_neq c 0)) by done. rewrite IH; [|done| |lia].
    + destruct (first_index _ _); simpl; [f_equal; lia | done].
    + intros x Hx. apply HD. lia.
Qed.

Lemma strrchr_loop_ok m D f a s ch last fuel :
  holds m D f → cstr f a s → (∀ x, region a (len s + 1) x → D x) →
  (length s < fuel)%nat →
  strrchr_loop fuel last a ch m =
    Ok (match last_index (λ c, i8 c =? ch) (s ++ [0]) with
        | Some i => a + Z.of_nat i | None => last end) m.
Proof.
  unfold len, region. intros Hm. revert a fuel last.
  induction s as [|c s IH]; intros a fuel last Hs HD Hfuel; scan_step Hm fuel HD a;
    eos_test Hm HD.
  - rewrite Hs, Z.eqb_refl. destruct (i8 0 =? ch); simpl; [by rewrite Z.add_0_r|done].
  - destruct Hs as (Hc & -> & Hs). rewrite (proj2 (Z.eqb_neq c 0)) by done.
    rewrite IH; [|done| |lia].
    + destruct (last_index _ _); [f_equal; lia|].
      destruct (i8 c =? ch); simpl; [by rewrite Z.add_0_r|done].
    + intros x Hx. apply HD. lia.
Qed.

Lemma strrchr_ok m D f a s ch fuel :
  holds m D f → cstr f a s → (∀ x, region a (len s + 1) x → D x) →
  (length s < fuel)%nat →
  strrchr fuel a ch m = Ok (ptr_at a (last_index (λ c, i8 c =? ch) (s ++ [0]))) m.
Proof. intros. unfold strrchr. by erewrite strrchr_loop_ok. Qed.

Lemma strsep_ok m D f a s fuel :
  holds m D f → cstr f a s → (∀ x, region a (len s + 1) x → D x) →
  (length s < fuel)%nat →
  strsep fuel a m = Ok (ptr_at a (first_index (λ c, IS_SEPARATOR (i8 c)) s)) m.
Proof.
  unfold len, region. intros Hm. revert a fuel.
  induction s as [|c s IH]; intros a fuel Hs HD Hfuel; scan_step Hm fuel HD a;
    eos_test Hm HD.
  - by rewrite Hs.
  - destruct Hs as (Hc & -> & Hs). destruct (IS_SEPARATOR (i8 c)); simpl; [by rewrite Z.add_0_r|].
    rewrite (proj2 (Z.eqb_neq c 0)) by done. rewrite IH; [|done| |lia].
    + destruct (first_index _ _); simpl; [f_equal; lia | done].
    + intros x Hx. apply HD. lia.
Qed.

Lemma strrsep_loop_ok m D f a s last fuel :
  holds m D f → cstr f a s → (∀ x, region a (len s + 1) x → D x) →
  (length s < fuel)%nat →
  strrsep_loop fuel last a m =
    Ok (match last_index (λ c, IS_SEPARATOR (i8 c)) s with
        | Some i => a + Z.of_nat i | None => last end) m.
Proof.
  unfold len, region. intros Hm. revert a fuel last.
  induction s as [|c s IH]; intros a fuel last Hs HD Hfuel; scan_step Hm fuel HD a;
    eos_test Hm HD.
  - by rewrite Hs.
  - destruct Hs as (Hc & -> & Hs). rewrite (proj2 (Z.eqb_neq c 0)) by done.
    rewrite IH; [|done| |lia].
    + destruct (last_index _ _); [f_equal; lia|].
      destruct (IS_SEPARATOR (i8 c)); simpl; [by rewrite Z.add_0_r|done].
    + intros x Hx. apply HD. lia.
Qed.

Lemma strrsep_ok m D f a s fuel :
  holds m D f → cstr f a s → (∀ x, region a (len s + 1) x → D x) →
  (length s < fuel)%nat →
  strrsep fuel a m = Ok (ptr_at a (last_index (λ c, IS_SEPARATOR (i8 c)) s)) m.
Proof. intros. unfold strrsep. by erewrite strrsep_loop_ok. Qed.

Lemma strcmp_ok m D f a b s1 s2 fuel :
  holds m D f → cstr f a s1 → cstr f b s2 →
  (∀ x, region a (len s1 + 1) x → D x) → (∀ x, region b (len s2 + 1) x → D x) →
  (length s1 < fuel)%nat →
  strcmp fuel a b m = Ok (str_order s1 s2) m.
Proof.
  unfold len, region. intros Hm. revert a b s2 fuel.
  induction s1 as [|c1 s1 IH]; intros a b s2 fuel H1 H2 HD1 HD2 Hfuel;
    scan_step Hm fuel HD1 a;
    rewrite (bind_Ok _ _ _ _ _ (holds_load_char _ _ _ b Hm ltac:(apply HD2; lia)));
    rewrite i8_eqb by (apply (holds_byte _ _ _ _ Hm); first [apply HD1; lia | apply HD2; lia]);
    unfold EOS; rewrite !i8_zero
      by (apply (holds_byte _ _ _ _ Hm); first [apply HD1; lia | apply HD2; lia]).
  - rewrite H1. destruct s2 as [|c2 s2]; simpl in H2.
    + by rewrite H2.
    + destruct H2 as (Hc2 & -> & _). by rewrite andb_false_r.
  - destruct H1 as (Hc1 & -> & H1). rewrite (proj2 (Z.eqb_neq c1 0)) by done.
    destruct s2 as [|c2 s2]; simpl in H2 |- *.
    + by rewrite H2, andb_false_r.
    + destruct H2 as (Hc2 & -> & H2). rewrite (proj2 (Z.eqb_neq c2 0)) by done.
      simpl. rewrite !andb_true_r. destruct (c1 =? c2); [|done].
      apply IH; [done|done| | |lia]; intros x Hx; [apply HD1|apply HD2]; simpl; lia.
Qed.

(** strnlen reads the byte at [str + maxlen] before it tests the bound, so the
    region must include it. *)
Lemma strnlen_ok m D f a s maxlen :
  holds m D f → cstr f a s → 0 ≤ maxlen < 2 ^ 32 →
  (∀ x, region a (Z.min (len s) maxlen + 1) x → D x) →
  strnlen a maxlen m = Ok (Z.min (len s) maxlen) m.
Proof.
  unfold len, region. intros Hm Hs Hmax HD. unfold strnlen.
  assert (Hloop : ∀ n a s, cstr f a s →
    (∀ x, a ≤ x < a + (Z.min (len s) (Z.of_nat n) + 1) → D x) →
    strnlen_loop n a m = Ok (a + Z.min (len s) (Z.of_nat n)) m).
  { clear a s maxlen Hs Hmax HD. unfold len.
    induction n as [|n IH]; intros a s Hs HD; simpl;
      rewrite (bind_Ok _ _ _ _ _ (holds_load_char _ _ _ a Hm ltac:(apply HD; lia)));
      eos_test Hm HD; destruct s as [|c s]; simpl in Hs.
    - rewrite Hs, Z.eqb_refl. simpl. f_equal. lia.
    - destruct Hs as (Hc & -> & _). rewrite (proj2 (Z.eqb_neq c 0)) by done.
      simpl. f_equal. lia.
    - rewrite Hs, Z.eqb_refl. simpl. f_equal. lia.
    - destruct Hs as (Hc & -> & Hs). rewrite (proj2 (Z.eqb_neq c 0)) by done.
      rewrite (IH _ _ Hs); [simpl; f_equal; lia|].
      intros x Hx. apply HD. simpl. lia. }
  rewrite (bind_Ok _ _ _ _ _ (Hloop (Z.to_nat maxlen) a s Hs ltac:(
    unfold len; intros; apply HD; lia))).
  rewrite Z.add_simpl_l, Z2Nat.id by lia. rewrite u32_small; [done|]. unfold len. lia.
Qed.

Lemma memcmp_ok m D f a b count :
  holds m D f → 0 ≤ count →
  (∀ x, region a count x → D x) → (∀ x, region b count x → D x) →
  memcmp a b count m = Ok (str_order (peek f a (Z.to_nat count)) (peek f b (Z.to_nat count))) m.
Proof.
  intros Hm Hc HDa HDb. unfold memcmp. unfold region in *.
  assert (HDa' : ∀ x, a ≤ x < a + Z.of_nat (Z.to_nat count) → D x) by (intros; apply HDa; lia).
  assert (HDb' : ∀ x, b ≤ x < b + Z.of_nat (Z.to_nat count) → D x) by (intros; apply HDb; lia).
  clear HDa HDb Hc. revert a b HDa' HDb'.
  induction (Z.to_nat count) as [|n IH]; intros a b HDa HDb; [done|]. simpl memcmp_loop.
  rewrite (bind_Ok _ _ _ _ _ (holds_load_char _ _ _ a Hm ltac:(apply HDa; lia))).
  rewrite (bind_Ok _ _ _ _ _ (holds_load_char _ _ _ b Hm ltac:(apply HDb; lia))).
  rewrite i8_eqb by (apply (holds_byte _ _ _ _ Hm); first [apply HDa; lia | apply HDb; lia]).
  rewrite !peek_S. simpl. destruct (f a =? f b); [|done].
  apply IH; intros x Hx; [apply HDa|apply HDb]; lia.
Qed.

Lemma memchr_ok m D f a ch count :
  holds m D f → 0 ≤ count → (∀ x, region a count x → D x) →
  memchr a ch count m =
    Ok ((λ i : nat, a + Z.of_nat i) <$>
        first_index (λ c, i8 c =? ch) (peek f a (Z.to_nat count))) m.
Proof.
  intros Hm Hc HD. unfold memchr. unfold region in *.
  assert (HD' : ∀ x, a ≤ x < a + Z.of_nat (Z.to_nat count) → D x) by (intros; apply HD; lia).
  clear HD Hc. revert a HD'.
  induction (Z.to_nat count) as [|n IH]; intros a HD; [done|]. simpl memchr_loop.
  rewrite (bind_Ok _ _ _ _ _ (holds_load_char _ _ _ a Hm ltac:(apply HD; lia))).
  rewrite peek_S. simpl. destruct (i8 (f a) =? ch); simpl; [by rewrite Z.add_0_r|].
  rewrite IH by (intros x Hx; apply HD; lia).
  destruct (first_index _ _); simpl; [|done]. do 2 f_equal. lia.
Qed.

(** A search for a character code of 128 or more never succeeds: [*ptr] is
    sign-extended and [ch] is not. *)
Lemma first_index_high s ch : 128 ≤ ch → first_index (λ c, i8 c =? ch) s = None.
Proof.
  intros Hch. induction s as [|c s IH]; simpl; [done|].
  pose proof (i8_range c). by rewrite (proj2 (Z.eqb_neq (i8 c) ch)), IH by lia.
Qed.

(** The copy loop of strncpy. *)
Lemma strncpy_loop_spec m D f dest src s n :
  holds m D f → cstr f src s →
  (∀ x, region src (len s + 1) x → D x) →
  (∀ x, region dest (Z.min (len s + 1) (Z.of_nat n)) x → D x) →
  (∀ x, region src (len s + 1) x → region dest (Z.of_nat n) x → False) →
  wp (strncpy_loop n dest src)
    (λ b m', changes D m m' ∧ b = bool_decide (length s < n)%nat ∧
             holds m' D (blit f dest (take n (s ++ [0])))) m.
Proof.
  unfold len, region. intros Hm Hs Hsrc Hdst Hdisj.
  revert m f dest src s Hm Hs Hsrc Hdst Hdisj.
  induction n as [|n IH]; intros m f dest src s Hm Hs Hsrc Hdst Hdisj; simpl strncpy_loop.
  { rewrite wp_Ok. eexists _, _. split; [done|]. split_and!; [apply changes_refl|done|].
    eapply holds_ext; [exact Hm|]. intros x _. by rewrite blit_nil. }
  apply wp_bind, (wp_load_char _ _ _ _ _ Hm); [apply Hsrc; lia|].
  apply wp_bind, (wp_store8 _ _ _ _ _ _ Hm); [apply Hdst; lia|]. intros m' Hm' Hch.
  apply wp_bind, (wp_load_char _ _ _ _ _ Hm'); [apply Hsrc; lia|].
  rewrite fn_lookup_insert_ne by (intros ->; eapply (Hdisj src); lia).
  unfold EOS. rewrite i8_zero by (apply (holds_byte _ _ _ _ Hm), Hsrc; lia).
  rewrite u8_i8, (u8_small (f src)) in Hm' by (apply (holds_byte _ _ _ _ Hm), Hsrc; lia).
  destruct s as [|c s]; simpl in Hs.
  - rewrite Hs, Z.eqb_refl. rewrite wp_Ok. eexists _, _. split; [done|].
    split_and!; [done|by rewrite bool_decide_eq_true_2 by (simpl; lia)|].
    eapply holds_ext; [exact Hm'|]. intros x _. simpl. rewrite take_nil.
    by rewrite <- blit_cons, blit_nil, Hs.
  - destruct Hs as (Hc & Hfa & Hs). rewrite Hfa in Hm' |- *.
    rewrite (proj2 (Z.eqb_neq c 0)) by done. simpl in Hsrc, Hdst, Hdisj.
    eapply wp_mono; [apply (IH _ _ _ _ s Hm')|].
    + eapply cstr_ext; [exact Hs|]. unfold region, len. intros x Hx.
      rewrite fn_lookup_insert_ne; [done|]. intros <-. apply (Hdisj dest); lia.
    + intros x Hx. apply Hsrc. lia.
    + intros x Hx. apply Hdst. lia.
    + intros x Hx Hy. apply (Hdisj x); lia.
    + intros b m'' (Hch'' & -> & Hm''). split_and!.
      * by eapply changes_trans.
      * apply bool_decide_ext. simpl. lia.
      * eapply holds_ext; [exact Hm''|]. intros x _. apply blit_cons.
Qed.

(** strncpy with a positive count always leaves a terminated string: the
    source if it fits, its first [count - 1] bytes otherwise. *)
Lemma strncpy_ok m D f dest src s count :
  holds m D f → cstr f src s → 0 < count → 0 ≤ dest → dest + count ≤ 2 ^ 32 →
  (∀ x, region src (len s + 1) x → D x) → (∀ x, region dest count x → D x) →
  (∀ x, region src (len s + 1) x → region dest count x → False) →
  wp (strncpy dest src count)
    (λ r m', r = dest ∧ changes D m m' ∧
       ∃ g, holds m' D g ∧ cstr g dest (take (Z.to_nat (count - 1)) s) ∧
            ∀ x, ¬ region dest count x → g x = f x) m.
Proof.
  unfold len, region. intros Hm Hs Hc Hd0 Hd Hsrc Hdst Hdisj. unfold strncpy. apply wp_bind.
  pose proof (cstr_nonzero _ _ _ Hs) as Hnz.
  eapply wp_mono; [apply (strncpy_loop_spec _ _ _ _ _ s _ Hm Hs)|].
  { done. }
  { unfold region, len. intros x Hx. apply Hdst. lia. }
  { unfold region, len. intros x Hx Hy. apply (Hdisj x); lia. }
  intros b m' (Hch & -> & Hm'). case_bool_decide as Hlt.
  - (* the source fits *)
    rewrite wp_Ok. eexists _, _. split; [done|]. split_and!; [done..|].
    eexists. split_and!; [exact Hm'| |].
    + rewrite (take_ge (s ++ [0])) by (rewrite length_app; simpl; lia).
      rewrite take_ge by lia. by apply cstr_blit.
    + intros x Hx. apply blit_outside. unfold region. rewrite length_take, length_app. simpl. lia.
  - (* it does not: the last byte is overwritten by the terminator *)
    rewrite (u32_small (count - 1)), u32_small by lia.
    apply wp_bind, (wp_store8 _ _ _ _ _ _ Hm'); [apply Hdst; lia|].
    intros m'' Hm'' Hch''. split_and!; [done|by eapply changes_trans|].
    exists (blit f dest (take (Z.to_nat (count - 1)) s ++ [0])). split_and!.
    + eapply holds_ext; [exact Hm''|]. intros x _. unfold EOS.
      destruct (decide (x = dest + (count - 1))) as [->|Hne].
      * rewrite fn_lookup_insert. symmetry.
        replace (dest + (count - 1)) with (dest + Z.of_nat (Z.to_nat (count - 1))) by lia.
        apply blit_inside. rewrite lookup_app_r by (rewrite length_take; lia).
        rewrite length_take. by replace (_ - _)%nat with O by lia.
      * rewrite fn_lookup_insert_ne by congruence.
        rewrite take_app_le by lia. unfold blit, region.
        rewrite length_app, !length_take. simpl.
        destruct (decide (dest ≤ x < dest + (count - 1))) as [Hin|Hout].
        -- rewrite !decide_True by lia. rewrite lookup_app_l by (rewrite length_take; lia).
           rewrite !lookup_take. by rewrite !decide_True by lia.
        -- by rewrite !decide_False by lia.
    + apply cstr_blit. by apply Forall_take.
    + intros x Hx. apply blit_outside. unfold region.
      rewrite length_app, length_take. simpl. lia.
Qed.
End string_c_spec.

(** ** Properties *)

Section string_properties.
Context {M : Type} `{ByteMemOk M}.

(** strcpy copies the string with its terminator to a disjoint destination,
    returns the destination, and leaves the rest of the region as it was. *)
Theorem strcpy_copies m (D : Z → Prop) f dest src s fuel :
  holds m D f → cstr f src s →
  (∀ x, region src (len s + 1) x → D x) → (∀ x, region dest (len s + 1) x → D x) →
  (∀ x, region src (len s + 1) x → region dest (len s + 1) x → False) →
  (length s < fuel)%nat →
  wp (strcpy fuel dest src)
    (λ r m', r = dest ∧ changes D m m' ∧
       ∃ g, holds m' D g ∧ cstr g dest s ∧ cstr g src s ∧
            ∀ x, ¬ region dest (len s + 1) x → g x = f x) m.
Proof.
  intros Hm Hs Hsrc Hdst Hdisj Hfuel.
  eapply wp_mono; [by apply (strcpy_ok _ _ _ _ _ s _ Hm)|].
  intros r m' (-> & Hch & Hm' & Hcs). split_and!; [done|done|].
  assert (Hout : ∀ x, ¬ region dest (len s + 1) x → blit f dest (s ++ [0]) x = f x).
  { intros x Hx. apply blit_outside. rewrite length_app. unfold region, len in *. simpl. lia. }
  eexists. split_and!; [exact Hm'|exact Hcs| |exact Hout].
  eapply cstr_ext; [exact Hs|]. intros x Hx. symmetry. apply Hout. eauto.
Qed.

(** C37 strncpy with a positive count writes only the [count] bytes at the
    destination and always leaves a terminated string there: the source, cut to
    [count - 1] bytes when it is longer. *)
Theorem strncpy_bounded m (D : Z → Prop) f dest src s count :
  holds m D f → cstr f src s → 0 < count → 0 ≤ dest → dest + count ≤ 2 ^ 32 →
  (∀ x, region src (len s + 1) x → D x) → (∀ x, region dest count x → D x) →
  (∀ x, region src (len s + 1) x → region dest count x → False) →
  wp (strncpy dest src count)
    (λ r m', r = dest ∧ changes D m m' ∧
       ∃ g, holds m' D g ∧ cstr g dest (take (Z.to_nat (count - 1)) s) ∧
            ∀ x, ¬ region dest count x → g x = f x) m.
Proof. intros. by apply strncpy_ok. Qed.

(** strncpy with a count of zero is not a no-op: it stores the terminator
    in the byte before the destination. *)
Theorem strncpy_zero_underflow m (D : Z → Prop) f dest src :
  holds m D f → 0 < dest < 2 ^ 32 → D (dest - 1) →
  wp (strncpy dest src 0)
    (λ r m', r = dest ∧ ∃ g, holds m' D g ∧ g (dest - 1) = 0 ∧
       ∀ x, x ≠ dest - 1 → g x = f x) m.
Proof.
  intros Hm Hdest HD. unfold strncpy. apply wp_bind. simpl strncpy_loop. unfold wp at 1, wpp at 1.
  simpl. assert (u32 (dest + u32 (0 - 1)) = dest - 1) as -> by (unfold u32; zlia).
  apply wp_bind, (wp_store8 _ _ _ _ _ _ Hm HD). intros m' Hm' _. split; [done|].
  eexists. split_and!; [exact Hm'| |].
  - by rewrite fn_lookup_insert.
  - intros x Hx. by rewrite fn_lookup_insert_ne by congruence.
Qed.

(** C38 strcmp decides the lexicographic order of signed bytes; in particular it
    returns 0 exactly for equal strings, and swapping its arguments negates the
    result. *)
Theorem strcmp_total_order m (D : Z → Prop) f a b s1 s2 fuel :
  holds m D f → cstr f a s1 → cstr f b s2 →
  (∀ x, region a (len s1 + 1) x → D x) → (∀ x, region b (len s2 + 1) x → D x) →
  (length s1 < fuel)%nat → (length s2 < fuel)%nat →
  ∃ r, strcmp fuel a b m = Ok r m ∧ strcmp fuel b a m = Ok (- r) m ∧
       (r = 0 ↔ s1 = s2) ∧ r = str_order s1 s2.
Proof.
  intros Hm H1 H2 HD1 HD2 Hf1 Hf2. exists (str_order s1 s2).
  assert (Hbytes : ∀ p s, cstr f p s → (∀ x, region p (len s + 1) x → D x) →
    Forall (λ c, 0 < c < 256) s).
  { intros p s. revert p. induction s as [|c s IH]; intros p Hs HDs; [constructor|].
    simpl in Hs. destruct Hs as (Hc & Hfp & Hs). constructor.
    - pose proof (holds_byte _ _ _ p Hm ltac:(apply HDs; unfold region, len; simpl; lia)). lia.
    - apply (IH (p + 1) Hs). intros x Hx. apply HDs. unfold region, len in *. simpl. lia. }
  split_and!; [by apply (strcmp_ok _ _ _ _ _ _ _ _ Hm)| | |done].
  - rewrite str_order_antisym, Z.opp_involutive. by apply (strcmp_ok _ _ _ _ _ _ _ _ Hm).
  - apply str_order_zero; by eapply Hbytes.
Qed.

(** memcpy of [count] bytes is the block move for disjoint blocks and for a
    destination below the source; it changes nothing else of the region. *)
Theorem memcpy_moves m (D : Z → Prop) f dest src count :
  holds m D f → 0 ≤ count →
  (∀ x, region dest count x → D x) → (∀ x, region src count x → D x) →
  (dest ≤ src ∨ src + count ≤ dest) →
  wp (memcpy dest src count)
    (λ r m', r = dest ∧ changes D m m' ∧
       ∃ g, holds m' D g ∧ (∀ i, 0 ≤ i < count → g (dest + i) = f (src + i)) ∧
            ∀ x, ¬ region dest count x → g x = f x) m.
Proof.
  intros Hm Hc HD HS Hord. eapply wp_mono; [by apply (memcpy_ok _ _ _ _ _ _ Hm)|].
  intros r m' (-> & Hch & Hm'). split_and!; [done|done|]. eexists. split_and!; [exact Hm'| |].
  - intros i Hi. rewrite <- (Z2Nat.id i) by lia. apply blit_inside, peek_lookup. lia.
  - intros x Hx. apply blit_outside. by rewrite length_peek, Z2Nat.id.
Qed.

(** strchr and memchr compare a sign-extended [char] with an [int]: a code of
    128 or more is never found, even where the string holds that byte. *)
Theorem strchr_misses_high_codes m (D : Z → Prop) f a s ch fuel :
  holds m D f → cstr f a s → (∀ x, region a (len s + 1) x → D x) →
  (length s < fuel)%nat → 128 ≤ ch →
  strchr fuel a ch m = Ok NULL m ∧ memchr a ch (len s) m = Ok None m.
Proof.
  intros Hm Hs HD Hfuel Hch. split.
  - rewrite (strchr_ok _ _ _ _ s _ _ Hm Hs HD Hfuel). by rewrite first_index_high.
  - rewrite (memchr_ok _ _ _ _ _ _ Hm); [by rewrite first_index_high|unfold len; lia|].
    intros x Hx. apply HD. unfold region in *. lia.
Qed.
End string_properties.

(** *** Witnesses *)

(** A flat memory of 16 bytes at address 100 that starts with "hi" and a byte
    above 127. *)
Definition demo_bytes : list Z := [104; 105; 200; 0; 104; 105; 0; 7; 7; 7; 7; 7; 7; 7; 7; 7].

Definition demo_mem : gmap Z Z := flat_of 100 demo_bytes.

Definition demo_contents : Z → Z := blit (λ _, 0) 100 demo_bytes.

Lemma demo_holds : holds demo_mem (region 100 16) demo_contents.
Proof. apply (flat_of_holds 100 demo_bytes). unfold demo_bytes. repeat constructor; lia. Qed.

(** Side conditions on concrete regions. *)
Ltac demo_side := first
  [ exact demo_holds | repeat split; done
  | intros x; unfold region, len; simpl; lia | intros x ? ?; unfold region, len in *; simpl in *; lia
  | simpl; lia ].

Lemma strcpy_copies_witness :
  wp (strcpy 4 108 104) (λ r m', r = 108 ∧ changes (region 100 16) demo_mem m' ∧
    ∃ g, holds m' (region 100 16) g ∧ cstr g 108 [104; 105] ∧ cstr g 104 [104; 105] ∧
         ∀ x, ¬ region 108 3 x → g x = demo_contents x) demo_mem.
Proof. apply (strcpy_copies demo_mem (region 100 16) demo_contents 108 104 [104; 105] 4); demo_side. Defined.

Lemma strncpy_bounded_witness :
  wp (strncpy 110 100 3) (λ r m', r = 110 ∧ changes (region 100 16) demo_mem m' ∧
    ∃ g, holds m' (region 100 16) g ∧ cstr g 110 [104; 105] ∧
         ∀ x, ¬ region 110 3 x → g x = demo_contents x) demo_mem.
Proof. apply (strncpy_bounded demo_mem (region 100 16) demo_contents 110 100 [104; 105; 200] 3); demo_side. Defined.

Lemma strncpy_zero_underflow_witness :
  wp (strncpy 108 100 0) (λ r m', r = 108 ∧ ∃ g, holds m' (region 100 16) g ∧ g 107 = 0 ∧
    ∀ x, x ≠ 107 → g x = demo_contents x) demo_mem ∧ demo_contents 107 = 7.
Proof.
  split; [|reflexivity].
  apply (strncpy_zero_underflow demo_mem (region 100 16) demo_contents 108 100); demo_side.
Defined.

Lemma strcmp_total_order_witness :
  ∃ r, strcmp 4 100 104 demo_mem = Ok r demo_mem ∧ strcmp 4 104 100 demo_mem = Ok (- r) demo_mem ∧
       (r = 0 ↔ [104; 105; 200] = [104; 105]) ∧ r = -1.
Proof. apply (strcmp_total_order demo_mem (region 100 16) demo_contents 100 104 [104; 105; 200] [104; 105] 4); demo_side. Defined.

Lemma memcpy_moves_witness :
  wp (memcpy 108 100 4) (λ r m', r = 108 ∧ changes (region 100 16) demo_mem m' ∧
    ∃ g, holds m' (region 100 16) g ∧ (∀ i, 0 ≤ i < 4 → g (108 + i) = demo_contents (100 + i)) ∧
         ∀ x, ¬ region 108 4 x → g x = demo_contents x) demo_mem.
Proof. apply (memcpy_moves demo_mem (region 100 16) demo_contents 108 100 4); demo_side. Defined.

(** The byte 200 is at address 102, and is not found. *)
Lemma strchr_misses_high_codes_witness :
  demo_contents 102 = 200 ∧
  strchr 4 100 200 demo_mem = Ok NULL demo_mem ∧ memchr 100 200 3 demo_mem = Ok None demo_mem.
Proof.
  split; [reflexivity|].
  apply (strchr_misses_high_codes demo_mem (region 100 16) demo_contents 100 [104; 105; 200] 200 4); demo_side.
Defined.
