(* ===== verification/Bitmap.v ===== *)
(** * lib/bitmap.c: the bitmaps behind the page allocators

    The four operations of lib/bitmap.c over the memory interface.  A bitmap is
    abstractly the stream of its bits, [bm_bit]; the theorems say what each
    operation does to that stream, and which run of free bits
    [bitmap_request_bits] finds. *)

From Stdlib Require Import ZArith Lia.
From stdpp Require Import base tactics gmap strings fin_maps functions list.
From S2P Require Import Prelude ByteMem CString.

(** [struct bitmap] of include/bitmap.h *)
Record bitmap := Bitmap { bm_length : Z; bm_bits : Z }.

Section bitmap_c.
Context {M : Type} `{ByteMem M}.

Definition bitmap_init (bm : bitmap) : prog M unit :=
  _ ← memset (bm_bits bm) 0 (bm_length bm); mret tt.

Definition bitmap_get_bit (bm : bitmap) (bit_index : Z) : prog M Z :=
  let index0 := bit_index / 8 in
  let index1 := bit_index mod 8 in
  b ← load8 (bm_bits bm + index0);
  mret (Z.land b (Z.shiftl 1 index1)).

Definition bitmap_set_bit (bm : bitmap) (bit_index value : Z) : prog M unit :=
  let index0 := bit_index / 8 in
  let index1 := bit_index mod 8 in
  b ← load8 (bm_bits bm + index0);
  if negb (value =? 0)
  then store8 (bm_bits bm + index0) (Z.lor b (Z.shiftl 1 index1))
  else store8 (bm_bits bm + index0) (Z.land b (Z.lnot (Z.shiftl 1 index1))).

(** [while ((0xff == bits[idx_byte]) && (idx_byte < length)) idx_byte++]: the
    byte is read before the index is compared. *)
Fixpoint skip_full_bytes (fuel : nat) (bm : bitmap) (idx_byte : Z) : prog M Z :=
  match fuel with
  | O => no_fuel
  | S fuel' =>
      b ← load8 (bm_bits bm + idx_byte);
      if ((b =? 0xff) && (idx_byte <? bm_length bm))%bool
      then skip_full_bytes fuel' bm (idx_byte + 1) else mret idx_byte
  end.

(** [while ((u8)(1 << idx_bit) & bits[idx_byte]) idx_bit++] *)
Fixpoint skip_set_bits (fuel : nat) (bm : bitmap) (idx_byte idx_bit : Z) : prog M Z :=
  match fuel with
  | O => no_fuel
  | S fuel' =>
      b ← load8 (bm_bits bm + idx_byte);
      if negb (Z.land (u8 (Z.shiftl 1 idx_bit)) b =? 0)
      then skip_set_bits fuel' bm idx_byte (idx_bit + 1) else mret idx_bit
  end.

(** [while (bit_left-- > 0) ...]: the run of [n] free bits that ends first. *)
Fixpoint find_run (bit_left : nat) (bm : bitmap) (next_bit count n : Z) : prog M Z :=
  match bit_left with
  | O => mret (-1)
  | S bit_left' =>
      b ← bitmap_get_bit bm next_bit;
      let count := if b =? 0 then u32 (count + 1) else 0 in
      if count =? n then mret (i32 (u32 (next_bit - n + 1)))
      else find_run bit_left' bm (u32 (next_bit + 1)) count n
  end.

Definition bitmap_assert_site : panic_site :=
  PanicSite "lib/bitmap.c" 45 "bitmap_request_bits" "idx_byte < bitmap->length".

Definition bitmap_request_bits (bm : bitmap) (n : Z) : prog M Z :=
  idx_byte ← skip_full_bytes (S (Z.to_nat (bm_length bm))) bm 0;
  _ ← c_assert bitmap_assert_site (idx_byte <? bm_length bm);
  if idx_byte =? bm_length bm then mret (-1) else
  idx_bit ← skip_set_bits 9 bm idx_byte 0;
  let bit_idx_start := i32 (u32 (u32 (idx_byte * 8) + idx_bit)) in
  if n =? 1 then mret bit_idx_start else
  let bit_left := u32 (u32 (bm_length bm * 8) - bit_idx_start) in
  let next_bit := u32 (bit_idx_start + 1) in
  find_run (Z.to_nat bit_left) bm next_bit 1 n.
End bitmap_c.

(** ** The abstract bitmap *)

(** Bit [i] of the bitmap whose bytes start at [bits]. *)
Definition bm_bit (f : Z → Z) (bits i : Z) : bool := Z.testbit (f (bits + i / 8)) (i mod 8).

(** The bits [r .. r + n - 1] are all free. *)
Definition run_free (B : Z → bool) (r n : Z) : Prop := ∀ j, r ≤ j < r + n → B j = false.

(** [r] starts the first run of [n] free bits below [limit]. *)
Definition first_run (B : Z → bool) (n limit r : Z) : Prop :=
  0 ≤ r ∧ r + n ≤ limit ∧ run_free B r n ∧ ∀ r', 0 ≤ r' < r → ¬ run_free B r' n.

Definition no_run (B : Z → bool) (n limit : Z) : Prop :=
  ∀ r, 0 ≤ r → r + n ≤ limit → ¬ run_free B r n.

(** What bitmap_request_bits promises its callers: the first run below [limit],
    or [-1] when there is none. *)
Definition request_spec (B : Z → bool) (n limit r : Z) : Prop :=
  first_run B n limit r ∨ r = -1 ∧ no_run B n limit.

Section bitmap_spec.
Context {M : Type} `{ByteMemOk M}.
Implicit Types (m : M) (D : Z → Prop) (f : Z → Z) (bm : bitmap).

Lemma shiftl_1 k : 0 ≤ k → Z.shiftl 1 k = 2 ^ k.
Proof. intros. rewrite Z.shiftl_mul_pow2 by done. lia. Qed.

Lemma bitmap_get_bit_ok m D f bm i :
  holds m D f → 0 ≤ i → D (bm_bits bm + i / 8) →
  bitmap_get_bit bm i m = Ok (if bm_bit f (bm_bits bm) i then 2 ^ (i mod 8) else 0) m.
Proof.
  intros Hm Hi HD. unfold bitmap_get_bit, bm_bit.
  rewrite (bind_Ok _ _ _ _ _ (holds_load _ _ _ _ Hm HD)).
  rewrite shiftl_1, land_pow2 by (apply Z.mod_pos_bound; lia). done.
Qed.

(** The new byte, bit by bit. *)
Lemma set_byte_testbit b k (v : bool) j :
  0 ≤ b < 256 → 0 ≤ k < 8 → 0 ≤ j →
  Z.testbit (u8 (if v then Z.lor b (Z.shiftl 1 k) else Z.land b (Z.lnot (Z.shiftl 1 k)))) j =
    if decide (j = k) then v else Z.testbit b j.
Proof.
  intros Hb Hk Hj. unfold u8. rewrite shiftl_1 by lia.
  destruct (decide (8 ≤ j)) as [Hbig|Hsmall].
  { rewrite decide_False by lia. rewrite Z.mod_pow2_bits_high by lia.
    symmetry. by apply (testbit_above 8). }
  rewrite Z.mod_pow2_bits_low by lia. destruct v.
  - rewrite Z.lor_spec, Z.pow2_bits_eqb by lia. destruct (Z.eqb_spec k j), (decide (j = k));
      subst; try done; by rewrite ?orb_true_r, ?orb_false_r.
  - rewrite Z.land_spec, Z.lnot_spec, Z.pow2_bits_eqb by lia.
    destruct (Z.eqb_spec k j), (decide (j = k)); subst; try done;
      simpl; by rewrite ?andb_true_r, ?andb_false_r.
Qed.

Lemma bitmap_set_bit_ok m D f bm i value :
  holds m D f → 0 ≤ i → D (bm_bits bm + i / 8) →
  wp (bitmap_set_bit bm i value)
    (λ _ m', changes D m m' ∧ ∃ g, holds m' D g ∧
       (∀ j, 0 ≤ j → bm_bit g (bm_bits bm) j =
          if decide (j = i) then negb (value =? 0) else bm_bit f (bm_bits bm) j) ∧
       (∀ x, x ≠ bm_bits bm + i / 8 → g x = f x)) m.
Proof.
  intros Hm Hi HD. unfold bitmap_set_bit.
  apply wp_bind, (wp_load8 _ _ _ _ _ Hm HD).
  pose proof (holds_byte _ _ _ _ Hm HD) as Hb.
  set (b := f (bm_bits bm + i / 8)) in *.
  set (v := negb (value =? 0)).
  set (nb := if v then Z.lor b (Z.shiftl 1 (i mod 8))
             else Z.land b (Z.lnot (Z.shiftl 1 (i mod 8)))).
  assert (Hst : wp (store8 (bm_bits bm + i / 8) nb)
    (λ _ m', changes D m m' ∧ ∃ g, holds m' D g ∧
       (∀ j, 0 ≤ j → bm_bit g (bm_bits bm) j =
          if decide (j = i) then v else bm_bit f (bm_bits bm) j) ∧
       (∀ x, x ≠ bm_bits bm + i / 8 → g x = f x)) m).
  { apply (wp_store8 _ _ _ _ _ _ Hm HD). intros m' Hm' Hch. split; [done|].
    eexists. split_and!; [exact Hm'| |].
    - intros j Hj. unfold bm_bit.
      destruct (decide (j / 8 = i / 8)) as [Heq|Hne].
      + rewrite Heq, fn_lookup_insert. unfold nb.
        rewrite set_byte_testbit by (try apply Z.mod_pos_bound; lia).
        fold b. repeat case_decide; subst; [done| |done|done].
        exfalso. pose proof (Z.div_mod j 8). pose proof (Z.div_mod i 8). lia.
      + rewrite fn_lookup_insert_ne by lia.
        rewrite decide_False; [done|]. intros ->. done.
    - intros x Hx. by apply fn_lookup_insert_ne. }
  unfold nb in Hst. by destruct v.
Qed.

Lemma bitmap_init_ok m D f bm :
  holds m D f → 0 ≤ bm_length bm → (∀ x, region (bm_bits bm) (bm_length bm) x → D x) →
  wp (bitmap_init bm)
    (λ _ m', changes D m m' ∧ ∃ g, holds m' D g ∧
       (∀ i, 0 ≤ i < 8 * bm_length bm → bm_bit g (bm_bits bm) i = false) ∧
       (∀ x, ¬ region (bm_bits bm) (bm_length bm) x → g x = f x)) m.
Proof.
  intros Hm Hlen HD. unfold bitmap_init. apply wp_bind.
  eapply wp_mono; [by apply (memset_ok _ _ _ _ _ _ Hm)|].
  intros r m' (_ & Hch & Hm'). split; [done|].
  eexists. split_and!; [exact Hm'| |].
  - intros i Hi. unfold bm_bit. pose proof (Z.div_lt_upper_bound i 8 (bm_length bm)).
    pose proof (Z.div_pos i 8).
    rewrite <- (Z2Nat.id (i / 8)) by lia.
    rewrite (blit_inside _ _ _ _ 0); [apply Z.bits_0|].
    apply lookup_replicate_2. lia.
  - intros x Hx. apply blit_outside. by rewrite length_replicate, Z2Nat.id.
Qed.

(** *** The scanning loops of bitmap_request_bits *)

Lemma byte_full_iff b : 0 ≤ b < 256 → b = 0xff ↔ ∀ k, 0 ≤ k < 8 → Z.testbit b k = true.
Proof.
  intros Hb. split.
  - intros -> k Hk. change 0xff with (Z.ones 8). by apply Z.ones_spec_low.
  - intros Hk. change 0xff with (Z.ones 8). apply Z.bits_inj'. intros k Hk0.
    destruct (decide (k < 8)).
    + rewrite Z.ones_spec_low by lia. by apply Hk.
    + rewrite Z.ones_spec_high by lia. apply (testbit_above 8); lia.
Qed.

(** A byte all of whose bits are set, seen through [bm_bit]. *)
Lemma full_byte_bits f bits q :
  0 ≤ f (bits + q) < 256 → f (bits + q) = 0xff ↔
  ∀ i, 8 * q ≤ i < 8 * q + 8 → bm_bit f bits i = true.
Proof.
  intros Hb. rewrite byte_full_iff by done. unfold bm_bit. split.
  - intros Hk i Hi. replace (i / 8) with q by zlia. apply Hk. zlia.
  - intros Hi k Hk. specialize (Hi (8 * q + k) ltac:(lia)).
    replace ((8 * q + k) / 8) with q in Hi by zlia.
    by replace ((8 * q + k) mod 8) with k in Hi by zlia.
Qed.

Lemma skip_full_bytes_ok m D f bm q fuel :
  holds m D f → 0 ≤ q ≤ bm_length bm →
  (∀ x, region (bm_bits bm) (bm_length bm + 1) x → D x) →
  (Z.to_nat (bm_length bm - q) < fuel)%nat →
  (∀ i, 0 ≤ i < 8 * q → bm_bit f (bm_bits bm) i = true) →
  ∃ r, skip_full_bytes fuel bm q m = Ok r m ∧ q ≤ r ≤ bm_length bm ∧
    (∀ i, 0 ≤ i < 8 * r → bm_bit f (bm_bits bm) i = true) ∧
    (r < bm_length bm → f (bm_bits bm + r) ≠ 0xff).
Proof.
  intros Hm Hq HD. revert q Hq. induction fuel as [|fuel IH]; intros q Hq Hfuel Hfull; [lia|].
  simpl. assert (Hq' : D (bm_bits bm + q)) by (apply HD; unfold region; lia).
  rewrite (bind_Ok _ _ _ _ _ (holds_load _ _ _ _ Hm Hq')).
  destruct (Z.eqb_spec (f (bm_bits bm + q)) 0xff) as [Heq|Hne];
    destruct (Z.ltb_spec q (bm_length bm)); simpl.
  - destruct (IH (q + 1)) as (r & -> & ? & ? & ?); [lia|lia| |].
    + intros i Hi. destruct (decide (i < 8 * q)); [apply Hfull; lia|].
      apply (full_byte_bits f (bm_bits bm) q); [by eapply holds_byte|done|lia].
    + exists r. split_and!; [done|lia..|done|done].
  - exists q. split_and!; [done|lia..|done|lia].
  - exists q. split_and!; [done|lia..|done|done].
  - exists q. split_and!; [done|lia..|done|done].
Qed.

Lemma skip_set_bits_ok m D f bm q k fuel :
  holds m D f → D (bm_bits bm + q) → 0 ≤ q → 0 ≤ k < 8 → (Z.to_nat (8 - k) ≤ fuel)%nat →
  (∀ i, 8 * q ≤ i < 8 * q + k → bm_bit f (bm_bits bm) i = true) →
  f (bm_bits bm + q) ≠ 0xff →
  ∃ r, skip_set_bits fuel bm q k m = Ok r m ∧ k ≤ r < 8 ∧
    (∀ i, 8 * q ≤ i < 8 * q + r → bm_bit f (bm_bits bm) i = true) ∧
    bm_bit f (bm_bits bm) (8 * q + r) = false.
Proof.
  intros Hm HD Hq. revert k. induction fuel as [|fuel IH]; intros k Hk Hfuel Hset Hne; [lia|].
  simpl. rewrite (bind_Ok _ _ _ _ _ (holds_load _ _ _ _ Hm HD)).
  pose proof (holds_byte _ _ _ _ Hm HD) as Hb.
  rewrite shiftl_1, u8_small by
    (pose proof (Z.pow_lt_mono_r 2 k 8); pose proof (Z.pow_pos_nonneg 2 k); lia).
  rewrite Z.land_comm, land_pow2 by lia.
  assert (Hbit : Z.testbit (f (bm_bits bm + q)) k = bm_bit f (bm_bits bm) (8 * q + k)).
  { unfold bm_bit. replace ((8 * q + k) / 8) with q by zlia.
    by replace ((8 * q + k) mod 8) with k by zlia. }
  rewrite Hbit. destruct (bm_bit f (bm_bits bm) (8 * q + k)) eqn:E.
  - rewrite (proj2 (Z.eqb_neq (2 ^ k) 0)) by (pose proof (Z.pow_pos_nonneg 2 k); lia). simpl.
    assert (Hset' : ∀ i, 8 * q ≤ i < 8 * q + (k + 1) → bm_bit f (bm_bits bm) i = true).
    { intros i Hi. destruct (decide (i = 8 * q + k)) as [->|]; [done|]. apply Hset. lia. }
    destruct (decide (k = 7)) as [->|].
    { exfalso. apply Hne, full_byte_bits; done. }
    destruct (IH (k + 1)) as (r & -> & ? & ? & ?); [lia|lia|done|done|].
    exists r. split_and!; [done|lia..|done|done].
  - rewrite Z.eqb_refl. simpl. exists k. split_and!; [done|lia..|done|done].
Qed.

(** The loop invariant of the run search: the last [count] bits are free, and
    no run of [n] starts before them. *)
Lemma find_run_ok m D f bm n left p c :
  holds m D f → (∀ i, p ≤ i < p + Z.of_nat left → D (bm_bits bm + i / 8)) →
  p + Z.of_nat left < 2 ^ 31 → 0 ≤ c < n → 0 ≤ p - c →
  run_free (bm_bit f (bm_bits bm)) (p - c) c →
  (∀ r, 0 ≤ r < p - c → ¬ run_free (bm_bit f (bm_bits bm)) r n) →
  ∃ r, find_run left bm p c n m = Ok r m ∧
    request_spec (bm_bit f (bm_bits bm)) n (p + Z.of_nat left) r.
Proof.
  intros Hm. set (B := bm_bit f (bm_bits bm)). revert p c.
  induction left as [|left IH]; intros p c HD Hp Hc Hpc Hfree Hno; simpl.
  { exists (-1). split; [done|]. right. split; [done|]. intros r Hr Hrn Hrun.
    destruct (decide (r < p - c)); [|lia]. by apply (Hno r). }
  rewrite (bind_Ok _ _ _ _ _ (bitmap_get_bit_ok _ _ _ bm p Hm ltac:(lia) ltac:(apply HD; lia))).
  fold B. rewrite (u32_small (p + 1)) by lia.
  assert (Hpow : 2 ^ (p mod 8) ≠ 0).
  { pose proof (Z.pow_pos_nonneg 2 (p mod 8)). pose proof (Z.mod_pos_bound p 8). lia. }
  replace (p + Z.of_nat (S left)) with (p + 1 + Z.of_nat left) in * by lia.
  destruct (B p) eqn:Ebit.
  - rewrite (proj2 (Z.eqb_neq _ 0) Hpow), (proj2 (Z.eqb_neq 0 n)) by lia.
    apply IH; [|lia..| |].
    + intros i Hi. apply HD. lia.
    + intros j Hj. lia.
    + intros r Hr Hrun. destruct (decide (r < p - c)); [apply (Hno r); [lia|done]|].
      specialize (Hrun p ltac:(lia)). congruence.
  - rewrite Z.eqb_refl, (u32_small (c + 1)) by lia.
    assert (Hfree' : run_free B (p - c) (c + 1)).
    { intros j Hj. destruct (decide (j = p)) as [->|]; [done|]. apply Hfree. lia. }
    destruct (Z.eqb_spec (c + 1) n) as [Hn|Hn].
    + exists (p - c). rewrite u32_small, i32_small by lia.
      split; [f_equal; lia|]. left. subst n. split_and!; [lia|lia|done|done].
    + apply IH; [|lia..| |].
      * intros i Hi. apply HD. lia.
      * by replace (p + 1 - (c + 1)) with (p - c) by lia.
      * by replace (p + 1 - (c + 1)) with (p - c) by lia.
Qed.

(** *** bitmap_request_bits *)

(** Where the search for a run of [n] bits stops: the loop for [n > 1] tests
    one bit past the end of the bitmap. *)
Definition request_limit (bm : bitmap) (n : Z) : Z :=
  if n =? 1 then 8 * bm_length bm else 8 * bm_length bm + 1.

(** The first free bit, which both cases of the search start from. *)
Lemma first_free_bit m D f bm :
  holds m D f → 0 ≤ bm_length bm →
  (∀ x, region (bm_bits bm) (bm_length bm + 1) x → D x) →
  (∃ i, 0 ≤ i < 8 * bm_length bm ∧ bm_bit f (bm_bits bm) i = false) →
  ∃ q k, skip_full_bytes (S (Z.to_nat (bm_length bm))) bm 0 m = Ok q m ∧
    0 ≤ q < bm_length bm ∧ 0 ≤ k < 8 ∧ skip_set_bits 9 bm q 0 m = Ok k m ∧
    bm_bit f (bm_bits bm) (8 * q + k) = false ∧
    (∀ i, 0 ≤ i < 8 * q + k → bm_bit f (bm_bits bm) i = true).
Proof.
  intros Hm Hlen HD (i & Hi & Hfree).
  destruct (skip_full_bytes_ok m D f bm 0 (S (Z.to_nat (bm_length bm))) Hm)
    as (q & Hq & Hqr & Hfull & Hnf); [lia|done|lia|intros; lia|].
  assert (q < bm_length bm).
  { destruct (decide (q < bm_length bm)); [done|]. rewrite Hfull in Hfree by lia. done. }
  destruct (skip_set_bits_ok m D f bm q 0 9 Hm) as (k & Hk & Hkr & Hset & Hz);
    [apply HD; unfold region; lia|lia|lia|lia|intros; lia|auto|].
  exists q, k. split_and!; [done|lia|lia|lia|lia|done|done|].
  intros j Hj. destruct (decide (j < 8 * q)); [apply Hfull|apply Hset]; lia.
Qed.

(** Nothing free: the [ASSERT] fires, the [return -1] below it is never
    reached. *)
Lemma request_full m D f bm n :
  holds m D f → 0 ≤ bm_length bm →
  (∀ x, region (bm_bits bm) (bm_length bm + 1) x → D x) →
  (∀ i, 0 ≤ i < 8 * bm_length bm → bm_bit f (bm_bits bm) i = true) →
  bitmap_request_bits bm n m = Panic bitmap_assert_site m.
Proof.
  intros Hm Hlen HD Hall.
  destruct (skip_full_bytes_ok m D f bm 0 (S (Z.to_nat (bm_length bm))) Hm)
    as (q & Hq & Hqr & Hfull & Hnf); [lia|done|lia|intros; lia|].
  assert (q = bm_length bm) as ->.
  { destruct (decide (q < bm_length bm)) as [Hlt|]; [|lia]. exfalso. apply Hnf; [done|].
    apply full_byte_bits; [eapply (holds_byte _ _ _ _ Hm), HD; unfold region; lia|].
    intros i Hi. apply Hall. lia. }
  unfold bitmap_request_bits. rewrite (bind_Ok _ _ _ _ _ Hq), Z.ltb_irrefl. done.
Qed.

Lemma request_found m D f bm n :
  holds m D f → 0 ≤ bm_length bm < 2 ^ 28 → 1 ≤ n →
  (∀ x, region (bm_bits bm) (bm_length bm + 1) x → D x) →
  (∃ i, 0 ≤ i < 8 * bm_length bm ∧ bm_bit f (bm_bits bm) i = false) →
  ∃ r, bitmap_request_bits bm n m = Ok r m ∧
    request_spec (bm_bit f (bm_bits bm)) n (request_limit bm n) r.
Proof.
  intros Hm Hlen Hn HD Hex.
  destruct (first_free_bit m D f bm Hm ltac:(lia) HD Hex) as (q & k & Hq & Hqr & Hkr & Hk & Hfree & Hset).
  unfold bitmap_request_bits, request_limit. rewrite (bind_Ok _ _ _ _ _ Hq).
  rewrite (proj2 (Z.ltb_lt q _)), bind_assert, (proj2 (Z.eqb_neq q _)) by lia.
  rewrite (bind_Ok _ _ _ _ _ Hk).
  rewrite (u32_small (q * 8)), (u32_small (q * 8 + k)), i32_small by lia.
  replace (q * 8 + k) with (8 * q + k) by lia. set (s := 8 * q + k) in *.
  assert (Hs : 0 ≤ s < 8 * bm_length bm) by lia.
  destruct (Z.eqb_spec n 1) as [->|Hn1].
  - exists s. split; [done|]. left. split_and!; [lia..| |].
    + intros j Hj. by replace j with s by lia.
    + intros r' Hr' Hrun. specialize (Hrun r' ltac:(lia)). rewrite Hset in Hrun by lia. done.
  - rewrite (u32_small (bm_length bm * 8)), (u32_small (_ - s)), (u32_small (s + 1)) by lia.
    destruct (find_run_ok m D f bm n (Z.to_nat (bm_length bm * 8 - s)) (s + 1) 1 Hm)
      as (r & Hr & Hspec); [|lia..| | |].
    + intros i Hi. apply HD. unfold region. zlia.
    + intros j Hj. by replace j with s by lia.
    + intros r' Hr' Hrun. specialize (Hrun r' ltac:(lia)). rewrite Hset in Hrun by lia. done.
    + exists r. split; [done|].
      by replace (s + 1 + Z.of_nat (Z.to_nat (bm_length bm * 8 - s)))
        with (8 * bm_length bm + 1) in Hspec by lia.
Qed.

(** bitmap_request_bits, complete: it returns the first run of free bits, or
    [-1], or it panics when no bit is free at all; it never runs out of fuel,
    and it reads only the bitmap and the one byte after it. *)
Theorem bitmap_request_bits_ok m D f bm n :
  holds m D f → 0 ≤ bm_length bm < 2 ^ 28 → 1 ≤ n →
  (∀ x, region (bm_bits bm) (bm_length bm + 1) x → D x) →
  wpp (bitmap_request_bits bm n)
    (λ r m', m' = m ∧ request_spec (bm_bit f (bm_bits bm)) n (request_limit bm n) r)
    (λ site m', m' = m ∧ site = bitmap_assert_site ∧
       ∀ i, 0 ≤ i < 8 * bm_length bm → bm_bit f (bm_bits bm) i = true) m.
Proof.
  intros Hm Hlen Hn HD.
  destruct (decide (Exists (λ i, bm_bit f (bm_bits bm) i = false)
                     (seqZ 0 (8 * bm_length bm)))) as [Hex|Hall].
  - apply Exists_exists in Hex as (i & Hi & Hfree). apply elem_of_seqZ in Hi.
    destruct (request_found m D f bm n Hm Hlen Hn HD) as (r & Hr & Hspec).
    { exists i. split; [lia|done]. }
    unfold wpp. rewrite Hr. done.
  - unfold wpp. rewrite (request_full m D f bm n Hm ltac:(lia) HD).
    { split_and!; [done|done|]. intros i Hi.
      destruct (bm_bit f (bm_bits bm) i) eqn:E; [done|]. exfalso. apply Hall, Exists_exists.
      exists i. split; [|done]. apply elem_of_seqZ. lia. }
    intros i Hi. destruct (bm_bit f (bm_bits bm) i) eqn:E; [done|]. exfalso.
    apply Hall, Exists_exists. exists i. split; [|done]. apply elem_of_seqZ. lia.
Qed.
(** A request for a single bit: the lowest free one, or a panic; never [-1]. *)
Lemma bitmap_request_one_ok m D f bm :
  holds m D f → 0 ≤ bm_length bm < 2 ^ 28 →
  (∀ x, region (bm_bits bm) (bm_length bm + 1) x → D x) →
  wpp (bitmap_request_bits bm 1)
    (λ r m', m' = m ∧ first_run (bm_bit f (bm_bits bm)) 1 (8 * bm_length bm) r)
    (λ site m', m' = m ∧ site = bitmap_assert_site ∧
       ∀ i, 0 ≤ i < 8 * bm_length bm → bm_bit f (bm_bits bm) i = true) m.
Proof.
  intros Hm Hlen HD. pose proof (bitmap_request_bits_ok m D f bm 1 Hm Hlen ltac:(lia) HD) as Hwp.
  unfold wpp in *. destruct (bitmap_request_bits bm 1 m) as [r m'|x m'| | |] eqn:Hr; try done.
  destruct Hwp as [-> [Hrun|[-> Hno]]]; [done|]. exfalso.
  rewrite (request_full m D f bm 1 Hm ltac:(lia) HD) in Hr; [done|].
  intros i Hi. destruct (bm_bit f (bm_bits bm) i) eqn:E; [done|]. exfalso.
  apply (Hno i); [lia|unfold request_limit; simpl; lia|].
  intros j Hj. by replace j with i by lia.
Qed.
End bitmap_spec.

(** ** Properties *)

Section bitmap_properties.
Context {M : Type} `{ByteMemOk M}.

(** Setting bit [i] and reading bit [j] gives the new value for [j = i] and
    the old one for every other bit, wherever the two bits lie in the bytes; a
    set bit reads as a non-zero mask, not as 1. *)
Theorem bitmap_set_then_get m (D : Z → Prop) f bm i j value :
  holds m D f → 0 ≤ i → 0 ≤ j → D (bm_bits bm + i / 8) → D (bm_bits bm + j / 8) →
  wp (_ ← bitmap_set_bit bm i value; bitmap_get_bit bm j)
    (λ r m', changes D m m' ∧
       r = if (if decide (j = i) then negb (value =? 0) else bm_bit f (bm_bits bm) j)
           then 2 ^ (j mod 8) else 0) m.
Proof.
  intros Hm Hi Hj HDi HDj. apply wp_bind.
  eapply wp_mono; [by apply (bitmap_set_bit_ok _ _ _ _ _ _ Hm)|].
  intros [] m' (Hch & g & Hg & Hbits & _). apply wp_Ok. eexists _, _.
  split; [by apply (bitmap_get_bit_ok _ _ _ _ _ Hg)|]. by rewrite Hbits.
Qed.


(** A single bit is always found inside the bitmap; a longer run is, as
    long as the bit after the last one reads as taken. *)
Theorem bitmap_request_inside m (D : Z → Prop) f bm n r :
  holds m D f → 0 ≤ bm_length bm < 2 ^ 28 → 1 ≤ n →
  (∀ x, region (bm_bits bm) (bm_length bm + 1) x → D x) →
  n = 1 ∨ bm_bit f (bm_bits bm) (8 * bm_length bm) = true →
  bitmap_request_bits bm n m = Ok r m → r ≠ -1 →
  0 ≤ r ∧ r + n ≤ 8 * bm_length bm ∧ run_free (bm_bit f (bm_bits bm)) r n.
Proof.
  intros Hm Hlen Hn HD Hguard Hr Hr1.
  pose proof (bitmap_request_bits_ok m D f bm n Hm Hlen Hn HD) as Hwp.
  unfold wpp in Hwp. rewrite Hr in Hwp.
  destruct Hwp as [_ [(H0' & Hlim & Hrun & _)|[? _]]]; [|done].
  split_and!; [done| |done]. unfold request_limit in Hlim.
  destruct (Z.eqb_spec n 1) as [|Hn1]; [lia|]. destruct Hguard as [|Hguard]; [done|].
  destruct (decide (r + n ≤ 8 * bm_length bm)); [done|].
  rewrite Hrun in Hguard by lia. done.
Qed.

(** The run search tests one bit too many: when only the last [n - 1] bits
    of the bitmap are free and the byte after it is zero, a request for [n >= 2]
    bits succeeds with a run whose last bit is outside the bitmap. *)
Theorem bitmap_request_past_end m (D : Z → Prop) f bm n :
  holds m D f → 0 ≤ bm_length bm < 2 ^ 28 → 2 ≤ n ≤ 8 * bm_length bm →
  (∀ x, region (bm_bits bm) (bm_length bm + 1) x → D x) →
  (∀ i, 0 ≤ i < 8 * bm_length bm →
     bm_bit f (bm_bits bm) i = bool_decide (i < 8 * bm_length bm - (n - 1))) →
  f (bm_bits bm + bm_length bm) = 0 →
  ∃ r, bitmap_request_bits bm n m = Ok r m ∧ r + n = 8 * bm_length bm + 1.
Proof.
  intros Hm Hlen Hn HD Hbits Hnext. set (L := 8 * bm_length bm) in *.
  assert (Hrun : run_free (bm_bit f (bm_bits bm)) (L - (n - 1)) n).
  { intros j Hj. destruct (decide (j < L)).
    - rewrite Hbits by lia. apply bool_decide_eq_false_2. lia.
    - unfold bm_bit. replace (j / 8) with (bm_length bm) by (subst L; zlia).
      rewrite Hnext. apply Z.bits_0. }
  assert (Hset : ∀ i, 0 ≤ i < L - (n - 1) → bm_bit f (bm_bits bm) i = true).
  { intros i Hi. rewrite Hbits by lia. apply bool_decide_eq_true_2. lia. }
  destruct (request_found m D f bm n Hm Hlen ltac:(lia) HD) as (r & Hr & Hspec).
  { exists (L - 1). split; [lia|]. apply Hrun. lia. }
  exists r. split; [done|].
  assert (Hlimit : request_limit bm n = L + 1).
  { unfold request_limit. by rewrite (proj2 (Z.eqb_neq n 1)) by lia. }
  rewrite Hlimit in Hspec. destruct Hspec as [(Hr0 & Hrl & Hfree & Hmin)|[-> Hno]].
  - destruct (decide (r < L - (n - 1))) as [Hlt|]; [|lia].
    specialize (Hfree r ltac:(lia)). rewrite Hset in Hfree by lia. done.
  - exfalso. by apply (Hno (L - (n - 1)) ltac:(lia) ltac:(lia)).
Qed.
End bitmap_properties.

(** *** Witnesses: a bitmap of two bytes at address 200, followed by a zero byte *)

Definition demo_bitmap : bitmap := Bitmap 2 200.

Definition bitmap_mem (b0 b1 b2 : Z) : gmap Z Z := flat_of 200 [b0; b1; b2].

Definition bitmap_contents (b0 b1 b2 : Z) : Z → Z := blit (λ _, 0) 200 [b0; b1; b2].

Lemma bitmap_demo_holds b0 b1 b2 :
  0 ≤ b0 < 256 → 0 ≤ b1 < 256 → 0 ≤ b2 < 256 →
  holds (bitmap_mem b0 b1 b2) (region 200 3) (bitmap_contents b0 b1 b2).
Proof.
  intros. apply (flat_of_holds 200 [b0; b1; b2]). rewrite !Forall_cons, Forall_nil. done.
Qed.

Ltac demo_side := intros; unfold region, demo_bitmap in *; cbn -[Z.div] in *; zlia.

Lemma bitmap_set_then_get_witness :
  wp (_ ← bitmap_set_bit demo_bitmap 11 1; bitmap_get_bit demo_bitmap 11)
    (λ r m', changes (region 200 3) (bitmap_mem 255 1 0) m' ∧ r = 8) (bitmap_mem 255 1 0).
Proof.
  apply (bitmap_set_then_get (bitmap_mem 255 1 0) (region 200 3) (bitmap_contents 255 1 0)
           demo_bitmap 11 11 1).
  - apply bitmap_demo_holds; lia.
  - demo_side.
  - demo_side.
  - demo_side.
  - demo_side.
Defined.


Lemma bitmap_request_inside_witness :
  0 ≤ 4 ∧ 4 + 3 ≤ 16 ∧ run_free (bm_bit (bitmap_contents 0x8f 0xf8 0xff) 200) 4 3.
Proof.
  apply (bitmap_request_inside (bitmap_mem 0x8f 0xf8 0xff) (region 200 3)
           (bitmap_contents 0x8f 0xf8 0xff) demo_bitmap 3 4).
  - apply bitmap_demo_holds; lia.
  - demo_side.
  - demo_side.
  - demo_side.
  - right. reflexivity.
  - vm_compute. reflexivity.
  - demo_side.
Defined.

(** Only the last of the sixteen bits is free. *)
Lemma demo_tail_free i :
  0 ≤ i < 16 → bm_bit (bitmap_contents 0xff 0x7f 0) 200 i = bool_decide (i < 15).
Proof.
  intros Hi. assert (Hin : i ∈ seqZ 0 16) by (apply elem_of_seqZ; lia).
  assert (Hall : forallb (λ i, Bool.eqb (bm_bit (bitmap_contents 0xff 0x7f 0) 200 i) (i <? 15))
                   (seqZ 0 16) = true) by (vm_compute; reflexivity).
  rewrite forallb_forall in Hall.
  pose proof (Hall i (proj1 (list_elem_of_In _ _) Hin)) as Hb. apply Bool.eqb_prop in Hb.
  rewrite Hb.
  destruct (Z.ltb_spec i 15); symmetry; [apply bool_decide_eq_true_2|apply bool_decide_eq_false_2]; lia.
Qed.

(** Fifteen bits taken, one free, a zero byte behind: a request for two bits
    returns 15, and bit 16 does not exist. *)
Lemma bitmap_request_past_end_witness :
  bitmap_request_bits demo_bitmap 2 (bitmap_mem 0xff 0x7f 0) = Ok 15 (bitmap_mem 0xff 0x7f 0) ∧
  ∃ r, bitmap_request_bits demo_bitmap 2 (bitmap_mem 0xff 0x7f 0)
       = Ok r (bitmap_mem 0xff 0x7f 0) ∧ r + 2 = 17.
Proof.
  split; [vm_compute; reflexivity|].
  apply (bitmap_request_past_end (bitmap_mem 0xff 0x7f 0) (region 200 3)
           (bitmap_contents 0xff 0x7f 0) demo_bitmap 2).
  - apply bitmap_demo_holds; lia.
  - demo_side.
  - demo_side.
  - demo_side.
  - apply demo_tail_free.
  - reflexivity.
Defined.
