(* ===== verification/Interrupt.v ===== *)
(** * kernel/interrupt.c: the interrupt flag

    Module [Flag] is the part the rest of the kernel calls: reading, clearing,
    setting and restoring the interrupt flag of EFLAGS.  The part that runs once
    at start-up (interrupt controller, descriptor table, C handlers) is Idt.v. *)

From Stdlib Require Import ZArith Lia.
From stdpp Require Import base tactics gmap strings fin_maps functions list.
From S2P Require Import Prelude.

(** [enum intr_status] of include/interrupt.h *)
Inductive intr_status := INTR_OFF | INTR_ON.

#[global] Instance intr_status_eq_dec : EqDecision intr_status.
Proof. solve_decision. Defined.

Module Flag.
(** The state is the IF bit of EFLAGS; [sti] and [cli] are the instructions. *)
Definition sti : prog bool unit := modify (λ _, true).

Definition cli : prog bool unit := modify (λ _, false).

Definition intr_get_status : prog bool intr_status :=
  gets (λ eflags_if : bool, if eflags_if then INTR_ON else INTR_OFF).

Definition intr_enable : prog bool intr_status :=
  status ← intr_get_status;
  match status with
  | INTR_ON => mret INTR_ON
  | INTR_OFF => _ ← sti; mret INTR_OFF
  end.

Definition intr_disable : prog bool intr_status :=
  status ← intr_get_status;
  match status with
  | INTR_ON => _ ← cli; mret INTR_ON
  | INTR_OFF => mret INTR_OFF
  end.

(** [status & INTR_ON ? intr_enable() : intr_disable()] *)
Definition intr_set_status (status : intr_status) : prog bool intr_status :=
  match status with INTR_ON => intr_enable | INTR_OFF => intr_disable end.

Definition status_of (b : bool) : intr_status := if b then INTR_ON else INTR_OFF.

Lemma intr_disable_ok b : intr_disable b = Ok (status_of b) false.
Proof. by destruct b. Qed.

Lemma intr_enable_ok b : intr_enable b = Ok (status_of b) true.
Proof. by destruct b. Qed.

Lemma intr_set_status_ok b c : intr_set_status (status_of c) b = Ok (status_of b) c.
Proof. by destruct b, c. Qed.

(** A critical section: code between [intr_disable] and the restore of its
    result. *)
Definition critical {A} (body : prog bool A) : prog bool A :=
  old_status ← intr_disable;
  a ← body;
  _ ← intr_set_status old_status;
  mret a.
End Flag.
