(* ===== verification/DList.v ===== *)
(** * kernel/list.c: the intrusive doubly-linked lists

    The store maps the address of every [struct list_elem] to its two pointers.
    A [struct list] at address [l] is its sentinel [head] at [l] and its sentinel
    [tail] at [l + 8].  Each operation is the C code on that store; [dlist h l xs]
    says that the list at [l] holds the elements [xs], and the theorems give each
    operation as an operation on [xs] together with the nodes it may change. *)

From Stdlib Require Import ZArith Lia.
From stdpp Require Import base tactics gmap strings fin_maps functions list.
From S2P Require Import Prelude Interrupt.

(** [struct list_elem] *)
Record list_elem := ListElem { prev : Z; next : Z }.

#[global] Instance list_elem_eq_dec : EqDecision list_elem.
Proof. solve_decision. Defined.

(** What list.c touches: the interrupt flag and the list nodes. *)
Record core := Core { c_if : bool; c_nodes : gmap Z list_elem }.

Definition l_if : lens core bool.
Proof.
  refine (Lens c_if (λ b s, Core b (c_nodes s)) _ _ _); [done|by intros []|done].
Defined.

(** ** The code *)

(** [&list->head] and [&list->tail] *)
Definition list_head (l : Z) : Z := l.

Definition list_tail (l : Z) : Z := l + 8.

Definition intr_disable : prog core intr_status := zoom l_if Flag.intr_disable.

Definition intr_set_status (s : intr_status) : prog core intr_status :=
  zoom l_if (Flag.intr_set_status s).

(** [p->prev], [p->next], [p->prev = v], [p->next = v] *)
Definition load_elem (p : Z) : prog core list_elem := λ s,
  match c_nodes s !! p with Some e => Ok e s | None => Fault p s end.

Definition get_prev (p : Z) : prog core Z := e ← load_elem p; mret (prev e).

Definition get_next (p : Z) : prog core Z := e ← load_elem p; mret (next e).

Definition set_prev (p v : Z) : prog core unit :=
  e ← load_elem p;
  modify (λ s, Core (c_if s) (<[p := ListElem v (next e)]> (c_nodes s))).

Definition set_next (p v : Z) : prog core unit :=
  e ← load_elem p;
  modify (λ s, Core (c_if s) (<[p := ListElem (prev e) v]> (c_nodes s))).

Definition list_init (list : Z) : prog core unit :=
  _ ← set_prev (list_head list) NULL;
  _ ← set_next (list_head list) (list_tail list);
  _ ← set_prev (list_tail list) (list_head list);
  set_next (list_tail list) NULL.

Definition list_insert_before (before elem : Z) : prog core unit :=
  old_status ← intr_disable;
  p ← get_prev before;
  _ ← set_next p elem;
  p' ← get_prev before;
  _ ← set_prev elem p';
  _ ← set_next elem before;
  _ ← set_prev before elem;
  _ ← intr_set_status old_status;
  mret tt.

Definition list_push (plist elem : Z) : prog core unit :=
  first ← get_next (list_head plist);
  list_insert_before first elem.

Definition list_append (plist elem : Z) : prog core unit :=
  list_insert_before (list_tail plist) elem.

Definition list_remove (pelem : Z) : prog core unit :=
  old_status ← intr_disable;
  p ← get_prev pelem;
  n ← get_next pelem;
  _ ← set_next p n;
  n' ← get_next pelem;
  p' ← get_prev pelem;
  _ ← set_prev n' p';
  _ ← intr_set_status old_status;
  mret tt.

Definition list_pop (plist : Z) : prog core Z :=
  elem ← get_next (list_head plist);
  _ ← list_remove elem;
  mret elem.

Definition list_empty (plist : Z) : prog core bool :=
  n ← get_next (list_head plist);
  mret (n =? list_tail plist).

(** The loops walk [next] pointers until the tail.  A walk longer than the
    number of nodes goes round a cycle, so that number is fuel enough for every
    walk the C code finishes. *)
Definition walk_fuel : prog core nat := gets (λ s, S (size (c_nodes s))).

Fixpoint elem_find_loop (fuel : nat) (tail obj_elem elem : Z) : prog core bool :=
  match fuel with
  | O => no_fuel
  | S fuel' =>
      if elem =? tail then mret false else
      if elem =? obj_elem then mret true else
      n ← get_next elem; elem_find_loop fuel' tail obj_elem n
  end.

Definition elem_find (plist obj_elem : Z) : prog core bool :=
  fuel ← walk_fuel;
  elem ← get_next (list_head plist);
  elem_find_loop fuel (list_tail plist) obj_elem elem.

(** [func] is the callback; its result is a C truth value. *)
Fixpoint list_traversal_loop (fuel : nat) (tail : Z) (func : Z → Z → prog core Z)
    (arg elem : Z) : prog core Z :=
  match fuel with
  | O => no_fuel
  | S fuel' =>
      if elem =? tail then mret NULL else
      r ← func elem arg;
      if negb (r =? 0) then mret elem else
      n ← get_next elem; list_traversal_loop fuel' tail func arg n
  end.

Definition list_traversal (plist : Z) (func : Z → Z → prog core Z) (arg : Z) : prog core Z :=
  fuel ← walk_fuel;
  elem ← get_next (list_head plist);
  empty ← list_empty plist;
  if (empty : bool) then mret NULL else
  list_traversal_loop fuel (list_tail plist) func arg elem.

Fixpoint list_len_loop (fuel : nat) (tail elem length : Z) : prog core Z :=
  match fuel with
  | O => no_fuel
  | S fuel' =>
      if elem =? tail then mret length else
      n ← get_next elem; list_len_loop fuel' tail n (u32 (length + 1))
  end.

Definition list_len (plist : Z) : prog core Z :=
  fuel ← walk_fuel;
  elem ← get_next (list_head plist);
  list_len_loop fuel (list_tail plist) elem 0.

(** ** The representation predicate *)

(** [link h a b]: [a->next == b] and [b->prev == a]. *)
Definition link (h : gmap Z list_elem) (a b : Z) : Prop :=
  (next <$> h !! a) = Some b ∧ (prev <$> h !! b) = Some a.

Fixpoint linked (h : gmap Z list_elem) (ns : list Z) : Prop :=
  match ns with
  | a :: (b :: _) as ns' => link h a b ∧ linked h ns'
  | _ => True
  end.

(** The nodes of a list, sentinels included. *)
Definition nodes (l : Z) (xs : list Z) : list Z := list_head l :: xs ++ [list_tail l].

Record dlist (h : gmap Z list_elem) (l : Z) (xs : list Z) : Prop := {
  dlist_linked : linked h (nodes l xs);
  dlist_nodup : NoDup (nodes l xs);
  dlist_head : (prev <$> h !! list_head l) = Some NULL;
  dlist_tail : (next <$> h !! list_tail l) = Some NULL
}.

(** The stores agree outside [ns], and have the same nodes. *)
Definition same_outside (ns : list Z) (h h' : gmap Z list_elem) : Prop :=
  dom h' = dom h ∧ ∀ x, x ∉ ns → h' !! x = h !! x.

(** ** Lemmas on links *)

Section links.
Implicit Types (h : gmap Z list_elem) (ns : list Z).

Lemma linked_app h ns1 a b ns2 :
  linked h (ns1 ++ a :: b :: ns2) ↔
  linked h (ns1 ++ [a]) ∧ link h a b ∧ linked h (b :: ns2).
Proof.
  induction ns1 as [|c ns1 IH]; simpl.
  - tauto.
  - destruct ns1 as [|d ns1]; simpl in *; tauto.
Qed.

Lemma linked_cons h a b ns : linked h (a :: b :: ns) ↔ link h a b ∧ linked h (b :: ns).
Proof. done. Qed.

Lemma linked_tail h a ns : linked h (a :: ns) → linked h ns.
Proof. destruct ns as [|b ns]; simpl; tauto. Qed.

(** Only the [next] of all nodes but the last and the [prev] of all nodes but
    the first matter. *)
Lemma linked_ext_snoc h h' ns a :
  (∀ x, x ∈ ns → (next <$> h' !! x) = (next <$> h !! x)) →
  (∀ x, x ∈ ns ++ [a] → (prev <$> h' !! x) = (prev <$> h !! x)) →
  linked h (ns ++ [a]) → linked h' (ns ++ [a]).
Proof.
  intros Hn Hp. induction ns as [|b ns IH]; [done|].
  intros Hl. destruct ns as [|c ns]; simpl in *.
  - destruct Hl as [[H1 H2] _]. split; [|done]. split.
    + rewrite Hn; [done|set_solver].
    + rewrite Hp; [done|set_solver].
  - destruct Hl as [[H1 H2] Hl]. split.
    + split; [rewrite Hn; [done|set_solver] | rewrite Hp; [done|set_solver]].
    + apply IH; [set_solver|set_solver|done].
Qed.

Lemma linked_ext_cons h h' ns a :
  (∀ x, x ∈ a :: ns → (next <$> h' !! x) = (next <$> h !! x)) →
  (∀ x, x ∈ ns → (prev <$> h' !! x) = (prev <$> h !! x)) →
  linked h (a :: ns) → linked h' (a :: ns).
Proof.
  revert a. induction ns as [|b ns IH]; intros a Hn Hp; [done|].
  rewrite !linked_cons. intros [[H1 H2] Hl]. split.
  - split; [rewrite Hn; [done|set_solver] | rewrite Hp; [done|set_solver]].
  - apply IH; [set_solver|set_solver|done].
Qed.

Lemma linked_ext h h' ns :
  (∀ x, x ∈ ns → h' !! x = h !! x) → linked h ns → linked h' ns.
Proof.
  destruct ns as [|a ns]; [done|]. intros Heq.
  apply linked_ext_cons; intros x Hx; f_equal; apply Heq; set_solver.
Qed.

Lemma link_lookup h a b :
  link h a b → ∃ pa nb, h !! a = Some (ListElem pa b) ∧ (a ≠ b → h !! b = Some (ListElem a nb)).
Proof.
  intros [Ha Hb]. destruct (h !! a) as [[pa na]|] eqn:Ea; [|done].
  destruct (h !! b) as [[pb nb]|] eqn:Eb; [|done]. simpl in *. simplify_eq.
  by exists pa, nb.
Qed.

Lemma same_outside_refl ns h : same_outside ns h h.
Proof. done. Qed.

Lemma same_outside_trans ns h1 h2 h3 :
  same_outside ns h1 h2 → same_outside ns h2 h3 → same_outside ns h1 h3.
Proof.
  intros [Hd1 H1] [Hd2 H2]. split; [congruence|].
  intros x Hx. by rewrite H2, H1.
Qed.

Lemma same_outside_mono ns ns' h h' :
  (∀ x, x ∈ ns → x ∈ ns') → same_outside ns h h' → same_outside ns' h h'.
Proof. intros Hsub [Hd H]. split; [done|]. intros x Hx. apply H. auto. Qed.

Lemma same_outside_insert ns h h' a e :
  same_outside ns h h' → a ∈ ns → is_Some (h' !! a) → same_outside ns h (<[a:=e]> h').
Proof.
  intros [Hd H] Ha Hs. split.
  - rewrite dom_insert_L. apply elem_of_dom in Hs. rewrite Hd in *. set_solver.
  - intros x Hx. rewrite lookup_insert_ne by set_solver. by apply H.
Qed.

Lemma same_outside_size ns h h' : same_outside ns h h' → size h' = size h.
Proof. intros [Hd _]. by rewrite <- !size_dom, Hd. Qed.

(** A list depends on its nodes only. *)
Lemma dlist_ext h h' l xs : dlist h l xs → (∀ x, x ∈ nodes l xs → h' !! x = h !! x) → dlist h' l xs.
Proof.
  intros [Hl Hnd Hh Ht] Heq. split; [by eapply linked_ext|done| |].
  - rewrite Heq; [done|]. unfold nodes. set_solver.
  - rewrite Heq; [done|]. unfold nodes. set_solver.
Qed.

(** A list survives changes outside its nodes. *)
Lemma dlist_frame h h' l xs ns :
  dlist h l xs → same_outside ns h h' → (∀ x, x ∈ nodes l xs → x ∉ ns) → dlist h' l xs.
Proof. intros Hd [_ Hs] Hdisj. apply (dlist_ext h); [done|]. auto. Qed.
End links.

(** ** Symbolic execution *)

Section steps.
Implicit Types (b : bool) (h : gmap Z list_elem).

Lemma intr_disable_core b h : intr_disable (Core b h) = Ok (Flag.status_of b) (Core false h).
Proof. by destruct b. Qed.

Lemma intr_set_status_core b c h :
  intr_set_status (Flag.status_of c) (Core b h) = Ok (Flag.status_of b) (Core c h).
Proof. by destruct b, c. Qed.

Lemma get_prev_ok b h p e : h !! p = Some e → get_prev p (Core b h) = Ok (prev e) (Core b h).
Proof. intros Hp. unfold get_prev, load_elem. rewrite bind_unfold. simpl. by rewrite Hp. Qed.

Lemma get_next_ok b h p e : h !! p = Some e → get_next p (Core b h) = Ok (next e) (Core b h).
Proof. intros Hp. unfold get_next, load_elem. rewrite bind_unfold. simpl. by rewrite Hp. Qed.

Lemma set_prev_ok b h p v e :
  h !! p = Some e → set_prev p v (Core b h) = Ok tt (Core b (<[p := ListElem v (next e)]> h)).
Proof. intros Hp. unfold set_prev, load_elem. rewrite bind_unfold. simpl. by rewrite Hp. Qed.

Lemma set_next_ok b h p v e :
  h !! p = Some e → set_next p v (Core b h) = Ok tt (Core b (<[p := ListElem (prev e) v]> h)).
Proof. intros Hp. unfold set_next, load_elem. rewrite bind_unfold. simpl. by rewrite Hp. Qed.
End steps.

(** Run the next operation of list.c; its node is found among the insertions. *)
Ltac node_step :=
  first
    [ rewrite (bind_Ok _ _ _ _ _ (intr_disable_core _ _))
    | rewrite (bind_Ok _ _ _ _ _ (intr_set_status_core _ _ _))
    | erewrite bind_Ok; [|first [apply get_prev_ok | apply get_next_ok
                                | apply set_prev_ok | apply set_next_ok];
                          simplify_map_eq; reflexivity] ];
  cbv beta; simpl prev; simpl next.

Ltac node_steps := repeat node_step.

(** ** The operations on adjacent nodes *)

Section operations.
Implicit Types (b : bool) (h : gmap Z list_elem).

Lemma list_insert_before_ok b h ns1 p e before ns2 :
  linked h (ns1 ++ p :: before :: ns2) → NoDup (ns1 ++ p :: before :: ns2) →
  e ∉ ns1 ++ p :: before :: ns2 → is_Some (h !! e) →
  ∃ h', list_insert_before before e (Core b h) = Ok tt (Core b h') ∧
    linked h' (ns1 ++ p :: e :: before :: ns2) ∧
    same_outside [p; e; before] h h' ∧
    (prev <$> h' !! p) = (prev <$> h !! p) ∧ (next <$> h' !! before) = (next <$> h !! before).
Proof.
  intros Hl Hnd He [[ep en] Hel].
  apply linked_app in Hl as (Hl1 & Hlink & Hl2).
  apply NoDup_app in Hnd as (_ & Hnd12 & Hnd2).
  apply NoDup_cons in Hnd2 as [Hp Hnd2]. apply NoDup_cons in Hnd2 as [Hb _].
  assert (p ≠ before) as Hpb by set_solver. assert (e ≠ p ∧ e ≠ before) as [Hep Heb] by set_solver.
  destruct (link_lookup _ _ _ Hlink) as (pa & nb & Hpl & Hbl). specialize (Hbl Hpb).
  eexists. unfold list_insert_before. node_steps. split_and!; [done| | | |].
  - apply linked_app. split_and!.
    + eapply linked_ext_snoc; [..|exact Hl1]; intros x Hx.
      * rewrite !lookup_insert_ne by set_solver. done.
      * destruct (decide (x = p)) as [->|]; simplify_map_eq; [done|].
        rewrite !lookup_insert_ne by set_solver. done.
    + by split; simplify_map_eq.
    + apply linked_cons. split; [by split; simplify_map_eq|].
      eapply linked_ext_cons; [..|exact Hl2]; intros x Hx.
      * destruct (decide (x = before)) as [->|]; simplify_map_eq; [done|].
        rewrite !lookup_insert_ne by set_solver. done.
      * rewrite !lookup_insert_ne by set_solver. done.
  - repeat (apply same_outside_insert;
      [|set_solver|simplify_map_eq; done]). apply same_outside_refl.
  - by simplify_map_eq.
  - by simplify_map_eq.
Qed.

Lemma list_remove_ok b h ns1 p e n ns2 :
  linked h (ns1 ++ p :: e :: n :: ns2) → NoDup (ns1 ++ p :: e :: n :: ns2) →
  ∃ h', list_remove e (Core b h) = Ok tt (Core b h') ∧
    linked h' (ns1 ++ p :: n :: ns2) ∧ same_outside [p; n] h h' ∧
    (prev <$> h' !! p) = (prev <$> h !! p) ∧ (next <$> h' !! n) = (next <$> h !! n).
Proof.
  intros Hl Hnd.
  apply linked_app in Hl as (Hl1 & Hlink & Hl2). apply linked_cons in Hl2 as [Hlink2 Hl2].
  apply NoDup_app in Hnd as (_ & Hnd12 & Hnd2).
  apply NoDup_cons in Hnd2 as [Hp Hnd2]. apply NoDup_cons in Hnd2 as [He Hnd2].
  apply NoDup_cons in Hnd2 as [Hn _].
  assert (p ≠ e ∧ p ≠ n ∧ e ≠ n) as (Hpe & Hpn & Hen) by set_solver.
  destruct (link_lookup _ _ _ Hlink) as (pa & ne & Hpl & Hel). specialize (Hel Hpe).
  destruct (link_lookup _ _ _ Hlink2) as (pe & nn & Hel' & Hnl). specialize (Hnl Hen).
  assert (pe = p ∧ ne = n) as [-> ->] by (rewrite Hel in Hel'; by simplify_eq).
  clear Hel'.
  eexists. unfold list_remove. node_steps. split_and!; [done| | | |].
  - apply linked_app. split_and!.
    + eapply linked_ext_snoc; [..|exact Hl1]; intros x Hx.
      * rewrite !lookup_insert_ne by set_solver. done.
      * destruct (decide (x = p)) as [->|]; simplify_map_eq; [done|].
        rewrite !lookup_insert_ne by set_solver. done.
    + by split; simplify_map_eq.
    + eapply linked_ext_cons; [..|exact Hl2]; intros x Hx.
      * destruct (decide (x = n)) as [->|]; simplify_map_eq; [done|].
        rewrite !lookup_insert_ne by set_solver. done.
      * rewrite !lookup_insert_ne by set_solver. done.
  - repeat (apply same_outside_insert;
      [|set_solver|simplify_map_eq; done]). apply same_outside_refl.
  - by simplify_map_eq.
  - by simplify_map_eq.
Qed.
End operations.

(** ** The operations on the abstract list *)

Section lists.
Implicit Types (b : bool) (h : gmap Z list_elem) (xs : list Z).

Lemma snoc_view (a : Z) xs : ∃ ns p, a :: xs = ns ++ [p].
Proof.
  destruct (exists_last (l := a :: xs)) as (ns & p & Heq); [done|]. by exists ns, p.
Qed.

Lemma cons_view xs (z : Z) : ∃ n ns, xs ++ [z] = n :: ns.
Proof. destruct xs as [|n ns]; simpl; eauto. Qed.

Lemma nodes_elem l xs x : x ∈ nodes l xs ↔ x = list_head l ∨ x ∈ xs ∨ x = list_tail l.
Proof. unfold nodes. set_solver. Qed.

(** Insertion between the nodes of [xs1] and [xs2]: the node after [xs1] is
    the one list_insert_before is given. *)
Lemma dlist_insert b h l xs1 xs2 e before ns2 :
  dlist h l (xs1 ++ xs2) → e ∉ nodes l (xs1 ++ xs2) → is_Some (h !! e) →
  xs2 ++ [list_tail l] = before :: ns2 →
  ∃ h', list_insert_before before e (Core b h) = Ok tt (Core b h') ∧
    dlist h' l (xs1 ++ e :: xs2) ∧ same_outside (e :: nodes l (xs1 ++ xs2)) h h'.
Proof.
  intros [Hl Hnd Hh Ht] He Hs Hb.
  destruct (snoc_view (list_head l) xs1) as (ns1 & p & Hp).
  assert (Hsplit : nodes l (xs1 ++ xs2) = ns1 ++ p :: before :: ns2).
  { unfold nodes. rewrite <- app_assoc, Hb, app_comm_cons, Hp, <- app_assoc. done. }
  rewrite Hsplit in Hl, Hnd, He.
  destruct (list_insert_before_ok b h ns1 p e before ns2 Hl Hnd He Hs)
    as (h' & Hrun & Hl' & Hout & Hpp & Hnb).
  assert (Hsplit' : nodes l (xs1 ++ e :: xs2) = ns1 ++ p :: e :: before :: ns2).
  { unfold nodes. rewrite <- app_assoc. simpl. rewrite Hb, app_comm_cons, Hp, <- app_assoc. done. }
  assert (Hhead : list_head l ∈ ns1 ++ [p]) by (rewrite <- Hp; set_solver).
  assert (Htail : list_tail l ∈ before :: ns2) by (rewrite <- Hb; set_solver).
  apply NoDup_app in Hnd as (Hnd1 & Hdisj & Hnd2).
  pose proof Hnd2 as Hnd2'. apply NoDup_cons in Hnd2 as [Hp2 Hnd2].
  exists h'. split_and!; [done| |].
  - split.
    + by rewrite Hsplit'.
    + rewrite Hsplit'. apply NoDup_app. split_and!; [done|set_solver|].
      repeat (apply NoDup_cons; split); [set_solver|set_solver| |];
        apply NoDup_cons in Hnd2 as [? ?]; done.
    + destruct (decide (list_head l = p)) as [Heq|Hne].
      * rewrite Heq in *. by rewrite Hpp.
      * destruct Hout as [_ Hout]. rewrite Hout; [done|].
        rewrite !not_elem_of_cons. split_and!; [done|set_solver| |set_solver].
        intros Heq. apply (Hdisj (list_head l)); [set_solver|]. rewrite Heq. set_solver.
    + destruct (decide (list_tail l = before)) as [Heq|Hne].
      * rewrite Heq in *. by rewrite Hnb.
      * destruct Hout as [_ Hout]. rewrite Hout; [done|].
        rewrite !not_elem_of_cons. split_and!; [|set_solver|done|set_solver].
        intros Heq. apply Hp2. by rewrite <- Heq.
  - eapply same_outside_mono; [|exact Hout]. rewrite Hsplit. set_solver.
Qed.

Lemma dlist_next_head h l xs n ns :
  dlist h l xs → xs ++ [list_tail l] = n :: ns →
  ∃ e, h !! list_head l = Some e ∧ next e = n.
Proof.
  intros [Hl _ _ _] Hn. unfold nodes in Hl. rewrite Hn in Hl. destruct Hl as [[H1 _] _].
  destruct (h !! list_head l) as [e|]; [|done]. exists e. simpl in H1. by simplify_eq.
Qed.

Lemma list_push_ok b h l xs e :
  dlist h l xs → e ∉ nodes l xs → is_Some (h !! e) →
  ∃ h', list_push l e (Core b h) = Ok tt (Core b h') ∧
    dlist h' l (e :: xs) ∧ same_outside (e :: nodes l xs) h h'.
Proof.
  intros Hd He Hs. destruct (cons_view xs (list_tail l)) as (n & ns & Hn).
  destruct (dlist_next_head _ _ _ _ _ Hd Hn) as (eh & Hh & <-).
  destruct (dlist_insert b h l [] xs e _ ns Hd He Hs Hn) as (h' & Hrun & Hd' & Hout).
  exists h'. unfold list_push. rewrite (bind_Ok _ _ _ _ _ (get_next_ok b h _ _ Hh)). done.
Qed.

Lemma list_append_ok b h l xs e :
  dlist h l xs → e ∉ nodes l xs → is_Some (h !! e) →
  ∃ h', list_append l e (Core b h) = Ok tt (Core b h') ∧
    dlist h' l (xs ++ [e]) ∧ same_outside (e :: nodes l xs) h h'.
Proof.
  intros Hd He Hs. rewrite <- (app_nil_r xs) in Hd, He.
  destruct (dlist_insert b h l xs [] e (list_tail l) [] Hd He Hs eq_refl)
    as (h' & Hrun & Hd' & Hout).
  exists h'. rewrite app_nil_r in Hout. done.
Qed.

Lemma list_remove_list_ok b h l xs1 e xs2 :
  dlist h l (xs1 ++ e :: xs2) →
  ∃ h', list_remove e (Core b h) = Ok tt (Core b h') ∧
    dlist h' l (xs1 ++ xs2) ∧ same_outside (nodes l (xs1 ++ xs2)) h h'.
Proof.
  intros [Hl Hnd Hh Ht].
  destruct (snoc_view (list_head l) xs1) as (ns1 & p & Hp).
  destruct (cons_view xs2 (list_tail l)) as (n & ns2 & Hn).
  assert (Hsplit : nodes l (xs1 ++ e :: xs2) = ns1 ++ p :: e :: n :: ns2).
  { unfold nodes. rewrite <- app_assoc. simpl. rewrite Hn, app_comm_cons, Hp, <- app_assoc. done. }
  assert (Hsplit' : nodes l (xs1 ++ xs2) = ns1 ++ p :: n :: ns2).
  { unfold nodes. rewrite <- app_assoc, Hn, app_comm_cons, Hp, <- app_assoc. done. }
  rewrite Hsplit in Hl, Hnd.
  destruct (list_remove_ok b h ns1 p e n ns2 Hl Hnd) as (h' & Hrun & Hl' & Hout & Hpp & Hnn).
  assert (Hhead : list_head l ∈ ns1 ++ [p]) by (rewrite <- Hp; set_solver).
  assert (Htail : list_tail l ∈ n :: ns2) by (rewrite <- Hn; set_solver).
  apply NoDup_app in Hnd as (Hnd1 & Hdisj & Hnd2).
  apply NoDup_cons in Hnd2 as [Hp2 Hnd2]. apply NoDup_cons in Hnd2 as [He2 Hnd2].
  exists h'. split_and!; [done| |].
  - split.
    + by rewrite Hsplit'.
    + rewrite Hsplit'. apply NoDup_app. split_and!; [done|set_solver|].
      apply NoDup_cons. split; [set_solver|done].
    + destruct (decide (list_head l = p)) as [Heq|Hne].
      * rewrite Heq in *. by rewrite Hpp.
      * destruct Hout as [_ Hout]. rewrite Hout; [done|].
        rewrite !not_elem_of_cons. split_and!; [done| |set_solver].
        intros Heq. apply (Hdisj (list_head l)); [set_solver|]. rewrite Heq. set_solver.
    + destruct (decide (list_tail l = n)) as [Heq|Hne].
      * rewrite Heq in *. by rewrite Hnn.
      * destruct Hout as [_ Hout]. rewrite Hout; [done|].
        rewrite !not_elem_of_cons. split_and!; [|done|set_solver].
        intros Heq. apply Hp2. rewrite <- Heq. set_solver.
  - eapply same_outside_mono; [|exact Hout]. rewrite Hsplit'. set_solver.
Qed.

Lemma list_pop_ok b h l x xs :
  dlist h l (x :: xs) →
  ∃ h', list_pop l (Core b h) = Ok x (Core b h') ∧
    dlist h' l xs ∧ same_outside (nodes l xs) h h'.
Proof.
  intros Hd. destruct (dlist_next_head _ _ _ x (xs ++ [list_tail l]) Hd eq_refl) as (eh & Hh & Hx).
  destruct (list_remove_list_ok b h l [] x xs Hd) as (h' & Hrun & Hd' & Hout).
  exists h'. unfold list_pop. rewrite (bind_Ok _ _ _ _ _ (get_next_ok b h _ _ Hh)), Hx.
  by rewrite (bind_Ok _ _ _ _ _ Hrun).
Qed.

Lemma list_empty_ok b h l xs :
  dlist h l xs → list_empty l (Core b h) = Ok (bool_decide (xs = [])) (Core b h).
Proof.
  intros Hd. destruct (cons_view xs (list_tail l)) as (n & ns & Hn).
  destruct (dlist_next_head _ _ _ _ _ Hd Hn) as (eh & Hh & Hx).
  unfold list_empty. rewrite (bind_Ok _ _ _ _ _ (get_next_ok b h _ _ Hh)), Hx.
  destruct Hd as [_ Hnd _ _]. unfold nodes in Hnd. apply NoDup_cons in Hnd as [_ Hnd].
  destruct xs as [|y ys]; simpl in Hn; injection Hn as Hn1 _; rewrite <- Hn1 in *.
  - by rewrite Z.eqb_refl.
  - rewrite (proj2 (Z.eqb_neq y (list_tail l))); [done|]. intros Heq.
    apply NoDup_cons in Hnd as [Hy _]. set_solver.
Qed.

(** A well-formed list has fewer elements than the store has nodes. *)
Lemma dlist_size h l xs : dlist h l xs → (length xs < size h)%nat.
Proof.
  intros [Hl Hnd Hh Ht].
  assert (Hdom : ∀ ns, (2 ≤ length ns)%nat → linked h ns → ∀ x, x ∈ ns → x ∈ dom h).
  { clear. induction ns as [|a ns IH]; intros Hlen Hl x Hx; [simpl in Hlen; lia|].
    destruct ns as [|c ns]; [simpl in Hlen; lia|]. destruct Hl as [[H1 H2] Hl].
    assert (a ∈ dom h) by (apply elem_of_dom; destruct (h !! a); [eauto|done]).
    assert (c ∈ dom h) by (apply elem_of_dom; destruct (h !! c); [eauto|done]).
    destruct ns as [|d ns]; [set_solver|].
    apply elem_of_cons in Hx as [->|Hx]; [done|]. apply IH; [simpl; lia|done|done]. }
  assert (Hsub : list_to_set (nodes l xs) ⊆ dom h).
  { intros x Hx. apply elem_of_list_to_set in Hx. eapply Hdom; [|exact Hl|done].
    unfold nodes. simpl. rewrite length_app. simpl. lia. }
  apply subseteq_size in Hsub. rewrite size_list_to_set, size_dom in Hsub by done.
  unfold nodes in Hsub. simpl in Hsub. rewrite length_app in Hsub. simpl in Hsub. lia.
Qed.

(** Walking from the node before [ys]. *)
Lemma walk_next h l xs a y ys :
  dlist h l xs → xs = a ++ y :: ys →
  ∃ e n ns, h !! y = Some e ∧ ys ++ [list_tail l] = n :: ns ∧ next e = n ∧ y ≠ list_tail l.
Proof.
  intros [Hl Hnd _ _] ->. destruct (cons_view ys (list_tail l)) as (n & ns & Hn).
  assert (Hsplit : nodes l (a ++ y :: ys) = (list_head l :: a) ++ y :: n :: ns).
  { unfold nodes. rewrite <- app_assoc. simpl. by rewrite Hn. }
  rewrite Hsplit in Hl, Hnd. apply linked_app in Hl as (_ & [H1 _] & _).
  destruct (h !! y) as [e|] eqn:He; [|done]. simpl in H1. injection H1 as H1.
  exists e, n, ns. split_and!; [done..|]. intros Heq.
  apply NoDup_app in Hnd as (_ & _ & Hnd). apply NoDup_cons in Hnd as [Hy _].
  apply Hy. rewrite <- Hn, Heq. set_solver.
Qed.

Lemma elem_find_loop_ok b h l xs obj done_ ys n ns fuel :
  dlist h l xs → xs = done_ ++ ys → ys ++ [list_tail l] = n :: ns →
  (length ys < fuel)%nat → obj ≠ list_tail l →
  elem_find_loop fuel (list_tail l) obj n (Core b h) =
    Ok (bool_decide (obj ∈ ys)) (Core b h).
Proof.
  intros Hd. revert done_ n ns fuel. induction ys as [|y ys IH]; intros pre n ns fuel Hxs Hn Hfuel Hobj.
  - simpl in Hn. simplify_eq. destruct fuel; [simpl in Hfuel; lia|]. simpl.
    by rewrite Z.eqb_refl.
  - simpl in Hn. simplify_eq. destruct fuel as [|fuel]; [lia|]. simpl.
    destruct (walk_next h l _ pre n ys Hd eq_refl) as (e & n' & ns' & He & Hn' & Hnext & Hnt).
    rewrite (proj2 (Z.eqb_neq n (list_tail l))) by done.
    destruct (Z.eqb_spec n obj) as [->|Hne].
    { rewrite bool_decide_eq_true_2; [done|]. set_solver. }
    rewrite (bind_Ok _ _ _ _ _ (get_next_ok b h _ _ He)), Hnext.
    rewrite (IH (pre ++ [n]) n' ns'); [| |done|simpl in Hfuel; lia|done].
    + f_equal. apply bool_decide_ext. set_solver.
    + by rewrite <- app_assoc.
Qed.

Lemma elem_find_ok b h l xs obj :
  dlist h l xs → obj ≠ list_tail l →
  elem_find l obj (Core b h) = Ok (bool_decide (obj ∈ xs)) (Core b h).
Proof.
  intros Hd Hobj. destruct (cons_view xs (list_tail l)) as (n & ns & Hn).
  destruct (dlist_next_head _ _ _ _ _ Hd Hn) as (eh & Hh & Hx).
  unfold elem_find, walk_fuel. rewrite bind_gets. simpl c_nodes.
  rewrite (bind_Ok _ _ _ _ _ (get_next_ok b h _ _ Hh)), Hx.
  apply (elem_find_loop_ok b h l xs obj [] xs n ns); [done..| |done].
  pose proof (dlist_size _ _ _ Hd). lia.
Qed.

Lemma list_len_loop_ok b h l xs pre ys n ns fuel c :
  dlist h l xs → xs = pre ++ ys → ys ++ [list_tail l] = n :: ns →
  (length ys < fuel)%nat → 0 ≤ c → c + Z.of_nat (length ys) < 2 ^ 32 →
  list_len_loop fuel (list_tail l) n c (Core b h) =
    Ok (c + Z.of_nat (length ys)) (Core b h).
Proof.
  intros Hd. revert pre n ns fuel c. induction ys as [|y ys IH]; intros pre n ns fuel c Hxs Hn Hfuel Hc Hb.
  - simpl in Hn. simplify_eq. destruct fuel; [simpl in Hfuel; lia|]. simpl.
    rewrite Z.eqb_refl, Z.add_0_r. done.
  - simpl in Hn. simplify_eq. destruct fuel as [|fuel]; [lia|]. simpl in Hb |- *.
    destruct (walk_next h l _ pre n ys Hd eq_refl) as (e & n' & ns' & He & Hn' & Hnext & Hnt).
    rewrite (proj2 (Z.eqb_neq n (list_tail l))) by done.
    rewrite (bind_Ok _ _ _ _ _ (get_next_ok b h _ _ He)), Hnext, u32_small by lia.
    rewrite (IH (pre ++ [n]) n' ns'); [|by rewrite <- app_assoc|done|simpl in Hfuel; lia|lia|lia].
    f_equal. lia.
Qed.

Lemma list_len_ok b h l xs :
  dlist h l xs → Z.of_nat (length xs) < 2 ^ 32 →
  list_len l (Core b h) = Ok (Z.of_nat (length xs)) (Core b h).
Proof.
  intros Hd Hlen. destruct (cons_view xs (list_tail l)) as (n & ns & Hn).
  destruct (dlist_next_head _ _ _ _ _ Hd Hn) as (eh & Hh & Hx).
  unfold list_len, walk_fuel. rewrite bind_gets. simpl c_nodes.
  rewrite (bind_Ok _ _ _ _ _ (get_next_ok b h _ _ Hh)), Hx.
  apply (list_len_loop_ok b h l xs [] xs n ns); [done..| |lia|lia].
  pose proof (dlist_size _ _ _ Hd). lia.
Qed.
End lists.

Section more_lists.
Implicit Types (b : bool) (h : gmap Z list_elem) (xs : list Z).

Lemma list_init_ok b h l :
  is_Some (h !! list_head l) → is_Some (h !! list_tail l) →
  ∃ h', list_init l (Core b h) = Ok tt (Core b h') ∧
    dlist h' l [] ∧ same_outside (nodes l []) h h'.
Proof.
  intros [[hp hn] Hh] [[tp tn] Ht].
  assert (list_head l ≠ list_tail l) as Hne by (unfold list_head, list_tail; lia).
  eexists. unfold list_init. node_steps. split.
  { apply set_next_ok. simplify_map_eq. reflexivity. }
  split.
  - split; [|unfold nodes; simpl; apply NoDup_cons; split; [set_solver|by apply NoDup_singleton]
           |by simplify_map_eq|by simplify_map_eq].
    split; [|done]. by split; simplify_map_eq.
  - repeat (apply same_outside_insert; [|unfold nodes; set_solver|simplify_map_eq; done]).
    apply same_outside_refl.
Qed.

(** The callback answers like [g] and leaves the state alone. *)
Lemma list_traversal_loop_ok b h l xs func arg (g : Z → Z) pre ys n ns fuel :
  (∀ x, x ∈ xs → func x arg (Core b h) = Ok (g x) (Core b h)) →
  dlist h l xs → xs = pre ++ ys → ys ++ [list_tail l] = n :: ns →
  (length ys < fuel)%nat →
  list_traversal_loop fuel (list_tail l) func arg n (Core b h) =
    Ok (default NULL (List.find (λ x, negb (g x =? 0)) ys)) (Core b h).
Proof.
  intros Hfunc Hd. revert pre n ns fuel.
  induction ys as [|y ys IH]; intros pre n ns fuel Hxs Hn Hfuel.
  - simpl in Hn. simplify_eq. destruct fuel; [simpl in Hfuel; lia|]. simpl.
    by rewrite Z.eqb_refl.
  - simpl in Hn. simplify_eq. destruct fuel as [|fuel]; [lia|]. simpl.
    destruct (walk_next h l _ pre n ys Hd eq_refl) as (e & n' & ns' & He & Hn' & Hnext & Hnt).
    rewrite (proj2 (Z.eqb_neq n (list_tail l))) by done.
    rewrite (bind_Ok _ _ _ _ _ (Hfunc n ltac:(set_solver))).
    destruct (negb (g n =? 0)); [done|].
    rewrite (bind_Ok _ _ _ _ _ (get_next_ok b h _ _ He)), Hnext.
    apply (IH (pre ++ [n]) n' ns'); [by rewrite <- app_assoc|done|simpl in Hfuel; lia].
Qed.

Lemma list_traversal_ok b h l xs func arg (g : Z → Z) :
  (∀ x, x ∈ xs → func x arg (Core b h) = Ok (g x) (Core b h)) → dlist h l xs →
  list_traversal l func arg (Core b h) =
    Ok (default NULL (List.find (λ x, negb (g x =? 0)) xs)) (Core b h).
Proof.
  intros Hfunc Hd. destruct (cons_view xs (list_tail l)) as (n & ns & Hn).
  destruct (dlist_next_head _ _ _ _ _ Hd Hn) as (eh & Hh & Hx).
  unfold list_traversal, walk_fuel. rewrite bind_gets. simpl c_nodes.
  rewrite (bind_Ok _ _ _ _ _ (get_next_ok b h _ _ Hh)), Hx.
  rewrite (bind_Ok _ _ _ _ _ (list_empty_ok b h l xs Hd)).
  case_bool_decide as Hnil; [by subst|].
  apply (list_traversal_loop_ok b h l xs func arg g [] xs n ns); [done..|].
  pose proof (dlist_size _ _ _ Hd). lia.
Qed.

(** list_pop on an empty list unlinks the tail sentinel and dereferences its
    [next], which is [NULL]. *)
Lemma list_pop_nil b h l :
  dlist h l [] → h !! NULL = None →
  ∃ s', list_pop l (Core b h) = Fault NULL s' ∧ c_if s' = false ∧
        (next <$> c_nodes s' !! list_head l) = Some NULL.
Proof.
  intros [Hl _ _ Ht] Hnull. destruct Hl as [[H1 H2] _].
  assert (list_head l ≠ list_tail l) as Hne by (unfold list_head, list_tail; lia).
  destruct (h !! list_head l) as [[hp hn]|] eqn:Eh; [|done].
  destruct (h !! list_tail l) as [[tp tn]|] eqn:Et; [|done]. simpl in *. simplify_eq.
  assert (NULL ≠ list_head l) as Hn0 by congruence.
  unfold list_pop. rewrite (bind_Ok _ _ _ _ _ (get_next_ok b h _ _ Eh)). simpl next.
  unfold list_remove. rewrite bind_unfold. node_steps.
  unfold set_prev at 1. rewrite bind_unfold. unfold load_elem. rewrite bind_unfold. simpl.
  rewrite lookup_insert_ne by congruence. rewrite Hnull.
  eexists. split_and!; [done|done|]. simpl. by simplify_map_eq.
Qed.
End more_lists.

(** Decision procedures, for concrete stores. *)

#[global] Instance link_dec h a b : Decision (link h a b).
Proof. unfold link. apply _. Defined.

#[global] Instance linked_dec h ns : Decision (linked h ns).
Proof.
  induction ns as [|a ns IH]; simpl; [apply _|]. destruct ns; apply _.
Defined.

Lemma dlist_alt h l xs :
  dlist h l xs ↔
    (linked h (nodes l xs) ∧ NoDup (nodes l xs)) ∧
    (prev <$> h !! list_head l) = Some NULL ∧ (next <$> h !! list_tail l) = Some NULL.
Proof. split; [intros []|intros ([] & [])]; done. Qed.

#[global] Instance dlist_dec h l xs : Decision (dlist h l xs).
Proof.
  refine (cast_if (decide ((linked h (nodes l xs) ∧ NoDup (nodes l xs)) ∧
    (prev <$> h !! list_head l) = Some NULL ∧ (next <$> h !! list_tail l) = Some NULL)));
    by rewrite dlist_alt.
Defined.

(** ** Properties *)

(** C30 list_push and list_append put an element that is not in the list at its
    front and at its back; every other list of the store with no node in common
    keeps its elements, and the interrupt flag is what it was. *)
Theorem list_insert_refines b h l xs e :
  dlist h l xs → e ∉ nodes l xs → is_Some (h !! e) →
  (∃ h', list_push l e (Core b h) = Ok tt (Core b h') ∧ dlist h' l (e :: xs) ∧
     ∀ l' ys, dlist h l' ys → (∀ x, x ∈ nodes l' ys → x ∉ e :: nodes l xs) → dlist h' l' ys) ∧
  (∃ h', list_append l e (Core b h) = Ok tt (Core b h') ∧ dlist h' l (xs ++ [e]) ∧
     ∀ l' ys, dlist h l' ys → (∀ x, x ∈ nodes l' ys → x ∉ e :: nodes l xs) → dlist h' l' ys).
Proof.
  intros Hd He Hs. split.
  - destruct (list_push_ok b h l xs e Hd He Hs) as (h' & ? & ? & Hout).
    exists h'. split_and!; [done..|]. intros l' ys Hd' Hdisj. by eapply dlist_frame.
  - destruct (list_append_ok b h l xs e Hd He Hs) as (h' & ? & ? & Hout).
    exists h'. split_and!; [done..|]. intros l' ys Hd' Hdisj. by eapply dlist_frame.
Qed.

(** C31 list_remove takes exactly the given element out of the list it is in,
    wherever it stands; list_pop takes and returns the first one; disjoint lists
    and the interrupt flag are unchanged. *)
Theorem list_remove_refines b h l xs1 e xs2 :
  dlist h l (xs1 ++ e :: xs2) →
  (∃ h', list_remove e (Core b h) = Ok tt (Core b h') ∧ dlist h' l (xs1 ++ xs2) ∧
     ∀ l' ys, dlist h l' ys → (∀ x, x ∈ nodes l' ys → x ∉ nodes l (xs1 ++ xs2)) → dlist h' l' ys) ∧
  (xs1 = [] →
   ∃ h', list_pop l (Core b h) = Ok e (Core b h') ∧ dlist h' l xs2).
Proof.
  intros Hd. split.
  - destruct (list_remove_list_ok b h l xs1 e xs2 Hd) as (h' & ? & ? & Hout).
    exists h'. split_and!; [done..|]. intros l' ys Hd' Hdisj. by eapply dlist_frame.
  - intros ->. destruct (list_pop_ok b h l e xs2 Hd) as (h' & ? & ? & _). eauto.
Qed.

(** C35 The walks over a well-formed list terminate and answer for the abstract
    list: membership, length, emptiness, and the first element a callback accepts
    ([NULL] when there is none). *)
Theorem list_queries_exact b h l xs obj func arg (g : Z → Z) :
  dlist h l xs → Z.of_nat (length xs) < 2 ^ 32 → obj ≠ list_tail l →
  (∀ x, x ∈ xs → func x arg (Core b h) = Ok (g x) (Core b h)) →
  elem_find l obj (Core b h) = Ok (bool_decide (obj ∈ xs)) (Core b h) ∧
  list_len l (Core b h) = Ok (Z.of_nat (length xs)) (Core b h) ∧
  list_empty l (Core b h) = Ok (bool_decide (xs = [])) (Core b h) ∧
  list_traversal l func arg (Core b h) =
    Ok (default NULL (List.find (λ x, negb (g x =? 0)) xs)) (Core b h).
Proof.
  intros Hd Hlen Hobj Hfunc. split_and!.
  - by apply elem_find_ok.
  - by apply list_len_ok.
  - by apply list_empty_ok.
  - by apply list_traversal_ok.
Qed.

(** list_pop does not check for an empty list: it unlinks the tail sentinel,
    destroys the list and writes through a null pointer, with interrupts still
    disabled. *)
Theorem list_pop_empty_null_deref b h l :
  dlist h l [] → h !! NULL = None →
  ∃ s', list_pop l (Core b h) = Fault NULL s' ∧ c_if s' = false ∧ ¬ dlist (c_nodes s') l [].
Proof.
  intros Hd Hnull. destruct (list_pop_nil b h l Hd Hnull) as (s' & Hrun & Hif & Hnext).
  exists s'. split_and!; [done|done|]. intros [[[Hn _] _] _ _ _].
  rewrite Hnext in Hn. assert (Hz : list_tail l = NULL) by congruence.
  destruct Hd as [_ _ _ Ht]. rewrite Hz, Hnull in Ht. done.
Qed.

(** *** Witnesses: the list [30; 40] at address 1000 and an empty one at 2000 *)

Definition demo_store : gmap Z list_elem := list_to_map [
  (1000, ListElem 0 30); (30, ListElem 1000 40); (40, ListElem 30 1008);
  (1008, ListElem 40 0); (50, ListElem 0 0);
  (2000, ListElem 0 2008); (2008, ListElem 2000 0)].

Lemma list_insert_refines_witness :
  ∃ h', list_push 1000 50 (Core true demo_store) = Ok tt (Core true h') ∧
        dlist h' 1000 [50; 30; 40] ∧ dlist h' 2000 [].
Proof.
  destruct (list_insert_refines true demo_store 1000 [30; 40] 50) as [(h' & Hrun & Hd & Hframe) _].
  - apply (bool_decide_unpack _). vm_compute. exact I.
  - apply (bool_decide_unpack _). vm_compute. exact I.
  - exists (ListElem 0 0). reflexivity.
  - exists h'. split; [exact Hrun|]. split; [exact Hd|]. apply Hframe.
    + apply (bool_decide_unpack _). vm_compute. exact I.
    + intros x Hx Hx'. apply nodes_elem in Hx. unfold nodes, list_head, list_tail in *.
      set_solver by lia.
Defined.

Lemma list_remove_refines_witness :
  (∃ h', list_remove 40 (Core true demo_store) = Ok tt (Core true h') ∧ dlist h' 1000 [30] ∧
     ∀ l' ys, dlist demo_store l' ys → (∀ x, x ∈ nodes l' ys → x ∉ nodes 1000 [30]) →
       dlist h' l' ys) ∧
  ([30] = [] → ∃ h', list_pop 1000 (Core true demo_store) = Ok 40 (Core true h') ∧ dlist h' 1000 []).
Proof.
  apply (list_remove_refines true demo_store 1000 [30] 40 []).
  apply (bool_decide_unpack _). vm_compute. exact I.
Defined.

Lemma list_queries_exact_witness :
  elem_find 1000 40 (Core true demo_store) = Ok true (Core true demo_store) ∧
  list_len 1000 (Core true demo_store) = Ok 2 (Core true demo_store) ∧
  list_empty 1000 (Core true demo_store) = Ok false (Core true demo_store) ∧
  list_traversal 1000 (λ x arg, mret (c_bool (arg <? x))) 35 (Core true demo_store) =
    Ok 40 (Core true demo_store).
Proof.
  apply (list_queries_exact true demo_store 1000 [30; 40] 40
           (λ x arg, mret (c_bool (arg <? x))) 35 (λ x, c_bool (35 <? x))).
  - apply (bool_decide_unpack _). vm_compute. exact I.
  - simpl. lia.
  - unfold list_tail. lia.
  - intros x Hx. reflexivity.
Defined.

Lemma list_pop_empty_null_deref_witness :
  ∃ s', list_pop 2000 (Core true demo_store) = Fault NULL s' ∧ c_if s' = false ∧
        ¬ dlist (c_nodes s') 2000 [].
Proof.
  apply (list_pop_empty_null_deref true demo_store 2000).
  - apply (bool_decide_unpack _). vm_compute. exact I.
  - reflexivity.
Defined.
