(* ===== verification/Format.v ===== *)
(** * lib/vsprintf.c and lib/printf.c: formatted output

    The conversion engine at the level of character lists: the format is the list
    of its characters without the terminator, [*str++ = c] appends to the output,
    [va_arg] takes the next argument of a typed list.  A string argument is the
    list of its characters.  An argument of the wrong kind, or a missing one, is
    undefined behaviour. *)

From Stdlib Require Import ZArith Lia SpecFloat.
From stdpp Require Import base tactics gmap strings fin_maps functions list.
From S2P Require Import Prelude.

(** Characters of a literal. *)
Definition chars (s : string) : list Z :=
  (λ a, Z.of_nat (Ascii.nat_of_ascii a)) <$> String.list_ascii_of_string s.

Definition ch (s : string) : Z := hd 0 (chars s).

(** ** Flags *)

Definition ZEROPAD : Z := 0x01.
Definition SIGN : Z := 0x02.
Definition PLUS : Z := 0x04.
Definition SPACE : Z := 0x08.
Definition LEFT : Z := 0x10.
Definition SPECIAL : Z := 0x20.
Definition SMALL : Z := 0x40.
Definition DOUBLE : Z := 0x80.

(** [flags & f] as a condition *)
Definition has (flags f : Z) : bool := negb (Z.land flags f =? 0).

Definition is_digit (c : Z) : bool := (48 <=? c) && (c <=? 57).

(** [skip_atoi]: the number and the rest of the format. *)
Fixpoint skip_atoi (i : Z) (s : list Z) : Z * list Z :=
  match s with
  | c :: s' => if is_digit c then skip_atoi (i32 (i * 10 + c - 48)) s' else (i, s)
  | [] => (i, s)
  end.

(** ** number() *)

Definition upper_digits : list Z := chars "0123456789ABCDEFGHIJKLMNOPQRSTUVWXYZ".
Definition lower_digits : list Z := chars "0123456789abcdefghijklmnopqrstuvwxyz".

(** [digits[index]] *)
Definition digit (small : bool) (index : Z) : Z :=
  (if small then lower_digits else upper_digits) !!! Z.to_nat index.

(** [while (num != 0) { index = num % base; num /= base; tmp[i++] = digits[index]; }],
    least significant digit first.  A 32-bit number has at most 32 digits. *)
Fixpoint digits_loop (fuel : nat) (small : bool) (base num : Z) : list Z :=
  match fuel with
  | O => []
  | S fuel' =>
      if num =? 0 then [] else
      digit small (num mod base) :: digits_loop fuel' small base (num / base)
  end.

(** [do { ... } while (num)] *)
Definition digits_do (small : bool) (base num : Z) : list Z :=
  digit small (num mod base) :: digits_loop 32 small base (num / base).

(** [n] digits, as the mantissa loop of the [DOUBLE] case writes them. *)
Fixpoint digits_n (n : nat) (small : bool) (base num : Z) : list Z :=
  match n with
  | O => []
  | S n' => digit small (num mod base) :: digits_n n' small base (num / base)
  end.

(** [while (size-- > 0) *str++ = c]: the characters and the final [size]. *)
Fixpoint while_positive (fuel : nat) (size c : Z) : list Z * Z :=
  match fuel with
  | O => ([], size)
  | S fuel' =>
      if 0 <? size
      then let '(s, size') := while_positive fuel' (size - 1) c in (c :: s, size')
      else ([], size - 1)
  end.

Definition put_while (size c : Z) : list Z * Z :=
  while_positive (S (Z.to_nat size)) size c.

(** What [num] points to: a 32-bit integer, or a double. *)
Inductive numarg := NumInt (n : Z) | NumDouble (d : spec_float).

Inductive numres := NumStr (s : list Z) | NumNull | NumUndef.

(** The value of a finite float cut to an integer. *)
Definition sf_trunc (d : spec_float) : option Z :=
  match d with
  | S754_zero _ => Some 0
  | S754_finite s m e =>
      let a := if 0 <=? e then Z.pos m * 2 ^ e else Z.pos m / 2 ^ (- e) in
      Some (if s then - a else a)
  | _ => None
  end.

Section vsprintf_c.
(** The format the compiler evaluates [double] expressions in
    (FLT_EVAL_METHOD): [53 1024] for binary64, [64 16384] on the x87. *)
Variables eval_prec eval_emax : Z.

(** [(u32)d]: undefined when the value does not fit. *)
Definition double_to_u32 (d : spec_float) : option Z :=
  match sf_trunc d with
  | Some z => if (0 <=? z) && (z <? 2 ^ 32) then Some z else None
  | None => None
  end.

(** The digits of a double: six of the fraction, the point, the integer part,
    all in reverse. *)
Definition double_digits (small : bool) (base : Z) (d : spec_float) : option (list Z) :=
  match double_to_u32 d with
  | None => None
  | Some ival =>
      let frac := SFsub eval_prec eval_emax d (binary_normalize eval_prec eval_emax ival 0 false) in
      let scaled := SFmul eval_prec eval_emax frac
                      (binary_normalize eval_prec eval_emax 1000000 0 false) in
      match double_to_u32 scaled with
      | None => None
      | Some fval => Some (digits_n 6 small base fval ++ [ch "."] ++ digits_do small base ival)
      end
  end.

Definition number (num : numarg) (base size precision flags : Z) : numres :=
  let small := has flags SMALL in
  let flags := if has flags LEFT then Z.land flags (Z.lnot ZEROPAD) else flags in
  if (base <? 2) || (36 <? base) then NumNull else
  let pad := if has flags ZEROPAD then ch "0" else ch " " in
  let plain_sign := if has flags PLUS then ch "+" else if has flags SPACE then ch " " else 0 in
  let '(sign, num) :=
    match num with
    | NumDouble d =>
        if SFltb d (S754_zero false) then (ch "-", NumDouble (SFopp d)) else (plain_sign, num)
    | NumInt n =>
        if has flags SIGN && (i32 n <? 0) then (ch "-", NumInt (u32 (- i32 n)))
        else (plain_sign, num)
    end in
  let size := if negb (sign =? 0) then size - 1 else size in
  let size :=
    if has flags SPECIAL then
      if base =? 16 then size - 2 else if base =? 8 then size - 1 else size
    else size in
  let tmp :=
    match num with
    | NumDouble d => double_digits small base d
    | NumInt n => Some (if n =? 0 then [ch "0"] else digits_loop 32 small base n)
    end in
  match tmp with
  | None => NumUndef
  | Some tmp =>
      let i := Z.of_nat (length tmp) in
      let precision := if precision <? i then i else precision in
      let size := size - precision in
      let '(s1, size) :=
        if negb (has flags (ZEROPAD + LEFT)) then put_while size (ch " ") else ([], size) in
      let s2 := if negb (sign =? 0) then [sign] else [] in
      let s3 :=
        if has flags SPECIAL then
          if base =? 8 then [ch "0"]
          else if base =? 16 then [ch "0"; digit small 33] else []
        else [] in
      let '(s4, size) :=
        if negb (has flags LEFT) then put_while size pad else ([], size) in
      let '(s5, _) := put_while (precision - i) (ch "0") in
      let s6 := rev tmp in
      let '(s7, _) := put_while size (ch " ") in
      NumStr (s1 ++ s2 ++ s3 ++ s4 ++ s5 ++ s6 ++ s7)
  end.

(** ** vsprintf() *)

(** The arguments behind [va_list]: a word, a string, a double, the bytes a
    pointer points to, the address for [%n]. *)
Inductive arg :=
  | AInt (z : Z) | AStr (s : list Z) | ADouble (d : spec_float)
  | ABytes (bs : list Z) | APtr (p : Z).

(** The output so far, the arguments left, the stores of [%n]. *)
Record fstate := FState { f_out : list Z; f_args : list arg; f_stores : list (Z * Z) }.

Definition emit (s : list Z) : prog fstate unit :=
  modify (λ st, FState (f_out st ++ s) (f_args st) (f_stores st)).

Definition va_arg {A} (get_arg : arg → option A) : prog fstate A := λ st,
  match f_args st with
  | a :: rest =>
      match get_arg a with
      | Some v => Ok v (FState (f_out st) rest (f_stores st))
      | None => Undef "va_arg: wrong type" st
      end
  | [] => Undef "va_arg: no argument" st
  end.

Definition va_int : prog fstate Z :=
  va_arg (λ a, match a with AInt z => Some (i32 z) | _ => None end).
Definition va_ulong : prog fstate Z :=
  va_arg (λ a, match a with AInt z => Some (u32 z) | _ => None end).
Definition va_str : prog fstate (list Z) :=
  va_arg (λ a, match a with AStr s => Some s | _ => None end).
Definition va_double : prog fstate spec_float :=
  va_arg (λ a, match a with ADouble d => Some d | _ => None end).
Definition va_bytes : prog fstate (list Z) :=
  va_arg (λ a, match a with ABytes bs => Some bs | _ => None end).
Definition va_ptr : prog fstate Z :=
  va_arg (λ a, match a with APtr p => Some p | _ => None end).

(** [str = number(str, ...)] *)
Definition put_number (num : numarg) (base size precision flags : Z) : prog fstate unit :=
  match number num base size precision flags with
  | NumStr s => emit s
  | NumNull => undef "number: null result"
  | NumUndef => undef "number: double out of range"
  end.

(** The [repeat:] loop over the flag characters behind '%'. *)
Fixpoint parse_flags (s : list Z) (flags : Z) : Z * list Z :=
  match s with
  | c :: s' =>
      if c =? ch "-" then parse_flags s' (Z.lor flags LEFT)
      else if c =? ch "+" then parse_flags s' (Z.lor flags PLUS)
      else if c =? ch " " then parse_flags s' (Z.lor flags SPACE)
      else if c =? ch "#" then parse_flags s' (Z.lor flags SPECIAL)
      else if c =? ch "0" then parse_flags s' (Z.lor flags ZEROPAD)
      else (flags, s)
  | [] => (flags, s)
  end.

(** [*fmt]: the terminator at the end. *)
Definition cur (s : list Z) : Z := hd 0 s.

(** The field width: its value, the flags, the rest of the format. *)
Definition parse_width (s : list Z) (flags : Z) : prog fstate (Z * Z * list Z) :=
  if is_digit (cur s) then let '(w, s') := skip_atoi 0 s in mret (w, flags, s')
  else if cur s =? ch "*" then
    w ← va_int;
    if w <? 0 then mret (i32 (- w), Z.lor flags LEFT, tl s) else mret (w, flags, tl s)
  else mret (-1, flags, s).

Definition parse_precision (s : list Z) : prog fstate (Z * list Z) :=
  if cur s =? ch "." then
    let s := tl s in
    '(p, s) ← (if is_digit (cur s) then mret (skip_atoi 0 s)
               else if cur s =? ch "*" then p ← va_int; mret (p, s)
               else mret (-1, s));
    mret ((if (p : Z) <? 0 then 0 else p), s)
  else mret (-1, s).

(** The qualifier is skipped; no conversion looks at it. *)
Definition skip_qualifier (s : list Z) : list Z :=
  if (cur s =? ch "h") || (cur s =? ch "l") || (cur s =? ch "L") then tl s else s.

(** [while (--field_width > 0) *str++ = ' '] *)
Definition put_while_predec (field_width : Z) : list Z * Z :=
  let '(s, w) := put_while (field_width - 1) (ch " ") in (s, w + 1).

(** [while (len < field_width--) *str++ = ' '] *)
Definition put_while_lt (len field_width : Z) : list Z * Z :=
  let '(s, w) := put_while (field_width - len) (ch " ") in (s, w + len).

Definition conv_c (field_width flags : Z) : prog fstate unit :=
  let '(s1, field_width) :=
    if negb (has flags LEFT) then put_while_predec field_width else ([], field_width) in
  _ ← emit s1;
  c ← va_int;
  _ ← emit [u8 c];
  emit (fst (put_while_predec field_width)).

Definition conv_s (field_width precision flags : Z) : prog fstate unit :=
  s ← va_str;
  let len := Z.of_nat (length s) in
  let len := if precision <? 0 then len else if precision <? len then precision else len in
  let '(s1, field_width) :=
    if negb (has flags LEFT) then put_while_lt len field_width else ([], field_width) in
  emit (s1 ++ take (Z.to_nat len) s ++ fst (put_while_lt len field_width)).

(** The bytes of a MAC or IP address with a separator after each; the
    separator after the last one is taken back. *)
Fixpoint put_bytes (n : nat) (bs : list Z) (base size precision flags sep : Z) :
    prog fstate unit :=
  match n with
  | O => mret tt
  | S n' =>
      match bs with
      | [] => undef "address: too few bytes"
      | b :: bs' =>
          _ ← put_number (NumInt (u8 b)) base size precision flags;
          _ ← emit [sep];
          put_bytes n' bs' base size precision flags sep
      end
  end.

Definition unput : prog fstate unit :=
  modify (λ st, FState (removelast (f_out st)) (f_args st) (f_stores st)).

Definition conv_int (base field_width precision flags : Z) : prog fstate unit :=
  num ← va_ulong;
  put_number (NumInt num) base field_width precision flags.

(** The [switch] on the conversion character; the result is the rest of the
    format after the [++fmt] of the loop. *)
Definition convert (s : list Z) (field_width precision flags : Z) : prog fstate (list Z) :=
  let c := cur s in
  if c =? ch "c" then _ ← conv_c field_width flags; mret (tl s)
  else if c =? ch "s" then _ ← conv_s field_width precision flags; mret (tl s)
  else if c =? ch "o" then _ ← conv_int 8 field_width precision flags; mret (tl s)
  else if c =? ch "p" then
    let '(field_width, flags) :=
      if field_width =? -1 then (8, Z.lor flags ZEROPAD) else (field_width, flags) in
    _ ← conv_int 16 field_width precision flags; mret (tl s)
  else if c =? ch "x" then
    _ ← conv_int 16 field_width precision (Z.lor flags SMALL); mret (tl s)
  else if c =? ch "X" then _ ← conv_int 16 field_width precision flags; mret (tl s)
  else if (c =? ch "d") || (c =? ch "i") then
    _ ← conv_int 10 field_width precision (Z.lor flags SIGN); mret (tl s)
  else if c =? ch "u" then _ ← conv_int 10 field_width precision flags; mret (tl s)
  else if c =? ch "n" then
    ip ← va_ptr;
    _ ← modify (λ st, FState (f_out st) (f_args st)
                        (f_stores st ++ [(ip, Z.of_nat (length (f_out st)))]));
    mret (tl s)
  else if c =? ch "f" then
    d ← va_double;
    _ ← put_number (NumDouble d) 10 field_width precision (Z.lor (Z.lor flags SIGN) DOUBLE);
    mret (tl s)
  else if c =? ch "b" then _ ← conv_int 2 field_width precision flags; mret (tl s)
  else if c =? ch "m" then
    bs ← va_bytes;
    _ ← put_bytes 6 bs 16 2 precision (Z.lor flags (Z.lor SMALL ZEROPAD)) (ch ":");
    _ ← unput; mret (tl s)
  else if c =? ch "r" then
    bs ← va_bytes;
    _ ← put_bytes 4 bs 10 field_width precision (Z.lor flags SMALL) (ch ".");
    _ ← unput; mret (tl s)
  else
    _ ← (if negb (c =? ch "%") then emit [ch "%"] else mret tt);
    _ ← (if negb (c =? 0) then emit [c] else mret tt);
    mret (tl s).

Definition format_directive (s : list Z) : prog fstate (list Z) :=
  let '(flags, s) := parse_flags s 0 in
  '(field_width, flags, s) ← parse_width s flags;
  '(precision, s) ← parse_precision s;
  let s := skip_qualifier s in
  convert s field_width precision flags.

(** The outer loop: one iteration per ordinary character or directive. *)
Fixpoint format_loop (fuel : nat) (s : list Z) : prog fstate unit :=
  match fuel with
  | O => no_fuel
  | S fuel' =>
      match s with
      | [] => mret tt
      | c :: s' =>
          if negb (c =? ch "%") then _ ← emit [c]; format_loop fuel' s'
          else s'' ← format_directive s'; format_loop fuel' s''
      end
  end.

Definition vsprintf_assert_site : panic_site :=
  PanicSite "lib/vsprintf.c" 419 "vsprintf" "i < 1024".

Definition vsprintf (fmt : list Z) : prog fstate Z :=
  _ ← format_loop (S (length fmt)) fmt;
  i ← gets (λ st, Z.of_nat (length (f_out st)));
  _ ← c_assert vsprintf_assert_site (i <? 1024);
  mret i.

Definition sprintf (fmt : list Z) (args : list arg) : res fstate Z :=
  vsprintf fmt (FState [] args []).

(** print_str() prints up to the terminator. *)
Fixpoint until_nul (s : list Z) : list Z :=
  match s with
  | [] => []
  | c :: s' => if c =? 0 then [] else c :: until_nul s'
  end.

(** What happens on the screen: a string printed at the cursor, the cursor moved
    ([print_str] and [set_cursor] of prints.asm). *)
Inductive conop := CStr (s : list Z) | CCursor (pos : Z).

(** printf() formats into the static [buf[1024]] and prints it with print_str;
    the state is what the console was told so far.  Output that fills the buffer
    with no room for the terminator has overflowed it by the time the assertion
    of vsprintf runs.  The store of a "%n", which no caller in the kernel uses, is
    not carried out. *)
Definition printf (fmt : list Z) (args : list arg) : prog (list conop) unit := λ out,
  match sprintf fmt args with
  | Ok _ st => Ok tt (out ++ [CStr (until_nul (f_out st))])
  | Panic p _ => Panic p out
  | Fault a _ => Fault a out
  | Undef w _ => Undef w out
  | NoFuel _ => NoFuel out
  end.
End vsprintf_c.

Definition set_cursor (pos : Z) : prog (list conop) unit := modify (λ out, out ++ [CCursor pos]).

(** The format of double expressions, fixed for a whole build of the kernel. *)
Class FpEval := { fp_prec : Z; fp_emax : Z }.

(** printf() as the kernel calls it: a literal format. *)
Definition kprintf `{FpEval} (fmt : string) (args : list arg) : prog (list conop) unit :=
  printf fp_prec fp_emax (chars fmt) args.

(** ** Reading numbers back *)

Definition digit_val (c : Z) : Z :=
  if is_digit c then c - 48 else if (65 <=? c) && (c <=? 90) then c - 55 else c - 87.

(** The number a digit string stands for, most significant digit first. *)
Definition of_digits (base : Z) (s : list Z) : Z :=
  foldl (λ acc c, acc * base + digit_val c) 0 s.

(** A decimal with an optional minus sign. *)
Definition of_decimal (s : list Z) : Z :=
  match s with
  | c :: s' => if c =? ch "-" then - of_digits 10 s' else of_digits 10 s
  | [] => 0
  end.

(** ** Lemmas *)

Section format_lemmas.
Lemma while_positive_ok fuel size c :
  (Z.to_nat size < fuel)%nat →
  while_positive fuel size c = (replicate (Z.to_nat size) c, Z.min size 0 - 1).
Proof.
  revert size. induction fuel as [|fuel IH]; intros size Hf; [lia|]. simpl.
  destruct (Z.ltb_spec 0 size).
  - rewrite IH by lia. replace (Z.to_nat size) with (S (Z.to_nat (size - 1))) by lia.
    simpl. f_equal. lia.
  - replace (Z.to_nat size) with O by lia. simpl. f_equal. lia.
Qed.

Lemma put_while_ok size c :
  put_while size c = (replicate (Z.to_nat size) c, Z.min size 0 - 1).
Proof. apply while_positive_ok. lia. Qed.

(** The digit table is injective: every digit reads back as its index, and
    none of them is the minus sign. *)
Lemma digit_table small i :
  0 ≤ i < 36 → digit_val (digit small i) = i ∧ digit small i ≠ ch "-".
Proof.
  intros Hi. assert (Hin : i ∈ seqZ 0 36) by (apply elem_of_seqZ; lia).
  assert (Hall : Forall (λ i, digit_val (digit small i) = i ∧ digit small i ≠ ch "-") (seqZ 0 36)).
  { destruct small; apply (bool_decide_unpack _); vm_compute; exact I. }
  by apply (proj1 (Forall_forall _ _) Hall).
Qed.

Lemma digits_loop_value fuel small base n :
  2 ≤ base ≤ 36 → 0 ≤ n < base ^ Z.of_nat fuel →
  foldr (λ c acc, acc * base + digit_val c) 0 (digits_loop fuel small base n) = n.
Proof.
  intros Hb. revert n. induction fuel as [|fuel IH]; intros n Hn; simpl.
  - change (Z.of_nat 0) with 0 in Hn. lia.
  - destruct (Z.eqb_spec n 0) as [->|Hne]; [done|]. simpl.
    rewrite Nat2Z.inj_succ, Z.pow_succ_r in Hn by lia.
    pose proof (Z.mod_pos_bound n base).
    rewrite (proj1 (digit_table small (n mod base) ltac:(lia))), IH.
    + pose proof (Z.div_mod n base). lia.
    + split; [apply Z.div_pos; lia | apply Z.div_lt_upper_bound; lia].
Qed.

(** The digits of a 32-bit number: at least one, at most 32 (the array has
    36), with no leading zero unless the number is zero. *)
Definition digits_of (small : bool) (base n : Z) : list Z :=
  if n =? 0 then [ch "0"] else digits_loop 32 small base n.

Lemma of_digits_rev base ds :
  of_digits base (rev ds) = foldr (λ c acc, acc * base + digit_val c) 0 ds.
Proof.
  unfold of_digits. induction ds as [|c ds IH]; simpl; [done|].
  rewrite foldl_app. simpl. by rewrite IH.
Qed.

Lemma digits_of_value small base n :
  2 ≤ base ≤ 36 → 0 ≤ n < 2 ^ 32 → of_digits base (rev (digits_of small base n)) = n.
Proof.
  intros Hb Hn. rewrite of_digits_rev. unfold digits_of.
  destruct (Z.eqb_spec n 0) as [->|Hne]; [done|].
  apply digits_loop_value; [done|]. split; [lia|].
  apply Z.lt_le_trans with (2 ^ 32); [lia|]. apply Z.pow_le_mono_l. lia.
Qed.

Lemma digits_loop_length fuel small base n : (length (digits_loop fuel small base n) ≤ fuel)%nat.
Proof.
  revert n. induction fuel as [|fuel IH]; intros n; simpl; [done|].
  destruct (n =? 0); simpl; [lia|]. specialize (IH (n / base)). lia.
Qed.

Lemma digits_of_length small base n : (1 ≤ length (digits_of small base n) ≤ 32)%nat.
Proof.
  unfold digits_of. destruct (Z.eqb_spec n 0); [simpl; lia|].
  split; [|apply digits_loop_length].
  assert (Hpos : ∀ fuel, (1 ≤ length (digits_loop (S fuel) small base n))%nat).
  { intros fuel. simpl. rewrite (proj2 (Z.eqb_neq n 0)) by done. simpl. lia. }
  apply (Hpos 31%nat).
Qed.

Lemma digits_of_no_minus small base n c :
  2 ≤ base ≤ 36 → 0 ≤ n → c ∈ digits_of small base n → c ≠ ch "-".
Proof.
  intros Hb Hn. unfold digits_of. destruct (Z.eqb_spec n 0).
  { rewrite list_elem_of_singleton. intros ->. vm_compute. discriminate. }
  generalize 32%nat. intros fuel. clear n0. revert n Hn.
  induction fuel as [|fuel IH]; intros n Hn Hc; simpl in Hc; [set_solver|].
  destruct (n =? 0); [set_solver|]. apply elem_of_cons in Hc as [->|Hc].
  - apply digit_table. pose proof (Z.mod_pos_bound n base). lia.
  - apply (IH (n / base)); [apply Z.div_pos; lia|done].
Qed.

(** number() on an integer, as one list: padding, sign, prefix, zeros, digits. *)
Definition sign_of (n flags : Z) : Z :=
  if has flags SIGN && (i32 n <? 0) then ch "-"
  else if has flags PLUS then ch "+" else if has flags SPACE then ch " " else 0.

Definition magnitude (n flags : Z) : Z :=
  if has flags SIGN && (i32 n <? 0) then u32 (- i32 n) else n.

Definition sign_list (n flags : Z) : list Z :=
  if negb (sign_of n flags =? 0) then [sign_of n flags] else [].

Definition prefix_list (base flags : Z) : list Z :=
  if has flags SPECIAL then
    if base =? 8 then [ch "0"]
    else if base =? 16 then [ch "0"; digit (has flags SMALL) 33] else []
  else [].

Lemma has_mask_left flags f :
  Z.land ZEROPAD f = 0 → has (Z.land flags (Z.lnot ZEROPAD)) f = has flags f.
Proof.
  intros Hf. unfold has. f_equal. f_equal. rewrite <- Z.land_assoc. f_equal.
  rewrite Z.land_comm. apply Z.bits_inj'. intros k Hk.
  apply (f_equal (λ z, Z.testbit z k)) in Hf. rewrite Z.bits_0, Z.land_spec in Hf.
  rewrite Z.land_spec, Z.lnot_spec by done.
  destruct (Z.testbit f k), (Z.testbit ZEROPAD k); done.
Qed.
End format_lemmas.

Section number_lemmas.
Variables eval_prec eval_emax : Z.

Lemma has_zeropad_left flags :
  has flags (ZEROPAD + LEFT) = has flags ZEROPAD || has flags LEFT.
Proof.
  unfold has. change (ZEROPAD + LEFT) with (Z.lor ZEROPAD LEFT).
  rewrite Z.land_lor_distr_r.
  destruct (Z.eqb_spec (Z.land flags ZEROPAD) 0) as [->|Hz];
    destruct (Z.eqb_spec (Z.land flags LEFT) 0) as [->|Hl]; simpl.
  - done.
  - rewrite Z.lor_0_l. by rewrite (proj2 (Z.eqb_neq _ 0) Hl).
  - rewrite (proj2 (Z.eqb_neq _ 0)); [done|]. by rewrite Z.lor_0_r.
  - rewrite (proj2 (Z.eqb_neq _ 0)); [done|]. rewrite Z.lor_eq_0_iff. naive_solver.
Qed.

(** number() on an integer: blanks or zeros up to the width, sign and prefix,
    zeros up to the precision, the digits. *)
Definition number_parts (n base size precision flags : Z) : list Z :=
  let digits := rev (digits_of (has flags SMALL) base (magnitude n flags)) in
  let i := Z.of_nat (length digits) in
  let head := sign_list n flags ++ prefix_list base flags in
  let body := replicate (Z.to_nat (precision - i)) (ch "0") ++ digits in
  let w := Z.to_nat (size - Z.of_nat (length head) - Z.max i precision) in
  if has flags LEFT then head ++ body ++ replicate w (ch " ")
  else if has flags ZEROPAD then head ++ replicate w (ch "0") ++ body
  else replicate w (ch " ") ++ head ++ body.

Lemma digits_of_tmp small base n :
  (if n =? 0 then [ch "0"] else digits_loop 32 small base n) = digits_of small base n.
Proof. done. Qed.

Lemma prefix_size base flags size :
  (if has flags SPECIAL then
     if base =? 16 then size - 2 else if base =? 8 then size - 1 else size
   else size) = size - Z.of_nat (length (prefix_list base flags)).
Proof.
  unfold prefix_list. destruct (has flags SPECIAL); [|simpl; lia].
  destruct (Z.eqb_spec base 16) as [->|]; [simpl; lia|].
  destruct (base =? 8); simpl; lia.
Qed.

Lemma number_int_ok n base size precision flags :
  2 ≤ base ≤ 36 →
  number eval_prec eval_emax (NumInt n) base size precision flags =
    NumStr (number_parts n base size precision flags).
Proof.
  intros Hb. unfold number.
  set (flags' := if has flags LEFT then Z.land flags (Z.lnot ZEROPAD) else flags).
  assert (Hsame : ∀ f, Z.land ZEROPAD f = 0 → has flags' f = has flags f).
  { intros f Hf. unfold flags'. destruct (has flags LEFT); [by apply has_mask_left|done]. }
  assert (Hzp : has flags' ZEROPAD = has flags ZEROPAD && negb (has flags LEFT)).
  { unfold flags'. destruct (has flags LEFT); simpl; [|by rewrite andb_true_r].
    rewrite andb_false_r. unfold has. rewrite <- Z.land_assoc.
    by rewrite (Z.land_comm (Z.lnot _)), Z.land_lnot_diag, Z.land_0_r. }
  rewrite has_zeropad_left, Hzp, !Hsame by done.
  assert (Hbase : (base <? 2) || (36 <? base) = false).
  { apply orb_false_iff. split; apply Z.ltb_ge; lia. }
  rewrite Hbase.
  assert (Hpair : (if has flags SIGN && (i32 n <? 0) then (ch "-", NumInt (u32 (- i32 n)))
     else (if has flags PLUS then ch "+" else if has flags SPACE then ch " " else 0, NumInt n))
     = (sign_of n flags, NumInt (magnitude n flags))).
  { unfold sign_of, magnitude. by destruct (has flags SIGN && (i32 n <? 0)). }
  rewrite Hpair. cbv iota. rewrite digits_of_tmp.
  assert (Hprefix : prefix_list base flags' = prefix_list base flags).
  { unfold prefix_list. by rewrite !Hsame. }
  assert (Hsize : ∀ size, (if has flags SPECIAL then
     if base =? 16 then size - 2 else if base =? 8 then size - 1 else size
     else size) = size - Z.of_nat (length (prefix_list base flags))) by apply prefix_size.
  rewrite Hsize.
  set (digits := digits_of (has flags SMALL) base (magnitude n flags)).
  assert (Hs1 : (if negb (sign_of n flags =? 0) then size - 1 else size) =
                size - Z.of_nat (length (sign_list n flags))).
  { unfold sign_list. destruct (negb (sign_of n flags =? 0)); cbn [length]; lia. }
  rewrite Hs1. fold (sign_list n flags). fold (prefix_list base flags).
  assert (Hmax : (if precision <? Z.of_nat (length digits) then Z.of_nat (length digits) else precision)
    = Z.max (Z.of_nat (length digits)) precision).
  { destruct (Z.ltb_spec precision (Z.of_nat (length digits))); lia. }
  rewrite Hmax. f_equal. unfold number_parts. fold digits. rewrite length_rev, length_app.
  set (w := size - Z.of_nat (length (sign_list n flags)) - Z.of_nat (length (prefix_list base flags))
            - Z.max (Z.of_nat (length digits)) precision).
  replace (Z.to_nat (size - Z.of_nat (length (sign_list n flags) + length (prefix_list base flags)) -
             Z.max (Z.of_nat (length digits)) precision)) with (Z.to_nat w) by (subst w; lia).
  replace (Z.max (Z.of_nat (length digits)) precision - Z.of_nat (length digits))
    with (Z.max 0 (precision - Z.of_nat (length digits))) by lia.
  assert (Hzeros : Z.to_nat (Z.max 0 (precision - Z.of_nat (length digits)))
    = Z.to_nat (precision - Z.of_nat (length digits))) by lia.
  destruct (has flags LEFT), (has flags ZEROPAD); simpl; rewrite !put_while_ok;
    rewrite ?Hzeros; rewrite <- ?app_assoc; simpl;
    rewrite ?(Z2Nat.nonpos (Z.min w 0 - 1)), ?(Z2Nat.nonpos (Z.min (Z.min w 0 - 1) 0 - 1)) by lia;
    simpl; by rewrite ?app_nil_r.
Qed.

(** Where the digits stand: only blanks follow them. *)
Lemma number_parts_split n base size precision flags :
  ∃ before after,
    number_parts n base size precision flags =
      before ++ rev (digits_of (has flags SMALL) base (magnitude n flags)) ++ after ∧
    Forall (λ c, c = ch " ") after.
Proof.
  unfold number_parts. generalize (rev (digits_of (has flags SMALL) base (magnitude n flags))).
  intros d.
  assert (Hassoc : ∀ h z e w : list Z, h ++ (z ++ e) ++ w = (h ++ z) ++ e ++ w).
  { intros. by rewrite !app_assoc. }
  cbv zeta. destruct (has flags LEFT).
  - rewrite Hassoc. eexists _, _. split; [reflexivity|]. by apply Forall_replicate.
  - rewrite <- (app_nil_r (replicate _ (ch "0") ++ d)), Hassoc.
    destruct (has flags ZEROPAD); rewrite !app_assoc; rewrite <- (app_assoc _ d []);
      (eexists _, _; split; [reflexivity|by apply Forall_nil]).
Qed.

(** The length of the output: the width, or what the number needs. *)
Lemma number_parts_length n base size precision flags :
  Z.of_nat (length (number_parts n base size precision flags)) =
    Z.max size (Z.of_nat (length (sign_list n flags ++ prefix_list base flags)) +
      Z.max (Z.of_nat (length (digits_of (has flags SMALL) base (magnitude n flags)))) precision).
Proof.
  unfold number_parts. rewrite !length_rev.
  destruct (has flags LEFT), (has flags ZEROPAD);
    rewrite !length_app, !length_replicate, ?length_rev; lia.
Qed.
End number_lemmas.

(** ** Every format is processed to its end *)

(** [runs p Q st]: [p] ends in [Q], or stops at an argument that is missing or
    of the wrong kind; it never panics, faults or runs out of fuel. *)
Definition runs {S A} (p : prog S A) (Q : A → S → Prop) (s : S) : Prop :=
  match p s with Ok a s' => Q a s' | Undef _ _ => True | _ => False end.

Section runs_lemmas.
Variables eval_prec eval_emax : Z.
Implicit Types (st : fstate) (s : list Z).

Lemma runs_ret {A} (a : A) (Q : A → fstate → Prop) st : Q a st → runs (mret a) Q st.
Proof. done. Qed.

Lemma runs_bind {A B} (p : prog fstate A) (f : A → prog fstate B) Q st :
  runs p (λ a st', runs (f a) Q st') st → runs (p ≫= f) Q st.
Proof. unfold runs. rewrite bind_unfold. by destruct (p st). Qed.

Lemma runs_mono {A} (p : prog fstate A) (Q Q' : A → fstate → Prop) st :
  runs p Q st → (∀ a st', Q a st' → Q' a st') → runs p Q' st.
Proof. unfold runs. destruct (p st); auto. Qed.

(** Sequencing where only the fact that the first part runs matters. *)
Lemma runs_seq {A B} (p : prog fstate A) (f : A → prog fstate B) Q st :
  runs p (λ _ _, True) st → (∀ a st', runs (f a) Q st') → runs (p ≫= f) Q st.
Proof. intros Hp Hf. apply runs_bind. eapply runs_mono; [exact Hp|]. auto. Qed.

Lemma runs_emit s st : runs (emit s) (λ _ _, True) st.
Proof. done. Qed.

Lemma runs_undef {A} w Q st : runs (undef (A := A) w) Q st.
Proof. done. Qed.

Lemma runs_va_arg {A} (g : arg → option A) st : runs (va_arg g) (λ _ _, True) st.
Proof. unfold runs, va_arg. destruct (f_args st) as [|a ?]; [done|]. by destruct (g a). Qed.

Lemma runs_put_number num base size precision flags st :
  runs (put_number eval_prec eval_emax num base size precision flags) (λ _ _, True) st.
Proof. unfold put_number. by destruct (number _ _ _ _ _ _ _). Qed.

Lemma runs_put_bytes n bs base size precision flags sep st :
  runs (put_bytes eval_prec eval_emax n bs base size precision flags sep) (λ _ _, True) st.
Proof.
  revert bs st. induction n as [|n IH]; intros bs st; [done|].
  destruct bs as [|b bs]; [done|]. simpl.
  apply runs_seq; [apply runs_put_number|]. intros _ st1.
  apply runs_seq; [apply runs_emit|]. intros _ st2. apply IH.
Qed.

Lemma runs_conv_int base w p flags st :
  runs (conv_int eval_prec eval_emax base w p flags) (λ _ _, True) st.
Proof. apply runs_seq; [apply runs_va_arg|]. intros. apply runs_put_number. Qed.

Lemma runs_conv_c w flags st : runs (conv_c w flags) (λ _ _, True) st.
Proof.
  unfold conv_c. destruct (if negb (has flags LEFT) then _ else _) as [s1 w'].
  apply runs_seq; [apply runs_emit|]. intros.
  apply runs_seq; [apply runs_va_arg|]. intros.
  apply runs_seq; intros; apply runs_emit.
Qed.

Lemma runs_conv_s w p flags st : runs (conv_s w p flags) (λ _ _, True) st.
Proof.
  unfold conv_s. apply runs_seq; [apply runs_va_arg|]. intros s st'.
  by destruct (if negb (has flags LEFT) then _ else _) as [s1 w'].
Qed.

Local Ltac conv_case :=
  repeat first
    [ apply runs_ret; reflexivity
    | apply runs_seq; [first [apply runs_conv_c | apply runs_conv_s | apply runs_conv_int
        | apply runs_put_number | apply runs_put_bytes | apply runs_va_arg
        | done | case_match; done] | intros ? ?] ].

Lemma runs_convert s w p flags st :
  runs (convert eval_prec eval_emax s w p flags) (λ r _, r = tl s) st.
Proof.
  unfold convert. cbv zeta.
  repeat (case_match; [solve [by conv_case | case_match; by conv_case]|]). by conv_case.
Qed.

Lemma parse_flags_length s flags : (length (snd (parse_flags s flags)) ≤ length s)%nat.
Proof.
  revert flags. induction s as [|c s IH]; intros flags; simpl; [done|].
  repeat (case_match; [etrans; [apply IH|lia]|]). done.
Qed.

Lemma skip_atoi_length s i : (length (snd (skip_atoi i s)) ≤ length s)%nat.
Proof.
  revert i. induction s as [|c s IH]; intros i; simpl; [done|].
  destruct (is_digit c); [etrans; [apply IH|lia]|done].
Qed.

Lemma tl_length s : (length (tl s) ≤ length s)%nat.
Proof. destruct s; simpl; lia. Qed.

Lemma runs_parse_width s flags st :
  runs (parse_width s flags) (λ r _, (length (snd r) ≤ length s)%nat) st.
Proof.
  unfold parse_width. pose proof (skip_atoi_length s 0). pose proof (tl_length s).
  destruct (is_digit (cur s)).
  { destruct (skip_atoi 0 s). unfold runs; simpl in *. lia. }
  destruct (cur s =? ch "*"); [|unfold runs; simpl; lia].
  apply runs_seq; [apply runs_va_arg|]. intros w st'. case_match; unfold runs; simpl; lia.
Qed.

Lemma runs_parse_precision s st :
  runs (parse_precision s) (λ r _, (length (snd r) ≤ length s)%nat) st.
Proof.
  unfold parse_precision. destruct (cur s =? ch "."); [|unfold runs; simpl; lia]. cbv zeta.
  pose proof (tl_length s). pose proof (skip_atoi_length (tl s) 0).
  apply runs_bind. destruct (is_digit (cur (tl s))).
  { destruct (skip_atoi 0 (tl s)). unfold runs; simpl in *. lia. }
  destruct (cur (tl s) =? ch "*"); [|unfold runs; simpl; lia].
  apply runs_seq; [apply runs_va_arg|]. intros w st'. unfold runs; simpl. lia.
Qed.

Lemma runs_format_directive s st :
  runs (format_directive eval_prec eval_emax s) (λ r _, (length r ≤ length s)%nat) st.
Proof.
  unfold format_directive. pose proof (parse_flags_length s 0).
  destruct (parse_flags s 0) as [flags s1]. simpl in *.
  apply runs_bind. eapply runs_mono; [apply runs_parse_width|].
  intros [[w flags'] s2] st2 H2. simpl in H2.
  apply runs_bind. eapply runs_mono; [apply runs_parse_precision|].
  intros [p s3] st3 H3. simpl in H3. cbv zeta.
  eapply runs_mono; [apply runs_convert|]. intros r st4 ->.
  pose proof (tl_length (skip_qualifier s3)).
  assert (length (skip_qualifier s3) ≤ length s3)%nat; [|lia].
  unfold skip_qualifier. case_match; [apply tl_length|done].
Qed.

Lemma runs_format_loop fuel s st :
  (length s < fuel)%nat → runs (format_loop eval_prec eval_emax fuel s) (λ _ _, True) st.
Proof.
  revert s st. induction fuel as [|fuel IH]; intros s st Hlen; [lia|]. simpl.
  destruct s as [|c s]; [done|]. simpl in Hlen. destruct (negb (c =? ch "%")).
  - apply runs_seq; [apply runs_emit|]. intros. apply IH. lia.
  - apply runs_bind. eapply runs_mono; [apply runs_format_directive|].
    intros r st' Hr. simpl in Hr. apply IH. lia.
Qed.

(** *** Formats of one directive *)

Lemma vsprintf_directive s st st' :
  format_directive eval_prec eval_emax s st = Ok [] st' →
  vsprintf eval_prec eval_emax (37 :: s) st =
    (_ ← c_assert vsprintf_assert_site (Z.of_nat (length (f_out st')) <? 1024);
     mret (Z.of_nat (length (f_out st')))) st'.
Proof.
  intros Hd. unfold vsprintf. rewrite bind_unfold. simpl format_loop.
  replace (37 =? ch "%") with true by (vm_compute; reflexivity). simpl negb. cbv iota.
  rewrite (bind_Ok _ _ _ _ _ Hd). reflexivity.
Qed.

Lemma va_int_ok z out rest stores :
  va_int (FState out (AInt z :: rest) stores) = Ok (i32 z) (FState out rest stores).
Proof. done. Qed.

Lemma conv_int_ok base w p flags z out rest stores :
  2 ≤ base ≤ 36 →
  conv_int eval_prec eval_emax base w p flags (FState out (AInt z :: rest) stores) =
    Ok tt (FState (out ++ number_parts (u32 z) base w p flags) rest stores).
Proof.
  intros Hb. unfold conv_int. rewrite bind_unfold. simpl. unfold put_number.
  by rewrite number_int_ok.
Qed.

(** [%s] with width [w] and precision [p] *)
Definition string_field (s : list Z) (w p : Z) (left : bool) : list Z :=
  let s := if p <? 0 then s else take (Z.to_nat p) s in
  let blanks := replicate (Z.to_nat (w - Z.of_nat (length s))) (ch " ") in
  if left then s ++ blanks else blanks ++ s.

Lemma conv_s_ok w p flags s out rest stores :
  conv_s w p flags (FState out (AStr s :: rest) stores) =
    Ok tt (FState (out ++ string_field s w p (has flags LEFT)) rest stores).
Proof.
  unfold conv_s. rewrite bind_unfold. simpl. unfold string_field.
  set (s' := if p <? 0 then s else take (Z.to_nat p) s).
  set (len := if p <? 0 then _ else _).
  assert (Hlen : len = Z.of_nat (length s')).
  { unfold len, s'. destruct (p <? 0) eqn:E1; [done|]. zb. rewrite length_take.
    destruct (p <? Z.of_nat (length s)) eqn:E2; zb; lia. }
  assert (Htake : take (Z.to_nat len) s = s').
  { rewrite Hlen, Nat2Z.id. unfold s'. destruct (p <? 0); [by rewrite firstn_all|].
    rewrite length_take. destruct (decide (Z.to_nat p ≤ length s)%nat).
    - by rewrite Nat.min_l.
    - by rewrite Nat.min_r, firstn_all, take_ge by lia. }
  unfold put_while_lt. rewrite !put_while_ok.
  destruct (has flags LEFT); simpl; rewrite ?put_while_ok; simpl; rewrite Htake, Hlen.
  - done.
  - rewrite (Z2Nat.nonpos (Z.min (w - Z.of_nat (length s')) 0 - 1 +
      Z.of_nat (length s') - Z.of_nat (length s'))) by lia.
    simpl. by rewrite app_nil_r.
Qed.
(** *** Whole formats, piece by piece *)

(** The format [s] is processed from one state to the other. *)
Definition formats (s : list Z) (st st' : fstate) : Prop :=
  ∀ fuel, (length s < fuel)%nat → format_loop eval_prec eval_emax fuel s st = Ok tt st'.

Lemma formats_nil st : formats [] st st.
Proof. intros [|fuel] Hf; [simpl in Hf; lia|done]. Qed.

Lemma formats_lit lit s out args stores st' :
  Forall (λ c, (c =? 37) = false) lit → formats s (FState (out ++ lit) args stores) st' →
  formats (lit ++ s) (FState out args stores) st'.
Proof.
  intros Hlit. revert out. induction Hlit as [|c lit Hc _ IH]; intros out Hs; simpl.
  { by rewrite app_nil_r in Hs. }
  intros [|fuel] Hf; simpl in *; [lia|].
  replace (c =? ch "%") with false by (symmetry; exact Hc). simpl.
  apply (IH (out ++ [c])); [|lia]. by rewrite <- app_assoc.
Qed.

Lemma formats_directive s s' st st1 st' :
  format_directive eval_prec eval_emax s st = Ok s' st1 → (length s' ≤ length s)%nat →
  formats s' st1 st' → formats (37 :: s) st st'.
Proof.
  intros Hd Hlen Hs [|fuel] Hf; simpl in *; [lia|].
  rewrite (bind_Ok _ _ _ _ _ Hd). apply Hs. lia.
Qed.

Lemma formats_s x s out args stores st' :
  formats s (FState (out ++ x) args stores) st' →
  formats (37 :: 115 :: s) (FState out (AStr x :: args) stores) st'.
Proof.
  intros Hs. apply (formats_directive _ s _ (FState (out ++ x) args stores)); [|simpl; lia|exact Hs].
  unfold format_directive. change (parse_flags (115 :: s) 0) with (0, 115 :: s).
  cbv iota beta. unfold parse_width, parse_precision.
  change (is_digit (cur (115 :: s))) with false. change (cur (115 :: s) =? ch "*") with false.
  cbv iota. rewrite bind_ret. cbv iota beta. change (cur (115 :: s) =? ch ".") with false.
  cbv iota. rewrite bind_ret. cbv iota beta zeta.
  change (skip_qualifier (115 :: s)) with (115 :: s).
  change (convert eval_prec eval_emax (115 :: s) (-1) (-1) 0)
    with (_ ← conv_s (-1) (-1) 0; mret (M := prog fstate) s).
  rewrite (bind_Ok _ _ _ _ _ (conv_s_ok _ _ _ _ _ _ _)).
  replace (string_field x (-1) (-1) (has 0 LEFT)) with x; [done|].
  unfold string_field. change (-1 <? 0) with true. change (has 0 LEFT) with false. cbv iota zeta.
  by rewrite Z2Nat.nonpos by lia.
Qed.

(** The text of an integer without flags, width or precision. *)
Definition int_text (base flags z : Z) : list Z :=
  sign_list (u32 z) flags ++ rev (digits_of (has flags SMALL) base (magnitude (u32 z) flags)).

Lemma number_parts_plain base flags z :
  2 ≤ base ≤ 36 → has flags LEFT = false → has flags ZEROPAD = false → has flags SPECIAL = false →
  number_parts (u32 z) base (-1) (-1) flags = int_text base flags z.
Proof.
  intros Hb Hl Hz Hs. unfold number_parts, int_text, prefix_list. rewrite Hl, Hz, Hs, app_nil_r.
  rewrite !Z2Nat.nonpos by lia. done.
Qed.

Lemma formats_d z s out args stores st' :
  formats s (FState (out ++ int_text 10 SIGN z) args stores) st' →
  formats (37 :: 100 :: s) (FState out (AInt z :: args) stores) st'.
Proof.
  intros Hs. apply (formats_directive _ s _ (FState (out ++ int_text 10 SIGN z) args stores));
    [|simpl; lia|exact Hs].
  unfold format_directive. change (parse_flags (100 :: s) 0) with (0, 100 :: s).
  cbv iota beta. unfold parse_width, parse_precision.
  change (is_digit (cur (100 :: s))) with false. change (cur (100 :: s) =? ch "*") with false.
  cbv iota. rewrite bind_ret. cbv iota beta. change (cur (100 :: s) =? ch ".") with false.
  cbv iota. rewrite bind_ret. cbv iota beta zeta.
  change (skip_qualifier (100 :: s)) with (100 :: s).
  change (convert eval_prec eval_emax (100 :: s) (-1) (-1) 0)
    with (_ ← conv_int eval_prec eval_emax 10 (-1) (-1) SIGN; mret (M := prog fstate) s).
  rewrite (bind_Ok _ _ _ _ _ (conv_int_ok 10 (-1) (-1) SIGN z out args stores ltac:(lia))).
  by rewrite number_parts_plain.
Qed.

Lemma formats_x z s out args stores st' :
  formats s (FState (out ++ int_text 16 SMALL z) args stores) st' →
  formats (37 :: 120 :: s) (FState out (AInt z :: args) stores) st'.
Proof.
  intros Hs. apply (formats_directive _ s _ (FState (out ++ int_text 16 SMALL z) args stores));
    [|simpl; lia|exact Hs].
  unfold format_directive. change (parse_flags (120 :: s) 0) with (0, 120 :: s).
  cbv iota beta. unfold parse_width, parse_precision.
  change (is_digit (cur (120 :: s))) with false. change (cur (120 :: s) =? ch "*") with false.
  cbv iota. rewrite bind_ret. cbv iota beta. change (cur (120 :: s) =? ch ".") with false.
  cbv iota. rewrite bind_ret. cbv iota beta zeta.
  change (skip_qualifier (120 :: s)) with (120 :: s).
  change (convert eval_prec eval_emax (120 :: s) (-1) (-1) 0)
    with (_ ← conv_int eval_prec eval_emax 16 (-1) (-1) SMALL; mret (M := prog fstate) s).
  rewrite (bind_Ok _ _ _ _ _ (conv_int_ok 16 (-1) (-1) SMALL z out args stores ltac:(lia))).
  by rewrite number_parts_plain.
Qed.

Lemma int_text_length base flags z : (length (int_text base flags z) ≤ 33)%nat.
Proof.
  unfold int_text. rewrite length_app, length_rev.
  pose proof (digits_of_length (has flags SMALL) base (magnitude (u32 z) flags)).
  assert (length (sign_list (u32 z) flags) ≤ 1)%nat.
  { unfold sign_list. destruct (negb _); simpl; lia. }
  lia.
Qed.

Lemma formats_sprintf fmt args out rest stores :
  formats fmt (FState [] args []) (FState out rest stores) → Z.of_nat (length out) < 1024 →
  sprintf eval_prec eval_emax fmt args = Ok (Z.of_nat (length out)) (FState out rest stores).
Proof.
  intros Hf Hlen. unfold sprintf, vsprintf. rewrite (bind_Ok _ _ _ _ _ (Hf (S (length fmt)) ltac:(lia))).
  rewrite bind_gets. simpl f_out. by rewrite (proj2 (Z.ltb_lt _ 1024) Hlen).
Qed.
End runs_lemmas.

(** printf() in terms of sprintf() and of the pieces of the format. *)
Lemma kprintf_ok `{FpEval} fmt args out n st :
  sprintf fp_prec fp_emax (chars fmt) args = Ok n st →
  kprintf fmt args out = Ok tt (out ++ [CStr (until_nul (f_out st))]).
Proof. intros Hs. unfold kprintf, printf. by rewrite Hs. Qed.

Lemma until_nul_id s : Forall (λ c, c ≠ 0) s → until_nul s = s.
Proof.
  induction 1 as [|c s Hc _ IH]; [done|]. simpl. by rewrite (proj2 (Z.eqb_neq c 0) Hc), IH.
Qed.

(** ** Properties *)

Section format_properties.
Variables eval_prec eval_emax : Z.


(** C33 "%d" round-trips: the text printed for any [int], the most negative one
    included, reads back as that [int]. *)
Theorem sprintf_decimal_roundtrip z :
  ∃ out, sprintf eval_prec eval_emax (chars "%d") [AInt z] =
           Ok (Z.of_nat (length out)) (FState out [] []) ∧
         of_decimal out = i32 z ∧ (length out ≤ 33)%nat.
Proof.
  set (n := u32 z). exists (number_parts n 10 (-1) (-1) SIGN).
  assert (Hn : 0 ≤ n < 2 ^ 32) by apply u32_range.
  assert (Hi : i32 n = i32 z) by apply i32_u32.
  assert (Hparts : number_parts n 10 (-1) (-1) SIGN =
    (if i32 z <? 0 then [ch "-"] else []) ++
    rev (digits_of false 10 (if i32 z <? 0 then u32 (- i32 z) else n))).
  { unfold number_parts, sign_list, sign_of, magnitude.
    change (has SIGN SIGN) with true. change (has SIGN PLUS) with false.
    change (has SIGN SPACE) with false. change (has SIGN SMALL) with false.
    change (has SIGN LEFT) with false. change (has SIGN ZEROPAD) with false.
    change (prefix_list 10 SIGN) with (@nil Z). rewrite Hi. simpl andb.
    generalize (rev (digits_of false 10 (if i32 z <? 0 then u32 (- i32 z) else n))). intros d.
    rewrite (Z2Nat.nonpos (-1 - _ - _)), (Z2Nat.nonpos (-1 - _)) by lia. simpl.
    by destruct (i32 z <? 0). }
  assert (Hlen : (length (number_parts n 10 (-1) (-1) SIGN) ≤ 33)%nat).
  { rewrite Hparts, length_app, length_rev.
    pose proof (digits_of_length false 10 (if i32 z <? 0 then u32 (- i32 z) else n)).
    destruct (i32 z <? 0); simpl; lia. }
  split_and!; [| |done].
  - unfold sprintf. change (chars "%d") with (37 :: [100]).
    erewrite vsprintf_directive.
    2: { change (format_directive eval_prec eval_emax [100]) with
           (_ ← conv_int eval_prec eval_emax 10 (-1) (-1) SIGN; mret (M := prog fstate) (@nil Z)).
         rewrite (bind_Ok _ _ _ _ _ (conv_int_ok eval_prec eval_emax 10 (-1) (-1) SIGN z [] [] [] ltac:(lia))). reflexivity. }
    simpl f_out. fold n. rewrite (proj2 (Z.ltb_lt _ 1024)) by lia. done.
  - rewrite Hparts. pose proof (i32_range z) as Hr.
    destruct (Z.ltb_spec (i32 z) 0) as [Hneg|Hpos].
    + simpl. change (ch "-" =? ch "-") with true. cbv iota.
      rewrite digits_of_value; [|lia|apply u32_range].
      rewrite u32_small; lia.
    + simpl. destruct (rev (digits_of false 10 n)) as [|c s] eqn:Erev.
      { pose proof (digits_of_length false 10 n) as Hl. apply (f_equal length) in Erev.
        rewrite length_rev in Erev. simpl in Erev. lia. }
      assert (c ≠ ch "-") as Hc.
      { apply (digits_of_no_minus false 10 n); [lia|lia|].
        apply list_elem_of_In, in_rev. rewrite Erev. by left. }
      unfold of_decimal. rewrite (proj2 (Z.eqb_neq _ _) Hc), <- Erev, digits_of_value by lia.
      unfold n. rewrite <- u32_i32. apply u32_small. lia.
Qed.

(** C36 The unsigned conversions round-trip: the text of "%u", "%o", "%b", "%X"
    and "%x" reads back, in its base, as the 32-bit value of the argument. *)
Theorem sprintf_unsigned_roundtrip z base c :
  (base, c) ∈ [(10, "u"); (8, "o"); (2, "b"); (16, "X"); (16, "x")] →
  ∃ out, sprintf eval_prec eval_emax [ch "%"; ch c] [AInt z] =
           Ok (Z.of_nat (length out)) (FState out [] []) ∧
         of_digits base out = u32 z.
Proof.
  intros Hc. set (flags := if decide (c = "x") then SMALL else 0).
  set (n := u32 z). exists (number_parts n base (-1) (-1) flags).
  assert (Hn : 0 ≤ n < 2 ^ 32) by apply u32_range.
  assert (Hb : 2 ≤ base ≤ 36).
  { rewrite !elem_of_cons, elem_of_nil in Hc. naive_solver lia. }
  assert (Hparts : number_parts n base (-1) (-1) flags =
    rev (digits_of (has flags SMALL) base n)).
  { assert (Hf : has flags SIGN = false ∧ has flags PLUS = false ∧ has flags SPACE = false ∧
                 has flags LEFT = false ∧ has flags ZEROPAD = false ∧ has flags SPECIAL = false).
    { unfold flags. destruct (decide _); vm_compute; done. }
    destruct Hf as (H1 & H2 & H3 & H4 & H5 & H6).
    unfold number_parts, sign_list, sign_of, magnitude, prefix_list.
    rewrite H1, H2, H3, H4, H5, H6. cbn [andb]. change (negb (0 =? 0)) with false.
    generalize (rev (digits_of (has flags SMALL) base n)). intros d.
    rewrite (Z2Nat.nonpos (-1 - _ - _)), (Z2Nat.nonpos (-1 - _)) by lia. done. }
  assert (Hlen : (length (number_parts n base (-1) (-1) flags) ≤ 32)%nat).
  { rewrite Hparts, length_rev. apply digits_of_length. }
  split; [|by rewrite Hparts; apply digits_of_value].
  unfold sprintf. change (ch "%") with 37. erewrite vsprintf_directive.
  2: { assert (Hconv : format_directive eval_prec eval_emax [ch c] =
         (_ ← conv_int eval_prec eval_emax base (-1) (-1) flags; mret (M := prog fstate) (@nil Z))).
       { rewrite !elem_of_cons, elem_of_nil in Hc. unfold flags. clear -Hc.
         destruct Hc as [H|[H|[H|[H|[H|H]]]]]; [..|done]; injection H as -> ->; reflexivity. }
       rewrite Hconv, (bind_Ok _ _ _ _ _ (conv_int_ok eval_prec eval_emax base (-1) (-1) flags z [] [] [] Hb)). reflexivity. }
  simpl f_out. fold n. rewrite (proj2 (Z.ltb_lt _ 1024)) by lia. done.
Qed.

(** C34 vsprintf processes every format string to its end: it returns the length
    of the output, below 1024, or panics in its final assertion once 1024 or
    more characters have been written, or it meets a missing or mistyped
    argument; it never loops and never faults. *)
Theorem vsprintf_total fmt args :
  match sprintf eval_prec eval_emax fmt args with
  | Ok i st => i = Z.of_nat (length (f_out st)) ∧ i < 1024
  | Panic p st => p = vsprintf_assert_site ∧ 1024 ≤ Z.of_nat (length (f_out st))
  | Undef _ _ => True
  | Fault _ _ | NoFuel _ => False
  end.
Proof.
  unfold sprintf, vsprintf. rewrite bind_unfold.
  pose proof (runs_format_loop eval_prec eval_emax (S (length fmt)) fmt (FState [] args [])
                ltac:(lia)) as Hrun.
  unfold runs in Hrun. destruct (format_loop _ _ _ _ _) as [[] st| | | |]; try done.
  rewrite bind_gets. destruct (Z.ltb_spec (Z.of_nat (length (f_out st))) 1024); simpl; done.
Qed.

(** The precision asterisk is not consumed: "%.*d" takes the precision from
    the arguments, prints the text "%*d", and leaves the number it should have
    printed unread. *)
Theorem sprintf_star_precision_broken p z :
  sprintf eval_prec eval_emax (chars "%.*d") [AInt p; AInt z] =
    Ok 3 (FState (chars "%*d") [AInt z] []).
Proof.
  unfold sprintf. change (chars "%.*d") with [37; 46; 42; 100].
  unfold vsprintf. rewrite bind_unfold.
  assert (Hd : format_directive eval_prec eval_emax [46; 42; 100] (FState [] [AInt p; AInt z] []) =
               Ok [100] (FState [37; 42] [AInt z] [])) by reflexivity.
  simpl format_loop. change (negb (37 =? ch "%")) with false. cbv iota.
  rewrite (bind_Ok _ _ _ _ _ Hd). reflexivity.
Qed.

(** [%*s] right-aligns the string in a field of the given width and
    left-aligns it for a negative width; a string longer than the field is not
    cut. *)
Theorem sprintf_star_string s w :
  - 2 ^ 31 < w < 2 ^ 31 → Z.max (Z.abs w) (Z.of_nat (length s)) < 1024 →
  sprintf eval_prec eval_emax (chars "%*s") [AInt w; AStr s] =
    Ok (Z.max (Z.abs w) (Z.of_nat (length s)))
       (FState (string_field s (Z.abs w) (-1) (w <? 0)) [] []).
Proof.
  intros Hw Hlen. unfold sprintf. change (chars "%*s") with (37 :: [42; 115]).
  assert (Hout : Z.of_nat (length (string_field s (Z.abs w) (-1) (w <? 0))) =
                 Z.max (Z.abs w) (Z.of_nat (length s))).
  { unfold string_field. simpl. destruct (w <? 0); rewrite length_app, length_replicate; lia. }
  rewrite (vsprintf_directive _ _ _ _ (FState (string_field s (Z.abs w) (-1) (w <? 0)) [] [])).
  2: { unfold format_directive. change (parse_flags [42; 115] 0) with (0, [42; 115]).
       cbv iota beta zeta. unfold parse_width.
       change (is_digit (cur [42; 115])) with false. change (cur [42; 115] =? ch "*") with true.
       cbv iota. rewrite bind_assoc, (bind_Ok _ _ _ _ _ (va_int_ok _ _ _ _)), i32_small by lia.
       destruct (Z.ltb_spec w 0) as [Hneg|Hpos].
       - rewrite bind_ret, i32_small by lia.
         change (parse_precision (tl [42; 115])) with (mret (M := prog fstate) (-1, [115])).
         rewrite bind_ret. cbv zeta.
         change (convert eval_prec eval_emax (skip_qualifier [115]) (- w) (-1) (Z.lor 0 LEFT))
           with (_ ← conv_s (- w) (-1) (Z.lor 0 LEFT); mret (M := prog fstate) (@nil Z)).
         rewrite (bind_Ok _ _ _ _ _ (conv_s_ok _ _ _ _ _ _ _)).
         by replace (Z.abs w) with (- w) by lia.
       - rewrite bind_ret.
         change (parse_precision (tl [42; 115])) with (mret (M := prog fstate) (-1, [115])).
         rewrite bind_ret. cbv zeta.
         change (convert eval_prec eval_emax (skip_qualifier [115]) w (-1) 0)
           with (_ ← conv_s w (-1) 0; mret (M := prog fstate) (@nil Z)).
         rewrite (bind_Ok _ _ _ _ _ (conv_s_ok _ _ _ _ _ _ _)).
         by replace (Z.abs w) with w by lia. }
  simpl f_out. rewrite Hout, (proj2 (Z.ltb_lt _ 1024)) by lia. done.
Qed.
End format_properties.

(** *** Witnesses, with expressions evaluated in binary64 *)


(** 0x00beef, right-aligned *)
Example number_layout_text :
  number 53 1024 (NumInt 0xbeef) 16 10 6 (Z.lor SPECIAL SMALL) = NumStr (chars "  0x00beef").
Proof. vm_compute. reflexivity. Qed.

Lemma sprintf_unsigned_roundtrip_witness :
  ∃ out, sprintf 53 1024 (chars "%X") [AInt 0xC0DE] = Ok (Z.of_nat (length out)) (FState out [] []) ∧
         of_digits 16 out = u32 0xC0DE.
Proof. apply (sprintf_unsigned_roundtrip 53 1024 0xC0DE 16 "X"). repeat constructor. Defined.

Lemma sprintf_star_string_witness :
  sprintf 53 1024 (chars "%*s") [AInt (-6); AStr (chars "main")] =
    Ok 6 (FState (chars "main  ") [] []).
Proof. apply (sprintf_star_string 53 1024 (chars "main") (-6)); simpl; lia. Defined.

(** The fraction of "%f" is cut, not rounded, to six digits. *)
Example sprintf_float_text :
  sprintf 64 16384 (chars "%f") [ADouble (S754_finite true 7 (-2))] =
    Ok 9 (FState (chars "-1.750000") [] []).
Proof. vm_compute. reflexivity. Qed.
