(* ===== verification/Paging.v ===== *)
(** * Physical memory, the MMU, and the page-table addresses of memory.c

    The machine part: RAM as bytes, CR3, the two-level walk of the i386 for 4 KiB
    pages, and loads and stores through it.  A paged memory implements the memory
    interface of ByteMem.v, so that everything proved about string.c and bitmap.c
    holds behind the page tables.  The kernel part: [pde_ptr], [pte_ptr] and
    [vaddr_to_paddr] of memory.c, which reach the tables through the last entry of
    the page directory, the one that points to the directory itself.

    The walk looks at the present bits only: the kernel runs in ring 0 with
    CR0.WP clear.  There is no TLB: the kernel only ever makes absent entries
    present, or loads CR3. *)

From Stdlib Require Import ZArith Lia.
From stdpp Require Import base tactics gmap strings fin_maps functions list.
From S2P Require Import Prelude ByteMem.

Definition PG_SIZE : Z := 4096.

(** ** The machine *)

(** Bytes not in the map are zero; addresses from [ram] on are not backed. *)
Record mmu := Mmu { ram : Z; bytes : gmap Z Z; cr3 : Z }.

Definition pbyte (m : mmu) (pa : Z) : Z := u8 (default 0 (bytes m !! pa)).

Definition in_ram (m : mmu) (pa n : Z) : bool := (0 <=? pa) && (pa + n <=? ram m).

Definition pset8 (m : mmu) (pa v : Z) : mmu := Mmu (ram m) (<[pa := u8 v]> (bytes m)) (cr3 m).

(** A 32-bit word, little-endian. *)
Definition pword (m : mmu) (pa : Z) : Z :=
  pbyte m pa + pbyte m (pa + 1) * 2 ^ 8 + pbyte m (pa + 2) * 2 ^ 16 + pbyte m (pa + 3) * 2 ^ 24.

Definition pset32 (m : mmu) (pa v : Z) : mmu :=
  pset8 (pset8 (pset8 (pset8 m pa v) (pa + 1) (v / 2 ^ 8)) (pa + 2) (v / 2 ^ 16))
    (pa + 3) (v / 2 ^ 24).

(** The frame an entry or CR3 points to, and its present bit. *)
Definition frame_of (e : Z) : Z := e / PG_SIZE * PG_SIZE.

Definition present (e : Z) : bool := Z.odd e.

(** The physical address of the directory entry the walk of [va] reads, and of
    the table entry, given the directory entry. *)
Definition pde_paddr (m : mmu) (va : Z) : Z := frame_of (cr3 m) + va / 2 ^ 22 * 4.

Definition pte_paddr (pde va : Z) : Z := frame_of pde + (va / 2 ^ 12) mod 2 ^ 10 * 4.

Definition translate (m : mmu) (va : Z) : option Z :=
  if negb ((0 <=? va) && (va <? 2 ^ 32)) then None else
  if negb (in_ram m (pde_paddr m va) 4) then None else
  let pde := pword m (pde_paddr m va) in
  if negb (present pde) then None else
  if negb (in_ram m (pte_paddr pde va) 4) then None else
  let pte := pword m (pte_paddr pde va) in
  if negb (present pte) then None else
  Some (frame_of pte + va mod PG_SIZE).

Definition vload8 (m : mmu) (va : Z) : option Z :=
  pa ← translate m va; if in_ram m pa 1 then Some (pbyte m pa) else None.

Definition vstore8 (m : mmu) (va v : Z) : option mmu :=
  pa ← translate m va; if in_ram m pa 1 then Some (pset8 m pa v) else None.

#[global] Instance mmu_bytemem : ByteMem mmu := { mload := vload8; mstore := vstore8 }.

(** [*(u32 * )va] at an aligned address: one access. *)
Definition load32 (va : Z) : prog mmu Z := λ m,
  if negb (va mod 4 =? 0) then Undef "unaligned access" m else
  match translate m va with
  | Some pa => if in_ram m pa 4 then Ok (pword m pa) m else Fault va m
  | None => Fault va m
  end.

Definition store32 (va v : Z) : prog mmu unit := λ m,
  if negb (va mod 4 =? 0) then Undef "unaligned access" m else
  match translate m va with
  | Some pa => if in_ram m pa 4 then Ok tt (pset32 m pa v) else Fault va m
  | None => Fault va m
  end.

(** [movl %eax, %cr3] *)
Definition write_cr3 (v : Z) : prog mmu unit := modify (λ m, Mmu (ram m) (bytes m) (u32 v)).

(** ** kernel/memory.c: addresses of page-table entries *)

Definition PDE_IDX (addr : Z) : Z := Z.shiftr (Z.land addr 0xffc00000) 22.

Definition PTE_IDX (addr : Z) : Z := Z.shiftr (Z.land addr 0x003ff000) 12.

Definition pte_ptr (vaddr : Z) : Z :=
  u32 (0xffc00000 + Z.shiftr (Z.land vaddr 0xffc00000) 10 + PTE_IDX vaddr * 4).

Definition pde_ptr (vaddr : Z) : Z := u32 (0xfffff000 + PDE_IDX vaddr * 4).

Definition vaddr_to_paddr (vaddr : Z) : prog mmu Z :=
  pte ← load32 (pte_ptr vaddr);
  mret (u32 (Z.land pte 0xfffff000 + Z.land vaddr 0x00000fff)).

(** ** Physical words *)

Section physical.
Implicit Types (m : mmu).

Lemma pbyte_range m pa : 0 ≤ pbyte m pa < 256.
Proof. apply u8_range. Qed.

Lemma pword_range m pa : 0 ≤ pword m pa < 2 ^ 32.
Proof.
  unfold pword. pose proof (pbyte_range m pa). pose proof (pbyte_range m (pa + 1)).
  pose proof (pbyte_range m (pa + 2)). pose proof (pbyte_range m (pa + 3)). lia.
Qed.

Lemma pbyte_pset8 m pa v qa :
  pbyte (pset8 m pa v) qa = if decide (qa = pa) then u8 v else pbyte m qa.
Proof.
  unfold pbyte, pset8. simpl. rewrite lookup_insert.
  destruct (decide (pa = qa)) as [->|Hne].
  - rewrite decide_True by done. simpl. unfold u8. by rewrite Z.mod_mod.
  - by rewrite decide_False by congruence.
Qed.

Lemma pbyte_pset32_out m pa v qa :
  ¬ region pa 4 qa → pbyte (pset32 m pa v) qa = pbyte m qa.
Proof.
  unfold region, pset32. intros Hout. rewrite !pbyte_pset8.
  by rewrite !decide_False by lia.
Qed.

Lemma pword_ext m m' pa :
  (∀ x, region pa 4 x → pbyte m' x = pbyte m x) → pword m' pa = pword m pa.
Proof.
  unfold region. intros Heq. unfold pword.
  by rewrite (Heq pa), (Heq (pa + 1)), (Heq (pa + 2)), (Heq (pa + 3)) by lia.
Qed.

Lemma pword_pset32 m pa v : pword (pset32 m pa v) pa = u32 v.
Proof.
  unfold pword, pset32. rewrite !pbyte_pset8.
  rewrite (decide_True (P := pa + 3 = pa + 3)) by done.
  rewrite (decide_False (P := pa = pa + 3)), (decide_False (P := pa = pa + 2)),
    (decide_False (P := pa = pa + 1)), (decide_True (P := pa = pa)) by lia.
  rewrite (decide_False (P := pa + 1 = pa + 3)), (decide_False (P := pa + 1 = pa + 2)),
    (decide_True (P := pa + 1 = pa + 1)) by lia.
  rewrite (decide_False (P := pa + 2 = pa + 3)), (decide_True (P := pa + 2 = pa + 2)) by lia.
  unfold u8, u32. change (2 ^ 16) with (2 ^ 8 * 2 ^ 8). change (2 ^ 24) with (2 ^ 8 * 2 ^ 8 * 2 ^ 8).
  change (2 ^ 32) with (2 ^ 8 * (2 ^ 8 * (2 ^ 8 * 2 ^ 8))).
  rewrite !Z.rem_mul_r by lia. rewrite <- !Z.div_div by lia. lia.
Qed.

Lemma pword_pset32_other m pa v qa :
  qa + 4 ≤ pa ∨ pa + 4 ≤ qa → pword (pset32 m pa v) qa = pword m qa.
Proof.
  intros Hd. apply pword_ext. unfold region. intros x Hx.
  apply pbyte_pset32_out. unfold region. lia.
Qed.

Lemma frame_of_range e : 0 ≤ e < 2 ^ 32 → 0 ≤ frame_of e ∧ frame_of e + PG_SIZE ≤ 2 ^ 32.
Proof. unfold frame_of, PG_SIZE. intros. zlia. Qed.

Lemma frame_of_aligned e : frame_of e mod PG_SIZE = 0.
Proof. unfold frame_of, PG_SIZE. apply Z.mod_mul. lia. Qed.

Lemma frame_of_id p : p mod PG_SIZE = 0 → frame_of p = p.
Proof. unfold frame_of, PG_SIZE. intros. zlia. Qed.

Lemma in_ram_true m pa n : in_ram m pa n = true ↔ 0 ≤ pa ∧ pa + n ≤ ram m.
Proof. unfold in_ram. rewrite andb_true_iff, !Z.leb_le. done. Qed.
End physical.

(** ** The walk *)

(** Everything the walk of [va] needs, as one proposition. *)
Record walks (m : mmu) (va pde pte : Z) : Prop := {
  walk_va : 0 ≤ va < 2 ^ 32;
  walk_pde_ram : in_ram m (pde_paddr m va) 4 = true;
  walk_pde : pword m (pde_paddr m va) = pde;
  walk_pde_present : present pde = true;
  walk_pte_ram : in_ram m (pte_paddr pde va) 4 = true;
  walk_pte : pword m (pte_paddr pde va) = pte;
  walk_pte_present : present pte = true
}.

Section walk.
Implicit Types (m : mmu).

Lemma translate_walks m va pa :
  translate m va = Some pa ↔
  ∃ pde pte, walks m va pde pte ∧ pa = frame_of pte + va mod PG_SIZE.
Proof.
  unfold translate. split.
  - intros H. repeat (case_match; [done|]). simplify_eq.
    eexists _, _. split; [|reflexivity].
    repeat match goal with H : negb _ = false |- _ => apply negb_false_iff in H end.
    zb. split; first [lia | done].
  - intros (pde & pte & [Hva Hr1 <- Hp1 Hr2 <- Hp2] & ->).
    rewrite (proj2 (Z.leb_le 0 va)), (proj2 (Z.ltb_lt va (2 ^ 32))) by lia. simpl.
    by rewrite Hr1, Hp1, Hr2, Hp2.
Qed.

Lemma walks_translate m va pde pte :
  walks m va pde pte → translate m va = Some (frame_of pte + va mod PG_SIZE).
Proof. intros Hw. apply translate_walks. eauto. Qed.

(** The physical bytes the walk of [va] reads. *)
Definition walk_bytes (m : mmu) (va pa : Z) : Prop :=
  region (pde_paddr m va) 4 pa ∨
  region (pte_paddr (pword m (pde_paddr m va)) va) 4 pa.

(** A walk depends on those bytes only. *)
Lemma translate_frame m m' va :
  ram m' = ram m → cr3 m' = cr3 m →
  (∀ pa, walk_bytes m va pa → pbyte m' pa = pbyte m pa) →
  translate m' va = translate m va ∧
  pword m' (pde_paddr m' va) = pword m (pde_paddr m va).
Proof.
  intros Hram Hcr3 Heq.
  assert (Hpd : pde_paddr m' va = pde_paddr m va) by (unfold pde_paddr; by rewrite Hcr3).
  assert (Hpde : pword m' (pde_paddr m' va) = pword m (pde_paddr m va)).
  { rewrite Hpd. apply pword_ext. intros x Hx. apply Heq. by left. }
  split; [|done]. unfold translate, in_ram. rewrite Hpde, Hpd, Hram.
  assert (Hpte : pword m' (pte_paddr (pword m (pde_paddr m va)) va) =
                 pword m (pte_paddr (pword m (pde_paddr m va)) va)).
  { apply pword_ext. intros x Hx. apply Heq. by right. }
  by rewrite Hpte.
Qed.

(** Two addresses of one page share their walk. *)
Lemma walks_same_page m va off pde pte :
  walks m va pde pte → va mod PG_SIZE = 0 → 0 ≤ off < PG_SIZE → walks m (va + off) pde pte.
Proof.
  intros [Hva Hr1 Hpde Hp1 Hr2 Hpte Hp2] Hal Hoff. unfold PG_SIZE in *.
  assert (H22 : (va + off) / 2 ^ 22 = va / 2 ^ 22) by zlia.
  assert (H12 : (va + off) / 2 ^ 12 = va / 2 ^ 12) by zlia.
  split; unfold pde_paddr, pte_paddr in *; rewrite ?H22, ?H12; try done. zlia.
Qed.
End walk.

(** ** The paged memory implements the memory interface *)

Definition mmu_owns (m : mmu) (D : Z → Prop) : Prop :=
  (∀ a, D a → ∃ pa, translate m a = Some pa ∧ in_ram m pa 1 = true) ∧
  (∀ a b, D a → D b → translate m a = translate m b → a = b) ∧
  (∀ a b pa, D a → D b → translate m a = Some pa → ¬ walk_bytes m b pa).

Definition mmu_changes (D : Z → Prop) (m m' : mmu) : Prop :=
  ram m' = ram m ∧ cr3 m' = cr3 m ∧
  (∀ a, D a → translate m' a = translate m a) ∧
  (∀ pa, (∀ a, D a → translate m a ≠ Some pa) → pbyte m' pa = pbyte m pa).

#[global] Instance mmu_bytemem_ok : ByteMemOk mmu.
Proof.
  refine {| owns := mmu_owns; changes := mmu_changes |}.
  - intros m D D' (H1 & H2 & H3) Hsub. split_and!; eauto.
  - intros m D a (H1 & _) Ha. destruct (H1 a Ha) as (pa & Htr & Hram).
    simpl. unfold vload8. rewrite Htr. simpl. rewrite Hram. eexists. split; [done|].
    apply pbyte_range.
  - intros m D a v (H1 & H2 & H3) Ha Hv. destruct (H1 a Ha) as (pa & Htr & Hram).
    assert (Hother : ∀ x, x ≠ pa → pbyte (pset8 m pa v) x = pbyte m x).
    { intros x Hx. rewrite pbyte_pset8. by rewrite decide_False. }
    assert (Htr' : ∀ b, D b → translate (pset8 m pa v) b = translate m b ∧
      pword (pset8 m pa v) (pde_paddr (pset8 m pa v) b) = pword m (pde_paddr m b)).
    { intros b Hb. apply translate_frame; [done|done|]. intros x Hx. apply Hother.
      intros ->. by apply (H3 a b pa Ha Hb Htr). }
    exists (pset8 m pa v). simpl. unfold vstore8. rewrite Htr. simpl. rewrite Hram.
    split_and!; [done|split_and!|split_and!|].
    + intros b Hb. rewrite (proj1 (Htr' b Hb)). by apply H1.
    + intros b c Hb Hc. rewrite (proj1 (Htr' b Hb)), (proj1 (Htr' c Hc)). by apply H2.
    + intros b c pb Hb Hc. rewrite (proj1 (Htr' b Hb)). intros Hpb Hw.
      apply (H3 b c pb Hb Hc Hpb). unfold walk_bytes in *.
      by rewrite (proj2 (Htr' c Hc)) in Hw.
    + done.
    + done.
    + intros b Hb. apply Htr'. done.
    + intros x Hx. apply Hother. intros ->. by apply (Hx a).
    + intros b Hb. unfold vload8. rewrite (proj1 (Htr' b Hb)).
      destruct (H1 b Hb) as (pb & Hpb & Hrb). rewrite Hpb. simpl.
      unfold in_ram in *. simpl. rewrite Hrb. rewrite pbyte_pset8.
      destruct (decide (b = a)) as [->|Hne].
      * rewrite Htr in Hpb. simplify_eq. rewrite decide_True by done. by rewrite u8_small.
      * rewrite decide_False; [done|]. intros ->. apply Hne, H2; congruence.
  - intros D m. done.
  - intros D m1 m2 m3 (R1 & C1 & T1 & B1) (R2 & C2 & T2 & B2). split_and!; [congruence..| |].
    + intros a Ha. by rewrite T2, T1.
    + intros pa Hpa. rewrite B2, B1; [done|done|]. intros a Ha. rewrite T1 by done. auto.
Defined.

(** ** The recursive mapping *)

(** The last entry of the page directory points to the directory itself, and the
    directory is in RAM: what boot/loader.asm sets up for the kernel's directory
    and create_page_dir() for a process's. *)
Record recursive (m : mmu) : Prop := {
  rec_ram : in_ram m (frame_of (cr3 m)) PG_SIZE = true;
  rec_present : present (pword m (frame_of (cr3 m) + 1023 * 4)) = true;
  rec_frame : frame_of (pword m (frame_of (cr3 m) + 1023 * 4)) = frame_of (cr3 m)
}.

Section addresses.
Implicit Types (m : mmu).

Lemma PDE_IDX_div va : 0 ≤ va < 2 ^ 32 → PDE_IDX va = va / 2 ^ 22.
Proof.
  intros Hva. unfold PDE_IDX. change 0xffc00000 with (2 ^ 32 - 2 ^ 22).
  rewrite land_high, Z.shiftr_div_pow2 by lia. by rewrite Z.div_mul.
Qed.

Lemma PTE_IDX_div va : PTE_IDX va = (va / 2 ^ 12) mod 2 ^ 10.
Proof.
  unfold PTE_IDX. change 0x003ff000 with (Z.shiftl (Z.ones 10) 12).
  rewrite Z.shiftr_land, Z.shiftr_shiftl_l by lia.
  by rewrite Z.shiftl_0_r, Z.land_ones, Z.shiftr_div_pow2 by lia.
Qed.

Lemma pde_ptr_eq va : 0 ≤ va < 2 ^ 32 → pde_ptr va = 1023 * 2 ^ 22 + 1023 * 2 ^ 12 + va / 2 ^ 22 * 4.
Proof. intros. unfold pde_ptr. rewrite PDE_IDX_div, u32_small by zlia. lia. Qed.

Lemma pte_ptr_eq va :
  0 ≤ va < 2 ^ 32 →
  pte_ptr va = 1023 * 2 ^ 22 + va / 2 ^ 22 * 2 ^ 12 + (va / 2 ^ 12) mod 2 ^ 10 * 4.
Proof.
  intros Hva. unfold pte_ptr. rewrite PTE_IDX_div.
  change 0xffc00000 with (2 ^ 32 - 2 ^ 22) at 2.
  rewrite land_high, Z.shiftr_div_pow2 by lia.
  replace (va / 2 ^ 22 * 2 ^ 22 / 2 ^ 10) with (va / 2 ^ 22 * 2 ^ 12).
  2: { change (2 ^ 22) with (2 ^ 12 * 2 ^ 10). by rewrite Z.mul_assoc, Z.div_mul. }
  rewrite u32_small; zlia.
Qed.

Lemma in_ram_sub m pa n pa' n' :
  in_ram m pa n = true → pa ≤ pa' → pa' + n' ≤ pa + n → in_ram m pa' n' = true.
Proof. rewrite !in_ram_true. lia. Qed.

(** A walk through the last directory entry: the directory read as a table. *)
Lemma recursive_walk m i off :
  recursive m → 0 ≤ i < 2 ^ 10 → 0 ≤ off < PG_SIZE →
  present (pword m (frame_of (cr3 m) + i * 4)) = true →
  walks m (1023 * 2 ^ 22 + i * 2 ^ 12 + off)
    (pword m (frame_of (cr3 m) + 1023 * 4)) (pword m (frame_of (cr3 m) + i * 4)).
Proof.
  intros [Hram Hp Hf] Hi Hoff Hpi. unfold PG_SIZE in *.
  set (va := 1023 * 2 ^ 22 + i * 2 ^ 12 + off).
  assert (H22 : va / 2 ^ 22 = 1023) by (subst va; zlia).
  assert (H12 : (va / 2 ^ 12) mod 2 ^ 10 = i).
  { subst va. replace ((1023 * 2 ^ 22 + i * 2 ^ 12 + off) / 2 ^ 12) with (1023 * 2 ^ 10 + i) by zlia.
    rewrite Z.add_comm, Z.mod_add by lia. by apply Z.mod_small. }
  assert (Hpde : pde_paddr m va = frame_of (cr3 m) + 1023 * 4) by (unfold pde_paddr; by rewrite H22).
  assert (Hpte : pte_paddr (pword m (frame_of (cr3 m) + 1023 * 4)) va = frame_of (cr3 m) + i * 4)
    by (unfold pte_paddr; by rewrite H12, Hf).
  split; rewrite ?Hpde, ?Hpte; try done.
  - subst va. lia.
  - eapply in_ram_sub; [exact Hram|lia..].
  - eapply in_ram_sub; [exact Hram|lia..].
Qed.

Lemma translate_pde_ptr m va :
  recursive m → 0 ≤ va < 2 ^ 32 → translate m (pde_ptr va) = Some (pde_paddr m va).
Proof.
  intros Hrec Hva. rewrite pde_ptr_eq by done.
  assert (Hi : 0 ≤ va / 2 ^ 22 < 2 ^ 10) by zlia.
  rewrite (walks_translate _ _ _ _ (recursive_walk m 1023 (va / 2 ^ 22 * 4) Hrec
             ltac:(lia) ltac:(unfold PG_SIZE; lia) (rec_present _ Hrec))).
  f_equal. unfold pde_paddr, PG_SIZE. rewrite (rec_frame _ Hrec). f_equal. zlia.
Qed.

Lemma translate_pte_ptr m va :
  recursive m → 0 ≤ va < 2 ^ 32 → present (pword m (pde_paddr m va)) = true →
  translate m (pte_ptr va) = Some (pte_paddr (pword m (pde_paddr m va)) va).
Proof.
  intros Hrec Hva Hp. rewrite pte_ptr_eq by done.
  assert (Hi : 0 ≤ va / 2 ^ 22 < 2 ^ 10) by zlia.
  assert (Hj : 0 ≤ (va / 2 ^ 12) mod 2 ^ 10 < 2 ^ 10) by (apply Z.mod_pos_bound; lia).
  rewrite (walks_translate _ _ _ _ (recursive_walk m (va / 2 ^ 22) ((va / 2 ^ 12) mod 2 ^ 10 * 4)
             Hrec Hi ltac:(unfold PG_SIZE; lia) Hp)).
  f_equal. unfold pte_paddr, pde_paddr, PG_SIZE. f_equal. zlia.
Qed.

Lemma pte_ptr_aligned va : 0 ≤ va < 2 ^ 32 → pte_ptr va mod 4 = 0.
Proof. intros. rewrite pte_ptr_eq by done. zlia. Qed.

Lemma pde_ptr_aligned va : 0 ≤ va < 2 ^ 32 → pde_ptr va mod 4 = 0.
Proof. intros. rewrite pde_ptr_eq by done. zlia. Qed.

Lemma load32_ok m va pa :
  va mod 4 = 0 → translate m va = Some pa → in_ram m pa 4 = true →
  load32 va m = Ok (pword m pa) m.
Proof. intros Hal Htr Hram. unfold load32. by rewrite Hal, Htr, Hram. Qed.

Lemma store32_ok m va pa v :
  va mod 4 = 0 → translate m va = Some pa → in_ram m pa 4 = true →
  store32 va v m = Ok tt (pset32 m pa v).
Proof. intros Hal Htr Hram. unfold store32. by rewrite Hal, Htr, Hram. Qed.

Lemma pde_in_ram m va :
  recursive m → 0 ≤ va < 2 ^ 32 → in_ram m (pde_paddr m va) 4 = true.
Proof.
  intros Hrec Hva. eapply in_ram_sub; [exact (rec_ram _ Hrec)| |]; unfold pde_paddr, PG_SIZE; zlia.
Qed.

Lemma vaddr_to_paddr_ok m va pde pte :
  recursive m → walks m va pde pte → vaddr_to_paddr va m = Ok (frame_of pte + va mod PG_SIZE) m.
Proof.
  intros Hrec [Hva Hr1 Hpde Hp1 Hr2 Hpte Hp2]. subst pde pte.
  unfold vaddr_to_paddr. pose proof (pword_range m (pte_paddr (pword m (pde_paddr m va)) va)) as Hr.
  set (pte := pword m (pte_paddr (pword m (pde_paddr m va)) va)) in *.
  erewrite bind_Ok by (apply load32_ok; [by apply pte_ptr_aligned|by apply translate_pte_ptr|done]).
  change 0xfffff000 with (2 ^ 32 - 2 ^ 12). change 0x00000fff with (Z.ones 12).
  rewrite land_high, Z.land_ones by lia. fold pte.
  pose proof (frame_of_range pte Hr). unfold frame_of, PG_SIZE in *.
  rewrite u32_small by zlia. done.
Qed.
End addresses.

(** ** Storing an entry *)

Section entries.
Implicit Types (m : mmu).

(** A page-aligned address with the flags user, writable, present. *)
Lemma entry_frame page :
  0 ≤ page < 2 ^ 32 → page mod PG_SIZE = 0 →
  frame_of (u32 (Z.lor page 7)) = page ∧ present (u32 (Z.lor page 7)) = true ∧
  0 ≤ Z.lor page 7 < 2 ^ 32.
Proof.
  unfold PG_SIZE. intros Hp Hal.
  assert (page = page / 2 ^ 12 * 2 ^ 12) as Heq by zlia.
  assert (Hlor : Z.lor page 7 = page + 7).
  { rewrite Heq at 1. rewrite lor_mul_low by lia. lia. }
  rewrite Hlor, u32_small by zlia. unfold frame_of, present, PG_SIZE. split_and!; [zlia| |zlia..].
  rewrite Z.odd_add, Heq, Z.odd_mul. change (Z.odd (2 ^ 12)) with false.
  by rewrite andb_false_r.
Qed.

Lemma ram_pset32 m pa v : ram (pset32 m pa v) = ram m ∧ cr3 (pset32 m pa v) = cr3 m.
Proof. done. Qed.

(** Writing a table entry maps the page. *)
Lemma store_pte_maps m va page :
  0 ≤ va < 2 ^ 32 → 0 ≤ page < 2 ^ 32 → page mod PG_SIZE = 0 →
  let pde := pword m (pde_paddr m va) in
  in_ram m (pde_paddr m va) 4 = true → present pde = true →
  in_ram m (pte_paddr pde va) 4 = true →
  (pde_paddr m va + 4 ≤ pte_paddr pde va ∨ pte_paddr pde va + 4 ≤ pde_paddr m va) →
  translate (pset32 m (pte_paddr pde va) (Z.lor page 7)) va = Some (page + va mod PG_SIZE).
Proof.
  intros Hva Hpage Hal pde Hr1 Hp1 Hr2 Hd.
  destruct (entry_frame page Hpage Hal) as (Hf & Hpr & _).
  set (m' := pset32 m (pte_paddr pde va) (Z.lor page 7)).
  assert (Hpde : pword m' (pde_paddr m' va) = pde) by (apply pword_pset32_other; done).
  rewrite (walks_translate m' va pde (u32 (Z.lor page 7))).
  { by rewrite Hf. }
  split; try done. apply pword_pset32.
Qed.

(** It changes no translation that does not read it. *)
Lemma translate_pset32_other m pa v va :
  (∀ x, walk_bytes m va x → ¬ region pa 4 x) →
  translate (pset32 m pa v) va = translate m va.
Proof.
  intros Hout. apply translate_frame; [done|done|].
  intros x Hx. by apply pbyte_pset32_out, Hout.
Qed.

Lemma land_1 e : Z.land e 1 = Z.b2z (Z.odd e).
Proof.
  change 1 with (Z.ones 1) at 1. rewrite Z.land_ones by lia. change (2 ^ 1) with 2.
  by rewrite Zmod_odd; destruct (Z.odd e).
Qed.
End entries.

(** ** The window of a page table *)

Section window.
Implicit Types (m : mmu).

(** Where the recursive mapping shows table [i]. *)
Definition table_window (i : Z) : Z := 1023 * 2 ^ 22 + i * 2 ^ 12.

Lemma translate_window m i off :
  recursive m → 0 ≤ i < 2 ^ 10 → 0 ≤ off < PG_SIZE →
  present (pword m (frame_of (cr3 m) + i * 4)) = true →
  translate m (table_window i + off) = Some (frame_of (pword m (frame_of (cr3 m) + i * 4)) + off).
Proof.
  intros Hrec Hi Hoff Hp. unfold table_window.
  rewrite (walks_translate _ _ _ _ (recursive_walk m i off Hrec Hi Hoff Hp)).
  do 2 f_equal. unfold PG_SIZE in *. zlia.
Qed.

(** The walks through the window read the directory only. *)
Lemma window_walk_bytes m i off x :
  recursive m → 0 ≤ i < 2 ^ 10 → 0 ≤ off < PG_SIZE →
  present (pword m (frame_of (cr3 m) + i * 4)) = true →
  walk_bytes m (table_window i + off) x → region (frame_of (cr3 m)) PG_SIZE x.
Proof.
  intros Hrec Hi Hoff Hp. pose proof (recursive_walk m i off Hrec Hi Hoff Hp) as Hw.
  pose proof (walk_pde _ _ _ _ Hw) as Hpde. unfold table_window in *.
  set (va := 1023 * 2 ^ 22 + i * 2 ^ 12 + off) in *. unfold walk_bytes. rewrite Hpde.
  assert (H22 : va / 2 ^ 22 = 1023) by (subst va; unfold PG_SIZE in *; zlia).
  assert (H12 : (va / 2 ^ 12) mod 2 ^ 10 = i).
  { subst va. unfold PG_SIZE in *.
    replace ((1023 * 2 ^ 22 + i * 2 ^ 12 + off) / 2 ^ 12) with (1023 * 2 ^ 10 + i) by zlia.
    rewrite Z.add_comm, Z.mod_add by lia. by apply Z.mod_small. }
  unfold pde_paddr, pte_paddr. rewrite H22, H12, (rec_frame _ Hrec). unfold region, PG_SIZE in *. lia.
Qed.

(** The table as a block of memory of its own. *)
Lemma window_holds m i F :
  recursive m → 0 ≤ i < 2 ^ 10 → present (pword m (frame_of (cr3 m) + i * 4)) = true →
  frame_of (pword m (frame_of (cr3 m) + i * 4)) = F → F ≠ frame_of (cr3 m) → F mod PG_SIZE = 0 →
  in_ram m F PG_SIZE = true →
  holds m (region (table_window i) PG_SIZE) (λ a, pbyte m (F + (a - table_window i))).
Proof.
  intros Hrec Hi Hp HF Hne Hal Hram.
  assert (Htr : ∀ a, region (table_window i) PG_SIZE a →
    translate m a = Some (F + (a - table_window i))).
  { intros a Ha. unfold region in Ha. rewrite <- HF.
    rewrite <- (translate_window m i) by (first [done | lia]). f_equal. lia. }
  assert (Hr : ∀ a, region (table_window i) PG_SIZE a → in_ram m (F + (a - table_window i)) 1 = true).
  { intros a Ha. unfold region in Ha. eapply in_ram_sub; [exact Hram|lia..]. }
  assert (Hlow : frame_of (cr3 m) mod PG_SIZE = 0) by apply frame_of_aligned.
  split; [split_and!|].
  - intros a Ha. eexists. split; [by apply Htr|by apply Hr].
  - intros a b Ha Hb. rewrite !Htr by done. intros Heq. injection Heq. lia.
  - intros a b pa Ha Hb. rewrite Htr by done. intros Heq Hw. simplify_eq.
    replace b with (table_window i + (b - table_window i)) in Hw by lia.
    apply window_walk_bytes in Hw; [|try done; unfold region in *; lia..].
    unfold region, PG_SIZE in *. zlia.
  - intros a Ha. simpl. unfold vload8. rewrite Htr by done. simpl. by rewrite Hr.
Qed.
End window.

(** ** A mapped page as a block of memory *)

Lemma page_holds (m : mmu) base pde pte a n :
  walks m base pde pte → base mod PG_SIZE = 0 → in_ram m (frame_of pte) PG_SIZE = true →
  frame_of pte ≠ frame_of (cr3 m) → frame_of pte ≠ frame_of pde →
  base ≤ a → a + n ≤ base + PG_SIZE →
  holds m (region a n) (λ x, pbyte m (frame_of pte + (x - base))).
Proof.
  intros Hw Hal Hram Hne1 Hne2 Ha Hn.
  assert (Htr : ∀ x, region a n x → translate m x = Some (frame_of pte + (x - base))).
  { intros x Hx. unfold region in Hx. replace x with (base + (x - base)) at 1 by lia.
    rewrite (walks_translate _ _ _ _ (walks_same_page m base (x - base) pde pte Hw Hal ltac:(lia))).
    do 2 f_equal. unfold PG_SIZE in *. zlia. }
  assert (Hr : ∀ x, region a n x → in_ram m (frame_of pte + (x - base)) 1 = true).
  { intros x Hx. unfold region in Hx. eapply in_ram_sub; [exact Hram|lia..]. }
  assert (Hf1 := frame_of_aligned (cr3 m)). assert (Hf2 := frame_of_aligned pde).
  assert (Hf3 := frame_of_aligned pte).
  split; [split_and!|].
  - intros x Hx. eexists. split; [by apply Htr|by apply Hr].
  - intros x y Hx Hy. rewrite !Htr by done. intros Heq. injection Heq. lia.
  - intros x y pa Hx Hy. rewrite Htr by done. intros Heq. injection Heq as <-. unfold region in Hx, Hy.
    pose proof (walks_same_page m base (y - base) pde pte Hw Hal ltac:(lia)) as Hwy.
    replace (base + (y - base)) with y in Hwy by lia. unfold walk_bytes.
    rewrite (walk_pde _ _ _ _ Hwy). pose proof (walk_va _ _ _ _ Hwy).
    pose proof (Z.mod_pos_bound (y / 2 ^ 12) (2 ^ 10)).
    unfold pde_paddr, pte_paddr, region, PG_SIZE in *. intros [Hb|Hb]; zlia.
  - intros x Hx. cbn [mload mmu_bytemem]. unfold vload8. rewrite Htr by done. cbn. by rewrite Hr.
Qed.

(** ** Properties *)

(** C24 The addresses pde_ptr and pte_ptr compute are the right ones: under the
    recursive mapping a load there reads the very directory entry and table entry
    the hardware walk of the address reads, for all 2^32 addresses. *)
Theorem table_pointers_reach_walk m va :
  recursive m → 0 ≤ va < 2 ^ 32 →
  load32 (pde_ptr va) m = Ok (pword m (pde_paddr m va)) m ∧
  (present (pword m (pde_paddr m va)) = true →
   in_ram m (pte_paddr (pword m (pde_paddr m va)) va) 4 = true →
   load32 (pte_ptr va) m = Ok (pword m (pte_paddr (pword m (pde_paddr m va)) va)) m).
Proof.
  intros Hrec Hva. split.
  - apply load32_ok; [by apply pde_ptr_aligned|by apply translate_pde_ptr|by apply pde_in_ram].
  - intros Hp Hram. apply load32_ok; [by apply pte_ptr_aligned|by apply translate_pte_ptr|done].
Qed.

(** C25 vaddr_to_paddr is the hardware translation: for every address the MMU
    translates it returns the physical address the MMU computes, and changes
    nothing. *)
Theorem vaddr_to_paddr_translates m va pa :
  recursive m → translate m va = Some pa → vaddr_to_paddr va m = Ok pa m.
Proof.
  intros Hrec (pde & pte & Hw & ->)%translate_walks. by apply (vaddr_to_paddr_ok m va pde pte).
Qed.

(** *** Witnesses: a directory at 0x1000 with one table, at 0x2000 *)

Definition put32s (b : gmap Z Z) (l : list (Z * Z)) : gmap Z Z :=
  foldl (λ b e, bytes (pset32 (Mmu 0 b 0) (fst e) (snd e))) b l.

(** 0 and 0xc0000000 are mapped to the frame 0x5000, 0x9a000 and 0xc009a000 to 0x3000. *)
Definition demo_mmu : mmu :=
  Mmu 0x10000 (put32s ∅ [(0x1000, 0x2007); (0x1000 + 768 * 4, 0x2007); (0x1000 + 1023 * 4, 0x1007);
    (0x2000, 0x5007); (0x2000 + 0x9a * 4, 0x3007)])
    0x1000.

Lemma demo_mmu_recursive : recursive demo_mmu.
Proof. split; vm_compute; reflexivity. Qed.

Lemma table_pointers_reach_walk_witness :
  load32 (pde_ptr 0xc0000123) demo_mmu = Ok 0x2007 demo_mmu ∧
  (present (pword demo_mmu (pde_paddr demo_mmu 0xc0000123)) = true →
   in_ram demo_mmu (pte_paddr (pword demo_mmu (pde_paddr demo_mmu 0xc0000123)) 0xc0000123) 4 = true →
   load32 (pte_ptr 0xc0000123) demo_mmu = Ok 0x5007 demo_mmu).
Proof.
  apply (table_pointers_reach_walk demo_mmu 0xc0000123); [exact demo_mmu_recursive|lia].
Defined.

Lemma vaddr_to_paddr_translates_witness :
  translate demo_mmu 0xc0000123 = Some 0x5123 ∧ vaddr_to_paddr 0xc0000123 demo_mmu = Ok 0x5123 demo_mmu.
Proof.
  split; [vm_compute; reflexivity|].
  apply (vaddr_to_paddr_translates demo_mmu 0xc0000123 0x5123);
    [exact demo_mmu_recursive | vm_compute; reflexivity].
Defined.
