(* ===== verification/Idt.v ===== *)
(** * kernel/interrupt.c and kernel/assert.c: descriptors, handlers, panic

    What interrupt_init sets up at start-up: the interrupt controllers, the
    descriptor table and the table of C handlers the entry stubs of
    interrupt_handler.asm call; register_handler; the default handler of
    exceptions; panic_spin of assert.c. *)

From Stdlib Require Import ZArith Lia.
From stdpp Require Import base tactics gmap strings fin_maps functions list.
From S2P Require Import Prelude Interrupt Format.

Definition interrupt_num : Z := 0x30.

(** [struct interrupt_descriptor] *)
Record interrupt_descriptor := InterruptDescriptor {
  func_offset_low_word : Z;
  selector : Z;
  dcount : Z;
  attribute : Z;
  func_offset_high_word : Z
}.

(** The globals of interrupt.c (the names, the C handlers as function addresses,
    the descriptors) with the machine state the functions here touch: IF, the
    operand of the last [lidt], the writes to I/O ports in order, the console. *)
Record istate := IState {
  i_if : bool;
  interrupt_names : list (option string);
  c_interrupt_entry_table : list Z;
  idt : list interrupt_descriptor;
  i_idtr : Z;
  i_ports : list (Z * Z);
  i_con : list conop
}.

Definition with_if (b : bool) (s : istate) : istate :=
  IState b (interrupt_names s) (c_interrupt_entry_table s) (idt s) (i_idtr s) (i_ports s) (i_con s).
Definition with_names (n : list (option string)) (s : istate) : istate :=
  IState (i_if s) n (c_interrupt_entry_table s) (idt s) (i_idtr s) (i_ports s) (i_con s).
Definition with_table (t : list Z) (s : istate) : istate :=
  IState (i_if s) (interrupt_names s) t (idt s) (i_idtr s) (i_ports s) (i_con s).
Definition with_idt (d : list interrupt_descriptor) (s : istate) : istate :=
  IState (i_if s) (interrupt_names s) (c_interrupt_entry_table s) d (i_idtr s) (i_ports s) (i_con s).
Definition with_idtr (v : Z) (s : istate) : istate :=
  IState (i_if s) (interrupt_names s) (c_interrupt_entry_table s) (idt s) v (i_ports s) (i_con s).
Definition with_ports (p : list (Z * Z)) (s : istate) : istate :=
  IState (i_if s) (interrupt_names s) (c_interrupt_entry_table s) (idt s) (i_idtr s) p (i_con s).
Definition with_con (c : list conop) (s : istate) : istate :=
  IState (i_if s) (interrupt_names s) (c_interrupt_entry_table s) (idt s) (i_idtr s) (i_ports s) c.

Definition l_i_if : lens istate bool.
Proof. refine (Lens i_if with_if _ _ _); abstract by intros; destruct k. Defined.

Definition l_i_con : lens istate (list conop).
Proof. refine (Lens i_con with_con _ _ _); abstract by intros; destruct k. Defined.

(** [outb] of include/io.h *)
Definition outb (port data : Z) : prog istate unit :=
  modify (λ s, with_ports (i_ports s ++ [(u16 port, u8 data)]) s).

(** [while (1) ;]: no fuel is enough. *)
Definition spin {S A} : prog S A := no_fuel.

(** [c_interrupt_entry_table[num] = handler]: [num] is a [u8] and the table has
    0x30 entries; a larger number writes past the table. *)
Definition register_handler (num handler : Z) : prog istate unit :=
  if u8 num <? interrupt_num
  then modify (λ s, with_table (<[Z.to_nat (u8 num) := handler]> (c_interrupt_entry_table s)) s)
  else undef "register_handler: index out of bounds".

Definition make_idt_desc (attr function : Z) : interrupt_descriptor :=
  InterruptDescriptor
    (u16 (Z.land function 0x0000FFFF))
    (u16 (Z.shiftl 1 3))
    0
    (u8 attr)
    (u16 (Z.shiftr (Z.land function 0xFFFF0000) 16)).

(** The function a gate jumps to, as the CPU reassembles it. *)
Definition gate_target (d : interrupt_descriptor) : Z :=
  Z.lor (func_offset_low_word d) (Z.shiftl (func_offset_high_word d) 16).

Definition pic_init : prog istate unit :=
  _ ← outb 0x20 0x11; _ ← outb 0xa0 0x11;
  _ ← outb 0x21 0x20; _ ← outb 0xa1 0x28;
  _ ← outb 0x21 0x04; _ ← outb 0xa1 0x02;
  _ ← outb 0x21 0x01; _ ← outb 0xa1 0x01;
  _ ← outb 0x21 0xfc; outb 0xa1 0xff.

(** The names idt_init assigns; the other entries of the array stay [NULL]. *)
Definition exception_names : list (Z * string) := [
  (0, "#DE Divide Error"); (1, "#DB Debug Exception"); (2, "NMI Interrupt");
  (3, "#BP Breakpoint Exception"); (4, "#OF Overflow Exception");
  (5, "#BR BOUND Range Exceeded Exception"); (6, "#UD Invalid Opcode Exception");
  (7, "#NM Device Not Available Exception"); (8, "#DF Double Fault Exception");
  (9, "Coprocessor Segment Overrun"); (10, "#TS Invalid TSS Exception");
  (11, "#NP Segment Not Present"); (12, "#SS Stack Fault Exception");
  (13, "#GP General Protection Exception"); (14, "#PF Page-Fault Exception");
  (16, "#MF x87 FPU Floating-Point Error"); (17, "#AC Alignment Check Exception");
  (18, "#MC Machine-Check Exception"); (19, "#XF SIMD Floating-Point Exception")]%string.

Definition set_names (names : list (option string)) : list (option string) :=
  foldl (λ l '(i, n), <[Z.to_nat i := Some n]> l) names exception_names.

Definition nl : string := String (Ascii.ascii_of_nat 10) EmptyString.

Section idt_c.
Context `{FpEval}.
(** The address of default_interrupt_handler, the entry stubs of
    interrupt_handler.asm, and the address of the array [idt]. *)
Variables (default_handler : Z) (real_interrupt_entry_table : list Z) (idt_addr : Z).

Definition idt_init : prog istate unit :=
  _ ← modify (with_table (replicate (Z.to_nat interrupt_num) default_handler));
  _ ← modify (λ s, with_names (set_names (interrupt_names s)) s);
  modify (with_idt (make_idt_desc 0x8e <$> take (Z.to_nat interrupt_num) real_interrupt_entry_table)).

Definition interrupt_init : prog istate unit :=
  _ ← pic_init;
  _ ← idt_init;
  _ ← modify (with_idtr (Z.lor (8 * interrupt_num - 1) (Z.shiftl idt_addr 16)));
  zoom l_i_con (kprintf ("interrupt_init is done." +:+ nl) []).
End idt_c.

Section default_handler.
Context `{FpEval}.

(** default_interrupt_handler; its last loop never ends.  The format
    ["page fault addr if: %x\n"] of vector 14 comes without its argument. *)
Definition default_interrupt_handler (intr_id : Z) : prog istate unit :=
  let intr_id := u8 intr_id in
  if (intr_id =? 0x27) || (intr_id =? 0x2f) then mret tt else
  let print fmt args := zoom l_i_con (kprintf fmt args) in
  _ ← zoom l_i_con (set_cursor 0);
  _ ← repeat_prog 320 (λ _, print " " []) tt;
  _ ← zoom l_i_con (set_cursor 0);
  _ ← print ("----- Exception message begin -----" +:+ nl) [];
  names ← gets interrupt_names;
  _ ← match names !! Z.to_nat intr_id with
      | Some (Some n) => print ("%s" +:+ nl) [AStr (chars n)]
      | _ => undef "printf: %s with a null pointer"
      end;
  _ ← when (intr_id =? 14) (print ("page fault addr if: %x" +:+ nl) []);
  _ ← print ("----- Exception message end -----" +:+ nl) [];
  spin.

(** panic_spin() of assert.c: interrupts off, the message, and a loop for ever. *)
Definition panic_spin (p : panic_site) : prog istate unit :=
  let print fmt args := zoom l_i_con (kprintf fmt args) in
  _ ← zoom l_i_if Flag.intr_disable;
  _ ← print (nl +:+ "-----ASSERT-----" +:+ nl) [];
  _ ← print ("filename: %s" +:+ nl) [AStr (chars (p_file p))];
  _ ← print ("line: %d" +:+ nl) [AInt (p_line p)];
  _ ← print ("function: %s" +:+ nl) [AStr (chars (p_func p))];
  _ ← print ("condition: %s" +:+ nl) [AStr (chars (p_cond p))];
  _ ← print ("----------------" +:+ nl) [];
  spin.
End default_handler.

(** The handler the stub of vector [vec] calls
    ([call [c_interrupt_entry_table+4*vec]]). *)
Definition dispatch (s : istate) (vec : Z) : option Z :=
  c_interrupt_entry_table s !! Z.to_nat vec.

(** ** Printing *)

(** Ordinary text: no '%' and no terminator. *)
Definition plain (s : list Z) : bool := forallb (λ c, negb (c =? 37) && negb (c =? 0)) s.

Lemma plain_lit s : plain s = true → Forall (λ c, (c =? 37) = false) s ∧ Forall (λ c, c ≠ 0) s.
Proof.
  unfold plain. induction s as [|c s IH]; [done|]. simpl. intros [Hc Hs]%andb_prop.
  zb. destruct (IH Hs). split; constructor; try done; by apply Z.eqb_neq.
Qed.

Section printing.
Context `{FpEval}.

Lemma print_ok fmt args s n out rest stores :
  sprintf fp_prec fp_emax (chars fmt) args = Ok n (FState out rest stores) →
  zoom l_i_con (kprintf fmt args) s = Ok tt (with_con (i_con s ++ [CStr (until_nul out)]) s).
Proof. intros Hs. apply (zoom_Ok l_i_con), (kprintf_ok _ _ _ _ _ Hs). Qed.

Lemma print_lit fmt s :
  plain (chars fmt) = true → Z.of_nat (length (chars fmt)) < 1024 →
  zoom l_i_con (kprintf fmt []) s = Ok tt (with_con (i_con s ++ [CStr (chars fmt)]) s).
Proof.
  intros [H37 H0]%plain_lit Hlen. rewrite <- (until_nul_id _ H0).
  eapply print_ok, formats_sprintf; [|exact Hlen].
  rewrite <- (app_nil_r (chars fmt)) at 1. by apply formats_lit, formats_nil.
Qed.

(** One line with a string in it. *)
Lemma print_s fmt lit1 lit2 x s :
  chars fmt = lit1 ++ 37 :: 115 :: lit2 → plain lit1 = true → plain lit2 = true →
  Forall (λ c, c ≠ 0) x → Z.of_nat (length (lit1 ++ x ++ lit2)) < 1024 →
  zoom l_i_con (kprintf fmt [AStr x]) s = Ok tt (with_con (i_con s ++ [CStr (lit1 ++ x ++ lit2)]) s).
Proof.
  intros Hfmt [H1 H1']%plain_lit [H2 H2']%plain_lit Hx Hlen.
  rewrite <- (until_nul_id (lit1 ++ x ++ lit2)) by (rewrite !Forall_app; done).
  eapply print_ok, formats_sprintf; [|exact Hlen]. rewrite Hfmt.
  apply formats_lit, formats_s; [done|]. rewrite app_assoc, <- (app_nil_r lit2) at 1.
  by apply formats_lit, formats_nil.
Qed.

(** One line with an integer in it. *)
Lemma print_d fmt lit1 lit2 z s :
  chars fmt = lit1 ++ 37 :: 100 :: lit2 → plain lit1 = true → plain lit2 = true →
  Forall (λ c, c ≠ 0) (int_text 10 SIGN z) → Z.of_nat (length (lit1 ++ lit2)) < 990 →
  zoom l_i_con (kprintf fmt [AInt z]) s =
    Ok tt (with_con (i_con s ++ [CStr (lit1 ++ int_text 10 SIGN z ++ lit2)]) s).
Proof.
  intros Hfmt [H1 H1']%plain_lit [H2 H2']%plain_lit Hx Hlen.
  rewrite <- (until_nul_id (lit1 ++ _ ++ lit2)) by (rewrite !Forall_app; done).
  pose proof (int_text_length 10 SIGN z).
  eapply print_ok, formats_sprintf; [|rewrite !length_app in *; lia]. rewrite Hfmt.
  apply formats_lit, formats_d; [done|]. rewrite app_assoc, <- (app_nil_r lit2) at 1.
  by apply formats_lit, formats_nil.
Qed.

Lemma print_spaces n s :
  repeat_prog n (λ _, zoom l_i_con (kprintf " " [])) tt s =
    Ok tt (with_con (i_con s ++ replicate n (CStr (chars " "))) s).
Proof.
  revert s. induction n as [|n IH]; intros s; simpl.
  { destruct s. unfold with_con. simpl. by rewrite app_nil_r. }
  rewrite (bind_Ok _ _ _ _ _ (print_lit " " s eq_refl ltac:(simpl; lia))), IH.
  unfold with_con. simpl. by rewrite <- app_assoc.
Qed.
End printing.

(** Decimal text has no terminator in it. *)
Lemma int_text_nonzero z : Forall (λ c, c ≠ 0) (int_text 10 SIGN z).
Proof.
  unfold int_text. rewrite Forall_app. split.
  { unfold sign_list, sign_of. destruct (has SIGN SIGN && (i32 (u32 z) <? 0)).
    - by repeat constructor.
    - change (has SIGN PLUS) with false. change (has SIGN SPACE) with false. constructor. }
  apply Forall_rev. unfold digits_of. set (n := magnitude (u32 z) SIGN).
  assert (Hdig : ∀ k, 0 ≤ k < 10 → digit (has SIGN SMALL) k ≠ 0).
  { intros k Hk. assert (Hin : k ∈ seqZ 0 10) by (apply elem_of_seqZ; lia). revert Hin.
    change (seqZ 0 10) with [0; 1; 2; 3; 4; 5; 6; 7; 8; 9].
    rewrite !elem_of_cons, elem_of_nil.
    intros Hk'. destruct_or?; subst; by vm_compute. }
  destruct (n =? 0); [by repeat constructor|].
  generalize 32%nat as fuel. intros fuel. generalize n. induction fuel as [|fuel IH]; intros m; simpl.
  { constructor. }
  destruct (m =? 0); [constructor|]. constructor; [|apply IH].
  apply Hdig, Z.mod_pos_bound. lia.
Qed.

(** ** The gates *)

Lemma gate_target_make attr function :
  0 ≤ function < 2 ^ 32 → gate_target (make_idt_desc attr function) = function.
Proof.
  intros Hf. unfold gate_target, make_idt_desc. simpl.
  change 0x0000FFFF with (Z.ones 16). change 0xFFFF0000 with (Z.shiftl (Z.ones 16) 16).
  assert (Hlow : u16 (Z.land function (Z.ones 16)) = function mod 2 ^ 16).
  { rewrite Z.land_ones by lia. unfold u16. by rewrite Z.mod_mod. }
  assert (Hhigh : Z.shiftr (Z.land function (Z.shiftl (Z.ones 16) 16)) 16 = function / 2 ^ 16).
  { rewrite Z.shiftr_land, Z.shiftr_shiftl_l by lia.
    rewrite Z.shiftl_0_r, Z.land_ones, Z.shiftr_div_pow2 by lia.
    apply Z.mod_small. split; [apply Z.div_pos; lia | apply Z.div_lt_upper_bound; lia]. }
  rewrite Hlow, Hhigh, u16_small by
    (split; [apply Z.div_pos; lia | apply Z.div_lt_upper_bound; lia]).
  rewrite Z.lor_comm, lor_shiftl_low by (try apply Z.mod_pos_bound; lia).
  rewrite Z.mul_comm. symmetry. by apply Z.div_mod.
Qed.

(** The name idt_init gives a vector, if any. *)
Definition name_of (vec : Z) : option string :=
  snd <$> List.find (λ e, fst e =? vec) exception_names.

Lemma set_names_lookup vec :
  0 ≤ vec < interrupt_num →
  set_names (replicate (Z.to_nat interrupt_num) None) !! Z.to_nat vec = Some (name_of vec).
Proof.
  intros Hv. assert (Hin : vec ∈ seqZ 0 48) by (apply elem_of_seqZ; unfold interrupt_num in Hv; lia).
  revert vec Hin Hv. apply (Forall_forall (λ vec, 0 ≤ vec < interrupt_num →
    set_names (replicate (Z.to_nat interrupt_num) None) !! Z.to_nat vec = Some (name_of vec))).
  vm_compute seqZ. repeat (constructor; [intros _; vm_compute; reflexivity|]). constructor.
Qed.

(** A named vector has a name that fits a line. *)
Lemma name_of_line vec n :
  name_of vec = Some n → plain (chars n) = true ∧ Z.of_nat (length (chars n)) < 100.
Proof.
  unfold name_of. destruct (List.find _ exception_names) as [e|] eqn:He; [|done].
  intros Hn. simpl in Hn. injection Hn as <-. apply find_some in He as [He _]. simpl in He.
  repeat (destruct He as [<-|He]; [vm_compute; by split|]). done.
Qed.

Lemma plain_no_nul s : plain s = true → Forall (λ c, c ≠ 0) s.
Proof. intros H. apply (proj2 (plain_lit s H)). Qed.

Section handler_lemmas.
Context `{FpEval}.

(** The console after the banner of the default handler. *)
Definition banner (con : list conop) : list conop :=
  con ++ [CCursor 0] ++ replicate 320 (CStr (chars " ")) ++
  [CCursor 0; CStr (chars ("----- Exception message begin -----" +:+ nl))].

(** The handler up to the name of the exception. *)
Lemma default_handler_banner vec s :
  0 ≤ vec < interrupt_num → ¬ (vec = 0x27 ∨ vec = 0x2f) →
  interrupt_names s = set_names (replicate (Z.to_nat interrupt_num) None) →
  default_interrupt_handler vec s =
    (_ ← match name_of vec with
         | Some n => zoom l_i_con (kprintf ("%s" +:+ nl) [AStr (chars n)])
         | None => undef "printf: %s with a null pointer"
         end;
     _ ← when (vec =? 14) (zoom l_i_con (kprintf ("page fault addr if: %x" +:+ nl) []));
     _ ← zoom l_i_con (kprintf ("----- Exception message end -----" +:+ nl) []);
     spin) (with_con (banner (i_con s)) s).
Proof.
  intros Hv Hsp Hnames. unfold default_interrupt_handler. cbv zeta.
  rewrite u8_small by (unfold interrupt_num in *; lia).
  rewrite (proj2 (Z.eqb_neq vec 0x27)), (proj2 (Z.eqb_neq vec 0x2f)) by tauto.
  change (false || false) with false. cbv iota.
  rewrite (bind_Ok _ _ _ _ _ (zoom_Ok l_i_con (set_cursor 0) s tt _ eq_refl)).
  rewrite (bind_Ok _ _ _ _ _ (print_spaces _ _)).
  rewrite (bind_Ok _ _ _ _ _ (zoom_Ok l_i_con (set_cursor 0) _ tt _ eq_refl)).
  erewrite (bind_Ok (zoom l_i_con (kprintf _ _))) by (apply print_lit; vm_compute; reflexivity).
  rewrite bind_gets. destruct s as [b names t d i p con]. cbn in Hnames. subst names.
  match goal with |- context [?l !! Z.to_nat vec] =>
    replace (l !! Z.to_nat vec) with (Some (name_of vec)) by (symmetry; exact (set_names_lookup vec Hv))
  end.
  unfold banner, with_con. simpl. rewrite <- !app_assoc. by destruct (name_of vec).
Qed.
End handler_lemmas.

(** ** Properties *)

Section idt_properties.
Context `{FpEval}.

(** interrupt_init as one change of state. *)
Lemma interrupt_init_run dflt stubs base s :
  interrupt_init dflt stubs base s =
    Ok tt (IState (i_if s) (set_names (interrupt_names s)) (replicate (Z.to_nat interrupt_num) dflt)
      (make_idt_desc 0x8e <$> take (Z.to_nat interrupt_num) stubs) (Z.lor (8 * interrupt_num - 1) (Z.shiftl base 16))
      (foldl (λ ports w, ports ++ [w]) (i_ports s)
        [(0x20, 0x11); (0xa0, 0x11); (0x21, 0x20); (0xa1, 0x28); (0x21, 0x04); (0xa1, 0x02);
         (0x21, 0x01); (0xa1, 0x01); (0x21, 0xfc); (0xa1, 0xff)])
      (i_con s ++ [CStr (chars ("interrupt_init is done." +:+ nl))])).
Proof.
  unfold interrupt_init, pic_init, idt_init, outb. psteps.
  etransitivity; [apply print_lit; vm_compute; reflexivity|].
  reflexivity.
Qed.

(** C28 After interrupt_init every one of the 48 vectors has an interrupt gate of
    ring 0 in the code segment whose two halves reassemble to that vector's entry
    stub, the default C handler behind it, and the name of the exception where it
    has one; the operand of [lidt] is the limit and the address of the table. *)
Theorem interrupt_init_installs dflt stubs base s :
  length stubs = Z.to_nat interrupt_num → Forall (λ a, 0 ≤ a < 2 ^ 32) stubs →
  interrupt_names s = replicate (Z.to_nat interrupt_num) None →
  ∃ s', interrupt_init dflt stubs base s = Ok tt s' ∧
    (∀ vec, 0 ≤ vec < interrupt_num →
       ∃ stub d, stubs !! Z.to_nat vec = Some stub ∧ idt s' !! Z.to_nat vec = Some d ∧
         gate_target d = stub ∧ selector d = 8 ∧ attribute d = 0x8e ∧
         dispatch s' vec = Some dflt ∧
         interrupt_names s' !! Z.to_nat vec = Some (name_of vec)) ∧
    i_idtr s' mod 2 ^ 16 = 8 * 48 - 1 ∧ i_idtr s' / 2 ^ 16 = base ∧ i_if s' = i_if s.
Proof.
  intros Hlen Hrange Hnames. rewrite interrupt_init_run.
  eexists. split; [reflexivity|]. destruct s as [b names table d idtr ports con].
  cbn in Hnames. subst names. cbn.
  split_and!; [|change 383 with (8 * interrupt_num - 1)..|done].
  - intros vec Hv. destruct (lookup_lt_is_Some_2 stubs (Z.to_nat vec)) as [stub Hstub].
    { rewrite Hlen. unfold interrupt_num in *. lia. }
    exists stub, (make_idt_desc 0x8e stub). split_and!; try done.
    + rewrite list_lookup_fmap, lookup_take, decide_True by (unfold interrupt_num in *; lia).
      by rewrite Hstub.
    + apply gate_target_make. by apply (Forall_lookup_1 _ _ _ _ Hrange Hstub).
    + apply lookup_replicate_2. unfold interrupt_num in *. lia.
    + apply (set_names_lookup vec Hv).
  - rewrite Z.lor_comm, lor_shiftl_low by (unfold interrupt_num; lia).
    rewrite Z.add_comm, Z.mod_add by lia. by apply Z.mod_small.
  - rewrite Z.lor_comm, lor_shiftl_low by (unfold interrupt_num; lia).
    rewrite Z.div_add_l by lia. rewrite Z.div_small by (unfold interrupt_num; lia). lia.
Qed.

(** register_handler changes the handler of exactly the one vector; a number
    of 0x30 or more is written outside the table. *)
Theorem register_handler_exact num handler s :
  length (c_interrupt_entry_table s) = Z.to_nat interrupt_num →
  (u8 num < interrupt_num → ∃ s', register_handler num handler s = Ok tt s' ∧
     idt s' = idt s ∧ ∀ vec, 0 ≤ vec →
       dispatch s' vec = if decide (vec = u8 num) then Some handler else dispatch s vec) ∧
  (interrupt_num ≤ u8 num → ∃ w, register_handler num handler s = Undef w s).
Proof.
  intros Hlen. pose proof (u8_range num). unfold register_handler. split; intros Hn.
  - rewrite (proj2 (Z.ltb_lt _ _) Hn). eexists. split_and!; [reflexivity|done|].
    intros vec Hv. unfold dispatch. simpl. case_decide as Hd.
    + subst vec. apply list_lookup_insert_eq. rewrite Hlen. unfold interrupt_num in *. lia.
    + apply list_lookup_insert_ne. lia.
  - rewrite (proj2 (Z.ltb_ge _ _) Hn). eexists. reflexivity.
Qed.

(** C29 The default handler ignores the two spurious vectors; for a named
    exception other than the page fault it blanks four lines, prints the banner
    and the name, and never returns; for the page fault, whose printf lacks its
    argument, and for every vector without a name its behaviour is undefined. *)
Theorem default_handler_behaviour vec s :
  0 ≤ vec < interrupt_num →
  interrupt_names s = set_names (replicate (Z.to_nat interrupt_num) None) →
  if bool_decide (vec = 0x27 ∨ vec = 0x2f) then default_interrupt_handler vec s = Ok tt s else
  match name_of vec with
  | Some n =>
      if vec =? 14 then ∃ w s', default_interrupt_handler vec s = Undef w s' else
      default_interrupt_handler vec s =
        NoFuel (with_con (banner (i_con s) ++
                  [CStr (chars n ++ [10]);
                   CStr (chars ("----- Exception message end -----" +:+ nl))]) s)
  | None => ∃ w s', default_interrupt_handler vec s = Undef w s'
  end.
Proof.
  intros Hv Hnames. case_bool_decide as Hsp.
  { destruct Hsp as [-> | ->]; reflexivity. }
  rewrite (default_handler_banner vec s Hv Hsp Hnames).
  destruct (name_of vec) as [n|] eqn:En; [|by eexists _, _].
  destruct (name_of_line _ _ En) as [Hpl Hlen].
  assert (Hn : ∀ t, zoom l_i_con (kprintf ("%s" +:+ nl) [AStr (chars n)]) t =
                    Ok tt (with_con (i_con t ++ [CStr (chars n ++ [10])]) t)).
  { intros t. apply (print_s ("%s" +:+ nl) [] [10]); [done|done|done|by apply plain_no_nul|].
    simpl. rewrite length_app. simpl. lia. }
  rewrite (bind_Ok _ _ _ _ _ (Hn _)).
  destruct (Z.eqb_spec vec 14) as [->|Hne]; [by eexists _, _|]. unfold when. rewrite bind_ret.
  erewrite (bind_Ok (zoom _ _)) by (apply print_lit; vm_compute; reflexivity).
  unfold spin, no_fuel, with_con. simpl. by rewrite <- !app_assoc.
Qed.

(** panic_spin turns interrupts off, prints file, line, function and condition
    of the failed assertion on six lines, and never returns. *)
Theorem panic_spin_reports p s :
  Forall (λ x, Forall (λ c, c ≠ 0) (chars x) ∧ Z.of_nat (length (chars x)) < 1000)
    [p_file p; p_func p; p_cond p] →
  panic_spin p s =
    NoFuel (with_if false (with_con (i_con s ++
      [CStr (chars (nl +:+ "-----ASSERT-----" +:+ nl));
       CStr (chars "filename: " ++ chars (p_file p) ++ [10]);
       CStr (chars "line: " ++ int_text 10 SIGN (p_line p) ++ [10]);
       CStr (chars "function: " ++ chars (p_func p) ++ [10]);
       CStr (chars "condition: " ++ chars (p_cond p) ++ [10]);
       CStr (chars ("----------------" +:+ nl))]) s)).
Proof.
  rewrite !Forall_cons. intros ([Hf Hf'] & [Hg Hg'] & [Hc Hc'] & _).
  unfold panic_spin. cbv zeta.
  erewrite (bind_Ok (zoom l_i_if _)) by (apply zoom_Ok, Flag.intr_disable_ok).
  erewrite (bind_Ok (zoom _ _)) by (apply print_lit; vm_compute; reflexivity).
  erewrite (bind_Ok (zoom _ _)) by
    (apply (print_s _ (chars "filename: ") [10]); [reflexivity..|done|rewrite !length_app; simpl; lia]).
  erewrite (bind_Ok (zoom _ _)) by
    (apply (print_d _ (chars "line: ") [10]); [reflexivity..|apply int_text_nonzero|simpl; lia]).
  erewrite (bind_Ok (zoom _ _)) by
    (apply (print_s _ (chars "function: ") [10]); [reflexivity..|done|rewrite !length_app; simpl; lia]).
  erewrite (bind_Ok (zoom _ _)) by
    (apply (print_s _ (chars "condition: ") [10]); [reflexivity..|done|rewrite !length_app; simpl; lia]).
  erewrite (bind_Ok (zoom _ _)) by (apply print_lit; vm_compute; reflexivity).
  unfold spin, no_fuel. f_equal. destruct s. unfold with_if, with_con. simpl. f_equal.
  rewrite <- !app_assoc. done.
Qed.
End idt_properties.

(** *** Witnesses *)

(** Double arithmetic as the x87 does it. *)
Definition x87 : FpEval := {| fp_prec := 64; fp_emax := 16384 |}.

Definition demo_stubs : list Z := (λ i, 0xc0001000 + 32 * i) <$> seqZ 0 48.

(** Before interrupt_init: everything zero, interrupts off. *)
Definition boot_istate : istate :=
  IState false (replicate (Z.to_nat interrupt_num) None) (replicate (Z.to_nat interrupt_num) 0)
    (replicate (Z.to_nat interrupt_num) (InterruptDescriptor 0 0 0 0 0)) 0 [] [].

Lemma interrupt_init_installs_witness :
  ∃ s', @interrupt_init x87 0xc0009000 demo_stubs 0xc000a000 boot_istate = Ok tt s' ∧
    (∀ vec, 0 ≤ vec < interrupt_num →
       ∃ stub d, demo_stubs !! Z.to_nat vec = Some stub ∧ idt s' !! Z.to_nat vec = Some d ∧
         gate_target d = stub ∧ selector d = 8 ∧ attribute d = 0x8e ∧
         dispatch s' vec = Some 0xc0009000 ∧
         interrupt_names s' !! Z.to_nat vec = Some (name_of vec)) ∧
    i_idtr s' mod 2 ^ 16 = 8 * 48 - 1 ∧ i_idtr s' / 2 ^ 16 = 0xc000a000 ∧ i_if s' = false.
Proof.
  apply (@interrupt_init_installs x87 0xc0009000 demo_stubs 0xc000a000 boot_istate).
  - reflexivity.
  - unfold demo_stubs. rewrite Forall_fmap. apply Forall_forall.
    intros i Hi%elem_of_seqZ. simpl. lia.
  - reflexivity.
Defined.

Lemma register_handler_exact_witness :
  (u8 0x121 < interrupt_num → ∃ s', register_handler 0x121 77 boot_istate = Ok tt s' ∧
     idt s' = idt boot_istate ∧ ∀ vec, 0 ≤ vec →
       dispatch s' vec = if decide (vec = u8 0x121) then Some 77 else dispatch boot_istate vec) ∧
  (interrupt_num ≤ u8 0x121 → ∃ w, register_handler 0x121 77 boot_istate = Undef w boot_istate).
Proof. apply (register_handler_exact 0x121 77 boot_istate). reflexivity. Defined.

Definition named_istate : istate :=
  with_names (set_names (replicate (Z.to_nat interrupt_num) None)) boot_istate.

Lemma default_handler_behaviour_witness :
  if bool_decide (13 = 0x27 ∨ 13 = 0x2f)
  then @default_interrupt_handler x87 13 named_istate = Ok tt named_istate else
  match name_of 13 with
  | Some n =>
      if 13 =? 14 then ∃ w s', @default_interrupt_handler x87 13 named_istate = Undef w s' else
      @default_interrupt_handler x87 13 named_istate =
        NoFuel (with_con (banner [] ++
                  [CStr (chars n ++ [10]);
                   CStr (chars ("----- Exception message end -----" +:+ nl))]) named_istate)
  | None => ∃ w s', @default_interrupt_handler x87 13 named_istate = Undef w s'
  end.
Proof. apply (@default_handler_behaviour x87 13 named_istate); [by split|reflexivity]. Defined.

Lemma panic_spin_reports_witness :
  @panic_spin x87 (PanicSite "kernel/sync.c" 23 "sema_dowm" "psema->value == 0") boot_istate =
    NoFuel (with_if false (with_con
      [CStr (chars (nl +:+ "-----ASSERT-----" +:+ nl));
       CStr (chars ("filename: kernel/sync.c" +:+ nl));
       CStr (chars ("line: 23" +:+ nl));
       CStr (chars ("function: sema_dowm" +:+ nl));
       CStr (chars ("condition: psema->value == 0" +:+ nl));
       CStr (chars ("----------------" +:+ nl))] boot_istate)).
Proof.
  refine (@panic_spin_reports x87 (PanicSite "kernel/sync.c" 23 "sema_dowm" "psema->value == 0")
           boot_istate _).
  rewrite !Forall_cons, Forall_nil.
  split_and!; first [apply plain_no_nul; reflexivity | simpl; lia | exact I].
Defined.
