(* ===== verification/Memory.v ===== *)
(** * kernel/memory.c: physical pages, virtual ranges, page-table entries

    The state is the paged memory, the two physical pools, the kernel's virtual
    range, and the console.  Every bitmap lies in the paged memory, at an address
    the kernel maps; the page tables lie there too, behind the recursive mapping
    of Paging.v.  The locks around the two entry points are added in Kernel.v;
    [cur_vaddr] is [running_thread()->userprog_vaddr], which nothing here changes
    (its bitmap is in the paged memory). *)

From Stdlib Require Import ZArith Lia.
From stdpp Require Import base tactics gmap strings fin_maps functions list.
From S2P Require Import Prelude ByteMem CString Bitmap Format Paging Idt.

Definition MEM_BITMAP_BASE : Z := 0xc009a000.
Definition K_HEAP_START : Z := 0xc0100000.

(** [enum pool_type] and [struct virtual_addr] of include/memory.h *)
Inductive pool_type := KERNEL_POOL | USER_POOL.

Record virtual_addr := VirtualAddr { addr_bitmap : bitmap; addr_start : Z }.

(** [struct pool], without its lock *)
Record pool := Pool { pool_bitmap : bitmap; phy_addr_start : Z; pool_size : Z }.

Record memst := MemSt {
  m_mmu : mmu;
  kernel_pool : pool;
  user_pool : pool;
  kernel_vaddr : virtual_addr;
  m_con : list conop
}.

Definition l_mmu : lens memst mmu.
Proof.
  refine (Lens m_mmu (λ m s, MemSt m (kernel_pool s) (user_pool s) (kernel_vaddr s) (m_con s)) _ _ _);
    abstract by intros; destruct k.
Defined.

Definition l_m_con : lens memst (list conop).
Proof.
  refine (Lens m_con (λ c s, MemSt (m_mmu s) (kernel_pool s) (user_pool s) (kernel_vaddr s) c) _ _ _);
    abstract by intros; destruct k.
Defined.

Definition set_kernel_pool (p : pool) : prog memst unit :=
  modify (λ s, MemSt (m_mmu s) p (user_pool s) (kernel_vaddr s) (m_con s)).
Definition set_user_pool (p : pool) : prog memst unit :=
  modify (λ s, MemSt (m_mmu s) (kernel_pool s) p (kernel_vaddr s) (m_con s)).
Definition set_kernel_vaddr (v : virtual_addr) : prog memst unit :=
  modify (λ s, MemSt (m_mmu s) (kernel_pool s) (user_pool s) v (m_con s)).

Definition line (s : string) : string := s +:+ String (Ascii.ascii_of_nat 10) EmptyString.

Definition site (n : Z) (func cond : string) : panic_site := PanicSite "kernel/memory.c" n func cond.

Definition user_range_site : panic_site :=
  site 132 "vaddr_get_pages" "(u32)vaddr_start < (0xc0000000 - PG_SIZE)".

Definition pte_absent_site (n : Z) : panic_site :=
  site n "bind_vaddr_paddr_page" "!(*pte & 0x00000001)".

Section memory_c.
Context `{FpEval}.

Definition mem_print (fmt : string) (args : list arg) : prog memst unit :=
  zoom l_m_con (kprintf (line fmt) args).

Definition mem_pool_init (all_mem : Z) : prog memst unit :=
  let page_table_size := PG_SIZE * 256 in
  let used_mem := page_table_size + 0x100000 in
  let free_mem := u32 (all_mem - used_mem) in
  let all_free_pages := u16 (free_mem / PG_SIZE) in
  let kernel_free_pages := u16 (all_free_pages / 2) in
  let user_free_pages := u16 (all_free_pages - kernel_free_pages) in
  let kbm := Bitmap (kernel_free_pages / 8) MEM_BITMAP_BASE in
  _ ← set_kernel_pool (Pool kbm used_mem (u32 (kernel_free_pages * PG_SIZE)));
  _ ← zoom l_mmu (bitmap_init kbm);
  let ubm := Bitmap (user_free_pages / 8) (u32 (MEM_BITMAP_BASE + kernel_free_pages / 8)) in
  let ustart := u32 (used_mem + kernel_free_pages * PG_SIZE) in
  _ ← set_user_pool (Pool ubm ustart (u32 (user_free_pages * PG_SIZE)));
  _ ← zoom l_mmu (bitmap_init ubm);
  _ ← mem_print "-----------------------------" [];
  _ ← mem_print "kernel_pool: bitmap_start: %x, phy_addr_start=%x" [AInt (bm_bits kbm); AInt used_mem];
  _ ← mem_print "user_pool: bitmap_start: %x, phy_addr_start=%x" [AInt (bm_bits ubm); AInt ustart];
  _ ← mem_print "-----------------------------" [];
  let vbm := Bitmap (kernel_free_pages / 8)
               (u32 (MEM_BITMAP_BASE + kernel_free_pages / 8 + user_free_pages / 8)) in
  _ ← set_kernel_vaddr (VirtualAddr vbm K_HEAP_START);
  zoom l_mmu (bitmap_init vbm).

(** [for (u32 i = start; i < limit; i++) bitmap_set_bit(bm, i, 1);] *)
Fixpoint set_bits (fuel : nat) (bm : bitmap) (i limit : Z) : prog mmu unit :=
  match fuel with
  | O => no_fuel
  | S fuel' =>
      if i <? limit then _ ← bitmap_set_bit bm i 1; set_bits fuel' bm (u32 (i + 1)) limit
      else mret tt
  end.

Definition vaddr_get_pages (type : pool_type) (cur_vaddr : virtual_addr) (count : Z) : prog memst Z :=
  match type with
  | KERNEL_POOL =>
      v ← gets kernel_vaddr;
      r ← zoom l_mmu (bitmap_request_bits (addr_bitmap v) count);
      let bit_index_start := u32 r in
      if bit_index_start =? u32 (-1) then mret NULL else
      _ ← zoom l_mmu (set_bits (S (Z.to_nat count)) (addr_bitmap v) bit_index_start
                        (u32 (bit_index_start + count)));
      mret (u32 (addr_start v + bit_index_start * PG_SIZE))
  | USER_POOL =>
      r ← zoom l_mmu (bitmap_request_bits (addr_bitmap cur_vaddr) count);
      let bit_index_start := u32 r in
      if bit_index_start =? u32 (-1) then mret NULL else
      _ ← zoom l_mmu (set_bits (S (Z.to_nat count)) (addr_bitmap cur_vaddr) bit_index_start
                        (u32 (bit_index_start + count)));
      let vaddr_start := u32 (addr_start cur_vaddr + bit_index_start * PG_SIZE) in
      _ ← c_assert user_range_site (vaddr_start <? 0xc0000000 - PG_SIZE);
      mret vaddr_start
  end.

Definition paddr_get_page (m_pool : pool) : prog memst Z :=
  bit_idx ← zoom l_mmu (bitmap_request_bits (pool_bitmap m_pool) 1);
  if bit_idx =? -1 then mret NULL else
  _ ← zoom l_mmu (bitmap_set_bit (pool_bitmap m_pool) (u32 bit_idx) 1);
  mret (u32 (phy_addr_start m_pool + PG_SIZE * bit_idx)).

Definition bind_vaddr_paddr_page (vaddr page_phyaddr : Z) : prog memst unit :=
  let pde := pde_ptr vaddr in
  let pte := pte_ptr vaddr in
  d ← zoom l_mmu (load32 pde);
  if negb (Z.land d 1 =? 0) then
    e ← zoom l_mmu (load32 pte);
    _ ← c_assert (pte_absent_site 161) (Z.land e 1 =? 0);
    e ← zoom l_mmu (load32 pte);
    if Z.land e 1 =? 0 then zoom l_mmu (store32 pte (Z.lor page_phyaddr 7))
    else panic (site 167 "bind_vaddr_paddr_page" "pte repeated!")
  else
    kpool ← gets kernel_pool;
    pde_phyaddr ← paddr_get_page kpool;
    _ ← zoom l_mmu (store32 pde (Z.lor pde_phyaddr 7));
    _ ← zoom l_mmu (memset (Z.land pte 0xfffff000) 0 PG_SIZE);
    e ← zoom l_mmu (load32 pte);
    _ ← c_assert (pte_absent_site 173) (Z.land e 1 =? 0);
    zoom l_mmu (store32 pte (Z.lor page_phyaddr 7)).

Definition mem_pool (type : pool_type) : prog memst pool :=
  gets (match type with KERNEL_POOL => kernel_pool | USER_POOL => user_pool end).

(** The loop of malloc_pages over the pages; [false] when a page is missing. *)
Fixpoint map_pages (cnt : nat) (type : pool_type) (vaddr : Z) : prog memst bool :=
  match cnt with
  | O => mret true
  | S cnt' =>
      p ← mem_pool type;
      page_phyaddr ← paddr_get_page p;
      if page_phyaddr =? NULL then mret false else
      _ ← bind_vaddr_paddr_page vaddr page_phyaddr;
      map_pages cnt' type (u32 (vaddr + PG_SIZE))
  end.

Definition malloc_pages (type : pool_type) (cur_vaddr : virtual_addr) (count : Z) : prog memst Z :=
  _ ← c_assert (site 186 "malloc_pages" "count > 0 && count < 3840") ((0 <? count) && (count <? 3840));
  vaddr_start ← vaddr_get_pages type cur_vaddr count;
  if vaddr_start =? NULL then mret NULL else
  ok ← map_pages (Z.to_nat count) type vaddr_start;
  if negb ok then mret NULL else
  _ ← zoom l_mmu (memset vaddr_start 0 (u32 (count * PG_SIZE)));
  mret vaddr_start.
End memory_c.

(** ** Physical pages and virtual ranges *)

Definition set_mmu (m : mmu) (s : memst) : memst := lput l_mmu m s.

(** The bits of bitmap [bm] in the contents [f]. *)
Definition bits_of (f : Z → Z) (bm : bitmap) : Z → bool := bm_bit f (bm_bits bm).

(** The bytes of a bitmap. *)
Definition in_bitmap (bm : bitmap) (x : Z) : Prop := region (bm_bits bm) (bm_length bm) x.

Lemma bits_same bm f g :
  (∀ x, in_bitmap bm x → g x = f x) → ∀ j, 0 ≤ j < 8 * bm_length bm → bits_of g bm j = bits_of f bm j.
Proof. intros Heq j Hj. unfold bits_of, bm_bit. f_equal. apply Heq. unfold in_bitmap, region. zlia. Qed.

(** The bitmap that loses a bit is changed in its own bytes only. *)
Lemma bit_byte bm i x : 0 ≤ i < 8 * bm_length bm → ¬ in_bitmap bm x → x ≠ bm_bits bm + i / 8.
Proof. unfold in_bitmap, region. intros. zlia. Qed.

(** A bitmap inside the owned region, with the byte behind it that the run
    search may read. *)
Record bitmap_in (D : Z → Prop) (bm : bitmap) : Prop := {
  bi_length : 0 ≤ bm_length bm < 2 ^ 28;
  bi_region : ∀ x, region (bm_bits bm) (bm_length bm + 1) x → D x
}.

Lemma bitmap_in_byte D bm i :
  bitmap_in D bm → 0 ≤ i < 8 * (bm_length bm + 1) → D (bm_bits bm + i / 8).
Proof. intros [Hl HD] Hi. apply HD. unfold region. zlia. Qed.

(** From the contents [f] to [g] the bits [i], ..., [i + n - 1] of [bm] were set, and
    no byte without one of them changed. *)
Definition bits_taken (bm : bitmap) (i n : Z) (f g : Z → Z) : Prop :=
  (∀ j, 0 ≤ j → bits_of g bm j = if decide (i ≤ j < i + n) then true else bits_of f bm j) ∧
  (∀ x, (∀ j, i ≤ j < i + n → x ≠ bm_bits bm + j / 8) → g x = f x).

Section allocation.
Context `{FpEval}.

Lemma set_bits_ok (m : mmu) (D : Z → Prop) f bm i limit fuel :
  holds m D f → 0 ≤ i ≤ limit → limit < 2 ^ 32 → (Z.to_nat (limit - i) < fuel)%nat →
  (∀ j, i ≤ j < limit → D (bm_bits bm + j / 8)) →
  wp (set_bits fuel bm i limit)
    (λ _ m', changes D m m' ∧ ∃ g, holds m' D g ∧ bits_taken bm i (limit - i) f g) m.
Proof.
  revert m f i. induction fuel as [|fuel IH]; intros m f i Hm Hi Hlim Hfuel HD; [lia|].
  simpl set_bits. destruct (Z.ltb_spec i limit) as [Hlt|Hge].
  - apply wp_bind. eapply wp_mono.
    { apply (bitmap_set_bit_ok m D f bm i 1 Hm); [lia|apply HD; lia]. }
    intros _ m1 (Hch1 & g1 & Hg1 & Hb1 & Ho1). rewrite u32_small by lia.
    eapply wp_mono; [apply (IH m1 g1 (i + 1) Hg1)|]; [lia..| |].
    + intros j Hj. apply HD. lia.
    + intros _ m2 (Hch2 & g2 & Hg2 & Hb2 & Ho2). split; [by apply (changes_trans D m m1 m2)|].
      exists g2. split; [done|]. split.
      * intros j Hj. rewrite Hb2 by done. unfold bits_of.
        rewrite Hb1 by done. repeat case_decide; try done; lia.
      * intros x Hx. rewrite Ho2 by (intros; apply Hx; lia). apply Ho1, Hx. lia.
  - split; [apply changes_refl|]. exists f. split; [done|]. split; [|done].
    intros j Hj. rewrite decide_False by lia. done.
Qed.

(** One physical page: the lowest free bit becomes taken. *)
Lemma paddr_get_page_ok s (D : Z → Prop) f p :
  holds (m_mmu s) D f → bitmap_in D (pool_bitmap p) →
  0 ≤ phy_addr_start p → phy_addr_start p + 8 * bm_length (pool_bitmap p) * PG_SIZE ≤ 2 ^ 32 →
  wpp (paddr_get_page p)
    (λ r s', ∃ i m' g, s' = set_mmu m' s ∧ first_run (bits_of f (pool_bitmap p)) 1
         (8 * bm_length (pool_bitmap p)) i ∧ r = phy_addr_start p + i * PG_SIZE ∧
       changes D (m_mmu s) m' ∧ holds m' D g ∧ bits_taken (pool_bitmap p) i 1 f g)
    (λ x s', s' = s ∧ x = bitmap_assert_site ∧
       ∀ i, 0 ≤ i < 8 * bm_length (pool_bitmap p) → bits_of f (pool_bitmap p) i = true) s.
Proof.
  intros Hm [Hlen HD] Hphy Hend. set (bm := pool_bitmap p) in *. unfold paddr_get_page. fold bm.
  apply wpp_bind, wpp_zoom. change (lget l_mmu s) with (m_mmu s).
  eapply wpp_mono; [apply (bitmap_request_one_ok _ D f bm Hm Hlen HD)| |].
  2: { intros x m' (-> & -> & Hfull). split_and!; [|done|done]. by destruct s. }
  intros r m' [-> Hrun]. pose proof Hrun as (Hr0 & Hr1 & _ & _).
  rewrite (proj2 (Z.eqb_neq r (-1))) by lia.
  replace (lput l_mmu (m_mmu s) s) with s by (by destruct s).
  apply wpp_bind, wpp_zoom. change (lget l_mmu s) with (m_mmu s). rewrite (u32_small r) by lia.
  apply wp_wpp. eapply wp_mono.
  { apply (bitmap_set_bit_ok _ D f bm r 1 Hm Hr0). apply bitmap_in_byte; [by split|lia]. }
  intros _ m' (Hch & g & Hg & Hbits & Hout). apply wpp_ret.
  exists r, m', g. unfold PG_SIZE in *. rewrite u32_small by lia.
  split_and!; [done|done|lia|done|done|]. split.
  - intros j Hj. unfold bits_of. rewrite Hbits by done. repeat case_decide; try done; lia.
  - intros x Hx. apply Hout, Hx. lia.
Qed.

(** A range of kernel pages: the first run of free pages becomes taken.  The run
    may end one page past the range, as the search of bitmap.c does. *)
Lemma vaddr_get_pages_ok s (D : Z → Prop) f cur_vaddr type count v :
  holds (m_mmu s) D f → v = (match type with KERNEL_POOL => kernel_vaddr s | USER_POOL => cur_vaddr end) →
  bitmap_in D (addr_bitmap v) → 1 ≤ count < 2 ^ 28 →
  0 ≤ addr_start v → addr_start v + (8 * bm_length (addr_bitmap v) + 1) * PG_SIZE ≤ 2 ^ 32 →
  let B := bits_of f (addr_bitmap v) in
  let limit := request_limit (addr_bitmap v) count in
  wpp (vaddr_get_pages type cur_vaddr count)
    (λ r s', r = NULL ∧ s' = s ∧ no_run B count limit ∨
       ∃ i m' g, s' = set_mmu m' s ∧ first_run B count limit i ∧
         r = addr_start v + i * PG_SIZE ∧ changes D (m_mmu s) m' ∧ holds m' D g ∧
         bits_taken (addr_bitmap v) i count f g)
    (λ x s', (s' = s ∧ x = bitmap_assert_site ∧
         ∀ i, 0 ≤ i < 8 * bm_length (addr_bitmap v) → B i = true) ∨
       type = USER_POOL ∧ x = user_range_site ∧
         ∃ i, first_run B count limit i ∧ 0xc0000000 - PG_SIZE ≤ addr_start v + i * PG_SIZE) s.
Proof.
  intros Hm Hv [Hlen HD] Hcount Hstart Hend B limit. set (bm := addr_bitmap v) in *.
  set (rest := λ r : Z, if u32 r =? u32 (-1) then mret NULL else
    _ ← zoom l_mmu (set_bits (S (Z.to_nat count)) bm (u32 r) (u32 (u32 r + count)));
    let a := u32 (addr_start v + u32 r * PG_SIZE) in
    _ ← match type with
        | KERNEL_POOL => mret tt
        | USER_POOL => c_assert user_range_site (a <? 0xc0000000 - PG_SIZE)
        end;
    mret (M := prog memst) a).
  assert (Heq : vaddr_get_pages type cur_vaddr count s =
                (zoom l_mmu (bitmap_request_bits bm count) ≫= rest) s).
  { subst v bm rest. by destruct type. }
  unfold wpp. rewrite Heq. clear Heq. apply wpp_bind, wpp_zoom. change (lget l_mmu s) with (m_mmu s).
  eapply wpp_mono; [apply (bitmap_request_bits_ok _ D f bm count Hm Hlen ltac:(lia) HD)| |].
  2: { intros x m' (-> & -> & Hfull). left. split_and!; [|done|done]. by destruct s. }
  intros r m' [-> Hspec]. replace (lput l_mmu (m_mmu s) s) with s by (by destruct s).
  unfold rest. destruct Hspec as [Hrun|[-> Hno]].
  2: { rewrite Z.eqb_refl. apply wpp_ret. left. done. }
  pose proof Hrun as (Hr0 & Hr1 & _ & _).
  assert (Hlimit : r + count ≤ 8 * bm_length bm + 1).
  { change (r + count ≤ limit) in Hr1. unfold limit, request_limit in Hr1. destruct (count =? 1); lia. }
  rewrite (u32_small r), (u32_small (r + count)) by lia.
  rewrite (proj2 (Z.eqb_neq r (u32 (-1)))) by (change (u32 (-1)) with (2 ^ 32 - 1); lia).
  apply wpp_bind, wpp_zoom. change (lget l_mmu s) with (m_mmu s). apply wp_wpp. eapply wp_mono.
  { apply (set_bits_ok _ D f bm r (r + count) _ Hm); [lia|lia|lia|].
    intros j Hj. apply bitmap_in_byte; [by split|lia]. }
  intros _ m' (Hch & g & Hg & Hbits). cbv zeta.
  rewrite (u32_small (addr_start v + r * PG_SIZE)) by (unfold PG_SIZE in *; lia).
  assert (Hgood : ∃ i m1 g1, set_mmu m' s = set_mmu m1 s ∧ first_run B count limit i ∧
    addr_start v + r * PG_SIZE = addr_start v + i * PG_SIZE ∧ changes D (m_mmu s) m1 ∧
    holds m1 D g1 ∧ bits_taken bm i count f g1).
  { exists r, m', g. replace (r + count - r) with count in Hbits by lia. done. }
  apply wpp_bind. destruct type; [by apply wpp_ret; right|].
  apply wpp_assert; intros Hlt; zb; [by apply wpp_ret; right|]. right. eauto.
Qed.
End allocation.

(** ** Mapping a page *)

Section binding.
Context `{FpEval}.
Implicit Types (m : mmu).

Lemma recursive_ext m m' :
  recursive m → ram m' = ram m → cr3 m' = cr3 m →
  pword m' (frame_of (cr3 m) + 1023 * 4) = pword m (frame_of (cr3 m) + 1023 * 4) →
  recursive m'.
Proof.
  intros [Hr Hp Hf] Hram Hcr Hw. split; rewrite ?Hcr, ?Hw; try done.
  unfold in_ram in *. by rewrite Hram.
Qed.

(** The flag test of the code. *)
Lemma present_test e : (Z.land e 1 =? 0) = negb (present e).
Proof. rewrite land_1. unfold present. by destruct (Z.odd e). Qed.

(** The directory entry of [va] is present. *)
Lemma bind_present_ok s va page :
  let m := m_mmu s in
  let pde := pword m (pde_paddr m va) in
  let A := pte_paddr pde va in
  recursive m → 0 ≤ va < 2 ^ 32 → present pde = true → in_ram m A 4 = true →
  bind_vaddr_paddr_page va page s =
    if present (pword m A) then Panic (pte_absent_site 161) s
    else Ok tt (set_mmu (pset32 m A (Z.lor page 7)) s).
Proof.
  intros m pde A Hrec Hva Hp Hram. unfold bind_vaddr_paddr_page. cbv zeta.
  assert (Hd : load32 (pde_ptr va) (lget l_mmu s) = Ok pde m).
  { apply load32_ok; [by apply pde_ptr_aligned|by apply translate_pde_ptr|by apply pde_in_ram]. }
  assert (He : load32 (pte_ptr va) (lget l_mmu s) = Ok (pword m A) m).
  { apply load32_ok; [by apply pte_ptr_aligned|by apply translate_pte_ptr|done]. }
  assert (Hs : lput l_mmu m s = s) by (by destruct s).
  assert (Hz : zoom l_mmu (load32 (pte_ptr va)) s = Ok (pword m A) s).
  { by rewrite (zoom_Ok l_mmu _ _ _ _ He), Hs. }
  rewrite (bind_Ok _ _ _ _ _ (zoom_Ok l_mmu _ _ _ _ Hd)), Hs.
  rewrite present_test, Hp. simpl. rewrite (bind_Ok _ _ _ _ _ Hz), present_test.
  destruct (present (pword m A)) eqn:Hpte; simpl; [done|].
  rewrite bind_ret, (bind_Ok _ _ _ _ _ Hz), present_test, Hpte. simpl.
  apply (zoom_Ok l_mmu). apply store32_ok; [by apply pte_ptr_aligned|by apply translate_pte_ptr|done].
Qed.

(** The directory and the words of the walk of [va] after a change elsewhere. *)
Lemma pword_page m m' base off :
  (∀ x, region base PG_SIZE x → pbyte m' x = pbyte m x) → 0 ≤ off → off + 4 ≤ PG_SIZE →
  pword m' (base + off) = pword m (base + off).
Proof. intros Heq H0 H1. apply pword_ext. intros x Hx. apply Heq. unfold region in *. lia. Qed.

(** The window of a table, where the second entry of the directory leads to. *)
Lemma pte_ptr_window va : 0 ≤ va < 2 ^ 32 → Z.land (pte_ptr va) 0xfffff000 = table_window (va / 2 ^ 22).
Proof.
  intros Hva. rewrite pte_ptr_eq by done. change 0xfffff000 with (2 ^ 32 - 2 ^ 12).
  unfold table_window. rewrite land_high by zlia. zlia.
Qed.

(** memset through the window of a table clears the frame behind it. *)
Lemma clear_table_ok m i F :
  recursive m → 0 ≤ i < 1023 →
  present (pword m (frame_of (cr3 m) + i * 4)) = true → frame_of (pword m (frame_of (cr3 m) + i * 4)) = F →
  F ≠ frame_of (cr3 m) → F mod PG_SIZE = 0 → in_ram m F PG_SIZE = true →
  wp (memset (table_window i) 0 PG_SIZE)
    (λ _ m1, ram m1 = ram m ∧ cr3 m1 = cr3 m ∧ recursive m1 ∧
       (∀ x, ¬ region F PG_SIZE x → pbyte m1 x = pbyte m x) ∧
       (∀ off, 0 ≤ off < PG_SIZE → pbyte m1 (F + off) = 0)) m.
Proof.
  intros Hrec Hi Hp HF Hne Hal Hram. assert (Hi' : 0 ≤ i < 2 ^ 10) by lia.
  assert (HD : frame_of (cr3 m) mod PG_SIZE = 0) by apply frame_of_aligned.
  eapply wp_mono.
  { apply (memset_ok m (region (table_window i) PG_SIZE) _ _ 0 PG_SIZE
             (window_holds m i F Hrec Hi' Hp HF Hne Hal Hram)); [unfold PG_SIZE; lia|done]. }
  intros _ m1 (_ & (Hram1 & Hcr1 & Htr1 & Hby1) & _ & Hld1). cbv beta.
  assert (Hwin : ∀ off, 0 ≤ off < PG_SIZE → translate m1 (table_window i + off) = Some (F + off)).
  { intros off Hoff. rewrite Htr1 by (unfold region; lia). rewrite <- HF. by apply translate_window. }
  assert (Hout : ∀ x, ¬ region F PG_SIZE x → pbyte m1 x = pbyte m x).
  { intros x Hx. apply Hby1. intros a Ha Htr. apply Hx. unfold region in *.
    replace a with (table_window i + (a - table_window i)) in Htr by lia.
    rewrite translate_window in Htr by (first [done|lia]). rewrite HF in Htr. simplify_eq. lia. }
  split_and!; [done|done| |done|].
  - apply (recursive_ext m); [done|done|done|]. apply (pword_page _ _ _ (1023 * 4)); [|lia|by unfold PG_SIZE].
    intros x Hx. apply Hout. unfold region, PG_SIZE in *. zlia.
  - intros off Hoff. pose proof (Hld1 (table_window i + off) ltac:(unfold region; lia)) as Hl.
    rewrite blit_replicate in Hl by (unfold region; lia).
    cbn [mload mmu_bytemem] in Hl. unfold vload8 in Hl. rewrite Hwin in Hl by done. cbn in Hl.
    destruct (in_ram m1 (F + off) 1); [|done]. by injection Hl.
Qed.

(** The entry, in a table of zeros. *)
Lemma store_entry_ok m va page F :
  recursive m → 0 ≤ va < 2 ^ 32 → va / 2 ^ 22 < 1023 →
  0 ≤ page < 2 ^ 32 → page mod PG_SIZE = 0 →
  present (pword m (pde_paddr m va)) = true → frame_of (pword m (pde_paddr m va)) = F →
  F ≠ frame_of (cr3 m) → in_ram m F PG_SIZE = true →
  (∀ off, 0 ≤ off < PG_SIZE → pbyte m (F + off) = 0) →
  let m' := pset32 m (F + (va / 2 ^ 12) mod 2 ^ 10 * 4) (Z.lor page 7) in
  (e ← load32 (pte_ptr va);
   _ ← c_assert (pte_absent_site 173) (Z.land e 1 =? 0);
   store32 (pte_ptr va) (Z.lor page 7)) m = Ok tt m' ∧
  translate m' va = Some (page + va mod PG_SIZE).
Proof.
  intros Hrec Hva Hidx Hpage Hpal Hp HF Hne Hram Hzero m'.
  set (j := (va / 2 ^ 12) mod 2 ^ 10) in *. assert (Hj : 0 ≤ j < 2 ^ 10) by (apply Z.mod_pos_bound; lia).
  assert (Hal : F mod PG_SIZE = 0) by (subst F; apply frame_of_aligned).
  assert (HD : frame_of (cr3 m) mod PG_SIZE = 0) by apply frame_of_aligned.
  assert (HA : pte_paddr (pword m (pde_paddr m va)) va = F + j * 4) by (unfold pte_paddr; by rewrite HF).
  assert (HramA : in_ram m (F + j * 4) 4 = true).
  { apply (in_ram_sub m F PG_SIZE); [done|lia|unfold PG_SIZE; lia]. }
  assert (Htr : translate m (pte_ptr va) = Some (F + j * 4)) by (rewrite <- HA; by apply translate_pte_ptr).
  assert (He : pword m (F + j * 4) = 0).
  { unfold pword. rewrite <- !(Z.add_assoc F (j * 4)). rewrite !Hzero by (unfold PG_SIZE; lia). done. }
  split.
  - rewrite (bind_Ok _ _ _ _ _ (load32_ok m _ _ (pte_ptr_aligned va Hva) Htr HramA)), He, bind_assert.
    apply (store32_ok m _ _ (Z.lor page 7) (pte_ptr_aligned va Hva) Htr HramA).
  - subst m'. rewrite <- HA. apply store_pte_maps; [done..|by apply pde_in_ram|done|by rewrite HA|].
    rewrite HA. unfold pde_paddr, PG_SIZE in *. zlia.
Qed.

(** A fresh table of zeros behind the window, then the entry: the part of
    bind_vaddr_paddr_page after the new directory entry is stored. *)
Lemma fill_table_ok m va page F :
  recursive m → 0 ≤ va < 2 ^ 32 → va / 2 ^ 22 < 1023 →
  0 ≤ page < 2 ^ 32 → page mod PG_SIZE = 0 →
  present (pword m (pde_paddr m va)) = true → frame_of (pword m (pde_paddr m va)) = F →
  F ≠ frame_of (cr3 m) → in_ram m F PG_SIZE = true →
  wp (_ ← memset (Z.land (pte_ptr va) 0xfffff000) 0 PG_SIZE;
      e ← load32 (pte_ptr va);
      _ ← c_assert (pte_absent_site 173) (Z.land e 1 =? 0);
      store32 (pte_ptr va) (Z.lor page 7))
    (λ _ m', ram m' = ram m ∧ cr3 m' = cr3 m ∧ recursive m' ∧
       (∀ x, ¬ region F PG_SIZE x → pbyte m' x = pbyte m x) ∧
       (∀ off, 0 ≤ off < PG_SIZE → off / 4 ≠ (va / 2 ^ 12) mod 2 ^ 10 → pbyte m' (F + off) = 0) ∧
       translate m' va = Some (page + va mod PG_SIZE)) m.
Proof.
  intros Hrec Hva Hidx Hpage Hpal Hp HF Hne Hram.
  assert (Hi : 0 ≤ va / 2 ^ 22 < 1023) by zlia.
  assert (Hal : F mod PG_SIZE = 0) by (subst F; apply frame_of_aligned).
  assert (HD : frame_of (cr3 m) mod PG_SIZE = 0) by apply frame_of_aligned.
  rewrite pte_ptr_window by done. apply wp_bind.
  eapply wp_mono; [by apply (clear_table_ok m _ F)|].
  intros _ m1 (Hram1 & Hcr1 & Hrec1 & Hout & Hzero). cbv beta.
  assert (Hw1 : pword m1 (pde_paddr m1 va) = pword m (pde_paddr m va)).
  { unfold pde_paddr. rewrite Hcr1. apply (pword_page _ _ _ (va / 2 ^ 22 * 4)); [|lia|unfold PG_SIZE; lia].
    intros x Hx. apply Hout. unfold region, PG_SIZE in *. zlia. }
  destruct (store_entry_ok m1 va page F) as [Hrun Htr]; rewrite ?Hw1, ?Hcr1; try done.
  { unfold in_ram in *. by rewrite Hram1. }
  unfold wp, wpp. rewrite Hrun. set (j := (va / 2 ^ 12) mod 2 ^ 10) in *.
  assert (Hj : 0 ≤ j < 2 ^ 10) by (apply Z.mod_pos_bound; lia).
  assert (Hout2 : ∀ x, ¬ region F PG_SIZE x → pbyte (pset32 m1 (F + j * 4) (Z.lor page 7)) x = pbyte m x).
  { intros x Hx. rewrite pbyte_pset32_out; [by apply Hout|]. unfold region, PG_SIZE in *. lia. }
  split_and!; [done|done| |done| |done].
  - apply (recursive_ext m); [done|done|done|]. apply (pword_page _ _ _ (1023 * 4)); [|lia|by unfold PG_SIZE].
    intros x Hx. apply Hout2. unfold region, PG_SIZE in *. zlia.
  - intros off Hoff Hjoff. rewrite pbyte_pset32_out; [by apply Hzero|]. unfold region. zlia.
Qed.

Lemma fill_table_zoom pte page s :
  (_ ← zoom l_mmu (memset (Z.land pte 0xfffff000) 0 PG_SIZE);
   e ← zoom l_mmu (load32 pte);
   _ ← c_assert (pte_absent_site 173) (Z.land e 1 =? 0);
   zoom l_mmu (store32 pte (Z.lor page 7))) s =
  zoom l_mmu (_ ← memset (Z.land pte 0xfffff000) 0 PG_SIZE;
              e ← load32 pte;
              _ ← c_assert (pte_absent_site 173) (Z.land e 1 =? 0);
              store32 pte (Z.lor page 7)) s.
Proof.
  rewrite zoom_bind, !bind_unfold. destruct (zoom l_mmu (memset _ 0 PG_SIZE) s) as [a s1|?|?|?|?]; [|done..].
  rewrite zoom_bind, !bind_unfold. destruct (zoom l_mmu (load32 pte) s1) as [e s2|?|?|?|?]; [|done..].
  rewrite zoom_bind. destruct (Z.land e 1 =? 0); [|by destruct s2].
  rewrite !bind_unfold. by destruct s2.
Qed.

(** The new table at [F]: its directory entry and what is in it. *)
Lemma new_table_ok s va page F :
  let m := m_mmu s in
  recursive m → 0 ≤ va < 2 ^ 32 → va / 2 ^ 22 < 1023 → 0 ≤ page < 2 ^ 32 → page mod PG_SIZE = 0 →
  0 ≤ F < 2 ^ 32 → F mod PG_SIZE = 0 → F ≠ frame_of (cr3 m) → in_ram m F PG_SIZE = true →
  wp (_ ← zoom l_mmu (store32 (pde_ptr va) (Z.lor F 7));
      _ ← zoom l_mmu (memset (Z.land (pte_ptr va) 0xfffff000) 0 PG_SIZE);
      e ← zoom l_mmu (load32 (pte_ptr va));
      _ ← c_assert (pte_absent_site 173) (Z.land e 1 =? 0);
      zoom l_mmu (store32 (pte_ptr va) (Z.lor page 7)))
    (λ _ s', ∃ m', s' = set_mmu m' s ∧ ram m' = ram m ∧ cr3 m' = cr3 m ∧ recursive m' ∧
       frame_of (pword m' (pde_paddr m va)) = F ∧ translate m' va = Some (page + va mod PG_SIZE) ∧
       (∀ off, 0 ≤ off < PG_SIZE → off / 4 ≠ (va / 2 ^ 12) mod 2 ^ 10 → pbyte m' (F + off) = 0) ∧
       ∀ x, ¬ region (pde_paddr m va) 4 x → ¬ region F PG_SIZE x → pbyte m' x = pbyte m x) s.
Proof.
  intros m Hrec Hva Hidx Hpage Hpal HFr HFal HFd HFram.
  destruct (entry_frame F HFr HFal) as (HfF & HpF & _).
  set (m2 := pset32 m (pde_paddr m va) (Z.lor F 7)).
  assert (Hst : store32 (pde_ptr va) (Z.lor F 7) (lget l_mmu s) = Ok tt m2).
  { apply store32_ok; [by apply pde_ptr_aligned|by apply translate_pde_ptr|by apply pde_in_ram]. }
  apply (wpp_step _ _ _ _ _ _ _ (zoom_Ok l_mmu _ _ _ _ Hst)). eapply wpp_eq; [apply fill_table_zoom|].
  assert (Hrec2 : recursive m2).
  { apply (recursive_ext m); [done|done|done|]. apply pword_pset32_other. unfold pde_paddr. lia. }
  assert (Hw2 : pword m2 (pde_paddr m2 va) = u32 (Z.lor F 7)) by apply pword_pset32.
  apply wpp_zoom, wp_wpp. eapply wp_mono.
  { by apply (fill_table_ok m2 va page F Hrec2 Hva Hidx Hpage Hpal); rewrite ?Hw2. }
  intros _ m3 (Hram3 & Hcr3 & Hrec3 & Hout3 & Hzero3 & Htr3). exists m3.
  split_and!; [by destruct s|done|done|done| |done|done|].
  - rewrite <- HfF, <- Hw2. f_equal. apply pword_ext. intros x Hx. apply Hout3.
    pose proof (frame_of_aligned (cr3 m)). unfold region, pde_paddr, PG_SIZE in *. simpl in Hx. zlia.
  - intros x Hxp HxF. rewrite Hout3 by done. unfold m2. by rewrite pbyte_pset32_out by done.
Qed.

(** The directory entry of [va] is absent: a page of the kernel pool becomes the
    table.  [m1] is the memory when that page is taken and nothing else is done. *)
Lemma bind_absent_ok s (D : Z → Prop) f va page :
  let m := m_mmu s in
  let kp := kernel_pool s in
  let n := 8 * bm_length (pool_bitmap kp) in
  recursive m → 0 ≤ va < 2 ^ 32 → 0 ≤ page < 2 ^ 32 → page mod PG_SIZE = 0 →
  present (pword m (pde_paddr m va)) = false →
  holds m D f → bitmap_in D (pool_bitmap kp) →
  0 ≤ phy_addr_start kp → phy_addr_start kp mod PG_SIZE = 0 →
  phy_addr_start kp + n * PG_SIZE ≤ ram m → ram m ≤ 2 ^ 32 →
  (∀ i, 0 ≤ i < n → bits_of f (pool_bitmap kp) i = false →
     phy_addr_start kp + i * PG_SIZE ≠ frame_of (cr3 m)) →
  (∀ a pa, D a → translate m a = Some pa → ¬ region (frame_of (cr3 m)) PG_SIZE pa) →
  wpp (bind_vaddr_paddr_page va page)
    (λ _ s', ∃ i m' m1 g, s' = set_mmu m' s ∧ first_run (bits_of f (pool_bitmap kp)) 1 n i ∧
       let F := phy_addr_start kp + i * PG_SIZE in
       ram m' = ram m ∧ cr3 m' = cr3 m ∧ recursive m' ∧
       frame_of (pword m' (pde_paddr m va)) = F ∧
       translate m' va = Some (page + va mod PG_SIZE) ∧
       (∀ off, 0 ≤ off < PG_SIZE → off / 4 ≠ (va / 2 ^ 12) mod 2 ^ 10 → pbyte m' (F + off) = 0) ∧
       changes D m m1 ∧ holds m1 D g ∧ bits_taken (pool_bitmap kp) i 1 f g ∧
       ∀ x, ¬ region (pde_paddr m va) 4 x → ¬ region F PG_SIZE x → pbyte m' x = pbyte m1 x)
    (λ x s', s' = s ∧ x = bitmap_assert_site ∧
       ∀ i, 0 ≤ i < n → bits_of f (pool_bitmap kp) i = true) s.
Proof.
  intros m kp n Hrec Hva Hpage Hpal Hp Hm Hbm Hphy Hphal Hend Hramle Hdis HDpd.
  assert (Hidx : va / 2 ^ 22 < 1023).
  { destruct (decide (va / 2 ^ 22 = 1023)) as [Heq|]; [|zlia]. exfalso.
    pose proof (rec_present _ Hrec) as Hpr. unfold pde_paddr in Hp. rewrite Heq in Hp. congruence. }
  unfold bind_vaddr_paddr_page. cbv zeta.
  assert (Hd : load32 (pde_ptr va) (lget l_mmu s) = Ok (pword m (pde_paddr m va)) m).
  { apply load32_ok; [by apply pde_ptr_aligned|by apply translate_pde_ptr|by apply pde_in_ram]. }
  apply (wpp_step _ _ _ _ _ _ _ (zoom_Ok l_mmu _ _ _ _ Hd)).
  replace (lput l_mmu m s) with s by (by destruct s). rewrite present_test, Hp.
  change (negb (negb false)) with false. cbv iota.
  apply (wpp_step _ _ _ kp s); [done|]. apply wpp_bind.
  eapply wpp_mono; [apply (paddr_get_page_ok s D f kp Hm Hbm Hphy); fold n; unfold PG_SIZE in *; lia| |].
  2: { intros x s' (-> & -> & Hfull). done. }
  intros F0 s1 (i & m1 & g & -> & Hrun & -> & Hch & Hg & Hbits). fold n in Hrun.
  set (F := phy_addr_start kp + i * PG_SIZE). pose proof Hch as Hchg.
  destruct Hch as (Hram1 & Hcr1 & Htr1 & Hby1). fold m in Hram1, Hcr1, Hby1.
  assert (Hi : 0 ≤ i < n) by (destruct Hrun as (? & ? & _); lia).
  assert (HFd : F ≠ frame_of (cr3 m)).
  { apply Hdis; [done|]. destruct Hrun as (_ & _ & Hfr & _). apply Hfr. lia. }
  assert (HFal : F mod PG_SIZE = 0) by (subst F; unfold PG_SIZE in *; zlia).
  assert (HFr : 0 ≤ F < 2 ^ 32) by (subst F; unfold PG_SIZE in *; lia).
  assert (Hpd1 : ∀ x, region (frame_of (cr3 m)) PG_SIZE x → pbyte m1 x = pbyte m x).
  { intros x Hx. apply Hby1. intros a Ha Htr. by apply (HDpd a x Ha Htr). }
  assert (Hrec1 : recursive m1).
  { apply (recursive_ext m); [done|done|done|]. by apply (pword_page _ _ _ (1023 * 4)). }
  assert (Hpde1 : pde_paddr m1 va = pde_paddr m va) by (unfold pde_paddr; by rewrite Hcr1).
  apply wp_wpp. eapply wp_mono; [apply (new_table_ok (set_mmu m1 s) va page F); try done|].
  - simpl. by rewrite Hcr1.
  - apply in_ram_true. simpl. rewrite Hram1. subst F. unfold PG_SIZE in *. lia.
  - intros [] s' (m3 & -> & Hram3 & Hcr3 & Hrec3 & He & Htr & Hz & Hby). simpl in Hram3, Hcr3, He, Hby.
    rewrite Hpde1 in He, Hby. exists i, m3, m1, g. split_and!; try done; congruence.
Qed.
End binding.

(** ** Start-up *)

(** No directive in a literal. *)
Definition no_percent (s : list Z) : bool := forallb (λ c, negb (c =? 37)) s.

Lemma no_percent_lit s : no_percent s = true → Forall (λ c, (c =? 37) = false) s.
Proof.
  unfold no_percent. induction s as [|c s IH]; [done|]. simpl. intros [Hc Hs]%andb_prop.
  constructor; [by apply negb_true_iff|by apply IH].
Qed.

Section startup.
Context `{FpEval}.

Definition set_con (c : list conop) (s : memst) : memst := lput l_m_con c s.

Lemma mem_print_ok fmt args s n out rest stores :
  sprintf fp_prec fp_emax (chars (line fmt)) args = Ok n (FState out rest stores) →
  mem_print fmt args s = Ok tt (set_con (m_con s ++ [CStr (until_nul out)]) s).
Proof. intros Hs. apply (zoom_Ok l_m_con), (kprintf_ok _ _ _ _ _ Hs). Qed.

(** A line without arguments, and one with two hexadecimal numbers. *)
Lemma mem_print_lit fmt s :
  no_percent (chars (line fmt)) = true → Z.of_nat (length (chars (line fmt))) < 1024 →
  ∃ c, mem_print fmt [] s = Ok tt (set_con c s).
Proof.
  intros Hlit%no_percent_lit Hlen. eexists. eapply mem_print_ok, formats_sprintf; [|exact Hlen].
  rewrite <- (app_nil_r (chars (line fmt))) at 1. by apply formats_lit, formats_nil.
Qed.

Lemma mem_print_xx fmt lit1 lit2 lit3 a b s :
  chars (line fmt) = lit1 ++ 37 :: 120 :: lit2 ++ 37 :: 120 :: lit3 →
  no_percent lit1 = true → no_percent lit2 = true → no_percent lit3 = true →
  Z.of_nat (length (lit1 ++ lit2 ++ lit3)) < 900 →
  ∃ c, mem_print fmt [AInt a; AInt b] s = Ok tt (set_con c s).
Proof.
  intros Hfmt H1%no_percent_lit H2%no_percent_lit H3%no_percent_lit Hlen. eexists.
  eapply mem_print_ok, formats_sprintf.
  - rewrite Hfmt. apply formats_lit, formats_x; [done|]. apply formats_lit, formats_x; [done|].
    rewrite <- (app_nil_r lit3) at 1. by apply formats_lit, formats_nil.
  - rewrite !length_app in *. simpl.
    pose proof (int_text_length 16 SMALL a). pose proof (int_text_length 16 SMALL b). lia.
Qed.

(** How many page frames the pools share: the count is a [u16]. *)
Definition free_pages (all_mem : Z) : Z := u16 (u32 (all_mem - 0x200000) / PG_SIZE).

Lemma free_pages_range all_mem : 0 ≤ free_pages all_mem < 65536.
Proof. unfold free_pages, u16. apply Z.mod_pos_bound. lia. Qed.

(** Cleared bitmaps stay cleared while others are cleared. *)
Lemma bits_ext f g bm n :
  (∀ x, region (bm_bits bm) n x → g x = f x) → 8 * bm_length bm ≤ 8 * n →
  (∀ i, 0 ≤ i < 8 * bm_length bm → bits_of f bm i = false) →
  ∀ i, 0 ≤ i < 8 * bm_length bm → bits_of g bm i = false.
Proof.
  intros Heq Hn Hf i Hi. rewrite <- (Hf i Hi). unfold bits_of, bm_bit. f_equal. apply Heq.
  unfold region. zlia.
Qed.

Lemma mem_pool_init_ok s f all_mem :
  let n := free_pages all_mem in
  let k := n / 2 in
  let u := n - n / 2 in
  let kbm := Bitmap (k / 8) MEM_BITMAP_BASE in
  let ubm := Bitmap (u / 8) (MEM_BITMAP_BASE + k / 8) in
  let vbm := Bitmap (k / 8) (MEM_BITMAP_BASE + k / 8 + u / 8) in
  let D := region MEM_BITMAP_BASE (k / 8 + u / 8 + k / 8) in
  holds (m_mmu s) D f →
  wp (mem_pool_init all_mem)
    (λ _ s', kernel_pool s' = Pool kbm 0x200000 (k * PG_SIZE) ∧
       user_pool s' = Pool ubm (0x200000 + k * PG_SIZE) (u * PG_SIZE) ∧
       kernel_vaddr s' = VirtualAddr vbm K_HEAP_START ∧
       ∃ g, changes D (m_mmu s) (m_mmu s') ∧ holds (m_mmu s') D g ∧
         ∀ bm, bm ∈ [kbm; ubm; vbm] → ∀ i, 0 ≤ i < 8 * bm_length bm → bits_of g bm i = false) s.
Proof.
  intros n k u kbm ubm vbm D Hm. pose proof (free_pages_range all_mem) as Hn. fold n in Hn.
  assert (Hk : 0 ≤ k ≤ u ∧ u < 65536) by (subst k u; zlia).
  unfold mem_pool_init, MEM_BITMAP_BASE, PG_SIZE in *. change (4096 * 256 + 0x100000) with 0x200000.
  cbv zeta. change (u16 (u32 (all_mem - 2097152) / 4096)) with n.
  rewrite (u16_small (n / 2)), (u16_small (n - n / 2)) by zlia. fold k u.
  rewrite !(u32_small (_ * 4096)), !(u32_small (0xc009a000 + _)), (u32_small (0xc009a000 + _ + _)),
    (u32_small (0x200000 + _)) by zlia.
  fold kbm ubm vbm.
  eapply wpp_step; [done|]. apply wp_bind, wp_zoom. simpl lget. eapply wp_mono.
  { apply (bitmap_init_ok _ D f kbm Hm); [simpl; zlia|]. unfold D, region. simpl. zlia. }
  intros _ m1 (Hch1 & g1 & Hg1 & Hz1 & Ho1).
  eapply wpp_step; [done|]. apply wp_bind, wp_zoom. simpl lget. eapply wp_mono.
  { apply (bitmap_init_ok _ D g1 ubm Hg1); [simpl; zlia|]. unfold D, region. simpl. zlia. }
  intros _ m2 (Hch2 & g2 & Hg2 & Hz2 & Ho2).
  assert (Hlit : ∀ t, ∃ c, mem_print "-----------------------------" [] t = Ok tt (set_con c t)).
  { intros t. apply mem_print_lit; vm_compute; reflexivity. }
  edestruct Hlit as [c1 Hc1]. eapply wpp_step; [exact Hc1|].
  edestruct (mem_print_xx "kernel_pool: bitmap_start: %x, phy_addr_start=%x"
    (chars "kernel_pool: bitmap_start: ") (chars ", phy_addr_start=") [10]) as [c2 Hc2];
    [vm_compute; reflexivity..|]. eapply wpp_step; [exact Hc2|].
  edestruct (mem_print_xx "user_pool: bitmap_start: %x, phy_addr_start=%x"
    (chars "user_pool: bitmap_start: ") (chars ", phy_addr_start=") [10]) as [c3 Hc3];
    [vm_compute; reflexivity..|]. eapply wpp_step; [exact Hc3|].
  edestruct Hlit as [c4 Hc4]. eapply wpp_step; [exact Hc4|].
  eapply wpp_step; [done|]. apply wp_zoom. simpl lget. eapply wp_mono.
  { apply (bitmap_init_ok _ D g2 vbm Hg2); [simpl; zlia|]. unfold D, region. simpl. zlia. }
  intros _ m3 (Hch3 & g3 & Hg3 & Hz3 & Ho3). split_and!; [done..|]. exists g3.
  split_and!; [|done|].
  { apply (changes_trans D _ m1); [done|]. by apply (changes_trans D m1 m2). }
  intros bm Hbm. rewrite !elem_of_cons, elem_of_nil in Hbm.
  destruct Hbm as [->|[->|[->|[]]]]; [| |done].
  - eapply (bits_ext g1 _ _ (k / 8)); [|simpl; lia|exact Hz1]. simpl. unfold region. intros x Hx.
    rewrite Ho3 by (simpl; unfold region; zlia). apply Ho2. simpl. unfold region. zlia.
  - eapply (bits_ext g2 _ _ (u / 8)); [|simpl; lia|exact Hz2]. simpl. unfold region. intros x Hx.
    apply Ho3. simpl. unfold region. zlia.
Qed.
End startup.

(** ** Properties *)

Section memory_properties.
Context `{FpEval}.

(** C26 mem_pool_init divides the memory above 2 MiB: the user pool starts where
    the kernel pool ends and the two end inside the memory, at its last whole page
    when it has fewer than 65536 free pages and at that count modulo 65536
    otherwise (the count is kept in a [u16]); the three bitmaps lie one behind the
    other from MEM_BITMAP_BASE, each covers its pool up to fewer than eight pages,
    and all their bits are clear. *)
Theorem mem_pool_init_partitions s f all_mem :
  let K := free_pages all_mem / 2 / 8 in
  let U := (free_pages all_mem - free_pages all_mem / 2) / 8 in
  0x200000 ≤ all_mem < 2 ^ 32 →
  holds (m_mmu s) (region MEM_BITMAP_BASE (K + U + K)) f →
  wp (mem_pool_init all_mem)
    (λ _ s', let kp := kernel_pool s' in let up := user_pool s' in
       let vb := addr_bitmap (kernel_vaddr s') in
       phy_addr_start kp = 0x200000 ∧ phy_addr_start up = phy_addr_start kp + pool_size kp ∧
       phy_addr_start up + pool_size up =
         0x200000 + ((all_mem - 0x200000) / PG_SIZE) mod 65536 * PG_SIZE ∧
       phy_addr_start up + pool_size up ≤ all_mem ∧
       bm_bits (pool_bitmap kp) = MEM_BITMAP_BASE ∧
       bm_bits (pool_bitmap up) = bm_bits (pool_bitmap kp) + bm_length (pool_bitmap kp) ∧
       bm_bits vb = bm_bits (pool_bitmap up) + bm_length (pool_bitmap up) ∧
       (∀ p, p = kp ∨ p = up → 8 * bm_length (pool_bitmap p) * PG_SIZE ≤ pool_size p <
                               (8 * bm_length (pool_bitmap p) + 8) * PG_SIZE) ∧
       ∃ g, holds (m_mmu s') (region MEM_BITMAP_BASE (K + U + K)) g ∧
         ∀ bm, bm ∈ [pool_bitmap kp; pool_bitmap up; vb] →
           ∀ i, 0 ≤ i < 8 * bm_length bm → bits_of g bm i = false) s.
Proof.
  intros K U Hall Hm. pose proof (mem_pool_init_ok s f all_mem) as Hinit. cbv zeta in Hinit.
  replace (free_pages all_mem / 2 / 8 + (free_pages all_mem - free_pages all_mem / 2) / 8 +
    free_pages all_mem / 2 / 8) with (K + U + K) in Hinit by done.
  eapply wp_mono; [exact (Hinit Hm)|]. intros _ s' (-> & -> & -> & g & _ & Hg & Hz). cbv zeta.
  pose proof (free_pages_range all_mem).
  assert (Hfree : free_pages all_mem = ((all_mem - 0x200000) / PG_SIZE) mod 65536).
  { unfold free_pages, u16. by rewrite u32_small by lia. }
  simpl. rewrite <- Hfree. unfold PG_SIZE in *. split_and!; try done; try lia.
  - rewrite Hfree. zlia.
  - intros p [-> | ->]; simpl; zlia.
  - exists g. done.
Qed.

(** C27 Two page frames taken from a pool one after the other are different,
    page-aligned, inside the pool, and were both free before; an exhausted pool is
    reported by the assertion in bitmap.c, never by the null pointer. *)
Theorem paddr_get_page_distinct s (D : Z → Prop) f p :
  holds (m_mmu s) D f → bitmap_in D (pool_bitmap p) →
  0 ≤ phy_addr_start p → phy_addr_start p mod PG_SIZE = 0 →
  phy_addr_start p + 8 * bm_length (pool_bitmap p) * PG_SIZE ≤ 2 ^ 32 →
  let good a := a mod PG_SIZE = 0 ∧ phy_addr_start p ≤ a ∧
    a + PG_SIZE ≤ phy_addr_start p + 8 * bm_length (pool_bitmap p) * PG_SIZE ∧
    bits_of f (pool_bitmap p) ((a - phy_addr_start p) / PG_SIZE) = false in
  wpp (a ← paddr_get_page p; b ← paddr_get_page p; mret (a, b))
    (λ r _, fst r ≠ snd r ∧ good (fst r) ∧ good (snd r))
    (λ x _, x = bitmap_assert_site) s.
Proof.
  intros Hm Hbm H0 Hal Hend good.
  assert (Hgood : ∀ i, 0 ≤ i < 8 * bm_length (pool_bitmap p) → bits_of f (pool_bitmap p) i = false →
    good (phy_addr_start p + i * PG_SIZE)).
  { intros i Hi Hfree. unfold good, PG_SIZE in *. split_and!; [zlia|lia|lia|].
    by replace ((phy_addr_start p + i * 4096 - phy_addr_start p) / 4096) with i by zlia. }
  apply wpp_bind. eapply wpp_mono; [by apply (paddr_get_page_ok s D f p)| |naive_solver].
  intros a s1 (i & m1 & g & -> & (Hi0 & Hi1 & Hfree & _) & -> & _ & Hg & Hbits & _).
  apply wpp_bind. eapply wpp_mono; [by apply (paddr_get_page_ok _ D g p)| |naive_solver].
  intros b s2 (j & m2 & g2 & -> & (Hj0 & Hj1 & Hfree2 & _) & -> & _).
  apply wpp_ret. specialize (Hfree i ltac:(lia)). specialize (Hfree2 j ltac:(lia)).
  rewrite Hbits in Hfree2 by done. case_decide as Hij; [done|]. simpl.
  split_and!; [unfold PG_SIZE; lia|apply Hgood; [lia|done]|apply Hgood; [lia|done]].
Qed.

(** A range of kernel pages comes from the first run of free pages that is
    long enough, and all of them are taken afterwards: a second request gets a
    disjoint range.  The null pointer means there is no such run. *)
Theorem vaddr_get_pages_disjoint s (D : Z → Prop) f cv n1 n2 :
  let v := kernel_vaddr s in
  holds (m_mmu s) D f → bitmap_in D (addr_bitmap v) → 1 ≤ n1 < 2 ^ 28 → 1 ≤ n2 < 2 ^ 28 →
  0 < addr_start v → addr_start v + (8 * bm_length (addr_bitmap v) + 1) * PG_SIZE ≤ 2 ^ 32 →
  wpp (a ← vaddr_get_pages KERNEL_POOL cv n1; b ← vaddr_get_pages KERNEL_POOL cv n2; mret (a, b))
    (λ r _, (fst r = NULL → no_run (bits_of f (addr_bitmap v)) n1 (request_limit (addr_bitmap v) n1)) ∧
       (fst r ≠ NULL → snd r ≠ NULL →
        fst r + n1 * PG_SIZE ≤ snd r ∨ snd r + n2 * PG_SIZE ≤ fst r))
    (λ x _, x = bitmap_assert_site) s.
Proof.
  intros v Hm Hbm Hn1 Hn2 Hst Hend. apply wpp_bind.
  eapply wpp_mono; [apply (vaddr_get_pages_ok s D f cv KERNEL_POOL n1 v Hm eq_refl Hbm Hn1); lia| |].
  2: { intros x s' [(_ & -> & _)|[Hbad _]]; done. }
  intros a s1 [(-> & -> & Hno)|(i & m1 & g & -> & (Hi0 & _) & -> & _ & Hg & Hbits & _)].
  - apply wpp_bind.
    eapply wpp_mono; [apply (vaddr_get_pages_ok s D f cv KERNEL_POOL n2 v Hm eq_refl Hbm Hn2); lia| |].
    2: { intros x s' [(_ & -> & _)|[Hbad _]]; done. }
    intros b s2 _. apply wpp_ret. simpl. done.
  - apply wpp_bind.
    eapply wpp_mono; [apply (vaddr_get_pages_ok (set_mmu m1 s) D g cv KERNEL_POOL n2 v Hg eq_refl Hbm Hn2); lia| |].
    2: { intros x s' [(_ & -> & _)|[Hbad _]]; done. }
    intros b s2 [(-> & _)|(j & m2 & g2 & _ & (Hj0 & _ & Hfree & _) & -> & _)]; apply wpp_ret; simpl.
    { split; [|done]. unfold NULL, PG_SIZE. lia. }
    split; [unfold NULL, PG_SIZE; lia|]. intros _ _.
    destruct (decide (i + n1 ≤ j ∨ j + n2 ≤ i)) as [|Hover]; [unfold PG_SIZE; lia|]. exfalso.
    specialize (Hfree (Z.max i j) ltac:(lia)). rewrite Hbits in Hfree by lia.
    by rewrite decide_True in Hfree by lia.
Qed.

(** bind_vaddr_paddr_page in a table that exists: the page is mapped to the
    frame, every translation that does not read the new entry is as before, and a
    page that is already mapped is refused by the assertion. *)
Theorem bind_page_in_table s va page :
  let m := m_mmu s in
  let pde := pword m (pde_paddr m va) in
  let A := pte_paddr pde va in
  recursive m → 0 ≤ va < 2 ^ 32 → 0 ≤ page < 2 ^ 32 → page mod PG_SIZE = 0 →
  present pde = true → in_ram m A 4 = true → (pde_paddr m va + 4 ≤ A ∨ A + 4 ≤ pde_paddr m va) →
  if present (pword m A) then bind_vaddr_paddr_page va page s = Panic (pte_absent_site 161) s
  else ∃ m', bind_vaddr_paddr_page va page s = Ok tt (set_mmu m' s) ∧
    translate m' va = Some (page + va mod PG_SIZE) ∧
    ∀ va', (∀ x, walk_bytes m va' x → ¬ region A 4 x) → translate m' va' = translate m va'.
Proof.
  intros m pde A Hrec Hva Hpage Hal Hp Hram Hdis.
  rewrite (bind_present_ok s va page Hrec Hva Hp Hram). fold m pde A.
  destruct (present (pword m A)); [done|]. eexists. split_and!; [reflexivity| |].
  - apply store_pte_maps; try done. by apply pde_in_ram.
  - intros va' Hout. by apply translate_pset32_other.
Qed.

(** bind_vaddr_paddr_page without a table: the lowest free frame of the kernel
    pool becomes the page table, all zeros but for the new entry; afterwards the
    page is mapped, the directory still maps itself, and no byte of memory changed
    outside the pool's bitmap, the directory entry and the new table. *)
Theorem bind_page_new_table s (D : Z → Prop) f va page :
  let m := m_mmu s in
  let kp := kernel_pool s in
  let n := 8 * bm_length (pool_bitmap kp) in
  recursive m → 0 ≤ va < 2 ^ 32 → 0 ≤ page < 2 ^ 32 → page mod PG_SIZE = 0 →
  present (pword m (pde_paddr m va)) = false →
  holds m D f → bitmap_in D (pool_bitmap kp) →
  0 ≤ phy_addr_start kp → phy_addr_start kp mod PG_SIZE = 0 →
  phy_addr_start kp + n * PG_SIZE ≤ ram m → ram m ≤ 2 ^ 32 →
  (frame_of (cr3 m) + PG_SIZE ≤ phy_addr_start kp ∨ phy_addr_start kp + n * PG_SIZE ≤ frame_of (cr3 m)) →
  (∀ a pa, D a → translate m a = Some pa → ¬ region (frame_of (cr3 m)) PG_SIZE pa) →
  wpp (bind_vaddr_paddr_page va page)
    (λ _ s', let m' := m_mmu s' in
       ∃ F, F mod PG_SIZE = 0 ∧ phy_addr_start kp ≤ F < phy_addr_start kp + n * PG_SIZE ∧
       bits_of f (pool_bitmap kp) ((F - phy_addr_start kp) / PG_SIZE) = false ∧ recursive m' ∧
       translate m' va = Some (page + va mod PG_SIZE) ∧
       (∀ off, 0 ≤ off < PG_SIZE → off / 4 ≠ (va / 2 ^ 12) mod 2 ^ 10 → pbyte m' (F + off) = 0) ∧
       ∀ x, (∀ a, D a → translate m a ≠ Some x) → ¬ region (pde_paddr m va) 4 x →
            ¬ region F PG_SIZE x → pbyte m' x = pbyte m x)
    (λ x s', s' = s ∧ x = bitmap_assert_site) s.
Proof.
  intros m kp n Hrec Hva Hpage Hpal Hp Hm Hbm Hphy Hphal Hend Hramle Hdis HDpd. eapply wpp_mono.
  { apply (bind_absent_ok s D f va page); try done. unfold PG_SIZE in *. intros i. fold kp m. lia. }
  2: { naive_solver. }
  intros _ s' (i & m' & m1 & g & -> & (Hi0 & Hi1 & Hfree & _) & Hr & Hc & Hrec' & _ & Htr & Hz & Hch & _ & _ & Hout).
  fold kp in Hi1, Hfree, Hz, Hout. fold m in Hout. specialize (Hfree i ltac:(lia)).
  exists (phy_addr_start kp + i * PG_SIZE). destruct Hch as (_ & _ & _ & Hby).
  simpl. unfold PG_SIZE in *. split_and!; try done; [zlia|lia|lia| |].
  - by replace ((phy_addr_start kp + i * 4096 - phy_addr_start kp) / 4096) with i by zlia.
  - intros x HxD Hxp HxF. rewrite Hout by done. by apply Hby.
Qed.
End memory_properties.

(** *** Witnesses: a pool of eight frames from 0x6000, its bitmap behind 0xc009a000 *)

Definition demo_pool : pool := Pool (Bitmap 1 MEM_BITMAP_BASE) 0x6000 0x8000.

Definition demo_vaddr : virtual_addr := VirtualAddr (Bitmap 1 (MEM_BITMAP_BASE + 2)) K_HEAP_START.

Definition demo_memst : memst := MemSt demo_mmu demo_pool demo_pool demo_vaddr [].

Definition demo_region : Z → Prop := region MEM_BITMAP_BASE 12.

Definition demo_contents : Z → Z := λ x, pbyte demo_mmu (0x3000 + (x - MEM_BITMAP_BASE)).

Lemma demo_walk : walks demo_mmu MEM_BITMAP_BASE 0x2007 0x3007.
Proof. split; vm_compute; by repeat split. Qed.

Lemma demo_region_translate a :
  demo_region a → translate demo_mmu a = Some (0x3000 + (a - MEM_BITMAP_BASE)).
Proof.
  unfold demo_region, region. intros Ha.
  pose proof (walks_same_page _ _ (a - MEM_BITMAP_BASE) _ _ demo_walk eq_refl) as Hw.
  replace (MEM_BITMAP_BASE + (a - MEM_BITMAP_BASE)) with a in Hw by lia.
  rewrite (walks_translate _ _ _ _ (Hw ltac:(unfold PG_SIZE; lia))).
  change (frame_of 0x3007) with 0x3000. unfold MEM_BITMAP_BASE, PG_SIZE in *. do 2 f_equal. zlia.
Qed.

Lemma demo_memst_holds : holds demo_mmu demo_region demo_contents.
Proof.
  apply (page_holds demo_mmu MEM_BITMAP_BASE 0x2007 0x3007 MEM_BITMAP_BASE 12);
    [exact demo_walk|vm_compute; congruence..].
Qed.

Lemma demo_bitmap_in : bitmap_in demo_region (Bitmap 1 MEM_BITMAP_BASE).
Proof. split; [simpl; lia|]. unfold demo_region, region. simpl. lia. Qed.

Lemma demo_vaddr_in : bitmap_in demo_region (addr_bitmap demo_vaddr).
Proof. split; [simpl; lia|]. unfold demo_region, region, demo_vaddr. simpl. lia. Qed.

Lemma mem_pool_init_partitions_witness :
  wp (@mem_pool_init x87 0x240000)
    (λ _ s', let kp := kernel_pool s' in let up := user_pool s' in
       let vb := addr_bitmap (kernel_vaddr s') in
       phy_addr_start kp = 0x200000 ∧ phy_addr_start up = phy_addr_start kp + pool_size kp ∧
       phy_addr_start up + pool_size up = 0x240000 ∧
       phy_addr_start up + pool_size up ≤ 0x240000 ∧
       bm_bits (pool_bitmap kp) = MEM_BITMAP_BASE ∧
       bm_bits (pool_bitmap up) = bm_bits (pool_bitmap kp) + bm_length (pool_bitmap kp) ∧
       bm_bits vb = bm_bits (pool_bitmap up) + bm_length (pool_bitmap up) ∧
       (∀ p, p = kp ∨ p = up → 8 * bm_length (pool_bitmap p) * PG_SIZE ≤ pool_size p <
                               (8 * bm_length (pool_bitmap p) + 8) * PG_SIZE) ∧
       ∃ g, holds (m_mmu s') (region MEM_BITMAP_BASE 12) g ∧
         ∀ bm, bm ∈ [pool_bitmap kp; pool_bitmap up; vb] →
           ∀ i, 0 ≤ i < 8 * bm_length bm → bits_of g bm i = false) demo_memst.
Proof.
  apply (@mem_pool_init_partitions x87 demo_memst demo_contents 0x240000).
  - lia.
  - exact demo_memst_holds.
Defined.

Lemma paddr_get_page_distinct_witness :
  let good a := a mod PG_SIZE = 0 ∧ 0x6000 ≤ a ∧ a + PG_SIZE ≤ 0x6000 + 8 * 1 * PG_SIZE ∧
    bits_of demo_contents (pool_bitmap demo_pool) ((a - 0x6000) / PG_SIZE) = false in
  wpp (a ← paddr_get_page demo_pool; b ← paddr_get_page demo_pool; mret (a, b))
    (λ r _, fst r ≠ snd r ∧ good (fst r) ∧ good (snd r))
    (λ x _, x = bitmap_assert_site) demo_memst.
Proof.
  apply (paddr_get_page_distinct demo_memst demo_region demo_contents demo_pool).
  - exact demo_memst_holds.
  - exact demo_bitmap_in.
  - simpl; lia.
  - reflexivity.
  - vm_compute; congruence.
Defined.

Lemma vaddr_get_pages_disjoint_witness :
  wpp (a ← vaddr_get_pages KERNEL_POOL demo_vaddr 3; b ← vaddr_get_pages KERNEL_POOL demo_vaddr 2;
       mret (a, b))
    (λ r _, (fst r = NULL → no_run (bits_of demo_contents (addr_bitmap demo_vaddr)) 3
                              (request_limit (addr_bitmap demo_vaddr) 3)) ∧
       (fst r ≠ NULL → snd r ≠ NULL →
        fst r + 3 * PG_SIZE ≤ snd r ∨ snd r + 2 * PG_SIZE ≤ fst r))
    (λ x _, x = bitmap_assert_site) demo_memst.
Proof.
  apply (vaddr_get_pages_disjoint demo_memst demo_region demo_contents demo_vaddr 3 2).
  - exact demo_memst_holds.
  - exact demo_vaddr_in.
  - lia.
  - lia.
  - reflexivity.
  - vm_compute; congruence.
Defined.

(** 0xc0001000 has a table and no page. *)
Lemma bind_page_in_table_witness :
  if present (pword demo_mmu 0x2004)
  then bind_vaddr_paddr_page 0xc0001000 0x9000 demo_memst = Panic (pte_absent_site 161) demo_memst
  else ∃ m', bind_vaddr_paddr_page 0xc0001000 0x9000 demo_memst = Ok tt (set_mmu m' demo_memst) ∧
    translate m' 0xc0001000 = Some (0x9000 + 0xc0001000 mod PG_SIZE) ∧
    ∀ va', (∀ x, walk_bytes demo_mmu va' x → ¬ region 0x2004 4 x) →
      translate m' va' = translate demo_mmu va'.
Proof.
  apply (bind_page_in_table demo_memst 0xc0001000 0x9000).
  - exact demo_mmu_recursive.
  - lia.
  - lia.
  - reflexivity.
  - vm_compute; reflexivity.
  - vm_compute; reflexivity.
  - vm_compute; left; congruence.
Defined.

(** 0x08048000 has no table. *)
Lemma bind_page_new_table_witness :
  wpp (bind_vaddr_paddr_page 0x08048000 0x9000)
    (λ _ s', let m' := m_mmu s' in
       ∃ F, F mod PG_SIZE = 0 ∧ 0x6000 ≤ F < 0x6000 + 8 * 1 * PG_SIZE ∧
       bits_of demo_contents (Bitmap 1 MEM_BITMAP_BASE) ((F - 0x6000) / PG_SIZE) = false ∧ recursive m' ∧
       translate m' 0x08048000 = Some (0x9000 + 0x08048000 mod PG_SIZE) ∧
       (∀ off, 0 ≤ off < PG_SIZE → off / 4 ≠ (0x08048000 / 2 ^ 12) mod 2 ^ 10 → pbyte m' (F + off) = 0) ∧
       ∀ x, (∀ a, demo_region a → translate demo_mmu a ≠ Some x) →
            ¬ region (pde_paddr demo_mmu 0x08048000) 4 x → ¬ region F PG_SIZE x →
            pbyte m' x = pbyte demo_mmu x)
    (λ x s', s' = demo_memst ∧ x = bitmap_assert_site) demo_memst.
Proof.
  apply (bind_page_new_table demo_memst demo_region demo_contents 0x08048000 0x9000).
  - exact demo_mmu_recursive.
  - lia.
  - lia.
  - reflexivity.
  - vm_compute; reflexivity.
  - exact demo_memst_holds.
  - exact demo_bitmap_in.
  - simpl; lia.
  - reflexivity.
  - vm_compute; congruence.
  - vm_compute; congruence.
  - left. vm_compute; congruence.
  - intros a pa Ha Htr. change (translate demo_mmu a = Some pa) in Htr.
    rewrite (demo_region_translate a Ha) in Htr. injection Htr as <-.
    change (frame_of (cr3 (m_mmu demo_memst))) with 0x1000.
    unfold demo_region, region, MEM_BITMAP_BASE, PG_SIZE in *. lia.
Defined.
