(* ===== verification/Words.v ===== *)
(** * Words in owned memory

    The 32-bit loads and stores of the kernel on the contents of an owned region
    (ByteMem.v) of the paged memory (Paging.v), and what a change of the memory must
    leave alone for a region to stay owned: the walks that lead to it. *)

From Stdlib Require Import ZArith Lia.
From stdpp Require Import base tactics gmap strings fin_maps functions list.
From S2P Require Import Prelude ByteMem Paging.

(** ** Words in the contents *)

(** The four bytes of a word, and the word at [a]. *)
Definition le32 (v : Z) : list Z := [u8 v; u8 (v / 2 ^ 8); u8 (v / 2 ^ 16); u8 (v / 2 ^ 24)].

Definition word (f : Z → Z) (a : Z) : Z :=
  f a + f (a + 1) * 2 ^ 8 + f (a + 2) * 2 ^ 16 + f (a + 3) * 2 ^ 24.

(** The contents after the words [ws], as offsets from [A] with their values. *)
Definition put32 (A : Z) (f : Z → Z) (w : Z * Z) : Z → Z := blit f (A + fst w) (le32 (snd w)).

Definition puts (A : Z) (ws : list (Z * Z)) (f : Z → Z) : Z → Z := foldl (put32 A) f ws.

Definition aligned_at (ws : list (Z * Z)) : Prop := Forall (λ o, o mod 4 = 0) (fst <$> ws).

Lemma word_ext f g a : (∀ x, region a 4 x → f x = g x) → word f a = word g a.
Proof.
  intros Heq. unfold word, region in *.
  by rewrite (Heq a), (Heq (a + 1)), (Heq (a + 2)), (Heq (a + 3)) by lia.
Qed.

Lemma blit_le32 f a v i : 0 ≤ i < 4 → blit f a (le32 v) (a + i) = u8 (v / 2 ^ (8 * i)).
Proof.
  intros Hi. replace i with (Z.of_nat (Z.to_nat i)) at 1 by lia. apply blit_inside.
  assert (i = 0 ∨ i = 1 ∨ i = 2 ∨ i = 3) as [->|[->|[->| ->]]] by lia; [|done..].
  simpl. by rewrite Z.div_1_r.
Qed.

Lemma word_le32 (m : mmu) f a v : word (blit f a (le32 v)) a = u32 v.
Proof.
  rewrite <- (pword_pset32 m a v). unfold word, pword, pset32. rewrite !pbyte_pset8.
  pose proof (blit_le32 f a v 0 ltac:(lia)) as H0. rewrite Z.add_0_r, Z.div_1_r in H0. rewrite H0.
  rewrite !blit_le32 by lia. by repeat (rewrite ?decide_True, ?decide_False by lia).
Qed.

Lemma put32_outside A f w x : ¬ region (A + fst w) 4 x → put32 A f w x = f x.
Proof. intros. by apply blit_outside. Qed.

Lemma puts_outside A ws f x : (∀ o, o ∈ fst <$> ws → ¬ region (A + o) 4 x) → puts A ws f x = f x.
Proof.
  revert f. induction ws as [|[o v] ws IH]; intros f Hx; [done|]. simpl. rewrite IH.
  - apply put32_outside, Hx. rewrite fmap_cons. by left.
  - intros o' Ho'. apply Hx. rewrite fmap_cons. by right.
Qed.

Lemma puts_ext A ws f g x : g x = f x → puts A ws g x = puts A ws f x.
Proof.
  revert f g. induction ws as [|w ws IH]; intros f g Heq; [done|]. apply IH. unfold put32, blit.
  by case_decide.
Qed.

Lemma word_puts_other A ws f o :
  aligned_at ws → o mod 4 = 0 → (o ∉ fst <$> ws) → word (puts A ws f) (A + o) = word f (A + o).
Proof.
  intros Hal Ho Hni. apply word_ext. intros x Hx. apply puts_outside. intros o' Ho' Hx'.
  unfold aligned_at in Hal. rewrite Forall_forall in Hal. specialize (Hal o' Ho').
  destruct (decide (o = o')) as [->|]; [done|]. unfold region in *. zlia.
Qed.

Lemma word_puts A ws f o v :
  aligned_at ws → NoDup (fst <$> ws) → (o, v) ∈ ws → word (puts A ws f) (A + o) = u32 v.
Proof.
  revert f. induction ws as [|[o1 v1] ws IH]; intros f Hal Hnd Hin; [by apply not_elem_of_nil in Hin|].
  unfold aligned_at in Hal. rewrite fmap_cons in Hal, Hnd. apply NoDup_cons in Hnd as [Hni Hnd].
  apply Forall_cons in Hal as [Ho1 Hal].
  apply elem_of_cons in Hin as [[= -> ->]|Hin]; [|by apply IH].
  simpl puts. change (word (puts A ws (put32 A f (o1, v1))) (A + o1) = u32 v1).
  rewrite word_puts_other by done. apply (word_le32 (Mmu 0 ∅ 0)).
Qed.

(** ** Regions that stay owned *)

Section owned.
Implicit Types (m : mmu) (D : Z → Prop) (f g : Z → Z).

(** The images of the region may change, its walks may not. *)
Lemma holds_update m m' D f f' :
  holds m D f → ram m' = ram m → cr3 m' = cr3 m →
  (∀ a x, D a → walk_bytes m a x → pbyte m' x = pbyte m x) →
  (∀ a x, D a → translate m a = Some x → pbyte m' x = f' a) →
  holds m' D f' ∧ ∀ a, D a → translate m' a = translate m a.
Proof.
  intros [(H1 & H2 & H3) _] Hram Hcr Hw Hf.
  assert (Htr : ∀ a, D a → translate m' a = translate m a ∧
    pword m' (pde_paddr m' a) = pword m (pde_paddr m a)).
  { intros a Ha. apply translate_frame; [done|done|]. intros x. by apply Hw. }
  split; [|intros a Ha; by apply Htr]. split; [split_and!|].
  - intros a Ha. rewrite (proj1 (Htr a Ha)). unfold in_ram. rewrite Hram. by apply H1.
  - intros a b Ha Hb. rewrite (proj1 (Htr a Ha)), (proj1 (Htr b Hb)). by apply H2.
  - intros a b x Ha Hb. rewrite (proj1 (Htr a Ha)). intros Hx Hwx. apply (H3 a b x Ha Hb Hx).
    unfold walk_bytes in *. rewrite (proj2 (Htr b Hb)) in Hwx.
    unfold pde_paddr in *. by rewrite Hcr in Hwx.
  - intros a Ha. destruct (H1 a Ha) as (x & Hx & Hr). cbn [mload mmu_bytemem]. unfold vload8.
    rewrite (proj1 (Htr a Ha)), Hx. simpl. unfold in_ram in *. rewrite Hram, Hr. f_equal. by apply (Hf a).
Qed.

Lemma holds_pbyte m D f a x : holds m D f → D a → translate m a = Some x → pbyte m x = f a.
Proof.
  intros [_ Hf] Ha Hx. specialize (Hf a Ha). cbn [mload mmu_bytemem] in Hf. unfold vload8 in Hf.
  rewrite Hx in Hf. simpl in Hf. destruct (in_ram m x 1); [by injection Hf|done].
Qed.

(** Changes inside the region leave its walks. *)
Lemma changes_walk m m1 D f a x :
  holds m D f → changes D m m1 → D a → walk_bytes m1 a x ↔ walk_bytes m a x.
Proof.
  intros [(_ & _ & H3) _] (Hram & Hcr & _ & Hby) Ha. unfold walk_bytes.
  assert (Hpd : pde_paddr m1 a = pde_paddr m a) by (unfold pde_paddr; by rewrite Hcr).
  assert (Hpde : pword m1 (pde_paddr m a) = pword m (pde_paddr m a)).
  { apply pword_ext. intros y Hy. apply Hby. intros b Hb Htr. apply (H3 b a y Hb Ha Htr). by left. }
  by rewrite Hpd, Hpde.
Qed.

(** An address and the three behind it, in one page. *)
Lemma translate_word m a x i :
  a mod 4 = 0 → 0 ≤ i < 4 → translate m a = Some x → translate m (a + i) = Some (x + i).
Proof.
  intros Hal Hi (pde & pte & [Hva Hr1 Hpde Hp1 Hr2 Hpte Hp2] & ->)%translate_walks.
  apply translate_walks. exists pde, pte.
  assert (H22 : (a + i) / 2 ^ 22 = a / 2 ^ 22) by zlia.
  assert (H12 : (a + i) / 2 ^ 12 = a / 2 ^ 12) by zlia.
  split; [|unfold PG_SIZE; zlia].
  split; unfold pde_paddr, pte_paddr in *; rewrite ?H22, ?H12; try done. zlia.
Qed.

Lemma word_place m D f a :
  holds m D f → a mod 4 = 0 → (∀ x, region a 4 x → D x) →
  ∃ x, in_ram m x 4 = true ∧ ∀ i, 0 ≤ i < 4 → translate m (a + i) = Some (x + i).
Proof.
  intros [(H1 & _ & _) _] Hal HD. unfold region in HD.
  destruct (H1 a ltac:(apply HD; lia)) as (x & Hx & Hr). exists x.
  assert (Htr : ∀ i, 0 ≤ i < 4 → translate m (a + i) = Some (x + i)) by (intros; by apply translate_word).
  split; [|done]. destruct (H1 (a + 3) ltac:(apply HD; lia)) as (y & Hy & Hr').
  rewrite Htr in Hy by lia. injection Hy as <-. rewrite in_ram_true in *. lia.
Qed.

Lemma load32_word m D f a :
  holds m D f → a mod 4 = 0 → (∀ x, region a 4 x → D x) → load32 a m = Ok (word f a) m.
Proof.
  intros Hm Hal HD. destruct (word_place m D f a Hm Hal HD) as (x & Hr & Htr).
  pose proof (Htr 0 ltac:(lia)) as H0. rewrite !Z.add_0_r in H0.
  rewrite (load32_ok m a x Hal H0 Hr). f_equal. unfold pword, word, region in *.
  assert (Hb : ∀ i, 0 ≤ i < 4 → pbyte m (x + i) = f (a + i)).
  { intros i Hi. apply (holds_pbyte m D f); [done|apply HD; lia|by apply Htr]. }
  rewrite !Hb by lia. pose proof (Hb 0 ltac:(lia)) as Hb0. rewrite !Z.add_0_r in Hb0. by rewrite Hb0.
Qed.

Lemma pbyte_pset32_in m x v i : 0 ≤ i < 4 → pbyte (pset32 m x v) (x + i) = u8 (v / 2 ^ (8 * i)).
Proof.
  intros Hi. unfold pset32. rewrite !pbyte_pset8.
  assert (i = 0 ∨ i = 1 ∨ i = 2 ∨ i = 3) as [->|[->|[->| ->]]] by lia;
    repeat (rewrite ?decide_True, ?decide_False by lia); rewrite ?Z.div_1_r; done.
Qed.

Lemma wp_store32 m D f a v (Q : unit → mmu → Prop) :
  holds m D f → a mod 4 = 0 → (∀ x, region a 4 x → D x) →
  (∀ m', holds m' D (blit f a (le32 v)) → changes D m m' → Q tt m') → wp (store32 a v) Q m.
Proof.
  intros Hm Hal HD HQ. destruct (word_place m D f a Hm Hal HD) as (x & Hr & Htr).
  pose proof (Htr 0 ltac:(lia)) as Hx. rewrite !Z.add_0_r in Hx.
  unfold wp, wpp. rewrite (store32_ok m a x v Hal Hx Hr). pose proof Hm as [(_ & H2 & H3) _].
  assert (Himg : ∀ y, region x 4 y → ∃ b, region a 4 b ∧ translate m b = Some y).
  { unfold region. intros y Hy. exists (a + (y - x)). split; [lia|]. rewrite Htr by lia. f_equal. lia. }
  destruct (holds_update m (pset32 m x v) D f (blit f a (le32 v))) as [Hh Ht]; try done.
  - intros b y Hb Hw. apply pbyte_pset32_out. intros (c & Hc & Hy)%Himg.
    by apply (H3 c b y (HD c Hc) Hb Hy).
  - intros b y Hb Hy. destruct (decide (region a 4 b)) as [Hin|Hout].
    + unfold region in Hin. replace b with (a + (b - a)) in Hy |- * by lia.
      rewrite Htr in Hy by lia. injection Hy as <-. rewrite blit_le32 by lia. apply pbyte_pset32_in. lia.
    + rewrite blit_outside by done. rewrite pbyte_pset32_out by
        (intros (c & Hc & Hyc)%Himg; apply Hout; rewrite (H2 b c) by (try congruence; by auto); done).
      by apply (holds_pbyte m D).
  - apply HQ; [done|]. split_and!; [done|done|done|]. intros y Hy. apply pbyte_pset32_out.
    intros (c & Hc & Hyc)%Himg. by apply (Hy c (HD c Hc)).
Qed.
End owned.
