(* ===== verification/Malloc.v ===== *)
(** * kernel/memory.c: malloc_pages on the kernel heap

    The invariant of the kernel heap in the page table that loader.asm sets up
    (page table of 0xc0000000): free pages of the virtual bitmap have no table
    entry, the bitmaps live outside page tables and pool frames.  malloc_pages
    keeps it and returns fresh, zeroed, contiguous pages on distinct free frames. *)

From Stdlib Require Import ZArith Lia.
From stdpp Require Import base tactics gmap strings fin_maps functions list.
From S2P Require Import Prelude ByteMem CString Bitmap Interrupt DList Format Paging Idt Memory.

(** The frame of the heap's page table, and how many heap pages it maps. *)
Section heap.
Context (D : Z → Prop) (T N : Z).
Implicit Types (s : memst) (f g : Z → Z) (B : Z → bool) (j a x : Z).

Definition heap_start s : Z := addr_start (kernel_vaddr s).

Definition heap_page s j : Z := heap_start s + j * PG_SIZE.

(** The table entry of heap page [j]. *)
Definition heap_entry s j : Z := T + ((heap_start s / 2 ^ 12) mod 2 ^ 10 + j) * 4.

Definition dir s : Z := frame_of (cr3 (m_mmu s)).

Definition pool_frames s : Z := 8 * bm_length (pool_bitmap (kernel_pool s)).

Definition in_pool s x : Prop := region (phy_addr_start (kernel_pool s)) (pool_frames s * PG_SIZE) x.

(** The fixed layout. *)
Record heap_layout s : Prop := {
  hl_start : 0 < heap_start s ∧ heap_start s mod PG_SIZE = 0 ∧
    heap_start s + (8 * bm_length (addr_bitmap (kernel_vaddr s)) + 1) * PG_SIZE ≤ 2 ^ 32;
  hl_pages : 0 ≤ N ≤ 8 * bm_length (addr_bitmap (kernel_vaddr s)) + 1 ∧ (heap_start s / 2 ^ 12) mod 2 ^ 10 + N ≤ 2 ^ 10;
  hl_table : T mod PG_SIZE = 0 ∧ T ≠ dir s ∧ in_ram (m_mmu s) T PG_SIZE = true;
  hl_pool : 0 < phy_addr_start (kernel_pool s) ∧ phy_addr_start (kernel_pool s) mod PG_SIZE = 0 ∧
    phy_addr_start (kernel_pool s) + pool_frames s * PG_SIZE ≤ ram (m_mmu s) ∧ ram (m_mmu s) ≤ 2 ^ 32;
  hl_apart : ∀ x, in_pool s x → ¬ region T PG_SIZE x ∧ ¬ region (dir s) PG_SIZE x;
  hl_pool_bits : bitmap_in D (pool_bitmap (kernel_pool s));
  hl_heap_bits : bitmap_in D (addr_bitmap (kernel_vaddr s));
  hl_bits_apart : ∀ i j, 0 ≤ i < 8 * bm_length (pool_bitmap (kernel_pool s)) →
    0 ≤ j ≤ 8 * bm_length (addr_bitmap (kernel_vaddr s)) →
    bm_bits (pool_bitmap (kernel_pool s)) + i / 8 ≠ bm_bits (addr_bitmap (kernel_vaddr s)) + j / 8
}.

(** The addresses the heap's page table maps: the first megabyte among them. *)
Definition via_table s a : Prop :=
  0 ≤ a < 2 ^ 32 ∧ frame_of (pword (m_mmu s) (dir s + a / 2 ^ 22 * 4)) = T.

(** The heap when the bytes of [D] are [f] and the pages in [B] are in use. *)
Record heap_ok f B s : Prop := {
  ho_layout : heap_layout s;
  ho_rec : recursive (m_mmu s);
  ho_bits : holds (m_mmu s) D f;
  ho_pde : present (pword (m_mmu s) (dir s + heap_start s / 2 ^ 22 * 4)) = true ∧
    frame_of (pword (m_mmu s) (dir s + heap_start s / 2 ^ 22 * 4)) = T;
  ho_apart : ∀ a pa, D a → translate (m_mmu s) a = Some pa →
    ¬ region T PG_SIZE pa ∧ ¬ region (dir s) PG_SIZE pa ∧ ¬ in_pool s pa;
  ho_via : ∀ a, D a → via_table s a;
  ho_walk : ∀ a x, D a → walk_bytes (m_mmu s) a x → ¬ region (heap_entry s 0) (4 * N) x;
  ho_absent : ∀ j, 0 ≤ j < N → B j = false → present (pword (m_mmu s) (heap_entry s j)) = false
}.

Arguments ho_layout {_ _ _} _.
Arguments ho_pde {_ _ _} _.
Arguments ho_apart {_ _ _} _.
Arguments ho_absent {_ _ _} _.
Arguments ho_bits {_ _ _} _.
Arguments ho_rec {_ _ _} _.
Arguments ho_via {_ _ _} _.
Arguments ho_walk {_ _ _} _.

(** The invariant: the pages in use are those of the virtual bitmap. *)
Definition heap_inv s : Prop :=
  ∃ f, heap_ok f (bits_of f (addr_bitmap (kernel_vaddr s))) s.

(** At least [c] frames are free. *)
Definition enough f s (c : nat) : Prop :=
  ∃ X : gset Z, (c ≤ size X)%nat ∧
    ∀ i, i ∈ X → 0 ≤ i < pool_frames s ∧ bits_of f (pool_bitmap (kernel_pool s)) i = false.

(** *** Addresses *)

Lemma heap_page_facts s j :
  heap_layout s → 0 ≤ j < N →
  0 ≤ heap_page s j ∧ heap_page s j + PG_SIZE ≤ 2 ^ 32 ∧ heap_page s j mod PG_SIZE = 0 ∧
  heap_page s j / 2 ^ 22 = heap_start s / 2 ^ 22 ∧
  (heap_page s j / 2 ^ 12) mod 2 ^ 10 = (heap_start s / 2 ^ 12) mod 2 ^ 10 + j.
Proof.
  intros Hl Hj. destruct (hl_start s Hl) as (Hpos & Hal & Hend). destruct (hl_pages s Hl) as [HN Hj0].
  destruct (bi_length _ _ (hl_heap_bits s Hl)) as [Hlen _]. unfold heap_page, PG_SIZE in *.
  set (h := heap_start s) in *. assert (h < 2 ^ 32) by lia.
  assert (Hh : h = (h / 2 ^ 22 * 2 ^ 10 + (h / 2 ^ 12) mod 2 ^ 10) * 2 ^ 12) by zlia.
  set (q := h / 2 ^ 22) in *. set (j0 := (h / 2 ^ 12) mod 2 ^ 10) in *.
  assert (0 ≤ j0 < 2 ^ 10) by (apply Z.mod_pos_bound; lia). assert (0 ≤ q < 2 ^ 10) by zlia.
  clearbody q j0. split_and!; zlia.
Qed.

Lemma heap_entry_facts s j :
  heap_layout s → 0 ≤ j < N →
  T ≤ heap_entry s j ∧ heap_entry s j + 4 ≤ T + PG_SIZE ∧
  (∀ x, region (heap_entry s j) 4 x → region T PG_SIZE x ∧ region (heap_entry s 0) (4 * N) x) ∧
  in_ram (m_mmu s) (heap_entry s j) 4 = true.
Proof.
  intros Hl Hj. destruct (hl_pages s Hl) as [HN Hj0]. destruct (hl_table s Hl) as (Hal & _ & Hram).
  unfold heap_entry. set (j0 := (heap_start s / 2 ^ 12) mod 2 ^ 10) in *.
  assert (0 ≤ j0 < 2 ^ 10) by (apply Z.mod_pos_bound; lia). unfold region, PG_SIZE in *.
  split_and!; [lia..| |].
  - intros x Hx. lia.
  - eapply in_ram_sub; [exact Hram|lia|lia].
Qed.

Lemma dir_apart s x : heap_layout s → region (dir s) PG_SIZE x → ¬ region T PG_SIZE x.
Proof.
  intros Hl. destruct (hl_table s Hl) as (Hal & Hne & _).
  pose proof (frame_of_aligned (cr3 (m_mmu s))) as Hd. change (frame_of _) with (dir s) in Hd.
  unfold region, PG_SIZE in *. zlia.
Qed.

(** The entries the walk of a heap page reads. *)
Lemma heap_walk s f B j :
  heap_ok f B s → 0 ≤ j < N →
  let pde := pword (m_mmu s) (pde_paddr (m_mmu s) (heap_page s j)) in
  present pde = true ∧ pte_paddr pde (heap_page s j) = heap_entry s j ∧
  in_ram (m_mmu s) (pde_paddr (m_mmu s) (heap_page s j)) 4 = true ∧
  (pde_paddr (m_mmu s) (heap_page s j) + 4 ≤ heap_entry s j ∨
   heap_entry s j + 4 ≤ pde_paddr (m_mmu s) (heap_page s j)).
Proof.
  intros Ho Hj pde. pose proof (ho_layout Ho) as Hl.
  destruct (heap_page_facts s j Hl Hj) as (H0 & H32 & Hal & H22 & H12).
  destruct (ho_pde Ho) as [Hp HT].
  assert (Hpde : pde = pword (m_mmu s) (dir s + heap_start s / 2 ^ 22 * 4)).
  { subst pde. unfold pde_paddr. by rewrite H22. }
  destruct (heap_entry_facts s j Hl Hj) as (He1 & He2 & _ & _).
  destruct (hl_table s Hl) as (HalT & HneT & _).
  pose proof (frame_of_aligned (cr3 (m_mmu s))) as Hd. change (frame_of _) with (dir s) in Hd.
  split_and!.
  - by rewrite Hpde.
  - unfold pte_paddr. rewrite H12, Hpde, HT. done.
  - apply pde_in_ram; [apply Ho|]. unfold PG_SIZE in *. lia.
  - unfold pde_paddr. change (frame_of (cr3 (m_mmu s))) with (dir s). unfold PG_SIZE in *.
    assert (0 ≤ heap_page s j / 2 ^ 22 < 2 ^ 10) by zlia. zlia.
Qed.

(** *** What keeps the invariant *)

Lemma via_walk_bytes s a x :
  via_table s a → walk_bytes (m_mmu s) a x → region (dir s) PG_SIZE x ∨ region T PG_SIZE x.
Proof.
  intros [Ha HT] [Hx|Hx]; unfold pde_paddr in Hx; change (frame_of (cr3 (m_mmu s))) with (dir s) in Hx.
  - left. unfold region, PG_SIZE in *. zlia.
  - right. unfold pte_paddr in Hx. rewrite HT in Hx. unfold region, PG_SIZE in *. zlia.
Qed.

Lemma via_frame s m' a :
  ram m' = ram (m_mmu s) → cr3 m' = cr3 (m_mmu s) →
  (∀ x, region (dir s) PG_SIZE x ∨ region T PG_SIZE x → pbyte m' x = pbyte (m_mmu s) x) →
  via_table s a → translate m' a = translate (m_mmu s) a ∧ via_table (set_mmu m' s) a.
Proof.
  intros Hram Hcr Heq [Ha HT].
  assert (Hw : pword m' (dir s + a / 2 ^ 22 * 4) = pword (m_mmu s) (dir s + a / 2 ^ 22 * 4)).
  { apply (pword_page (m_mmu s)); [auto|zlia|unfold PG_SIZE; zlia]. }
  split.
  - apply translate_frame; [done|done|]. intros x Hx. apply Heq. by apply (via_walk_bytes s a).
  - split; [done|]. unfold dir. simpl. rewrite Hcr. change (frame_of (cr3 (m_mmu s))) with (dir s).
    by rewrite Hw.
Qed.

Lemma via_map s j v a :
  heap_layout s → 0 ≤ j < N → via_table s a →
  via_table (set_mmu (pset32 (m_mmu s) (heap_entry s j) v) s) a.
Proof.
  intros Hl Hj [Ha HT]. split; [done|]. change (dir (set_mmu _ s)) with (dir s). simpl m_mmu.
  rewrite (pword_page (m_mmu s)); [done| |zlia|unfold PG_SIZE; zlia].
  intros x Hx. apply pbyte_pset32_out. intros Hx'. apply (dir_apart s x Hl Hx).
  by apply (heap_entry_facts s j Hl Hj).
Qed.

(** A change of memory that leaves the directory, the table and the bitmaps'
    translations alone. *)
Lemma heap_ok_frame f g B s m' :
  heap_ok f B s → ram m' = ram (m_mmu s) → cr3 m' = cr3 (m_mmu s) → holds m' D g →
  (∀ x, region (dir s) PG_SIZE x ∨ region T PG_SIZE x → pbyte m' x = pbyte (m_mmu s) x) →
  heap_ok g B (set_mmu m' s).
Proof.
  intros [Hl Hrec Hb [Hp HT] Hap Hvia Hw Hab] Hram Hcr Hg Heq.
  assert (Hdir : ∀ off, 0 ≤ off → off + 4 ≤ PG_SIZE → pword m' (dir s + off) = pword (m_mmu s) (dir s + off)).
  { intros off H0 H1. apply (pword_page (m_mmu s) m' (dir s) off); [|done|done]. auto. }
  assert (Hcr' : dir (set_mmu m' s) = dir s) by (unfold dir; simpl; by rewrite Hcr).
  assert (H22 : 0 ≤ heap_start s / 2 ^ 22 * 4 ∧ heap_start s / 2 ^ 22 * 4 + 4 ≤ PG_SIZE).
  { destruct (hl_start s Hl) as (Hpos & _ & Hend). destruct (bi_length _ _ (hl_heap_bits s Hl)) as [Hlen _].
    unfold PG_SIZE in *. zlia. }
  split.
  - destruct Hl as [? ? HTb Hpool ? ? ? ?]. split; try done; rewrite ?Hcr'; simpl; try done.
    + destruct HTb as (? & ? & Hr). split_and!; [done..|]. unfold in_ram in *. by rewrite Hram.
    + by rewrite Hram.
  - apply (recursive_ext (m_mmu s)); [done|done|done|]. by apply Hdir.
  - done.
  - rewrite Hcr'. change (heap_start (set_mmu m' s)) with (heap_start s). simpl m_mmu.
    by rewrite Hdir by apply H22.
  - intros a pa Ha. rewrite Hcr'. simpl. rewrite (proj1 (via_frame s m' a Hram Hcr Heq (Hvia a Ha))).
    by apply Hap.
  - intros a Ha. by apply (via_frame s m' a Hram Hcr Heq (Hvia a Ha)).
  - intros a x Ha. change (heap_entry (set_mmu m' s) 0) with (heap_entry s 0). simpl m_mmu.
    intros Hx. apply (Hw a x Ha).
    assert (Hpd : pde_paddr m' a = pde_paddr (m_mmu s) a) by (unfold pde_paddr; by rewrite Hcr).
    unfold walk_bytes in *. rewrite Hpd in Hx.
    destruct Hb as [(Hown & _) _]. destruct (Hown a Ha) as (pa & Hpa & _).
    apply translate_walks in Hpa as (pde & pte & Hwk & _). pose proof (walk_va _ _ _ _ Hwk).
    assert (Hpw : pword m' (pde_paddr (m_mmu s) a) = pword (m_mmu s) (pde_paddr (m_mmu s) a)).
    { apply Hdir; unfold PG_SIZE; zlia. }
    by rewrite Hpw in Hx.
  - intros j Hj Hbj. change (heap_entry (set_mmu m' s) j) with (heap_entry s j). simpl m_mmu.
    rewrite (pword_ext (m_mmu s) m'); [by apply Hab|]. intros x Hx. apply Heq. right.
    by apply (heap_entry_facts s j Hl Hj).
Qed.

(** Setting bits. *)
Lemma heap_ok_bits f g B s m' :
  heap_ok f B s → changes D (m_mmu s) m' → holds m' D g → heap_ok g B (set_mmu m' s).
Proof.
  intros Ho (Hram & Hcr & Htr & Hby) Hg. apply (heap_ok_frame f); try done.
  intros x Hx. apply Hby. intros a Ha Hpa. destruct (ho_apart Ho a x Ha Hpa) as (H1 & H2 & _).
  tauto.
Qed.

(** What is mapped stays mapped when an absent heap entry is written. *)
Lemma map_keeps f B s j v a pa :
  heap_ok f B s → 0 ≤ j < N → B j = false → translate (m_mmu s) a = Some pa →
  translate (pset32 (m_mmu s) (heap_entry s j) v) a = Some pa.
Proof.
  intros Ho Hj HB Htr. rewrite translate_pset32_other; [done|].
  pose proof (ho_layout Ho) as Hl.
  destruct (heap_entry_facts s j Hl Hj) as (_ & _ & HinT & _).
  apply translate_walks in Htr as (pde & pte & Hwk & _). pose proof (walk_va _ _ _ _ Hwk) as Hva.
  intros x [Hx|Hx] Hx'.
  - destruct (HinT x Hx') as [HxT _]. apply (dir_apart s x Hl); [|done].
    unfold pde_paddr in Hx. change (frame_of (cr3 (m_mmu s))) with (dir s) in Hx.
    unfold region, PG_SIZE in *. zlia.
  - rewrite (walk_pde _ _ _ _ Hwk) in Hx. pose proof (frame_of_aligned pde) as Hfa.
    destruct (hl_table s Hl) as (HalT & _).
    assert (Heq : pte_paddr pde a = heap_entry s j).
    { unfold pte_paddr, heap_entry, region, PG_SIZE in *. zlia. }
    pose proof (ho_absent Ho j Hj HB) as Hab. rewrite <- Heq, (walk_pte _ _ _ _ Hwk) in Hab.
    by rewrite (walk_pte_present _ _ _ _ Hwk) in Hab.
Qed.

Lemma holds_map f B s j v :
  heap_ok f B s → 0 ≤ j < N → B j = false →
  holds (pset32 (m_mmu s) (heap_entry s j) v) D f.
Proof.
  intros Ho Hj HB. pose proof (ho_layout Ho) as Hl.
  destruct (heap_entry_facts s j Hl Hj) as (_ & _ & HinT & _).
  destruct (ho_bits Ho) as [(Hown & Hinj & Hsep) Hf].
  assert (Htr : ∀ a, D a → ∃ pa, translate (m_mmu s) a = Some pa ∧
    translate (pset32 (m_mmu s) (heap_entry s j) v) a = Some pa ∧ in_ram (m_mmu s) pa 1 = true).
  { intros a Ha. destruct (Hown a Ha) as (pa & Hpa & Hr). exists pa. split_and!; [done| |done].
    by apply (map_keeps f B). }
  assert (Hbytes : ∀ x, ¬ region T PG_SIZE x →
    pbyte (pset32 (m_mmu s) (heap_entry s j) v) x = pbyte (m_mmu s) x).
  { intros x Hx. apply pbyte_pset32_out. intros Hx'. by apply Hx, HinT. }
  split; [split_and!|].
  - intros a Ha. destruct (Htr a Ha) as (pa & _ & Hpa & Hr). by exists pa.
  - intros a b Ha Hb. destruct (Htr a Ha) as (pa & Hpa & -> & _).
    destruct (Htr b Hb) as (pb & Hpb & -> & _). intros [= ->]. apply Hinj; congruence.
  - intros a b pa Ha Hb Hpa Hwb. destruct (Htr a Ha) as (pa' & Hpa1 & Hpa2 & _).
    assert (pa' = pa) as -> by congruence. apply (Hsep a b pa Ha Hb Hpa1).
    destruct (Htr b Hb) as (pb & Hpb & _). apply translate_walks in Hpb as (pde & pte & Hwk & _).
    pose proof (walk_va _ _ _ _ Hwk). unfold walk_bytes in *.
    change (pde_paddr (pset32 (m_mmu s) (heap_entry s j) v) b) with (pde_paddr (m_mmu s) b) in Hwb.
    assert (Hpw : pword (pset32 (m_mmu s) (heap_entry s j) v) (pde_paddr (m_mmu s) b) =
                  pword (m_mmu s) (pde_paddr (m_mmu s) b)).
    { apply pword_ext. intros x Hx. apply Hbytes, (dir_apart s x Hl).
      unfold pde_paddr in Hx. change (frame_of (cr3 (m_mmu s))) with (dir s) in Hx.
      unfold region, PG_SIZE in *. zlia. }
    by rewrite Hpw in Hwb.
  - intros a Ha. rewrite <- Hf by done. destruct (Htr a Ha) as (pa & Hpa1 & Hpa2 & Hr).
    cbn [mload mmu_bytemem]. unfold vload8. rewrite Hpa1, Hpa2. cbn. unfold in_ram in *. simpl.
    rewrite Hr. f_equal. apply Hbytes. by apply (ho_apart Ho a pa Ha Hpa1).
Qed.

(** Mapping one free page to a frame. *)
Lemma heap_ok_map f B s j F :
  heap_ok f B s → 0 ≤ j < N → B j = false → 0 ≤ F < 2 ^ 32 → F mod PG_SIZE = 0 →
  let m' := pset32 (m_mmu s) (heap_entry s j) (Z.lor F 7) in
  bind_vaddr_paddr_page (heap_page s j) F s = Ok tt (set_mmu m' s) ∧
  heap_ok f (λ x, if decide (x = j) then true else B x) (set_mmu m' s) ∧
  (∀ off, 0 ≤ off < PG_SIZE → translate m' (heap_page s j + off) = Some (F + off)).
Proof.
  intros Ho Hj HB HF Hal m'. pose proof (ho_layout Ho) as Hl.
  destruct (heap_walk s f B j Ho Hj) as (Hp & HA & Hdram & Hdis).
  destruct (heap_page_facts s j Hl Hj) as (H0 & H32 & Hpal & H22 & H12).
  destruct (heap_entry_facts s j Hl Hj) as (He1 & He2 & HinT & Hram).
  assert (Htrj : translate m' (heap_page s j) = Some (F + heap_page s j mod PG_SIZE)).
  { subst m'. rewrite <- HA. apply store_pte_maps; try done; rewrite ?HA; try done. unfold PG_SIZE in *. lia. }
  assert (Hrec : recursive m').
  { pose proof (hl_table s Hl) as (HalT & HneT & _).
    pose proof (frame_of_aligned (cr3 (m_mmu s))) as Hd. change (frame_of _) with (dir s) in Hd.
    apply (recursive_ext (m_mmu s)); [apply Ho|done|done|]. apply pword_pset32_other.
    change (frame_of (cr3 (m_mmu s))) with (dir s). unfold PG_SIZE in *. zlia. }
  split_and!.
  - pose proof (bind_present_ok s (heap_page s j) F (ho_rec Ho)) as Hbind. cbv zeta in Hbind.
    rewrite HA, (ho_absent Ho j Hj HB) in Hbind. apply Hbind; [|done|done].
    unfold PG_SIZE in *. lia.
  - pose proof (hl_table s Hl) as (HalT & HneT & HramT).
    assert (Hdirw : ∀ off, 0 ≤ off → off + 4 ≤ PG_SIZE → pword m' (dir s + off) = pword (m_mmu s) (dir s + off)).
    { intros off Ho0 Ho1. apply (pword_page (m_mmu s)); [|done|done]. intros x Hx.
      apply pbyte_pset32_out. intros Hx'. apply (dir_apart s x Hl Hx). by apply HinT. }
    split; [by destruct Hl; split|done|apply (holds_map f B); done| | | | |].
    + change (dir (set_mmu m' s)) with (dir s). change (heap_start (set_mmu m' s)) with (heap_start s).
      simpl m_mmu. rewrite Hdirw; [apply Ho| |].
      * unfold PG_SIZE in *. zlia.
      * unfold PG_SIZE in *. zlia.
    + intros a pa Ha. simpl m_mmu. intros Hpa.
      destruct (ho_bits Ho) as [(Hown & _) _]. destruct (Hown a Ha) as (pa' & Hpa' & _).
      unfold m' in Hpa. rewrite (map_keeps f B s j _ a pa' Ho Hj HB Hpa') in Hpa. simplify_eq.
      by apply (ho_apart Ho a).
    + intros a Ha. apply via_map; [done|done|]. by apply (ho_via Ho).
    + intros a x Ha. simpl m_mmu. change (heap_entry (set_mmu m' s) 0) with (heap_entry s 0).
      intros Hx. apply (ho_walk Ho a x Ha). unfold walk_bytes in *.
      change (pde_paddr m' a) with (pde_paddr (m_mmu s) a) in Hx.
      destruct (ho_bits Ho) as [(Hown & _) _]. destruct (Hown a Ha) as (pa' & Hpa' & _).
      apply translate_walks in Hpa' as (pde & pte & Hwk & _). pose proof (walk_va _ _ _ _ Hwk).
      unfold pde_paddr in *. change (frame_of (cr3 (m_mmu s))) with (dir s) in *.
      by rewrite Hdirw in Hx by (unfold PG_SIZE; zlia).
    + intros i Hi. simpl m_mmu. change (heap_entry (set_mmu m' s) i) with (heap_entry s i).
      case_decide as Hij; [done|]. intros HBi. unfold m'. rewrite pword_pset32_other; [by apply Ho|].
      unfold heap_entry. lia.
  - intros off Hoff. apply translate_walks in Htrj as (pde & pte & Hwk & Heq).
    pose proof (walks_same_page _ _ off _ _ Hwk Hpal Hoff) as Hwk'.
    rewrite (walks_translate _ _ _ _ Hwk'). f_equal. unfold PG_SIZE in *. zlia.
Qed.

(** *** The loop *)

Definition frame s i : Z := phy_addr_start (kernel_pool s) + i * PG_SIZE.

Lemma via_heap_page f B s j off :
  heap_ok f B s → 0 ≤ j < N → 0 ≤ off < PG_SIZE → via_table s (heap_page s j + off).
Proof.
  intros Ho Hj Hoff. destruct (heap_page_facts s j (ho_layout Ho) Hj) as (H0 & H32 & Hal & H22 & _).
  split; [lia|]. replace ((heap_page s j + off) / 2 ^ 22) with (heap_start s / 2 ^ 22).
  - by apply (ho_pde Ho).
  - rewrite <- H22. unfold PG_SIZE in *. zlia.
Qed.

Lemma heap_ok_ext f B B' s :
  heap_ok f B s → (∀ j, 0 ≤ j < N → B j = B' j) → heap_ok f B' s.
Proof. intros [] HB. split; try done. intros j Hj Hf. apply ho_absent0; [done|]. by rewrite HB. Qed.

(** From the state [s] with bitmaps [f] to [s'], the pages from [j] on were mapped
    to the [frames], all of them free before and taken now. *)
Record pages_mapped f B s j (frames : list Z) g s' : Prop := {
  pm_mmu : s' = set_mmu (m_mmu s') s;
  pm_heap : heap_ok g (λ x, if decide (j ≤ x < j + Z.of_nat (length frames)) then true else B x) s';
  pm_nodup : NoDup frames;
  pm_free : ∀ F, F ∈ frames → ∃ i, 0 ≤ i < pool_frames s ∧ F = frame s i ∧
    bits_of f (pool_bitmap (kernel_pool s)) i = false;
  pm_pages : ∀ (k : nat) F off, frames !! k = Some F → 0 ≤ off < PG_SIZE →
    translate (m_mmu s') (heap_page s (j + Z.of_nat k) + off) = Some (F + off);
  pm_via : ∀ a, via_table s a → via_table s' a;
  pm_keeps : ∀ a pa, via_table s a → translate (m_mmu s) a = Some pa → translate (m_mmu s') a = Some pa;
  pm_heap_bits : ∀ i, 0 ≤ i ≤ 8 * bm_length (addr_bitmap (kernel_vaddr s)) →
    bits_of g (addr_bitmap (kernel_vaddr s)) i = bits_of f (addr_bitmap (kernel_vaddr s)) i;
  pm_pool_bits : ∀ i, 0 ≤ i < pool_frames s →
    bits_of g (pool_bitmap (kernel_pool s)) i = true ↔
    bits_of f (pool_bitmap (kernel_pool s)) i = true ∨ frame s i ∈ frames;
  pm_others : ∀ x, ¬ in_bitmap (pool_bitmap (kernel_pool s)) x → g x = f x;
  pm_bytes : ∀ x, in_pool s x → pbyte (m_mmu s') x = pbyte (m_mmu s) x
}.

Lemma frame_inj s i i' : frame s i = frame s i' → i = i'.
Proof. unfold frame, PG_SIZE. lia. Qed.

Lemma frame_facts s i :
  heap_layout s → 0 ≤ i < pool_frames s → 0 < frame s i < 2 ^ 32 ∧ frame s i mod PG_SIZE = 0.
Proof.
  intros Hl Hi. destruct (hl_pool s Hl) as (H0 & Hal & H1 & H2). unfold frame, PG_SIZE in *. zlia.
Qed.

Lemma enough_take f g s i c :
  enough f s (S c) → bits_taken (pool_bitmap (kernel_pool s)) i 1 f g → enough g s c.
Proof.
  intros (X & Hsize & HX) [Hbits _]. exists (X ∖ {[i]}). split.
  - rewrite size_difference_alt. pose proof (subseteq_size (X ∩ {[i]}) {[i]} ltac:(set_solver)) as Hle.
    rewrite size_singleton in Hle. lia.
  - intros x Hx. destruct (HX x ltac:(set_solver)) as [Hr Hb]. split; [done|].
    rewrite Hbits by lia. rewrite decide_False; [done|]. intros Hxi. assert (x = i) as -> by lia. set_solver.
Qed.

Lemma enough_not_full f s c :
  enough f s (S c) →
  ¬ (∀ i, 0 ≤ i < pool_frames s → bits_of f (pool_bitmap (kernel_pool s)) i = true).
Proof.
  intros (X & Hsize & HX) Hfull. destruct (set_choose_or_empty X) as [[i Hi]|Hem].
  - destruct (HX i Hi) as [Hr Hb]. rewrite Hfull in Hb by done. done.
  - apply size_empty_iff in Hem. lia.
Qed.

(** One round: page [j] of the heap is mapped to frame [i] of the pool. *)
Record page_mapped f B s j i g s' : Prop := {
  p1_mmu : s' = set_mmu (m_mmu s') s;
  p1_frame : 0 ≤ i < pool_frames s;
  p1_free : bits_of f (pool_bitmap (kernel_pool s)) i = false;
  p1_heap : heap_ok g (λ x, if decide (x = j) then true else B x) s';
  p1_page : ∀ off, 0 ≤ off < PG_SIZE → translate (m_mmu s') (heap_page s j + off) = Some (frame s i + off);
  p1_via : ∀ a, via_table s a → via_table s' a;
  p1_keeps : ∀ a pa, via_table s a → translate (m_mmu s) a = Some pa → translate (m_mmu s') a = Some pa;
  p1_bits : bits_taken (pool_bitmap (kernel_pool s)) i 1 f g;
  p1_bytes : ∀ x, in_pool s x → pbyte (m_mmu s') x = pbyte (m_mmu s) x
}.

(** The bitmaps are not in the frames of the pool. *)
Lemma pool_bytes_kept f B s m' x :
  heap_ok f B s → changes D (m_mmu s) m' → in_pool s x → pbyte m' x = pbyte (m_mmu s) x.
Proof.
  intros Ho (_ & _ & _ & Hby) Hx. apply Hby. intros a Ha Hpa.
  by destruct (ho_apart Ho a x Ha Hpa) as (_ & _ & ?).
Qed.

Lemma map_page_ok c f B s j (rest : prog memst bool) Q :
  heap_ok f B s → 0 ≤ j < N → B j = false → enough f s (S c) →
  (∀ i g s', page_mapped f B s j i g s' → wp rest Q s') →
  wp (p ← mem_pool KERNEL_POOL;
      page_phyaddr ← paddr_get_page p;
      if page_phyaddr =? NULL then mret false else
      _ ← bind_vaddr_paddr_page (heap_page s j) page_phyaddr;
      rest) Q s.
Proof.
  intros Ho Hj HB Hen Hrest. pose proof (ho_layout Ho) as Hl.
  destruct (hl_pool s Hl) as (Hp0 & Hpal & Hp1 & Hp2).
  eapply wpp_step; [reflexivity|]. apply wpp_bind. eapply wpp_mono.
  { apply (paddr_get_page_ok s D f (kernel_pool s) (ho_bits Ho) (hl_pool_bits s Hl)); [lia|].
    unfold pool_frames in *. lia. }
  2: { intros x s' (_ & _ & Hfull). by apply (enough_not_full f s c Hen). }
  intros r s1 (i & m1 & g & -> & (Hi0 & Hi1 & Hfree & _) & -> & Hch & Hg & Hbt).
  set (s1 := set_mmu m1 s) in *. change (phy_addr_start (kernel_pool s) + i * PG_SIZE) with (frame s i).
  change (8 * bm_length (pool_bitmap (kernel_pool s))) with (pool_frames s) in Hi1.
  destruct (frame_facts s i Hl ltac:(lia)) as [HF HFal]. specialize (Hfree i ltac:(lia)).
  rewrite (proj2 (Z.eqb_neq (frame s i) NULL)) by (unfold NULL; lia).
  assert (Ho1 : heap_ok g B s1) by (by apply (heap_ok_bits f)).
  destruct (heap_ok_map g B s1 j (frame s i) Ho1 ltac:(lia) HB ltac:(lia) HFal) as (Hbind & Ho2 & Htr2).
  change (heap_page s1 j) with (heap_page s j) in *.
  eapply wpp_step; [exact Hbind|]. apply (Hrest i g).
  pose proof Hch as (Hram1 & Hcr1 & Htr1 & Hby1).
  assert (Hvia1 : ∀ a, via_table s a → translate m1 a = translate (m_mmu s) a ∧ via_table s1 a).
  { intros a Ha. apply via_frame; try done. intros x Hx. apply Hby1. intros d Hd Hpa.
    destruct (ho_apart Ho d x Hd Hpa) as (? & ? & _). tauto. }
  split; try done; [lia| | |].
  - intros a Ha. apply (via_map s1); [apply Ho1|lia|]. by apply Hvia1.
  - intros a pa Ha Hpa. apply (map_keeps g B s1 j _ a pa Ho1 ltac:(lia) HB). by rewrite <- Hpa; apply Hvia1.
  - intros x Hx. simpl m_mmu. rewrite pbyte_pset32_out.
    + by apply (pool_bytes_kept f B s m1).
    + intros Hx'. apply (heap_entry_facts s1 j (ho_layout Ho1) Hj) in Hx' as [HT _].
      by destruct (hl_apart s Hl x Hx).
Qed.

(** The round and the rounds that follow it. *)
Lemma pages_mapped_cons f B s j i g s2 frames g' s' :
  heap_ok f B s → 0 ≤ j < N → page_mapped f B s j i g s2 →
  pages_mapped g (λ x, if decide (x = j) then true else B x) s2 (j + 1) frames g' s' →
  pages_mapped f B s j (frame s i :: frames) g' s'.
Proof.
  intros Ho Hj [Hs2 Hi Hfree Ho2 Htr2 Hvia Hkeep [Hbits Hout] Hby2] [Hm' Hh' Hnd Hfr Hpg Hvi Hk Hhb Hpb Hoth Hby].
  pose proof (ho_layout Ho) as Hl. set (m2 := m_mmu s2) in *. clearbody m2. subst s2.
  change (pool_bitmap (kernel_pool (set_mmu m2 s))) with (pool_bitmap (kernel_pool s)) in *.
  change (kernel_vaddr (set_mmu m2 s)) with (kernel_vaddr s) in *.
  change (pool_frames (set_mmu m2 s)) with (pool_frames s) in *.
  change (frame (set_mmu m2 s)) with (frame s) in *. change (heap_page (set_mmu m2 s)) with (heap_page s) in *.
  split.
  - rewrite Hm'. by destruct s.
  - eapply heap_ok_ext; [exact Hh'|]. intros x _. simpl length. repeat case_decide; try done; lia.
  - apply NoDup_cons. split; [|done]. intros Hin. destruct (Hfr _ Hin) as (i' & _ & Heq & Hb').
    apply (frame_inj s) in Heq as <-. rewrite Hbits, decide_True in Hb' by lia. done.
  - intros F [->|HinF]%elem_of_cons; [by exists i|].
    destruct (Hfr F HinF) as (i' & Hi' & -> & Hb'). exists i'. split_and!; [lia..|done|].
    rewrite Hbits in Hb' by lia. by case_decide.
  - intros [|k] F off Hlk Hoff; simpl in Hlk.
    + injection Hlk as <-. rewrite Z.add_0_r. apply Hk; [|by apply Htr2].
      by apply Hvia, (via_heap_page f B).
    + rewrite <- (Hpg k F off Hlk Hoff). do 3 f_equal. lia.
  - intros a Ha. by apply Hvi, Hvia.
  - intros a pa Ha Hpa. apply Hk; [by apply Hvia|by apply Hkeep].
  - intros b Hb. rewrite Hhb by done. unfold bits_of, bm_bit. rewrite Hout; [done|].
    intros z Hz. assert (z = i) as -> by lia. intros Heq. by apply (hl_bits_apart s Hl i b).
  - intros b Hb. rewrite Hpb, Hbits, elem_of_cons by lia. case_decide as Hbi.
    + assert (b = i) as -> by lia. tauto.
    + split; [tauto|]. intros [?|[Heq|?]]; [tauto| |tauto]. apply (frame_inj s) in Heq. lia.
  - intros x Hx. rewrite Hoth by done. apply Hout. intros z Hz. assert (z = i) as -> by lia. by apply bit_byte.
  - intros x Hx. rewrite <- Hby2 by done. by apply Hby.
Qed.

Lemma heap_page_next s j :
  heap_layout s → 0 ≤ j → j + 1 < N → u32 (heap_page s j + PG_SIZE) = heap_page s (j + 1).
Proof.
  intros Hl Hj HN. destruct (heap_page_facts s j Hl ltac:(lia)) as (? & ? & _).
  destruct (heap_page_facts s (j + 1) Hl ltac:(lia)) as (? & ? & _).
  unfold heap_page, PG_SIZE in *. rewrite u32_small; lia.
Qed.

Lemma map_pages_ok cnt : ∀ f B s j vaddr,
  heap_ok f B s → 0 ≤ j → j + Z.of_nat cnt ≤ N → (∀ x, j ≤ x < j + Z.of_nat cnt → B x = false) →
  enough f s cnt → (cnt = 0%nat ∨ vaddr = heap_page s j) →
  wp (map_pages cnt KERNEL_POOL vaddr)
    (λ ok s', ok = true ∧ ∃ frames g, length frames = cnt ∧ pages_mapped f B s j frames g s') s.
Proof.
  induction cnt as [|cnt IH]; intros f B s j vaddr Ho Hj HN HB Hen Hva.
  - apply wpp_ret. split; [done|]. exists [], f. split; [done|]. split; try done.
    + by destruct s.
    + destruct Ho. split; try done. intros x Hx. rewrite decide_False by (simpl; lia). by apply ho_absent0.
    + apply NoDup_nil_2.
    + set_solver.
    + intros i Hi. set_solver.
  - destruct Hva as [?| ->]; [done|]. pose proof (ho_layout Ho) as Hl. simpl map_pages.
    apply (map_page_ok cnt f B s j _ _ Ho ltac:(lia) (HB j ltac:(lia)) Hen). intros i g s2 Hstep.
    pose proof Hstep as [Hs2 _ _ Ho2 _ _ _ Hbt _].
    eapply wp_mono.
    { apply (IH g _ s2 (j + 1) _ Ho2); [lia|lia| | |].
      - intros x Hx. rewrite decide_False by lia. apply HB. lia.
      - rewrite Hs2. by apply (enough_take f g s i).
      - destruct cnt; [by left|right]. rewrite Hs2. apply (heap_page_next s j Hl); lia. }
    intros ok s' (-> & frames & g' & Hlen & Hpm).
    split; [done|]. exists (frame s i :: frames), g'. split; [simpl; lia|].
    eapply pages_mapped_cons; [done|lia|done|done].
Qed.

(** *** Clearing the pages *)

Lemma bits_kept f B s m' :
  heap_ok f B s → ram m' = ram (m_mmu s) → cr3 m' = cr3 (m_mmu s) →
  (∀ x, ¬ in_pool s x → pbyte m' x = pbyte (m_mmu s) x) → holds m' D f.
Proof.
  intros Ho Hram Hcr Heq. pose proof (ho_layout Ho) as Hl.
  assert (Heq' : ∀ x, region (dir s) PG_SIZE x ∨ region T PG_SIZE x → pbyte m' x = pbyte (m_mmu s) x).
  { intros x Hx. apply Heq. intros Hp. destruct (hl_apart s Hl x Hp). tauto. }
  destruct (ho_bits Ho) as [(Hown & Hinj & Hsep) Hf].
  assert (Htr : ∀ a, D a → translate m' a = translate (m_mmu s) a).
  { intros a Ha. by apply (via_frame s m' a Hram Hcr Heq' (ho_via Ho a Ha)). }
  split; [split_and!|].
  - intros a Ha. destruct (Hown a Ha) as (pa & Hpa & Hr). exists pa. rewrite Htr by done.
    split; [done|]. unfold in_ram in *. by rewrite Hram.
  - intros a b Ha Hb. rewrite !Htr by done. by apply Hinj.
  - intros a b pa Ha Hb. rewrite Htr by done. intros Hpa Hw.
    pose proof (proj2 (via_frame s m' b Hram Hcr Heq' (ho_via Ho b Hb))) as Hvb.
    apply (via_walk_bytes (set_mmu m' s) b pa Hvb) in Hw.
    assert (Hdir : dir (set_mmu m' s) = dir s) by (unfold dir; simpl; by rewrite Hcr). rewrite Hdir in Hw.
    destruct (ho_apart Ho a pa Ha Hpa) as (? & ? & _). tauto.
  - intros a Ha. rewrite <- Hf by done. destruct (Hown a Ha) as (pa & Hpa & Hr).
    cbn [mload mmu_bytemem]. unfold vload8. rewrite Htr, Hpa by done. cbn. unfold in_ram in *.
    rewrite Hram, Hr. f_equal. apply Heq. by apply (ho_apart Ho a pa Ha Hpa).
Qed.

(** Mapped pages are a block of memory of their own. *)
Lemma pages_hold g B s j (frames : list Z) :
  heap_ok g B s → 0 ≤ j → j + Z.of_nat (length frames) ≤ N → NoDup frames →
  (∀ F, F ∈ frames → ∃ i, 0 ≤ i < pool_frames s ∧ F = frame s i) →
  (∀ (k : nat) F off, frames !! k = Some F → 0 ≤ off < PG_SIZE →
    translate (m_mmu s) (heap_page s (j + Z.of_nat k) + off) = Some (F + off)) →
  let P := region (heap_page s j) (Z.of_nat (length frames) * PG_SIZE) in
  holds (m_mmu s) P (λ a, pbyte (m_mmu s) (default 0 (translate (m_mmu s) a))) ∧
  ∀ a pa, P a → translate (m_mmu s) a = Some pa → in_pool s pa ∧ ∃ F, F ∈ frames ∧ region F PG_SIZE pa.
Proof.
  intros Ho Hj HN Hnd Hfr Hpg P. pose proof (ho_layout Ho) as Hl.
  destruct (hl_pool s Hl) as (Hp0 & Hpal & Hp1 & Hp2).
  assert (Hpage : ∀ a, P a → ∃ (k : nat) i off, (k < length frames)%nat ∧ 0 ≤ off < PG_SIZE ∧
    a = heap_page s (j + Z.of_nat k) + off ∧ frames !! k = Some (frame s i) ∧ 0 ≤ i < pool_frames s ∧
    translate (m_mmu s) a = Some (frame s i + off)).
  { intros a Ha. unfold P, region in Ha. set (d := a - heap_page s j) in *.
    assert (Hk : (Z.to_nat (d / PG_SIZE) < length frames)%nat) by (unfold PG_SIZE in *; zlia).
    destruct (lookup_lt_is_Some_2 _ _ Hk) as [F HF].
    destruct (Hfr F) as (i & Hi & ->); [by eapply list_elem_of_lookup_2|].
    assert (Ha' : a = heap_page s (j + Z.of_nat (Z.to_nat (d / PG_SIZE))) + d mod PG_SIZE).
    { subst d. unfold heap_page, PG_SIZE in *. zlia. }
    exists (Z.to_nat (d / PG_SIZE)), i, (d mod PG_SIZE).
    assert (Hoff : 0 ≤ d mod PG_SIZE < PG_SIZE) by (apply Z.mod_pos_bound; done).
    split_and!; try done; try lia. rewrite Ha' at 1. by apply Hpg. }
  assert (Hpool : ∀ a pa, P a → translate (m_mmu s) a = Some pa → in_pool s pa).
  { intros a pa Ha. destruct (Hpage a Ha) as (k & i & off & _ & Hoff & _ & _ & Hi & ->).
    intros [= <-]. unfold in_pool, region, frame, PG_SIZE in *. nia. }
  split.
  2: { intros a pa Ha Hpa. split; [by apply (Hpool a)|].
       destruct (Hpage a Ha) as (k & i & off & _ & Hoff & _ & Hk & _ & Htr).
       exists (frame s i). split; [by eapply list_elem_of_lookup_2|]. unfold region. simplify_eq. lia. }
  split; [split_and!|].
  - intros a Ha. destruct (Hpage a Ha) as (k & i & off & _ & Hoff & _ & _ & Hi & Htr).
    eexists. split; [exact Htr|]. pose proof (Hpool a _ Ha Htr) as Hin.
    apply in_ram_true. unfold in_pool, region in Hin. lia.
  - intros a b Ha Hb. destruct (Hpage a Ha) as (k & i & off & _ & Hoff & -> & Hk & _ & ->).
    destruct (Hpage b Hb) as (k' & i' & off' & _ & Hoff' & -> & Hk' & _ & ->). intros [= Heq].
    assert (i = i' ∧ off = off') as [-> ->] by (unfold frame, PG_SIZE in *; lia).
    by rewrite (NoDup_lookup _ _ _ _ Hnd Hk Hk').
  - intros a b pa Ha Hb Hpa Hw. pose proof (Hpool a pa Ha Hpa) as Hin.
    destruct (Hpage b Hb) as (k & i & off & Hk & Hoff & -> & _).
    apply (via_walk_bytes s) in Hw; [|by apply (via_heap_page g B); [done|lia|done]].
    destruct (hl_apart s Hl pa Hin). tauto.
  - intros a Ha. destruct (Hpage a Ha) as (k & i & off & _ & Hoff & _ & _ & Hi & Htr).
    cbn [mload mmu_bytemem]. unfold vload8. rewrite Htr. cbn.
    assert (Hr : in_ram (m_mmu s) (frame s i + off) 1 = true).
    { apply in_ram_true. pose proof (Hpool a _ Ha Htr) as Hin. unfold in_pool, region in Hin. lia. }
    by rewrite Hr.
Qed.

(** *** malloc_pages *)

Definition heap_bits s : bitmap := addr_bitmap (kernel_vaddr s).

(** A free run of [c] heap pages among those the table maps. *)
Definition room f s c : Prop :=
  ∃ i, 0 ≤ i ∧ i + c ≤ N ∧ i + c ≤ request_limit (heap_bits s) c ∧ run_free (bits_of f (heap_bits s)) i c.

(** A change inside mapped pages leaves the rest of the heap as it is. *)
Lemma pages_change g B s i (frames : list Z) m' :
  heap_ok g B s → 0 ≤ i → i + Z.of_nat (length frames) ≤ N → NoDup frames →
  (∀ F, F ∈ frames → ∃ b, 0 ≤ b < pool_frames s ∧ F = frame s b) →
  (∀ (k : nat) F off, frames !! k = Some F → 0 ≤ off < PG_SIZE →
    translate (m_mmu s) (heap_page s (i + Z.of_nat k) + off) = Some (F + off)) →
  changes (region (heap_page s i) (Z.of_nat (length frames) * PG_SIZE)) (m_mmu s) m' →
  heap_ok g B (set_mmu m' s) ∧
  (∀ a, via_table s a → translate m' a = translate (m_mmu s) a ∧ via_table (set_mmu m' s) a) ∧
  (∀ x, (∀ F, F ∈ frames → ¬ region F PG_SIZE x) → pbyte m' x = pbyte (m_mmu s) x).
Proof.
  intros Ho Hi HN Hnd Hfr Hpg (Hram & Hcr & Htr & Hby). pose proof (ho_layout Ho) as Hl.
  destruct (pages_hold g B s i frames Ho Hi HN Hnd Hfr Hpg) as [_ Hpool].
  assert (Hout : ∀ x, ¬ in_pool s x → pbyte m' x = pbyte (m_mmu s) x).
  { intros x Hx. apply Hby. intros a Ha Hpa. by apply Hx, (Hpool a). }
  assert (Hdt : ∀ x, region (dir s) PG_SIZE x ∨ region T PG_SIZE x → pbyte m' x = pbyte (m_mmu s) x).
  { intros x Hx. apply Hout. intros Hp. destruct (hl_apart s Hl x Hp). tauto. }
  split_and!.
  - apply (heap_ok_frame g g B s m' Ho Hram Hcr); [|done]. by apply (bits_kept g B s m' Ho Hram Hcr).
  - intros a Ha. by apply (via_frame s m' a Hram Hcr Hdt).
  - intros x Hx. apply Hby. intros a Ha Hpa. destruct (Hpool a x Ha Hpa) as (_ & F & HF & Hr). by apply (Hx F).
Qed.

(** The memset at the end of malloc_pages. *)
Lemma clear_pages_ok g B s i (frames : list Z) :
  heap_ok g B s → 0 ≤ i → i + Z.of_nat (length frames) ≤ N → NoDup frames →
  (∀ F, F ∈ frames → ∃ b, 0 ≤ b < pool_frames s ∧ F = frame s b) →
  (∀ (k : nat) F off, frames !! k = Some F → 0 ≤ off < PG_SIZE →
    translate (m_mmu s) (heap_page s (i + Z.of_nat k) + off) = Some (F + off)) →
  let n := Z.of_nat (length frames) * PG_SIZE in
  wp (zoom l_mmu (memset (heap_page s i) 0 n))
    (λ _ s', ∃ m', s' = set_mmu m' s ∧ heap_ok g B s' ∧
       (∀ a, region (heap_page s i) n a → translate m' a = translate (m_mmu s) a ∧ mload m' a = Some 0) ∧
       (∀ a, via_table s a → translate m' a = translate (m_mmu s) a ∧ via_table s' a) ∧
       (∀ x, (∀ F, F ∈ frames → ¬ region F PG_SIZE x) → pbyte m' x = pbyte (m_mmu s) x)) s.
Proof.
  intros Ho Hi HN Hnd Hfr Hpg n.
  destruct (pages_hold g B s i frames Ho Hi HN Hnd Hfr Hpg) as [Hblock _]. fold n in Hblock.
  apply wp_zoom. eapply wp_mono.
  { apply (memset_ok _ _ _ (heap_page s i) 0 n Hblock); [unfold n, PG_SIZE; lia|done]. }
  intros _ m' (_ & Hch & [_ Hzero]). change (lget l_mmu s) with (m_mmu s) in *.
  destruct (pages_change g B s i frames m' Ho Hi HN Hnd Hfr Hpg Hch) as (Ho' & Hvia & Hout).
  exists m'. split_and!; [done|done| |done|done].
  intros a Ha. destruct Hch as (_ & _ & Htr & _). split; [by apply Htr|]. rewrite Hzero by done. f_equal.
  by apply blit_replicate.
Qed.

(** The two bitmaps do not share bytes: taking heap pages leaves the pool's bits. *)
Lemma pool_bits_kept f g s i c b :
  heap_layout s → 0 ≤ i → i + c ≤ 8 * bm_length (heap_bits s) + 1 → bits_taken (heap_bits s) i c f g →
  0 ≤ b < pool_frames s → bits_of g (pool_bitmap (kernel_pool s)) b = bits_of f (pool_bitmap (kernel_pool s)) b.
Proof.
  intros Hl Hi Hc [_ Hout] Hb. unfold bits_of, bm_bit. rewrite Hout; [done|].
  intros z Hz. by apply (hl_bits_apart s Hl); unfold pool_frames, heap_bits in *; lia.
Qed.

Lemma enough_ext f g s cnt :
  (∀ b, 0 ≤ b < pool_frames s →
    bits_of g (pool_bitmap (kernel_pool s)) b = bits_of f (pool_bitmap (kernel_pool s)) b) →
  enough f s cnt → enough g s cnt.
Proof.
  intros Heq (X & HX & Hfree). exists X. split; [done|]. intros b Hb.
  destruct (Hfree b Hb) as [Hr Hbit]. split; [done|]. by rewrite Heq.
Qed.

(** The virtual range: the first run of free pages, all of it in the table. *)
Lemma heap_range_ok f s cv count :
  heap_ok f (bits_of f (heap_bits s)) s → 1 ≤ count < 3840 → room f s count →
  wp (vaddr_get_pages KERNEL_POOL cv count)
    (λ r s', ∃ i m' g, s' = set_mmu m' s ∧ r = heap_page s i ∧ 0 ≤ i ∧ i + count ≤ N ∧
       i + count ≤ 8 * bm_length (heap_bits s) + 1 ∧
       first_run (bits_of f (heap_bits s)) count (request_limit (heap_bits s) count) i ∧
       changes D (m_mmu s) m' ∧ bits_taken (heap_bits s) i count f g ∧
       heap_ok g (bits_of f (heap_bits s)) s') s.
Proof.
  intros Ho Hcount (i0 & Hi00 & Hi0N & Hi0L & Hfree0). pose proof (ho_layout Ho) as Hl.
  destruct (hl_start s Hl) as (Hs0 & Hsal & Hsend).
  eapply wpp_mono.
  { apply (vaddr_get_pages_ok s D f cv KERNEL_POOL count (kernel_vaddr s) (ho_bits Ho) eq_refl
      (hl_heap_bits s Hl)); [lia|unfold heap_start in *; lia|exact Hsend]. }
  2: { intros x s' [(_ & _ & Hfull)|[Hbad _]]; [|done].
       specialize (Hfree0 i0 ltac:(lia)). unfold heap_bits, request_limit in *.
       assert (i0 < 8 * bm_length (addr_bitmap (kernel_vaddr s))) by (destruct (Z.eqb_spec count 1); lia).
       by rewrite Hfull in Hfree0 by lia. }
  intros r s1 [(_ & _ & Hno)|(i & m1 & g1 & -> & (Hi & Hilim & Hfree & Hfirst) & -> & Hch & Hg & Hbt)].
  { exfalso. by apply (Hno i0 Hi00 Hi0L). }
  assert (Hii0 : i ≤ i0).
  { destruct (decide (i ≤ i0)) as [|Hgt]; [done|]. exfalso. by apply (Hfirst i0 ltac:(lia)). }
  assert (Hlimit : request_limit (heap_bits s) count ≤ 8 * bm_length (heap_bits s) + 1).
  { unfold request_limit. destruct (count =? 1); lia. }
  exists i, m1, g1. unfold heap_bits in *. split_and!; try done; try lia. by apply (heap_ok_bits f).
Qed.

(** What malloc_pages gives: [count] pages from [r] on, mapped to [frames]. *)
Record fresh_pages f s count i (frames : list Z) r s' : Prop := {
  fp_range : 0 ≤ i ∧ i + count ≤ N ∧ r = heap_page s i;
  fp_first : first_run (bits_of f (heap_bits s)) count (request_limit (heap_bits s) count) i;
  fp_mmu : s' = set_mmu (m_mmu s') s;
  fp_frames : Z.of_nat (length frames) = count ∧ NoDup frames;
  fp_frames_free : ∀ F, F ∈ frames → ∃ b, 0 ≤ b < pool_frames s ∧ F = frame s b ∧
    bits_of f (pool_bitmap (kernel_pool s)) b = false;
  fp_mapped : ∀ (k : nat) F off, frames !! k = Some F → 0 ≤ off < PG_SIZE →
    translate (m_mmu s') (r + Z.of_nat k * PG_SIZE + off) = Some (F + off);
  fp_zero : ∀ a, region r (count * PG_SIZE) a → mload (m_mmu s') a = Some 0;
  fp_keeps : ∀ a pa, via_table s a → translate (m_mmu s) a = Some pa →
    translate (m_mmu s') a = Some pa ∧ via_table s' a;
  fp_bytes : ∀ x, in_pool s x → (∀ F, F ∈ frames → ¬ region F PG_SIZE x) →
    pbyte (m_mmu s') x = pbyte (m_mmu s) x
}.

(** The bytes of [D] besides the two bitmaps and the byte behind the second. *)
Definition other_byte s x : Prop :=
  ¬ in_bitmap (pool_bitmap (kernel_pool s)) x ∧ ¬ region (bm_bits (heap_bits s)) (bm_length (heap_bits s) + 1) x.

(** The bitmaps afterwards: exactly those pages and frames are taken as well. *)
Definition pages_taken f g s count i (frames : list Z) : Prop :=
  (∀ b, 0 ≤ b < N → bits_of g (heap_bits s) b =
     if decide (i ≤ b < i + count) then true else bits_of f (heap_bits s) b) ∧
  (∀ b, 0 ≤ b < pool_frames s → bits_of g (pool_bitmap (kernel_pool s)) b = true ↔
     bits_of f (pool_bitmap (kernel_pool s)) b = true ∨ frame s b ∈ frames) ∧
  ∀ x, other_byte s x → g x = f x.

(** Marks in the bitmaps leave what the heap's table maps. *)
Lemma changes_via f B s m1 a :
  heap_ok f B s → changes D (m_mmu s) m1 → via_table s a →
  translate m1 a = translate (m_mmu s) a ∧ via_table (set_mmu m1 s) a.
Proof.
  intros Ho (Hr & Hc & _ & Hb). apply via_frame; try done. intros x Hx. apply Hb. intros d Hd Hpd.
  destruct (ho_apart Ho d x Hd Hpd) as (? & ? & _). tauto.
Qed.

(** First the pages are taken, then the frames. *)
Lemma taken_steps f g1 g2 s count i (frames : list Z) :
  heap_layout s → 0 ≤ i → i + count ≤ 8 * bm_length (heap_bits s) + 1 → bits_taken (heap_bits s) i count f g1 →
  (∀ b, 0 ≤ b ≤ 8 * bm_length (heap_bits s) → bits_of g2 (heap_bits s) b = bits_of g1 (heap_bits s) b) →
  (∀ b, 0 ≤ b < pool_frames s → bits_of g2 (pool_bitmap (kernel_pool s)) b = true ↔
     bits_of g1 (pool_bitmap (kernel_pool s)) b = true ∨ frame s b ∈ frames) →
  (∀ x, ¬ in_bitmap (pool_bitmap (kernel_pool s)) x → g2 x = g1 x) →
  pages_taken f g2 s count i frames.
Proof.
  intros Hl Hi Hilen Hbt Hhb Hpb Hoth. destruct (hl_pages s Hl) as [HN _]. pose proof Hbt as [Hb1 Hbo].
  split_and!; intros b Hb.
  - rewrite Hhb by (unfold heap_bits in *; lia). apply Hb1. lia.
  - rewrite Hpb by done. by rewrite (pool_bits_kept f g1 s i count b Hl Hi Hilen Hbt).
  - destruct Hb as [Hbp Hbh]. rewrite Hoth by done. apply Hbo. intros z Hz. unfold region in Hbh. zlia.
Qed.

Lemma malloc_pages_ok f s cv count :
  heap_ok f (bits_of f (heap_bits s)) s → 1 ≤ count < 3840 → room f s count →
  enough f s (Z.to_nat count) →
  wp (malloc_pages KERNEL_POOL cv count)
    (λ r s', ∃ i frames g, fresh_pages f s count i frames r s' ∧ pages_taken f g s count i frames ∧
       heap_ok g (bits_of g (heap_bits s)) s') s.
Proof.
  intros Ho Hcount Hroom Hen. pose proof (ho_layout Ho) as Hl. destruct (hl_pages s Hl) as [HN _].
  unfold malloc_pages. apply wp_bind, wp_assert.
  { rewrite (proj2 (Z.ltb_lt 0 count)), (proj2 (Z.ltb_lt count 3840)) by lia. done. }
  apply wp_bind. eapply wp_mono; [by apply (heap_range_ok f)|].
  intros r s1 (i & m1 & g1 & -> & -> & Hi & HiN & Hilen & Hrun & Hch1 & Hbt & Ho1).
  pose proof Hrun as (_ & _ & Hfree & _).
  destruct (heap_page_facts s i Hl ltac:(lia)) as (Hpg0 & Hpg32 & Hpgal & _).
  assert (Hpos : 0 < heap_page s i) by (pose proof (hl_start s Hl); unfold heap_page, PG_SIZE in *; lia).
  rewrite (proj2 (Z.eqb_neq (heap_page s i) NULL)) by (unfold NULL; lia). set (s1 := set_mmu m1 s) in *.
  pose proof (λ b, pool_bits_kept f g1 s i count b Hl Hi Hilen Hbt) as Hpk.
  apply wp_bind. eapply wp_mono.
  { apply (map_pages_ok (Z.to_nat count) g1 (bits_of f (heap_bits s)) s1 i (heap_page s i) Ho1 Hi);
      [lia|intros x Hx; apply Hfree; lia|by apply (enough_ext f)|by right]. }
  intros ok s2 (-> & frames & g2 & Hlen & [Hm2 Ho2 Hnd Hfr Hpg Hvia Hkeep Hhb Hpb Hoth Hby]). simpl negb. cbv iota.
  change (pool_frames s1) with (pool_frames s) in *. change (kernel_pool s1) with (kernel_pool s) in *.
  change (kernel_vaddr s1) with (kernel_vaddr s) in *. change (frame s1) with (frame s) in *.
  change (heap_page s1) with (heap_page s) in *. fold (heap_bits s) in Hhb.
  assert (Hs2 : s2 = set_mmu (m_mmu s2) s) by (rewrite Hm2; by destruct s).
  assert (Hpage2 : heap_page s2 = heap_page s) by (by rewrite Hs2).
  assert (Hlen' : Z.of_nat (length frames) = count) by lia.
  apply wp_bind. replace (u32 (count * PG_SIZE)) with (Z.of_nat (length frames) * PG_SIZE).
  2: { rewrite Hlen', u32_small; unfold PG_SIZE; lia. }
  rewrite <- Hpage2. eapply wp_mono.
  { apply (clear_pages_ok g2 _ s2 i frames Ho2 Hi); [lia|done| |by rewrite Hpage2].
    intros F HF. destruct (Hfr F HF) as (b & Hb & -> & _). exists b. by rewrite Hs2. }
  intros _ s3 (m3 & -> & Ho3 & Hblock & Hvia3 & Hby3). apply wpp_ret. rewrite Hpage2, Hlen' in Hblock. rewrite Hlen' in Ho3. rewrite Hpage2.
  exists i, frames, g2. split_and!; [split| |].
  - done.
  - done.
  - by rewrite Hs2.
  - done.
  - intros F HF. destruct (Hfr F HF) as (b & Hb & -> & Hfb). exists b. by rewrite <- Hpk.
  - intros k F off Hk Hoff. pose proof (lookup_lt_Some _ _ _ Hk) as Hkl.
    assert (Hin : region (heap_page s i) (count * PG_SIZE) (heap_page s i + Z.of_nat k * PG_SIZE + off)).
    { unfold region, PG_SIZE in *. lia. }
    simpl. rewrite (proj1 (Hblock _ Hin)).
    rewrite <- (Hpg k F off Hk Hoff). f_equal. unfold heap_page. lia.
  - intros a Ha. by apply Hblock.
  - intros a pa Ha Hpa. pose proof (changes_via f _ s m1 a Ho Hch1 Ha) as Hv1. fold s1 in Hv1.
    destruct (Hvia3 a) as [Htr3 Hv3]; [by apply Hvia, Hv1|]. split; [|exact Hv3]. simpl. rewrite Htr3.
    apply Hkeep; [by apply Hv1|]. by rewrite <- Hpa; apply Hv1.
  - intros x Hx HF. simpl m_mmu. rewrite Hby3, Hby by done. by apply (pool_bytes_kept f (bits_of f (heap_bits s)) s).
  - by apply (taken_steps f g1).
  - eapply heap_ok_ext; [exact Ho3|]. intros b Hb. rewrite Hhb by (unfold heap_bits in *; lia).
    by rewrite (proj1 Hbt) by lia.
Qed.
End heap.

Arguments hl_start {_ _ _ _} _.
Arguments hl_pool {_ _ _ _} _.
Arguments hl_apart {_ _ _ _} _.
Arguments ho_layout {_ _ _ _ _ _} _.
Arguments ho_apart {_ _ _ _ _ _} _.
Arguments ho_bits {_ _ _ _ _ _} _.
Arguments ho_rec {_ _ _ _ _ _} _.
Arguments ho_via {_ _ _ _ _ _} _.
Arguments fp_range {_ _ _ _ _ _ _ _ _} _.
Arguments fp_mmu {_ _ _ _ _ _ _ _ _} _.

(** ** Property *)

(** C17 malloc_pages for the kernel: with a free run of pages in the heap's table and
    enough free frames it does not fail.  The pages are the first free run, mapped
    page by page to different frames of the pool that were free, and all zero;
    whatever the table mapped before is mapped as before, and no byte of another frame
    of the pool changes; exactly these pages and frames are taken afterwards, no byte
    the allocator owns outside its two bitmaps changes, and the heap's invariant holds
    again. *)
Theorem malloc_pages_fresh D T N f s cv count :
  heap_ok D T N f (bits_of f (heap_bits s)) s → 1 ≤ count < 3840 → room N f s count →
  enough f s (Z.to_nat count) →
  wp (malloc_pages KERNEL_POOL cv count)
    (λ r s', r ≠ NULL ∧ r mod PG_SIZE = 0 ∧
       ∃ i frames g, fresh_pages T N f s count i frames r s' ∧ pages_taken N f g s count i frames ∧
         heap_ok D T N g (bits_of g (heap_bits s')) s') s.
Proof.
  intros Ho Hc Hroom Hen. eapply wp_mono; [by apply (malloc_pages_ok D T N f)|].
  intros r s' (i & frames & g & Hf & Ht & Ho'). pose proof (ho_layout Ho) as Hl.
  destruct (fp_range Hf) as (Hi & HiN & ->).
  destruct (heap_page_facts D T N s i Hl ltac:(lia)) as (_ & _ & Hal & _).
  destruct (hl_start Hl) as (Hs & _).
  split_and!; [unfold heap_page, NULL, PG_SIZE in *; lia|done|].
  exists i, frames, g. split_and!; [done|done|]. rewrite (fp_mmu Hf) at 1. done.
Qed.

(** *** Witness: nine pages from 0xc0100000 behind the table at 0x2000 *)

Lemma demo_walk_words a :
  demo_region a → pde_paddr demo_mmu a = 0x1c00 ∧ pword demo_mmu 0x1c00 = 0x2007 ∧
    pte_paddr 0x2007 a = 0x2268.
Proof.
  unfold demo_region, region, MEM_BITMAP_BASE. intros Ha.
  split_and!; [|vm_compute; reflexivity|].
  - unfold pde_paddr. change (frame_of (cr3 demo_mmu)) with 0x1000. zlia.
  - unfold pte_paddr. change (frame_of 0x2007) with 0x2000. zlia.
Qed.

Lemma demo_heap_ok :
  heap_ok demo_region 0x2000 9 demo_contents (bits_of demo_contents (heap_bits demo_memst)) demo_memst.
Proof.
  split.
  - split; simpl.
    + vm_compute. by repeat split.
    + split; [lia|]. vm_compute. discriminate.
    + by vm_compute.
    + by vm_compute.
    + unfold in_pool, region. simpl. change (frame_of (cr3 demo_mmu)) with 0x1000.
      unfold pool_frames, dir, PG_SIZE. simpl. change (frame_of 0x1000) with 0x1000. lia.
    + exact demo_bitmap_in.
    + exact demo_vaddr_in.
    + unfold MEM_BITMAP_BASE. intros i j Hi Hj. zlia.
  - exact demo_mmu_recursive.
  - exact demo_memst_holds.
  - by vm_compute.
  - intros a pa Ha Hpa. change (translate demo_mmu a = Some pa) in Hpa.
    rewrite (demo_region_translate a Ha) in Hpa. injection Hpa as <-.
    unfold in_pool, pool_frames, dir, region, demo_region, region, MEM_BITMAP_BASE, PG_SIZE in *. simpl.
    change (frame_of 0x1000) with 0x1000. lia.
  - intros a Ha. destruct (demo_walk_words a Ha) as (Hp & Hw & _).
    split; [unfold demo_region, region, MEM_BITMAP_BASE in Ha; lia|].
    change (dir demo_memst + a / 2 ^ 22 * 4) with (pde_paddr demo_mmu a). rewrite Hp.
    change (m_mmu demo_memst) with demo_mmu. by rewrite Hw.
  - intros a x Ha. change (m_mmu demo_memst) with demo_mmu.
    destruct (demo_walk_words a Ha) as (Hp & Hw & Ht). unfold walk_bytes. rewrite Hp, Hw, Ht.
    change (heap_entry 0x2000 demo_memst 0) with 0x2400. unfold region. lia.
  - intros j Hj _. change (m_mmu demo_memst) with demo_mmu.
    assert (Hall : Forall (λ j, present (pword demo_mmu (heap_entry 0x2000 demo_memst j)) = false) (seqZ 0 9))
      by decided.
    rewrite Forall_forall in Hall. apply Hall, elem_of_seqZ. lia.
Qed.

Lemma demo_bits_free bm i :
  bm = heap_bits demo_memst ∨ bm = demo_pool.(pool_bitmap) → 0 ≤ i < 8 → bits_of demo_contents bm i = false.
Proof.
  intros Hbm Hi.
  assert (Hall : Forall (λ i, bits_of demo_contents (heap_bits demo_memst) i = false ∧
    bits_of demo_contents (pool_bitmap demo_pool) i = false) (seqZ 0 8)) by decided.
  rewrite Forall_forall in Hall. destruct (Hall i) as [H1 H2]; [by apply elem_of_seqZ|].
  by destruct Hbm as [-> | ->].
Qed.

Lemma malloc_pages_fresh_witness :
  wp (malloc_pages KERNEL_POOL demo_vaddr 3)
    (λ r s', r ≠ NULL ∧ r mod PG_SIZE = 0 ∧
       ∃ i frames g, fresh_pages 0x2000 9 demo_contents demo_memst 3 i frames r s' ∧
         pages_taken 9 demo_contents g demo_memst 3 i frames ∧
         heap_ok demo_region 0x2000 9 g (bits_of g (heap_bits s')) s') demo_memst.
Proof.
  apply (malloc_pages_fresh demo_region 0x2000 9 demo_contents demo_memst demo_vaddr 3).
  - exact demo_heap_ok.
  - lia.
  - exists 0. split; [lia|]. split; [lia|]. split; [vm_compute; congruence|].
    intros j Hj. apply demo_bits_free; [by left|lia].
  - exists {[0; 1; 2]}. split; [vm_compute; lia|].
    intros i Hi. split; [vm_compute pool_frames; set_solver by lia|].
    apply demo_bits_free; [by right|set_solver by lia].
Defined.
