(* ===== verification/Loader.v ===== *)
(** * What boot/loader.asm leaves in memory, and the heap mem_pool_init makes of it

    The page tables of setup_page as the processor reads them: the first megabyte at 0
    and at 0xc0000000, the directory in its own last entry.  On them mem_pool_init
    leaves a kernel heap that satisfies the invariant of Malloc.v, with every page
    free. *)

From Stdlib Require Import ZArith Lia.
From stdpp Require Import base tactics gmap strings fin_maps functions list.
From S2P Require Import Prelude ByteMem CString Bitmap Interrupt DList Format Paging Idt Memory Malloc.

(** ** The page tables of setup_page *)

(** The page table of the first megabyte. *)
Definition loader_table : Z := 0x101000.

Record loader_mem (m : mmu) : Prop := {
  lm_cr3 : cr3 m = 0x100000;
  lm_ram : 0x200000 ≤ ram m ≤ 2 ^ 32;
  lm_user : pword m 0x100000 = 0x101007;
  lm_kernel : pword m (0x100000 + 768 * 4) = 0x101007;
  lm_self : pword m (0x100000 + 1023 * 4) = 0x100007;
  lm_pages : ∀ i, 0 ≤ i < 256 → pword m (loader_table + i * 4) = i * PG_SIZE + 7;
  lm_rest : ∀ i, 256 ≤ i < 1024 → present (pword m (loader_table + i * 4)) = false
}.

(** The addresses it maps below the heap, and where. *)
Definition first_mb (a : Z) : Prop := 0 ≤ a < 0x100000 ∨ 0xc0000000 ≤ a < 0xc0100000.

Definition phys (a : Z) : Z := a mod 0xc0000000.

Section loader.
Implicit Types (m : mmu) (a x : Z).

Lemma phys_first_mb a : first_mb a → 0 ≤ phys a < 0x100000 ∧ phys a mod PG_SIZE = a mod PG_SIZE.
Proof. unfold first_mb, phys, PG_SIZE. intros Ha. zlia. Qed.

Lemma loader_frame m : loader_mem m → frame_of (cr3 m) = 0x100000.
Proof. intros Hm. by rewrite (lm_cr3 _ Hm). Qed.

Lemma loader_walk m a :
  loader_mem m → first_mb a → walks m a 0x101007 (phys a / PG_SIZE * PG_SIZE + 7).
Proof.
  intros Hm Ha. pose proof (lm_ram _ Hm). destruct (phys_first_mb a Ha) as [Hp _].
  assert (Hd : pword m (pde_paddr m a) = 0x101007 ∧ 0x100000 ≤ pde_paddr m a < 0x100c04).
  { unfold pde_paddr. rewrite (loader_frame m Hm). destruct Ha.
    - replace (a / 2 ^ 22) with 0 by zlia. split; [apply Hm|lia].
    - replace (a / 2 ^ 22) with 768 by zlia. split; [apply Hm|lia]. }
  assert (Hi : (a / 2 ^ 12) mod 2 ^ 10 = phys a / PG_SIZE ∧ phys a / PG_SIZE < 256).
  { unfold first_mb, phys, PG_SIZE in *. zlia. }
  split.
  - unfold first_mb in Ha. lia.
  - apply in_ram_true. lia.
  - apply Hd.
  - done.
  - unfold pte_paddr. change (frame_of 0x101007) with loader_table. rewrite (proj1 Hi). apply in_ram_true.
    unfold loader_table, PG_SIZE in *. zlia.
  - unfold pte_paddr. change (frame_of 0x101007) with loader_table. rewrite (proj1 Hi).
    apply (lm_pages _ Hm). unfold PG_SIZE in *. zlia.
  - unfold present. replace (_ * PG_SIZE + 7) with (1 + 2 * (phys a / PG_SIZE * 2048 + 3)) by (unfold PG_SIZE; lia).
    by rewrite Z.odd_add_mul_2.
Qed.

Lemma loader_translate m a : loader_mem m → first_mb a → translate m a = Some (phys a).
Proof.
  intros Hm Ha. rewrite (walks_translate _ _ _ _ (loader_walk m a Hm Ha)). f_equal.
  destruct (phys_first_mb a Ha) as [_ Hmod]. rewrite <- Hmod. unfold frame_of, PG_SIZE. zlia.
Qed.

(** The walk of such an address stays in the directory and the first quarter of the
    table. *)
Lemma loader_walk_bytes m a x :
  loader_mem m → first_mb a → walk_bytes m a x → region 0x100000 PG_SIZE x ∨ region loader_table 0x400 x.
Proof.
  intros Hm Ha Hx. pose proof (loader_walk m a Hm Ha) as Hw. unfold walk_bytes in Hx.
  rewrite (walk_pde _ _ _ _ Hw) in Hx. unfold pde_paddr in Hx. rewrite (loader_frame m Hm) in Hx.
  unfold pte_paddr in Hx. change (frame_of 0x101007) with loader_table in Hx.
  unfold first_mb, region, loader_table, PG_SIZE in *. zlia.
Qed.

Lemma loader_recursive m : loader_mem m → recursive m.
Proof.
  intros Hm. pose proof (lm_ram _ Hm). split; rewrite (loader_frame m Hm).
  - apply in_ram_true. unfold PG_SIZE. lia.
  - by rewrite (lm_self _ Hm).
  - by rewrite (lm_self _ Hm).
Qed.

(** It depends on the two pages only. *)
Lemma loader_mem_frame m m' :
  loader_mem m → ram m' = ram m → cr3 m' = cr3 m →
  (∀ x, 0x100000 ≤ x < 0x102000 → pbyte m' x = pbyte m x) → loader_mem m'.
Proof.
  intros [] Hram Hcr Heq.
  assert (Hw : ∀ x, 0x100000 ≤ x → x + 4 ≤ 0x102000 → pword m' x = pword m x).
  { intros x H0 H1. apply pword_ext. intros y Hy. apply Heq. unfold region in Hy. lia. }
  split; rewrite ?Hram, ?Hcr, ?Hw by lia; try done.
  - intros i Hi. rewrite Hw by (unfold loader_table; lia). auto.
  - intros i Hi. rewrite Hw by (unfold loader_table; lia). auto.
Qed.

(** Parts of the first megabyte as memory of one's own. *)
Section owned.
Context (D : Z → Prop) (HD : ∀ a, D a → first_mb a) (Hinj : ∀ a b, D a → D b → phys a = phys b → a = b).

Lemma loader_holds m : loader_mem m → holds m D (λ a, pbyte m (phys a)).
Proof using HD Hinj.
  intros Hm. pose proof (lm_ram _ Hm). split; [split_and!|].
  - intros a Ha. exists (phys a). split; [apply loader_translate; auto|].
    apply in_ram_true. destruct (phys_first_mb a); [auto|lia].
  - intros a b Ha Hb. rewrite !loader_translate by auto. intros [= Heq]. auto.
  - intros a b pa Ha Hb. rewrite loader_translate by auto. intros [= <-] Hw.
    apply loader_walk_bytes in Hw; [|done|auto]. destruct (phys_first_mb a) as [? _]; [auto|].
    unfold region, loader_table in Hw. lia.
  - intros a Ha. cbn [mload mmu_bytemem]. unfold vload8. rewrite loader_translate by auto. cbn.
    assert (Hr : in_ram m (phys a) 1 = true).
    { apply in_ram_true. destruct (phys_first_mb a); [auto|lia]. }
    by rewrite Hr.
Qed.

Lemma loader_mem_changes m m' : loader_mem m → changes D m m' → loader_mem m'.
Proof using HD.
  intros Hm (Hram & Hcr & _ & Hby). apply (loader_mem_frame m); try done.
  intros x Hx. apply Hby. intros a Ha. rewrite loader_translate by auto. intros [= <-].
  destruct (phys_first_mb a); [auto|lia].
Qed.
End owned.
End loader.

(** ** The heap after mem_pool_init *)

(** The bitmaps with the byte behind them, and the seven descriptors at [base]. *)
Definition boot_region (base n x : Z) : Prop := region MEM_BITMAP_BASE n x ∨ region base 0x38 x.

(** How many bytes the bitmaps of the two pools have, and all three bitmaps. *)
Definition pool_bytes (all_mem : Z) : Z := free_pages all_mem / 2 / 8.

Definition user_bytes (all_mem : Z) : Z := (free_pages all_mem - free_pages all_mem / 2) / 8.

Definition bitmap_bytes (all_mem : Z) : Z := pool_bytes all_mem + user_bytes all_mem + pool_bytes all_mem.

(** The pages of the heap behind the loader's table. *)
Definition heap_pages (all_mem : Z) : Z := Z.min 768 (8 * pool_bytes all_mem).

(** The pools as mem_pool_init leaves them. *)
Record pools_set (all_mem : Z) (s : memst) : Prop := {
  ps_kernel : kernel_pool s =
    Pool (Bitmap (pool_bytes all_mem) MEM_BITMAP_BASE) 0x200000 (free_pages all_mem / 2 * PG_SIZE);
  ps_user : user_pool s =
    Pool (Bitmap (user_bytes all_mem) (MEM_BITMAP_BASE + pool_bytes all_mem))
      (0x200000 + free_pages all_mem / 2 * PG_SIZE) ((free_pages all_mem - free_pages all_mem / 2) * PG_SIZE);
  ps_vaddr : kernel_vaddr s =
    VirtualAddr (Bitmap (pool_bytes all_mem) (MEM_BITMAP_BASE + bitmap_bytes all_mem - pool_bytes all_mem)) K_HEAP_START
}.

Arguments ps_vaddr {_ _} _.
Arguments ps_kernel {_ _} _.
Arguments ps_user {_ _} _.

(** No page and no frame is in use. *)
Definition bits_free (all_mem : Z) (s : memst) : Prop :=
  let f := λ a, pbyte (m_mmu s) (phys a) in
  (∀ i, 0 ≤ i < 8 * pool_bytes all_mem →
     bits_of f (heap_bits s) i = false ∧ bits_of f (pool_bitmap (kernel_pool s)) i = false) ∧
  ∀ i, 0 ≤ i < 8 * user_bytes all_mem → bits_of f (pool_bitmap (user_pool s)) i = false.

Lemma bitmap_bytes_range all_mem :
  0 ≤ pool_bytes all_mem < 4096 ∧ pool_bytes all_mem ≤ user_bytes all_mem < 0x1fff ∧
  2 * pool_bytes all_mem ≤ bitmap_bytes all_mem < 0x3fff.
Proof.
  unfold bitmap_bytes, user_bytes, pool_bytes. pose proof (free_pages_range all_mem). zlia.
Qed.

Section heap.
Context (base all_mem : Z).
Context (Hbase : 0 ≤ base) (Hbase' : base + 0x38 ≤ 0x9a000).
Let D : Z → Prop := boot_region base (bitmap_bytes all_mem + 1).

Lemma boot_region_mb a : D a → first_mb a.
Proof using Hbase Hbase'.
  pose proof (bitmap_bytes_range all_mem). unfold D, boot_region, first_mb, region, MEM_BITMAP_BASE. lia.
Qed.

Lemma boot_region_inj a b : D a → D b → phys a = phys b → a = b.
Proof using Hbase Hbase'.
  pose proof (bitmap_bytes_range all_mem). unfold D, boot_region, region, phys, MEM_BITMAP_BASE. intros. zlia.
Qed.

Lemma loader_heap_ok s B :
  loader_mem (m_mmu s) → pools_set all_mem s → 0x200000 ≤ all_mem ≤ ram (m_mmu s) → all_mem < 2 ^ 32 →
  heap_ok D loader_table (heap_pages all_mem) (λ a, pbyte (m_mmu s) (phys a)) B s.
Proof using Hbase Hbase'.
  intros Hm [Hkp _ Hkv] Hall H32. pose proof (bitmap_bytes_range all_mem) as Hbb. pose proof (lm_ram _ Hm) as Hram.
  assert (Hdir : dir s = 0x100000) by apply (loader_frame _ Hm).
  assert (Hst : heap_start s = K_HEAP_START) by (unfold heap_start; by rewrite Hkv).
  assert (H12 : (heap_start s / 2 ^ 12) mod 2 ^ 10 = 256) by (by rewrite Hst).
  assert (Hpf : pool_frames s = 8 * pool_bytes all_mem) by (unfold pool_frames; by rewrite Hkp).
  assert (Hpool : 0x200000 + 8 * pool_bytes all_mem * PG_SIZE ≤ all_mem).
  { unfold pool_bytes, free_pages, u16, PG_SIZE. rewrite u32_small by lia. zlia. }
  assert (Hpb : ∀ a, D a → 0 ≤ phys a < 0x100000).
  { intros a Ha. by apply phys_first_mb, boot_region_mb. }
  split.
  - split; rewrite ?H12, ?Hst, ?Hpf, ?Hkp, ?Hkv; simpl; unfold K_HEAP_START, heap_pages, loader_table, PG_SIZE in *.
    + split_and!; try done; lia.
    + lia.
    + split_and!; [done|by rewrite Hdir|]. apply in_ram_true. lia.
    + split_and!; try done; lia.
    + intros x. unfold in_pool. rewrite Hkp, Hpf, Hdir. simpl. unfold region. lia.
    + split; simpl; [lia|]. unfold D, boot_region, region. intros x Hx. left. lia.
    + split; simpl; [lia|]. unfold D, boot_region, region. intros x Hx. left. lia.
    + intros i j Hi Hj. zlia.
  - by apply loader_recursive.
  - apply loader_holds; [exact boot_region_mb|exact boot_region_inj|done].
  - rewrite Hdir, Hst. change (K_HEAP_START / 2 ^ 22 * 4) with (768 * 4). by rewrite (lm_kernel _ Hm).
  - intros a pa Ha. rewrite (loader_translate _ _ Hm (boot_region_mb a Ha)). intros [= <-].
    pose proof (Hpb a Ha). unfold in_pool. rewrite Hdir, Hkp, Hpf. simpl.
    unfold region, loader_table, PG_SIZE. lia.
  - intros a Ha. pose proof (loader_walk _ a Hm (boot_region_mb a Ha)) as Hw.
    split; [apply Hw|]. pose proof (walk_pde _ _ _ _ Hw) as Hp. unfold pde_paddr in Hp.
    change (frame_of (cr3 (m_mmu s))) with (dir s) in Hp. by rewrite Hp.
  - intros a x Ha Hw. apply (loader_walk_bytes _ a x Hm (boot_region_mb a Ha)) in Hw.
    unfold heap_entry. rewrite H12.
    unfold region, loader_table, heap_pages, PG_SIZE in *. lia.
  - intros j Hj _. unfold heap_entry. rewrite H12.
    apply (lm_rest _ Hm). unfold heap_pages in Hj. lia.
Qed.
End heap.

Section init.
Context `{FpEval}.

(** Two descriptions of the same bytes agree. *)
Lemma holds_agree (m : mmu) (D D' : Z → Prop) f g a : holds m D f → holds m D' g → D a → D' a → f a = g a.
Proof. intros [_ Hf] [_ Hg] Ha Ha'. specialize (Hf a Ha). specialize (Hg a Ha'). congruence. Qed.

Lemma mem_pool_init_heap s all_mem :
  loader_mem (m_mmu s) →
  wp (mem_pool_init all_mem)
    (λ _ s', loader_mem (m_mmu s') ∧ ram (m_mmu s') = ram (m_mmu s) ∧ pools_set all_mem s' ∧ bits_free all_mem s' ∧
       ∀ x, ¬ region 0x9a000 (bitmap_bytes all_mem) x → pbyte (m_mmu s') x = pbyte (m_mmu s) x) s.
Proof.
  intros Hm. pose proof (bitmap_bytes_range all_mem) as Hbb.
  set (D := region MEM_BITMAP_BASE (bitmap_bytes all_mem)).
  assert (HD : ∀ a, D a → first_mb a).
  { unfold D, first_mb, region, MEM_BITMAP_BASE. intros a Ha. lia. }
  assert (Hinj : ∀ a b, D a → D b → phys a = phys b → a = b).
  { unfold D, region, phys, MEM_BITMAP_BASE. intros. zlia. }
  eapply wp_mono; [exact (mem_pool_init_ok s _ all_mem (loader_holds D HD Hinj _ Hm))|].
  intros _ s' (Hkp & Hup & Hkv & g & Hch & Hg & Hz). cbv zeta. fold D in Hch, Hg.
  pose proof (loader_mem_changes D HD _ _ Hm Hch) as Hm'. pose proof (loader_holds D HD Hinj _ Hm') as Hf.
  assert (Hps : pools_set all_mem s').
  { split; [exact Hkp|exact Hup|]. rewrite Hkv. fold (pool_bytes all_mem) (user_bytes all_mem). do 2 f_equal.
    unfold bitmap_bytes. lia. }
  fold (pool_bytes all_mem) (user_bytes all_mem) in Hz.
  assert (Hbit : ∀ n bits i, MEM_BITMAP_BASE ≤ bits → bits + n ≤ MEM_BITMAP_BASE + bitmap_bytes all_mem →
    0 ≤ i < 8 * n → bits_of g (Bitmap n bits) i = false →
    bits_of (λ a, pbyte (m_mmu s') (phys a)) (Bitmap n bits) i = false).
  { intros n bits i H0 H1 Hi <-. unfold bits_of, bm_bit. simpl. f_equal.
    assert (Ha : D (bits + i / 8)) by (unfold D, region; zlia).
    by rewrite (holds_agree _ _ _ _ _ _ Hg Hf Ha Ha). }
  split_and!; [done|apply Hch|done|split|].
  - intros i Hi. unfold heap_bits. rewrite (ps_vaddr Hps), (ps_kernel Hps). simpl.
    split; apply Hbit; try lia; apply Hz; simpl; try lia; [|set_solver].
    rewrite !elem_of_cons. right. right. left. unfold bitmap_bytes. f_equal. lia.
  - intros i Hi. rewrite (ps_user Hps). simpl. apply Hbit; [lia|unfold bitmap_bytes; lia|done|].
    apply Hz; [|done]. rewrite !elem_of_cons. tauto.
  - intros x Hx. destruct Hch as (_ & _ & _ & Hby). apply Hby. intros a Ha. change (D a) in Ha.
    rewrite (loader_translate _ _ Hm (HD a Ha)). intros [= <-]. apply Hx. unfold D, region, phys, MEM_BITMAP_BASE in *.
    zlia.
Qed.
End init.
