(* ===== verification/Kernel.v ===== *)
(** * The state of the kernel

    One record with everything the C globals, the PCBs and the machine hold, the
    lenses through which the components work on their part of it, and the accesses
    to PCBs and locks.  PCBs, locks and queues are kept as typed objects by
    address; their list nodes live in the node store of DList.v at the offsets the
    structs give them; everything else is bytes behind the page tables. *)

From Stdlib Require Import ZArith Lia.
From stdpp Require Import base tactics gmap strings fin_maps functions list.
From S2P Require Import Prelude ByteMem CString Bitmap Interrupt DList Format Paging Idt Memory.

(** ** include/thread.h *)

Inductive task_status :=
  TASK_RUNNING | TASK_READY | TASK_BLOCKED | TASK_WAITING | TASK_HANGING | TASK_DIED.

#[global] Instance task_status_eq_dec : EqDecision task_status.
Proof. solve_decision. Defined.

(** [struct task_struct] without its two list nodes *)
Record task_struct := Task {
  self_kstack : Z;
  status : task_status;
  name : list Z;
  priority : Z;
  ticks : Z;
  pgdir : Z;
  userprog_vaddr : virtual_addr;
  stack_magic : Z
}.

Definition with_kstack (v : Z) (t : task_struct) : task_struct :=
  Task v (status t) (name t) (priority t) (ticks t) (pgdir t) (userprog_vaddr t) (stack_magic t).
Definition with_status (v : task_status) (t : task_struct) : task_struct :=
  Task (self_kstack t) v (name t) (priority t) (ticks t) (pgdir t) (userprog_vaddr t) (stack_magic t).
Definition with_ticks (v : Z) (t : task_struct) : task_struct :=
  Task (self_kstack t) (status t) (name t) (priority t) v (pgdir t) (userprog_vaddr t) (stack_magic t).
Definition with_pgdir (v : Z) (t : task_struct) : task_struct :=
  Task (self_kstack t) (status t) (name t) (priority t) (ticks t) v (userprog_vaddr t) (stack_magic t).
Definition with_uvaddr (v : virtual_addr) (t : task_struct) : task_struct :=
  Task (self_kstack t) (status t) (name t) (priority t) (ticks t) (pgdir t) v (stack_magic t).

(** The value init_thread writes behind the PCB. *)
Definition magic : Z := 0x19870916.

(** The nodes inside a PCB, and [elem2entry(struct task_struct, general_tag, e)]. *)
Definition general_tag (t : Z) : Z := t + 28.
Definition all_list_tag (t : Z) : Z := t + 36.
Definition entry_of_tag (e : Z) : Z := e - 28.

(** ** include/sync.h, include/ioqueue.h *)

(** [struct lock] with its semaphore's counter; the list of waiters is at the
    address of the lock plus 8. *)
Record lock := Lock { holder : Z; value : Z; holder_repeat_nr : Z }.

Definition waiters (plock : Z) : Z := plock + 8.

Definition bufsize : Z := 64.

(** [struct ioqueue]; its lock is at its own address. *)
Record ioqueue := IoQueue {
  producer : Z;
  consumer : Z;
  buf : list Z;
  head : Z;
  tail : Z
}.

(** The static flags of kernel/keyboard.c *)
Record keys := Keys {
  ctrl_status : bool;
  shift_status : bool;
  alt_status : bool;
  caps_lock_status : bool;
  ext_scancode : bool
}.

(** ** The state *)

Record kernel := Kernel {
  k_intr : istate;
  k_nodes : gmap Z list_elem;
  k_tasks : gmap Z task_struct;
  k_locks : gmap Z lock;
  k_queues : gmap Z ioqueue;
  k_keys : keys;
  k_mmu : mmu;
  k_kernel_pool : pool;
  k_user_pool : pool;
  k_kernel_vaddr : virtual_addr;
  k_main_thread : Z;
  k_cur : Z;
  k_tss : list Z;
  k_gdtr : Z;
  k_tr : Z
}.

(** The addresses the linker gives the globals and functions the code names. *)
Class Layout := {
  thread_ready_list : Z;
  thread_all_list : Z;
  kernel_pool_lock : Z;
  user_pool_lock : Z;
  console_lock : Z;
  kbd_buf : Z;
  tss_addr : Z;
  idt_addr : Z;
  kernel_thread : Z;
  start_process_addr : Z;
  default_handler_addr : Z;
  clock_handler_addr : Z;
  keyboard_handler_addr : Z;
  entry_stubs : list Z
}.

(** What the world does while a thread is switched out: [others t] runs from the
    moment [t] has left the CPU in switch_to until some thread switches back to
    it.  [esp_at t] is the stack pointer switch_to saves for [t]; [wait_fuel] bounds
    how often a thread that waits for a lock may be woken only to find it taken
    again. *)
Class Env := {
  others : Z → prog kernel unit;
  esp_at : Z → Z;
  wait_fuel : nat
}.

(** ** Lenses *)

Definition set_intr (i : istate) (k : kernel) : kernel :=
  Kernel i (k_nodes k) (k_tasks k) (k_locks k) (k_queues k) (k_keys k) (k_mmu k) (k_kernel_pool k)
    (k_user_pool k) (k_kernel_vaddr k) (k_main_thread k) (k_cur k) (k_tss k) (k_gdtr k) (k_tr k).
Definition set_nodes (n : gmap Z list_elem) (k : kernel) : kernel :=
  Kernel (k_intr k) n (k_tasks k) (k_locks k) (k_queues k) (k_keys k) (k_mmu k) (k_kernel_pool k)
    (k_user_pool k) (k_kernel_vaddr k) (k_main_thread k) (k_cur k) (k_tss k) (k_gdtr k) (k_tr k).
Definition set_tasks (t : gmap Z task_struct) (k : kernel) : kernel :=
  Kernel (k_intr k) (k_nodes k) t (k_locks k) (k_queues k) (k_keys k) (k_mmu k) (k_kernel_pool k)
    (k_user_pool k) (k_kernel_vaddr k) (k_main_thread k) (k_cur k) (k_tss k) (k_gdtr k) (k_tr k).
Definition set_locks (l : gmap Z lock) (k : kernel) : kernel :=
  Kernel (k_intr k) (k_nodes k) (k_tasks k) l (k_queues k) (k_keys k) (k_mmu k) (k_kernel_pool k)
    (k_user_pool k) (k_kernel_vaddr k) (k_main_thread k) (k_cur k) (k_tss k) (k_gdtr k) (k_tr k).
Definition set_queues (q : gmap Z ioqueue) (k : kernel) : kernel :=
  Kernel (k_intr k) (k_nodes k) (k_tasks k) (k_locks k) q (k_keys k) (k_mmu k) (k_kernel_pool k)
    (k_user_pool k) (k_kernel_vaddr k) (k_main_thread k) (k_cur k) (k_tss k) (k_gdtr k) (k_tr k).
Definition set_keys (s : keys) (k : kernel) : kernel :=
  Kernel (k_intr k) (k_nodes k) (k_tasks k) (k_locks k) (k_queues k) s (k_mmu k) (k_kernel_pool k)
    (k_user_pool k) (k_kernel_vaddr k) (k_main_thread k) (k_cur k) (k_tss k) (k_gdtr k) (k_tr k).
Definition set_main (m : Z) (k : kernel) : kernel :=
  Kernel (k_intr k) (k_nodes k) (k_tasks k) (k_locks k) (k_queues k) (k_keys k) (k_mmu k)
    (k_kernel_pool k) (k_user_pool k) (k_kernel_vaddr k) m (k_cur k) (k_tss k) (k_gdtr k) (k_tr k).
Definition set_cur (c : Z) (k : kernel) : kernel :=
  Kernel (k_intr k) (k_nodes k) (k_tasks k) (k_locks k) (k_queues k) (k_keys k) (k_mmu k)
    (k_kernel_pool k) (k_user_pool k) (k_kernel_vaddr k) (k_main_thread k) c (k_tss k) (k_gdtr k) (k_tr k).
Definition set_tss (t : list Z) (k : kernel) : kernel :=
  Kernel (k_intr k) (k_nodes k) (k_tasks k) (k_locks k) (k_queues k) (k_keys k) (k_mmu k)
    (k_kernel_pool k) (k_user_pool k) (k_kernel_vaddr k) (k_main_thread k) (k_cur k) t (k_gdtr k) (k_tr k).
Definition set_gdtr (g tr : Z) (k : kernel) : kernel :=
  Kernel (k_intr k) (k_nodes k) (k_tasks k) (k_locks k) (k_queues k) (k_keys k) (k_mmu k)
    (k_kernel_pool k) (k_user_pool k) (k_kernel_vaddr k) (k_main_thread k) (k_cur k) (k_tss k) g tr.

Definition l_intr : lens kernel istate.
Proof. refine (Lens k_intr set_intr _ _ _); abstract by intros; destruct k. Defined.

(** The state of list.c: the interrupt flag and the nodes. *)
Definition get_core (k : kernel) : core := Core (i_if (k_intr k)) (k_nodes k).
Definition put_core (c : core) (k : kernel) : kernel :=
  set_nodes (c_nodes c) (set_intr (with_if (c_if c) (k_intr k)) k).

Definition l_core : lens kernel core.
Proof.
  refine (Lens get_core put_core _ _ _); abstract (intros; destruct k as [[]]; by repeat destruct s).
Defined.

(** The state of memory.c. *)
Definition get_memst (k : kernel) : memst :=
  MemSt (k_mmu k) (k_kernel_pool k) (k_user_pool k) (k_kernel_vaddr k) (i_con (k_intr k)).
Definition put_memst (s : memst) (k : kernel) : kernel :=
  Kernel (with_con (m_con s) (k_intr k)) (k_nodes k) (k_tasks k) (k_locks k) (k_queues k) (k_keys k)
    (m_mmu s) (kernel_pool s) (user_pool s) (kernel_vaddr s) (k_main_thread k) (k_cur k) (k_tss k)
    (k_gdtr k) (k_tr k).

Definition l_memst : lens kernel memst.
Proof.
  refine (Lens get_memst put_memst _ _ _); abstract (intros; destruct k as [[]]; by repeat destruct s).
Defined.

Definition l_kmmu : lens kernel mmu.
Proof.
  refine (Lens k_mmu (λ m k, put_memst (lput l_mmu m (get_memst k)) k) _ _ _);
    abstract (intros; destruct k as [[]]; done).
Defined.

(** ** Accesses *)

Definition load_task (t : Z) : prog kernel task_struct := λ k,
  match k_tasks k !! t with Some x => Ok x k | None => Fault t k end.

Definition update_task (t : Z) (f : task_struct → task_struct) : prog kernel unit :=
  x ← load_task t; modify (λ k, set_tasks (<[t := f x]> (k_tasks k)) k).

Definition load_lock (l : Z) : prog kernel lock := λ k,
  match k_locks k !! l with Some x => Ok x k | None => Fault l k end.

Definition update_lock (l : Z) (f : lock → lock) : prog kernel unit :=
  x ← load_lock l; modify (λ k, set_locks (<[l := f x]> (k_locks k)) k).

Definition load_queue (q : Z) : prog kernel ioqueue := λ k,
  match k_queues k !! q with Some x => Ok x k | None => Fault q k end.

Definition update_queue (q : Z) (f : ioqueue → ioqueue) : prog kernel unit :=
  x ← load_queue q; modify (λ k, set_queues (<[q := f x]> (k_queues k)) k).

(** [running_thread()]: the page the stack pointer is in. *)
Definition running_thread : prog kernel Z := gets k_cur.

(** ** Printing *)

(** The descriptor print_char (prints.asm) loads into GS for every character: the
    fourth of the descriptor table.  The load reads it through the page tables. *)
Definition video_descriptor (k : kernel) : Z := k_gdtr k / 2 ^ 16 + 0x18.

Definition gdt_mapped (k : kernel) : bool :=
  bool_decide (is_Some (translate (k_mmu k) (video_descriptor k))).

(** The last thing printed was the empty string. *)
Definition printed_nothing (con : list conop) : bool :=
  match last con with Some (CStr []) => true | _ => false end.

Section output.
Context `{FpEval}.

(** printf(): with the descriptor table unmapped, the first character faults. *)
Definition kprint (fmt : string) (args : list arg) : prog kernel unit := λ k,
  match zoom l_intr (zoom l_i_con (kprintf fmt args)) k with
  | Ok _ k' =>
      if gdt_mapped k || printed_nothing (i_con (k_intr k'))
      then Ok tt k' else Fault (video_descriptor k) k
  | r => r
  end.
End output.

Definition k_intr_disable : prog kernel intr_status := zoom l_intr (zoom l_i_if Flag.intr_disable).
Definition k_intr_enable : prog kernel intr_status := zoom l_intr (zoom l_i_if Flag.intr_enable).
Definition k_intr_set_status (s : intr_status) : prog kernel intr_status :=
  zoom l_intr (zoom l_i_if (Flag.intr_set_status s)).
Definition k_intr_get_status : prog kernel intr_status :=
  zoom l_intr (zoom l_i_if Flag.intr_get_status).

(** ** How the accesses compute *)

Lemma load_task_ok t x k : k_tasks k !! t = Some x → load_task t k = Ok x k.
Proof. intros Hx. unfold load_task. by rewrite Hx. Qed.

Lemma update_task_ok t x f k :
  k_tasks k !! t = Some x → update_task t f k = Ok tt (set_tasks (<[t := f x]> (k_tasks k)) k).
Proof. intros Hx. unfold update_task. by rewrite (bind_Ok _ _ _ _ _ (load_task_ok _ _ _ Hx)). Qed.

Lemma load_lock_ok l x k : k_locks k !! l = Some x → load_lock l k = Ok x k.
Proof. intros Hx. unfold load_lock. by rewrite Hx. Qed.

Lemma update_lock_ok l x f k :
  k_locks k !! l = Some x → update_lock l f k = Ok tt (set_locks (<[l := f x]> (k_locks k)) k).
Proof. intros Hx. unfold update_lock. by rewrite (bind_Ok _ _ _ _ _ (load_lock_ok _ _ _ Hx)). Qed.

Lemma load_queue_ok q x k : k_queues k !! q = Some x → load_queue q k = Ok x k.
Proof. intros Hx. unfold load_queue. by rewrite Hx. Qed.

Lemma update_queue_ok q x f k :
  k_queues k !! q = Some x → update_queue q f k = Ok tt (set_queues (<[q := f x]> (k_queues k)) k).
Proof. intros Hx. unfold update_queue. by rewrite (bind_Ok _ _ _ _ _ (load_queue_ok _ _ _ Hx)). Qed.

Section print_lemmas.
Context `{FpEval}.

Definition add_output (c : list conop) (k : kernel) : kernel :=
  set_intr (with_con (i_con (k_intr k) ++ c) (k_intr k)) k.

Lemma kprint_ok fmt args k n out rest stores :
  sprintf fp_prec fp_emax (chars fmt) args = Ok n (FState out rest stores) →
  gdt_mapped k = true →
  kprint fmt args k = Ok tt (add_output [CStr (until_nul out)] k).
Proof.
  intros Hs Hg. unfold kprint.
  erewrite zoom_Ok by (apply zoom_Ok, (kprintf_ok _ _ _ _ _ Hs)). by rewrite Hg.
Qed.

(** Text, and text with one hexadecimal number in it. *)
Lemma kprint_lit fmt k :
  no_percent (chars fmt) = true → Z.of_nat (length (chars fmt)) < 1024 → gdt_mapped k = true →
  ∃ c, kprint fmt [] k = Ok tt (add_output c k).
Proof.
  intros Hlit%no_percent_lit Hlen Hg. eexists. eapply kprint_ok; [|exact Hg].
  eapply formats_sprintf; [|exact Hlen].
  rewrite <- (app_nil_r (chars fmt)) at 1. by apply formats_lit, formats_nil.
Qed.

Lemma kprint_x fmt lit1 lit2 a k :
  chars fmt = lit1 ++ 37 :: 120 :: lit2 → no_percent lit1 = true → no_percent lit2 = true →
  Z.of_nat (length (lit1 ++ lit2)) < 900 → gdt_mapped k = true →
  ∃ c, kprint fmt [AInt a] k = Ok tt (add_output c k).
Proof.
  intros Hfmt H1%no_percent_lit H2%no_percent_lit Hlen Hg. eexists. eapply kprint_ok; [|exact Hg].
  eapply formats_sprintf.
  - rewrite Hfmt. apply formats_lit, formats_x; [done|].
    rewrite <- (app_nil_r lit2) at 1. by apply formats_lit, formats_nil.
  - rewrite !length_app in *. simpl. pose proof (int_text_length 16 SMALL a). lia.
Qed.

(** With the descriptor table unmapped every text faults. *)
Lemma kprint_unmapped fmt k :
  no_percent (chars fmt) = true → 0 < Z.of_nat (length (chars fmt)) < 1024 →
  Forall (λ c, c ≠ 0) (chars fmt) → gdt_mapped k = false →
  kprint fmt [] k = Fault (video_descriptor k) k.
Proof.
  intros Hlit%no_percent_lit Hlen Hnz Hg. unfold kprint.
  assert (Hs : sprintf fp_prec fp_emax (chars fmt) [] =
               Ok (Z.of_nat (length (chars fmt))) (FState (chars fmt) [] [])).
  { apply formats_sprintf; [|lia]. rewrite <- (app_nil_r (chars fmt)) at 1.
    by apply formats_lit, formats_nil. }
  erewrite zoom_Ok by (apply zoom_Ok, (kprintf_ok _ _ _ _ _ Hs)). rewrite Hg. simpl.
  rewrite (until_nul_id _ Hnz). unfold printed_nothing. simpl. rewrite last_snoc.
  destruct (chars fmt); [simpl in Hlen; lia|done].
Qed.
End print_lemmas.

(** *** A concrete kernel for the witnesses: the thread at 0x20000 runs, the one at
    0x21000 is ready, the one at 0x22000 is blocked *)

Definition demo_layout : Layout := {|
  thread_ready_list := 0x10000; thread_all_list := 0x10020;
  kernel_pool_lock := 0x11000; user_pool_lock := 0x11040; console_lock := 0x11080;
  kbd_buf := 0x12000; tss_addr := 0x13000; idt_addr := 0x14000;
  kernel_thread := 0x15000; start_process_addr := 0x15100; default_handler_addr := 0x15200;
  clock_handler_addr := 0x15300; keyboard_handler_addr := 0x15400; entry_stubs := demo_stubs |}.

(** Nothing happens while a thread is switched out. *)
Definition demo_env : Env :=
  {| others := λ _, mret tt; esp_at := λ t, u32 (t + 4000); wait_fuel := 4 |}.

Definition demo_task (st : task_status) : task_struct :=
  Task 0 st (replicate 16 0) 31 31 NULL (VirtualAddr (Bitmap 0 0) 0) magic.

(** An empty list at [l], as list_init leaves it. *)
Definition empty_list (l : Z) : list (Z * list_elem) :=
  [(l, ListElem NULL (l + 8)); (l + 8, ListElem l NULL)].

Definition demo_nodes : gmap Z list_elem := list_to_map (
  [(0x10000, ListElem NULL 0x2101c); (0x2101c, ListElem 0x10000 0x10008);
   (0x10008, ListElem 0x2101c NULL)] ++
  empty_list 0x10020 ++ empty_list 0x11008 ++ empty_list 0x11048 ++ empty_list 0x11088 ++
  empty_list 0x12008 ++
  [(0x2001c, ListElem 0 0); (0x2201c, ListElem 0 0)]).

Definition demo_kernel : kernel := {|
  k_intr := IState false (set_names (replicate (Z.to_nat interrupt_num) None))
              (replicate (Z.to_nat interrupt_num) 0x15200)
              (replicate (Z.to_nat interrupt_num) (InterruptDescriptor 0 0 0 0 0)) 0 [] [];
  k_nodes := demo_nodes;
  k_tasks := {[0x20000 := demo_task TASK_RUNNING; 0x21000 := demo_task TASK_READY;
               0x22000 := demo_task TASK_BLOCKED]};
  k_locks := {[0x11000 := Lock NULL 1 0; 0x11040 := Lock NULL 1 0; 0x11080 := Lock NULL 1 0;
               0x12000 := Lock NULL 1 0]};
  k_queues := {[0x12000 := IoQueue NULL NULL (replicate 64 0) 0 0]};
  k_keys := Keys false false false false false;
  k_mmu := demo_mmu;
  k_kernel_pool := demo_pool;
  k_user_pool := demo_pool;
  k_kernel_vaddr := demo_vaddr;
  k_main_thread := 0x20000;
  k_cur := 0x20000;
  k_tss := replicate 27 0;
  k_gdtr := 0xc0000800 * 2 ^ 16 + 55;
  k_tr := 0x20 |}.
