(* ===== verification/Sched.v ===== *)
(** * Scheduling: schedule, thread_block and thread_unblock of kernel/thread.c,
      process_activate of kernel/process.c, update_tss_esp of kernel/tss.c

    [schedule_out] is schedule() up to the point where switch_to has saved the old
    stack and loaded the new one; [schedule] goes on with what the other threads do
    until the caller runs again. *)

From Stdlib Require Import ZArith Lia.
From stdpp Require Import base tactics gmap strings fin_maps functions list.
From S2P Require Import Prelude ByteMem CString Bitmap Interrupt DList Format Paging Idt Memory Kernel.

Definition thread_site (n : Z) (func cond : string) : panic_site :=
  PanicSite "kernel/thread.c" n func cond.

Section sched_c.
Context `{FpEval, Layout, Env}.

(** ** kernel/tss.c and kernel/process.c *)

(** [esp0] is the second word of the TSS. *)
Definition update_tss_esp (pthread : Z) : prog kernel unit :=
  modify (λ k, set_tss (<[1%nat := u32 (pthread + PG_SIZE)]> (k_tss k)) k).

Definition set_cr3 (pde : Z) : prog kernel unit :=
  _ ← kprint (line "pde: 0x%x") [AInt pde];
  zoom l_kmmu (write_cr3 pde).

Definition page_dir_activate (p_thread : Z) : prog kernel unit :=
  t ← load_task p_thread;
  pagedir_phy_addr ← (if negb (pgdir t =? NULL) then zoom l_kmmu (vaddr_to_paddr (pgdir t))
                      else mret 0x100000);
  _ ← kprint (line "pagedir_phy_addr: %x") [AInt pagedir_phy_addr];
  _ ← kprint (line "-----change cr3 beginning!-----") [];
  _ ← set_cr3 pagedir_phy_addr;
  kprint (line "-----change cr3 finished!-----") [].

Definition process_activate (p_thread : Z) : prog kernel unit :=
  _ ← c_assert (PanicSite "kernel/process.c" 62 "process_activate" "p_thread != NULL")
        (negb (p_thread =? NULL));
  _ ← page_dir_activate p_thread;
  t ← load_task p_thread;
  when (negb (pgdir t =? NULL)) (update_tss_esp p_thread).

(** ** kernel/switch.asm *)

(** The registers go on the old stack, whose pointer is saved in the first word of
    the old PCB; from here on the CPU runs [next]. *)
Definition switch_out (cur next : Z) : prog kernel unit :=
  _ ← update_task cur (with_kstack (esp_at cur));
  modify (set_cur next).

(** ** kernel/thread.c *)

Definition ready_find (t : Z) : prog kernel bool :=
  zoom l_core (elem_find thread_ready_list (general_tag t)).

Definition schedule_site1 : panic_site :=
  thread_site 91 "schedule" "!elem_find(&thread_ready_list, &cur->general_tag)".
Definition schedule_site2 : panic_site :=
  thread_site 98 "schedule" "!list_empty(&thread_ready_list)".

Definition schedule_out : prog kernel Z :=
  cur ← running_thread;
  c ← load_task cur;
  _ ← when (bool_decide (status c = TASK_RUNNING))
        (found ← ready_find cur;
         _ ← c_assert schedule_site1 (negb found);
         _ ← zoom l_core (list_append thread_ready_list (general_tag cur));
         _ ← update_task cur (λ t, with_ticks (priority t) t);
         update_task cur (with_status TASK_READY));
  empty ← zoom l_core (list_empty thread_ready_list);
  _ ← c_assert schedule_site2 (negb empty);
  thread_tag ← zoom l_core (list_pop thread_ready_list);
  let next := entry_of_tag thread_tag in
  _ ← update_task next (with_status TASK_RUNNING);
  _ ← process_activate next;
  _ ← switch_out cur next;
  mret cur.

Definition schedule : prog kernel unit := cur ← schedule_out; others cur.

(** The statuses a thread may block with, as the two assertions list them. *)
Definition blocked_status (s : task_status) : bool :=
  bool_decide (s = TASK_BLOCKED ∨ s = TASK_WAITING ∨ s = TASK_HANGING).

Definition block_cond : string :=
  "(status == TASK_BLOCKED) || (status == TASK_WAITING) || (status == TASK_HANGING)".

Definition thread_block (st : task_status) : prog kernel unit :=
  _ ← c_assert (thread_site 120 "thread_block" block_cond) (blocked_status st);
  old_status ← k_intr_disable;
  cur_thread ← running_thread;
  _ ← update_task cur_thread (with_status st);
  _ ← schedule;
  _ ← k_intr_set_status old_status;
  mret tt.

Definition thread_unblock (pthread : Z) : prog kernel unit :=
  old_status ← k_intr_disable;
  t ← load_task pthread;
  _ ← c_assert (thread_site 134 "thread_unblock" block_cond) (blocked_status (status t));
  found ← ready_find pthread;
  _ ← (if found : bool then panic (thread_site 137 "thread_unblock"
                             "thread is not blocked, but in ready_list") else mret tt);
  _ ← zoom l_core (list_push thread_ready_list (general_tag pthread));
  _ ← update_task pthread (with_status TASK_READY);
  _ ← k_intr_set_status old_status;
  mret tt.
End sched_c.

(** ** Running list operations inside the kernel *)

Lemma with_if_id i : with_if (i_if i) i = i.
Proof. by destruct i. Qed.

Lemma set_intr_id k : set_intr (k_intr k) k = k.
Proof. by destruct k. Qed.

Lemma zoom_core {A} (p : prog core A) k a h' :
  p (Core (i_if (k_intr k)) (k_nodes k)) = Ok a (Core (i_if (k_intr k)) h') →
  zoom l_core p k = Ok a (set_nodes h' k).
Proof.
  intros Hp. rewrite (zoom_Ok l_core p k a _ Hp). simpl. unfold put_core. simpl.
  by rewrite with_if_id, set_intr_id.
Qed.

Lemma zoom_core_read {A} (p : prog core A) k a :
  p (Core (i_if (k_intr k)) (k_nodes k)) = Ok a (Core (i_if (k_intr k)) (k_nodes k)) →
  zoom l_core p k = Ok a k.
Proof. intros Hp. rewrite (zoom_core p k a _ Hp). by destruct k. Qed.

(** The interrupt flag of the kernel. *)
Definition k_if (k : kernel) : bool := i_if (k_intr k).

Definition set_if (b : bool) (k : kernel) : kernel := set_intr (with_if b (k_intr k)) k.

Lemma set_if_id k : set_if (k_if k) k = k.
Proof. unfold set_if, k_if. by rewrite with_if_id, set_intr_id. Qed.

Lemma set_if_twice b b' k : set_if b (set_if b' k) = set_if b k.
Proof. done. Qed.

Lemma k_intr_disable_ok k : k_intr_disable k = Ok (Flag.status_of (k_if k)) (set_if false k).
Proof. unfold k_intr_disable. by do 2 apply zoom_Ok; apply Flag.intr_disable_ok. Qed.

Lemma k_intr_enable_ok k : k_intr_enable k = Ok (Flag.status_of (k_if k)) (set_if true k).
Proof. unfold k_intr_enable. by do 2 apply zoom_Ok; apply Flag.intr_enable_ok. Qed.

Lemma k_intr_set_status_ok b k :
  k_intr_set_status (Flag.status_of b) k = Ok (Flag.status_of (k_if k)) (set_if b k).
Proof.
  destruct b; simpl; [apply k_intr_enable_ok|apply k_intr_disable_ok].
Qed.

Lemma k_intr_get_status_ok k : k_intr_get_status k = Ok (Flag.status_of (k_if k)) k.
Proof. destruct k as [[[]]]; reflexivity. Qed.

Section sched_lemmas.
Context `{FpEval, Layout, Env}.

(** thread_unblock puts a blocked thread in front of the ready list. *)
Lemma thread_unblock_ok k t x rs :
  k_tasks k !! t = Some x → blocked_status (status x) = true →
  dlist (k_nodes k) thread_ready_list rs → general_tag t ∉ nodes thread_ready_list rs →
  is_Some (k_nodes k !! general_tag t) →
  ∃ h', thread_unblock t k =
      Ok tt (set_tasks (<[t := with_status TASK_READY x]> (k_tasks k)) (set_nodes h' k)) ∧
    dlist h' thread_ready_list (general_tag t :: rs) ∧
    same_outside (general_tag t :: nodes thread_ready_list rs) (k_nodes k) h'.
Proof.
  intros Hx Hst Hd Hni Hs.
  destruct (list_push_ok false (k_nodes k) _ _ _ Hd Hni Hs) as (h' & Hpush & Hd' & Hout).
  exists h'. split_and!; [|done|done]. unfold thread_unblock.
  rewrite (bind_Ok _ _ _ _ _ (k_intr_disable_ok k)).
  assert (Hx' : k_tasks (set_if false k) !! t = Some x) by done.
  rewrite (bind_Ok _ _ _ _ _ (load_task_ok _ _ _ Hx')), Hst, bind_assert.
  assert (Hfind : ready_find t (set_if false k) = Ok false (set_if false k)).
  { apply zoom_core_read. rewrite (elem_find_ok _ _ _ rs); [|done|].
    - f_equal. apply bool_decide_eq_false_2. intros Hin. apply Hni. unfold nodes. set_solver.
    - intros Heq. apply Hni. rewrite Heq. unfold nodes. set_solver. }
  rewrite (bind_Ok _ _ _ _ _ Hfind), bind_ret.
  rewrite (bind_Ok _ _ _ _ _ (zoom_core _ (set_if false k) _ h' Hpush)).
  erewrite (bind_Ok (update_task _ _)) by (apply update_task_ok; exact Hx').
  rewrite (bind_Ok _ _ _ _ _ (k_intr_set_status_ok _ _)). unfold mret, prog_ret. f_equal.
  by destruct k as [[]].
Qed.
End sched_lemmas.

(** ** Activating a thread's page directory *)

Definition with_cr3 (v : Z) (k : kernel) : kernel :=
  lput l_kmmu (Mmu (ram (k_mmu k)) (bytes (k_mmu k)) (u32 v)) k.

(** The physical address of the page directory a thread runs with. *)
Definition directory_of (x : task_struct) (m : mmu) (pa : Z) : Prop :=
  if pgdir x =? NULL then pa = 0x100000 else vaddr_to_paddr (pgdir x) m = Ok pa m.

(** The kernel after process_activate, [c] printed. *)
Definition activated (c : list conop) (pa t : Z) (x : task_struct) (k : kernel) : kernel :=
  let k := add_output c (with_cr3 pa k) in
  if pgdir x =? NULL then k else set_tss (<[1%nat := u32 (t + PG_SIZE)]> (k_tss k)) k.

Lemma with_cr3_output v c k : with_cr3 v (add_output c k) = add_output c (with_cr3 v k).
Proof. by destruct k as [[]]. Qed.

Lemma add_output_twice c1 c2 k : add_output c2 (add_output c1 k) = add_output (c1 ++ c2) k.
Proof. destruct k as [[]]. unfold add_output. simpl. by rewrite app_assoc. Qed.

Lemma gdt_mapped_output c k : gdt_mapped (add_output c k) = gdt_mapped k.
Proof. done. Qed.

Lemma zoom_kmmu_read {A} (p : prog mmu A) k a :
  p (k_mmu k) = Ok a (k_mmu k) → zoom l_kmmu p k = Ok a k.
Proof.
  intros Hp. rewrite (zoom_Ok l_kmmu p k a _ Hp). f_equal. apply (lput_lget _ _ l_kmmu k).
Qed.

Section activate_lemmas.
Context `{FpEval, Layout, Env}.

Lemma page_dir_activate_ok k t x pa :
  k_tasks k !! t = Some x → directory_of x (k_mmu k) pa →
  gdt_mapped k = true → gdt_mapped (with_cr3 pa k) = true →
  ∃ c, page_dir_activate t k = Ok tt (add_output c (with_cr3 pa k)).
Proof.
  intros Hx Hdir Hg Hg'.
  assert (Hpa : (if negb (pgdir x =? NULL) then zoom l_kmmu (vaddr_to_paddr (pgdir x))
                 else mret 0x100000) k = Ok pa k).
  { unfold directory_of in Hdir. destruct (pgdir x =? NULL); simpl; [by rewrite Hdir|].
    by apply zoom_kmmu_read. }
  destruct (kprint_x (line "pagedir_phy_addr: %x") (chars "pagedir_phy_addr: ") [10] pa k)
    as [c1 Hp1]; [done..|].
  destruct (kprint_lit (line "-----change cr3 beginning!-----") (add_output c1 k))
    as [c2 Hp2]; [done..|].
  set (k2 := add_output c2 (add_output c1 k)) in *.
  destruct (kprint_x (line "pde: 0x%x") (chars "pde: 0x") [10] pa k2) as [c3 Hp3]; [done..|].
  destruct (kprint_lit (line "-----change cr3 finished!-----") (with_cr3 pa (add_output c3 k2)))
    as [c4 Hp4]; [done|done| |].
  { unfold k2. by rewrite !with_cr3_output, !gdt_mapped_output. }
  exists (((c1 ++ c2) ++ c3) ++ c4). unfold page_dir_activate.
  rewrite (bind_Ok _ _ _ _ _ (load_task_ok _ _ _ Hx)), (bind_Ok _ _ _ _ _ Hpa).
  rewrite (bind_Ok _ _ _ _ _ Hp1), (bind_Ok _ _ _ _ _ Hp2).
  assert (Hcr : set_cr3 pa k2 = Ok tt (with_cr3 pa (add_output c3 k2))).
  { unfold set_cr3. rewrite (bind_Ok _ _ _ _ _ Hp3). unfold zoom, with_cr3. reflexivity. }
  rewrite (bind_Ok _ _ _ _ _ Hcr).
  etransitivity; [exact Hp4|]. unfold k2. rewrite !with_cr3_output, !add_output_twice.
  by rewrite !app_assoc.
Qed.

Lemma process_activate_ok k t x pa :
  t ≠ NULL → k_tasks k !! t = Some x → directory_of x (k_mmu k) pa →
  gdt_mapped k = true → gdt_mapped (with_cr3 pa k) = true →
  ∃ c, process_activate t k = Ok tt (activated c pa t x k).
Proof.
  intros Ht Hx Hdir Hg Hg'.
  destruct (page_dir_activate_ok k t x pa Hx Hdir Hg Hg') as [c Hrun]. exists c.
  unfold process_activate. rewrite (proj2 (Z.eqb_neq t NULL) Ht). simpl negb.
  rewrite bind_assert, (bind_Ok _ _ _ _ _ Hrun).
  erewrite (bind_Ok (load_task t)) by (apply load_task_ok; exact Hx).
  unfold activated. by destruct (pgdir x =? NULL).
Qed.
End activate_lemmas.

(** ** What schedule does *)

Lemma update_task_alter t f k :
  is_Some (k_tasks k !! t) → update_task t f k = Ok tt (set_tasks (alter f t (k_tasks k)) k).
Proof.
  intros [x Hx]. rewrite (update_task_ok t x f k Hx). do 2 f_equal.
  apply map_eq. intros i. rewrite lookup_insert, lookup_alter.
  by destruct (decide (t = i)) as [<-|]; [rewrite Hx|].
Qed.

Lemma entry_general_tag t : entry_of_tag (general_tag t) = t.
Proof. unfold entry_of_tag, general_tag. lia. Qed.

#[global] Instance general_tag_inj : Inj (=) (=) general_tag.
Proof. unfold general_tag. intros ???. lia. Qed.

(** The queue and the PCBs after a running thread has given up its turn; a thread
    that blocks is not queued. *)
Definition requeue (x : task_struct) (cur : Z) (ts : list Z) : list Z :=
  if decide (status x = TASK_RUNNING) then ts ++ [cur] else ts.

Definition recharge (x : task_struct) (cur : Z) (tasks : gmap Z task_struct) : gmap Z task_struct :=
  if decide (status x = TASK_RUNNING)
  then alter (λ t, with_status TASK_READY (with_ticks (priority t) t)) cur tasks else tasks.

Section schedule_lemmas.
Context `{FpEval, Layout, Env}.

(** The kernel [k'] after [cur] has handed the CPU of [k] to [next]: the ready
    threads are [q], the page directory is the one at [pa]. *)
Record switched (k k' : kernel) (x : task_struct) (cur next pa : Z) (ts q : list Z) : Prop := {
  sw_cur : k_cur k' = next;
  sw_ready : dlist (k_nodes k') thread_ready_list (general_tag <$> q);
  sw_tasks : k_tasks k' =
    alter (with_kstack (esp_at cur)) cur (alter (with_status TASK_RUNNING) next
      (recharge x cur (k_tasks k)));
  sw_nodes : same_outside (nodes thread_ready_list (general_tag <$> requeue x cur ts))
    (k_nodes k) (k_nodes k');
  sw_locks : k_locks k' = k_locks k;
  sw_queues : k_queues k' = k_queues k;
  sw_if : k_if k' = k_if k;
  sw_mmu : k_mmu k' = k_mmu (with_cr3 pa k);
  sw_gdtr : k_gdtr k' = k_gdtr k;
  sw_pools : k_kernel_pool k' = k_kernel_pool k ∧ k_user_pool k' = k_user_pool k
}.

Lemma requeue_ok k x cur ts :
  k_tasks k !! cur = Some x → k_cur k = cur →
  dlist (k_nodes k) thread_ready_list (general_tag <$> ts) →
  general_tag cur ∉ nodes thread_ready_list (general_tag <$> ts) →
  is_Some (k_nodes k !! general_tag cur) →
  ∃ h', when (bool_decide (status x = TASK_RUNNING))
          (found ← ready_find cur;
           _ ← c_assert schedule_site1 (negb found);
           _ ← zoom l_core (list_append thread_ready_list (general_tag cur));
           _ ← update_task cur (λ t, with_ticks (priority t) t);
           update_task cur (with_status TASK_READY)) k =
      Ok tt (set_tasks (recharge x cur (k_tasks k)) (set_nodes h' k)) ∧
    dlist h' thread_ready_list (general_tag <$> requeue x cur ts) ∧
    same_outside (nodes thread_ready_list (general_tag <$> requeue x cur ts)) (k_nodes k) h'.
Proof.
  intros Hx Hc Hd Hni Hs. unfold requeue, recharge.
  destruct (decide (status x = TASK_RUNNING)) as [Hr|Hr].
  - rewrite bool_decide_true by done. simpl when.
    destruct (list_append_ok (i_if (k_intr k)) _ _ _ _ Hd Hni Hs) as (h' & Happ & Hd' & Hout).
    rewrite fmap_app. exists h'. split_and!; [|done|].
    2: { eapply same_outside_mono; [|exact Hout]. intros z. rewrite elem_of_cons, !nodes_elem. set_solver. }
    assert (Hfind : ready_find cur k = Ok false k).
    { apply zoom_core_read. rewrite (elem_find_ok _ _ _ (general_tag <$> ts)); [|done|].
      - f_equal. apply bool_decide_eq_false_2. intros Hin. apply Hni, nodes_elem. auto.
      - intros Heq. apply Hni, nodes_elem. auto. }
    rewrite (bind_Ok _ _ _ _ _ Hfind), bind_assert, (bind_Ok _ _ _ _ _ (zoom_core _ k _ h' Happ)).
    rewrite (bind_Ok _ _ _ _ _ (update_task_alter _ _ (set_nodes h' k) (mk_is_Some _ _ Hx))).
    rewrite update_task_alter by (simpl; rewrite lookup_alter_eq, Hx; eauto).
    f_equal. simpl. by rewrite alter_alter_eq.
  - rewrite bool_decide_false by done. exists (k_nodes k). split_and!; [by destruct k|done|].
    apply same_outside_refl.
Qed.

(** No thread is ready: schedule panics. *)
Lemma schedule_out_idle k x cur :
  k_cur k = cur → k_tasks k !! cur = Some x → status x ≠ TASK_RUNNING →
  dlist (k_nodes k) thread_ready_list [] → schedule_out k = Panic schedule_site2 k.
Proof.
  intros Hcur Hx Hst Hd. unfold schedule_out, running_thread. rewrite bind_gets, Hcur.
  rewrite (bind_Ok _ _ _ _ _ (load_task_ok _ _ _ Hx)), bool_decide_false by done.
  simpl when. rewrite bind_ret.
  by rewrite (bind_Ok _ _ _ _ _ (zoom_core_read _ k _ (list_empty_ok _ _ _ _ Hd))).
Qed.

(** Otherwise it runs the first of the queue. *)
Lemma schedule_out_ok k x cur ts next q y pa :
  k_cur k = cur → k_tasks k !! cur = Some x →
  dlist (k_nodes k) thread_ready_list (general_tag <$> ts) →
  general_tag cur ∉ nodes thread_ready_list (general_tag <$> ts) →
  is_Some (k_nodes k !! general_tag cur) →
  requeue x cur ts = next :: q → recharge x cur (k_tasks k) !! next = Some y → next ≠ NULL →
  directory_of y (k_mmu k) pa → gdt_mapped k = true → gdt_mapped (with_cr3 pa k) = true →
  ∃ k', schedule_out k = Ok cur k' ∧ switched k k' x cur next pa ts q.
Proof.
  intros Hcur Hx Hd Hni Hs Hq Hy Hnext Hdir Hg Hg'.
  destruct (requeue_ok k x cur ts Hx Hcur Hd Hni Hs) as (h1 & Hrq & Hd1 & Hout1).
  set (k1 := set_tasks (recharge x cur (k_tasks k)) (set_nodes h1 k)) in *.
  rewrite Hq, fmap_cons in Hd1.
  assert (Hempty := list_empty_ok (i_if (k_intr k)) _ _ _ Hd1). rewrite bool_decide_false in Hempty by done.
  destruct (list_pop_ok (i_if (k_intr k)) _ _ _ _ Hd1) as (h2 & Hpop & Hd2 & Hout2).
  set (k2 := set_tasks (alter (with_status TASK_RUNNING) next (k_tasks k1)) (set_nodes h2 k1)).
  destruct (process_activate_ok k2 next (with_status TASK_RUNNING y) pa) as [c Hact];
    [done|by simpl; rewrite lookup_alter_eq, Hy|done..|].
  assert (Hz : is_Some (k_tasks k2 !! cur)).
  { simpl. apply lookup_alter_is_Some. unfold recharge.
    destruct (decide _); [apply lookup_alter_is_Some|]; eauto. }
  eexists. split.
  - unfold schedule_out, running_thread. rewrite bind_gets, Hcur.
    rewrite (bind_Ok _ _ _ _ _ (load_task_ok _ _ _ Hx)), (bind_Ok _ _ _ _ _ Hrq).
    rewrite (bind_Ok _ _ _ _ _ (zoom_core_read _ k1 _ Hempty)), bind_assert.
    rewrite (bind_Ok _ _ _ _ _ (zoom_core _ k1 _ h2 Hpop)). cbv zeta. rewrite entry_general_tag.
    rewrite (bind_Ok _ _ _ _ _ (update_task_alter next _ (set_nodes h2 k1) (mk_is_Some _ _ Hy))).
    change (set_tasks _ (set_nodes h2 k1)) with k2. rewrite (bind_Ok _ _ _ _ _ Hact).
    unfold switch_out. rewrite bind_assoc.
    rewrite (bind_Ok _ _ _ _ _ (update_task_alter cur _ (activated c pa next _ k2)
      ltac:(unfold activated; by destruct (pgdir _ =? NULL)))).
    rewrite bind_modify. reflexivity.
  - unfold activated. split; destruct (pgdir _ =? NULL); try done; simpl.
    all: eapply same_outside_trans; [exact Hout1|].
    all: eapply same_outside_mono; [|exact Hout2]; rewrite Hq, fmap_cons.
    all: intros z; rewrite !nodes_elem; set_solver.
Qed.
End schedule_lemmas.

Lemma status_kstack v c t (m : gmap Z task_struct) :
  status <$> alter (with_kstack v) c m !! t = status <$> m !! t.
Proof. rewrite lookup_alter. destruct (decide (c = t)) as [<-|]; [by destruct (m !! c)|done]. Qed.

Lemma ticks_alter f c t (m : gmap Z task_struct) :
  (∀ x, ticks (f x) = ticks x) → ticks <$> alter f c m !! t = ticks <$> m !! t.
Proof.
  intros Hf. rewrite lookup_alter. destruct (decide (c = t)) as [<-|]; [|done].
  destruct (m !! c); [simpl; by rewrite Hf|done].
Qed.

Section schedule_property.
Context `{FpEval, Layout, Env}.

(** C16 schedule is round robin: a running thread goes to the end of the ready
    list with its time slice refilled, a blocked one stays out of it; the first
    thread of the list becomes the running one, with its page directory loaded and
    nothing else changed; then the rest of the world runs.  With no thread left it
    panics. *)
Theorem schedule_round_robin k x cur ts :
  k_cur k = cur → k_tasks k !! cur = Some x →
  dlist (k_nodes k) thread_ready_list (general_tag <$> ts) →
  general_tag cur ∉ nodes thread_ready_list (general_tag <$> ts) →
  is_Some (k_nodes k !! general_tag cur) → gdt_mapped k = true →
  (status x ≠ TASK_RUNNING → ts = [] → schedule k = Panic schedule_site2 k) ∧
  (∀ next q y pa,
     (if decide (status x = TASK_RUNNING) then ts ++ [cur] else ts) = next :: q →
     next ≠ NULL → k_tasks k !! next = Some y → directory_of y (k_mmu k) pa →
     gdt_mapped (with_cr3 pa k) = true →
     ∃ k', schedule k = others cur k' ∧ k_cur k' = next ∧ cr3 (k_mmu k') = u32 pa ∧
       dlist (k_nodes k') thread_ready_list (general_tag <$> q) ∧
       (status <$> k_tasks k' !! next) = Some TASK_RUNNING ∧
       (next ≠ cur → (self_kstack <$> k_tasks k' !! cur) = Some (esp_at cur) ∧
          (status <$> k_tasks k' !! cur) =
            Some (if decide (status x = TASK_RUNNING) then TASK_READY else status x)) ∧
       (status x = TASK_RUNNING → (ticks <$> k_tasks k' !! cur) = Some (priority x)) ∧
       (∀ t, t ≠ cur → t ≠ next → k_tasks k' !! t = k_tasks k !! t) ∧
       k_locks k' = k_locks k ∧ k_if k' = k_if k).
Proof.
  intros Hcur Hx Hd Hni Hs Hg. split.
  { intros Hst ->. unfold schedule. by rewrite (bind_Panic _ _ _ _ _ (schedule_out_idle k x cur Hcur Hx Hst Hd)). }
  intros next q y pa Hq Hnext Hy Hdir Hg'.
  assert (Hy' : ∃ y', recharge x cur (k_tasks k) !! next = Some y' ∧ directory_of y' (k_mmu k) pa).
  { unfold recharge. destruct (decide (status x = TASK_RUNNING)); [|by exists y].
    destruct (decide (cur = next)) as [<-|Hne].
    - eexists. by rewrite lookup_alter_eq, Hy.
    - exists y. by rewrite lookup_alter_ne. }
  destruct Hy' as (y' & Hy' & Hdir').
  destruct (schedule_out_ok k x cur ts next q y' pa Hcur Hx Hd Hni Hs Hq Hy' Hnext Hdir' Hg Hg')
    as (k' & Hrun & [Hc Hr Ht _ Hl _ Hif Hm _]).
  exists k'. unfold schedule. rewrite (bind_Ok _ _ _ _ _ Hrun), Hm, Ht.
  assert (Hrc : ∀ t, t ≠ cur → recharge x cur (k_tasks k) !! t = k_tasks k !! t).
  { intros t Hne. unfold recharge. destruct (decide _); [by rewrite lookup_alter_ne|done]. }
  split_and!; [done|done|done|done| | | | |done|done].
  - by rewrite status_kstack, lookup_alter_eq, Hy'.
  - intros Hne. rewrite lookup_alter_eq, lookup_alter_ne by done. unfold recharge.
    destruct (decide _); [rewrite lookup_alter_eq|]; by rewrite Hx.
  - intros Hst. rewrite ticks_alter, ticks_alter by done. unfold recharge.
    by rewrite decide_True, lookup_alter_eq, Hx by done.
  - intros t Hne1 Hne2. by rewrite !lookup_alter_ne, Hrc.
Qed.
End schedule_property.

(** *** Witness: the kernel's page directory at 0x100000, as the loader leaves it *)

Definition kernel_mmu : mmu :=
  Mmu 0x200000 (put32s ∅ [(0x100000 + 768 * 4, 0x101007); (0x100000 + 1023 * 4, 0x100007);
    (0x101000, 0x7)]) 0x100000.

Definition sched_kernel : kernel := lput l_kmmu kernel_mmu demo_kernel.

#[local] Existing Instances x87 demo_layout demo_env.

Lemma schedule_round_robin_witness :
  k_cur sched_kernel = 0x20000 ∧ ∃ k', schedule sched_kernel = others 0x20000 k' ∧ k_cur k' = 0x21000.
Proof.
  split; [reflexivity|].
  destruct (proj2 (schedule_round_robin sched_kernel (demo_task TASK_RUNNING) 0x20000 [0x21000]
    eq_refl ltac:(vm_compute; reflexivity) ltac:(decided) ltac:(decided)
    ltac:(by eexists) ltac:(vm_compute; reflexivity))
    0x21000 [0x20000] (demo_task TASK_READY) 0x100000
    ltac:(vm_compute; reflexivity) ltac:(discriminate) ltac:(vm_compute; reflexivity)
    ltac:(vm_compute; reflexivity) ltac:(vm_compute; reflexivity)) as (k' & Hk & Hc & _).
  exists k'. split; [exact Hk | exact Hc].
Defined.
