(* ===== verification/Sync.v ===== *)
(** * kernel/sync.c and kernel/console.c: semaphores, locks, the locked console *)

From Stdlib Require Import ZArith Lia.
From stdpp Require Import base tactics gmap strings fin_maps functions list.
From S2P Require Import Prelude ByteMem CString Bitmap Interrupt DList Format Paging Idt Memory Kernel Sched.

Definition sync_site (n : Z) (func cond : string) : panic_site :=
  PanicSite "kernel/sync.c" n func cond.

Definition set_value (v : Z) (x : lock) : lock := Lock (holder x) v (holder_repeat_nr x).
Definition set_holder (t : Z) (x : lock) : lock := Lock t (value x) (holder_repeat_nr x).
Definition set_repeat_nr (n : Z) (x : lock) : lock := Lock (holder x) (value x) n.

Section sync_c.
Context `{FpEval, Layout, Env}.

(** A semaphore is named by the lock it is in. *)
Definition sema_init (l v : Z) : prog kernel unit :=
  _ ← update_lock l (set_value (u8 v));
  zoom l_core (list_init (waiters l)).

(** The body of the waiting loop up to the switch: the thread queues itself. *)
Definition enqueue_waiter (l : Z) : prog kernel unit :=
  cur ← running_thread;
  found ← zoom l_core (elem_find (waiters l) (general_tag cur));
  _ ← c_assert (sync_site 18 "sema_dowm" "!elem_find(&psema->waiters, &running_thread()->general_tag)")
        (negb found);
  cur ← running_thread;
  zoom l_core (list_append (waiters l) (general_tag cur)).

(** [while (psema->value == 0) { ... thread_block(TASK_BLOCKED); }] *)
Fixpoint sema_wait (fuel : nat) (l : Z) : prog kernel unit :=
  match fuel with
  | O => no_fuel
  | S fuel' =>
      x ← load_lock l;
      if value x =? 0 then
        _ ← enqueue_waiter l;
        _ ← thread_block TASK_BLOCKED;
        sema_wait fuel' l
      else mret tt
  end.

(** [psema->value--] and its assertion *)
Definition sema_take (l : Z) : prog kernel unit :=
  _ ← update_lock l (λ x, set_value (u8 (value x - 1)) x);
  x ← load_lock l;
  c_assert (sync_site 23 "sema_dowm" "psema->value == 0") (value x =? 0).

Definition sema_dowm (l : Z) : prog kernel unit :=
  old_status ← k_intr_disable;
  _ ← sema_wait wait_fuel l;
  _ ← sema_take l;
  _ ← k_intr_set_status old_status;
  mret tt.

Definition sema_up (l : Z) : prog kernel unit :=
  old_status ← k_intr_disable;
  x ← load_lock l;
  _ ← c_assert (sync_site 31 "sema_up" "psema->value == 0") (value x =? 0);
  empty ← zoom l_core (list_empty (waiters l));
  _ ← when (negb empty)
        (tag ← zoom l_core (list_pop (waiters l));
         thread_unblock (entry_of_tag tag));
  _ ← update_lock l (λ x, set_value (u8 (value x + 1)) x);
  x ← load_lock l;
  _ ← c_assert (sync_site 38 "sema_up" "psema->value == 1") (value x =? 1);
  _ ← k_intr_set_status old_status;
  mret tt.

Definition lock_init (plock : Z) : prog kernel unit :=
  _ ← update_lock plock (set_holder NULL);
  _ ← update_lock plock (set_repeat_nr 0);
  sema_init plock 1.

Definition acquire_site : panic_site := sync_site 56 "lock_acquire" "plock->holder_repeat_nr == 0".

Definition lock_acquire (plock : Z) : prog kernel unit :=
  x ← load_lock plock;
  cur ← running_thread;
  if negb (holder x =? cur) then
    _ ← sema_dowm plock;
    cur ← running_thread;
    _ ← update_lock plock (set_holder cur);
    x ← load_lock plock;
    _ ← c_assert acquire_site (holder_repeat_nr x =? 0);
    update_lock plock (set_repeat_nr 1)
  else update_lock plock (λ x, set_repeat_nr (u32 (holder_repeat_nr x + 1)) x).

Definition holder_site : panic_site := sync_site 66 "lock_release" "plock->holder == running_thread()".

Definition nr_site : panic_site := sync_site 71 "lock_release" "plock->holder_repeat_nr == 1".

Definition lock_release (plock : Z) : prog kernel unit :=
  x ← load_lock plock;
  cur ← running_thread;
  _ ← c_assert holder_site (holder x =? cur);
  if 1 <? holder_repeat_nr x then
    update_lock plock (λ x, set_repeat_nr (u32 (holder_repeat_nr x - 1)) x)
  else
    _ ← c_assert nr_site (holder_repeat_nr x =? 1);
    _ ← update_lock plock (set_holder NULL);
    _ ← update_lock plock (set_repeat_nr 0);
    sema_up plock.

(** ** kernel/console.c *)

Definition console_init : prog kernel unit :=
  _ ← lock_init console_lock;
  kprint (line "console_init is done.") [].

Definition console_acquire : prog kernel unit := lock_acquire console_lock.

Definition console_release : prog kernel unit := lock_release console_lock.

Definition console_print_str (str : list Z) : prog kernel unit :=
  _ ← console_acquire;
  _ ← kprint "%s" [AStr str];
  console_release.

Definition console_print_char (c : Z) : prog kernel unit :=
  _ ← console_acquire;
  _ ← kprint "%c" [AInt c];
  console_release.

Definition console_print_num (num : Z) : prog kernel unit :=
  _ ← console_acquire;
  _ ← kprint "%d" [AInt num];
  console_release.
End sync_c.

(** ** The lock without contention *)

Section sync_lemmas.
Context `{FpEval, Layout, Env}.

Lemma set_locks_lookup l (x : lock) k : k_locks (set_locks (<[l := x]> (k_locks k)) k) !! l = Some x.
Proof. apply lookup_insert_eq. Qed.

Lemma set_locks_id l x k : k_locks k !! l = Some x → set_locks (<[l := x]> (k_locks k)) k = k.
Proof. intros Hl. rewrite (insert_id _ _ _ Hl). by destruct k. Qed.

(** Two writes to one lock. *)
Lemma set_locks_twice l (x y : lock) k :
  set_locks (<[l := y]> (k_locks (set_locks (<[l := x]> (k_locks k)) k))) (set_locks (<[l := x]> (k_locks k)) k) =
  set_locks (<[l := y]> (k_locks k)) k.
Proof. unfold set_locks. simpl. by rewrite insert_insert_eq. Qed.

Lemma lock_init_ok l x k :
  k_locks k !! l = Some x → is_Some (k_nodes k !! list_head (waiters l)) → is_Some (k_nodes k !! list_tail (waiters l)) →
  ∃ h', lock_init l k = Ok tt (set_nodes h' (set_locks (<[l := Lock NULL 1 0]> (k_locks k)) k)) ∧
    dlist h' (waiters l) [] ∧ same_outside (nodes (waiters l) []) (k_nodes k) h'.
Proof.
  intros Hx Hh Ht. destruct (list_init_ok (i_if (k_intr k)) _ _ Hh Ht) as (h' & Hrun & Hd & Hout).
  exists h'. split_and!; [|done|done]. unfold lock_init, sema_init.
  rewrite (bind_Ok _ _ _ _ _ (update_lock_ok _ _ _ _ Hx)).
  rewrite !(bind_Ok _ _ _ _ _ (update_lock_ok _ _ _ _ (set_locks_lookup _ _ _))), !set_locks_twice.
  by rewrite (zoom_core _ (set_locks _ k) _ h' Hrun).
Qed.

Lemma sema_take_ok l x k :
  k_locks k !! l = Some x → value x = 1 →
  sema_take l k = Ok tt (set_locks (<[l := set_value 0 x]> (k_locks k)) k).
Proof.
  intros Hl Hv. unfold sema_take. rewrite (bind_Ok _ _ _ _ _ (update_lock_ok _ _ _ _ Hl)). rewrite Hv.
  change (u8 (1 - 1)) with 0.
  by rewrite (bind_Ok _ _ _ _ _ (load_lock_ok _ _ _ (set_locks_lookup l (set_value 0 x) k))).
Qed.

Lemma set_if_locks b c k : set_if c (set_locks b (set_if (k_if k) k)) = set_if c (set_locks b k).
Proof. by destruct k as [[]]. Qed.

(** P on a free semaphore. *)
Lemma sema_dowm_free l x k :
  wait_fuel ≠ 0%nat → k_locks k !! l = Some x → value x = 1 →
  sema_dowm l k = Ok tt (set_locks (<[l := set_value 0 x]> (k_locks k)) k).
Proof.
  intros Hf Hl Hv. unfold sema_dowm. rewrite (bind_Ok _ _ _ _ _ (k_intr_disable_ok k)).
  assert (Hl0 : k_locks (set_if false k) !! l = Some x) by done.
  assert (Hw : sema_wait wait_fuel l (set_if false k) = Ok tt (set_if false k)).
  { destruct wait_fuel as [|n]; [done|]. simpl.
    by rewrite (bind_Ok _ _ _ _ _ (load_lock_ok _ _ _ Hl0)), Hv. }
  rewrite (bind_Ok _ _ _ _ _ Hw), (bind_Ok _ _ _ _ _ (sema_take_ok _ _ _ Hl0 Hv)).
  rewrite (bind_Ok _ _ _ _ _ (k_intr_set_status_ok _ _)). unfold mret, prog_ret. f_equal.
  by destruct k as [[]].
Qed.

(** V when nobody waits. *)
Lemma sema_up_free l x k :
  k_locks k !! l = Some x → value x = 0 → dlist (k_nodes k) (waiters l) [] →
  sema_up l k = Ok tt (set_locks (<[l := set_value 1 x]> (k_locks k)) k).
Proof.
  intros Hl Hv Hd. unfold sema_up. rewrite (bind_Ok _ _ _ _ _ (k_intr_disable_ok k)).
  assert (Hl0 : k_locks (set_if false k) !! l = Some x) by done.
  rewrite (bind_Ok _ _ _ _ _ (load_lock_ok _ _ _ Hl0)), Hv, bind_assert.
  rewrite (bind_Ok _ _ _ _ _ (zoom_core_read _ (set_if false k) _ (list_empty_ok _ _ _ _ Hd))).
  simpl when. rewrite bind_ret, (bind_Ok _ _ _ _ _ (update_lock_ok _ _ _ _ Hl0)), Hv.
  change (u8 (0 + 1)) with 1.
  rewrite (bind_Ok _ _ _ _ _ (load_lock_ok _ _ _ (set_locks_lookup l (set_value 1 x) (set_if false k)))), bind_assert.
  rewrite (bind_Ok _ _ _ _ _ (k_intr_set_status_ok _ _)). unfold mret, prog_ret. f_equal.
  by destruct k as [[]].
Qed.

Lemma lock_acquire_free l k :
  wait_fuel ≠ 0%nat → k_cur k ≠ NULL → k_locks k !! l = Some (Lock NULL 1 0) →
  lock_acquire l k = Ok tt (set_locks (<[l := Lock (k_cur k) 0 1]> (k_locks k)) k).
Proof.
  intros Hf Hc Hl. unfold lock_acquire. rewrite (bind_Ok _ _ _ _ _ (load_lock_ok _ _ _ Hl)).
  assert (Hne : (holder (Lock NULL 1 0) =? k_cur k) = false) by (apply Z.eqb_neq; simpl; congruence).
  unfold running_thread. rewrite bind_gets, Hne. change (negb false) with true. cbv iota. rewrite (bind_Ok _ _ _ _ _ (sema_dowm_free _ _ _ Hf Hl eq_refl)), bind_gets.
  rewrite (bind_Ok _ _ _ _ _ (update_lock_ok _ _ _ _ (set_locks_lookup _ _ _))), set_locks_twice.
  rewrite (bind_Ok _ _ _ _ _ (load_lock_ok _ _ _ (set_locks_lookup _ _ _))), bind_assert.
  rewrite (update_lock_ok _ _ _ _ (set_locks_lookup _ _ _)), set_locks_twice. done.
Qed.

Lemma lock_release_last l k :
  k_locks k !! l = Some (Lock (k_cur k) 0 1) → dlist (k_nodes k) (waiters l) [] →
  lock_release l k = Ok tt (set_locks (<[l := Lock NULL 1 0]> (k_locks k)) k).
Proof.
  intros Hl Hd. unfold lock_release. rewrite (bind_Ok _ _ _ _ _ (load_lock_ok _ _ _ Hl)).
  unfold running_thread. rewrite bind_gets. cbn [holder holder_repeat_nr]. rewrite (Z.eqb_refl (k_cur k)), bind_assert.
  change (1 <? 1) with false. change (1 =? 1) with true. cbv iota. rewrite bind_assert.
  rewrite (bind_Ok _ _ _ _ _ (update_lock_ok _ _ _ _ Hl)).
  rewrite (bind_Ok _ _ _ _ _ (update_lock_ok _ _ _ _ (set_locks_lookup _ _ _))), set_locks_twice.
  change (set_repeat_nr 0 _) with (Lock NULL 0 0).
  rewrite (sema_up_free _ (Lock NULL 0 0) _ (set_locks_lookup _ _ _) eq_refl Hd), set_locks_twice. done.
Qed.

(** The lock taken and given back around a change of the memory. *)
Lemma lock_cycle l y m k :
  k_locks k !! l = Some (Lock NULL 1 0) →
  let k1 := lput l_kmmu m (set_locks (<[l := y]> (k_locks k)) k) in
  set_locks (<[l := Lock NULL 1 0]> (k_locks k1)) k1 = lput l_kmmu m k.
Proof.
  intros Hl k1.
  transitivity (set_locks (<[l := Lock NULL 1 0]> (<[l := y]> (k_locks k))) (lput l_kmmu m k));
    [by destruct k as [[]]|]. rewrite insert_insert_eq, (insert_id _ _ _ Hl). by destruct k as [[]].
Qed.

(** A critical section: what runs between acquire and release may change anything
    but this lock, the running thread and the list of waiters. *)
Lemma critical_section {A} l (body : prog kernel A) (Q : A → kernel → Prop) E k :
  wait_fuel ≠ 0%nat → k_cur k ≠ NULL → k_locks k !! l = Some (Lock NULL 1 0) →
  (let k1 := set_locks (<[l := Lock (k_cur k) 0 1]> (k_locks k)) k in
   wpp body (λ a k2, k_cur k2 = k_cur k ∧ k_locks k2 !! l = Some (Lock (k_cur k) 0 1) ∧
     dlist (k_nodes k2) (waiters l) [] ∧
     Q a (set_locks (<[l := Lock NULL 1 0]> (k_locks k2)) k2)) E k1) →
  wpp (_ ← lock_acquire l; a ← body; _ ← lock_release l; mret a) Q E k.
Proof.
  intros Hf Hc Hl Hbody. eapply wpp_step; [by apply lock_acquire_free|]. apply wpp_bind.
  eapply wpp_mono; [exact Hbody| |done]. intros a k2 (Hc2 & Hl2 & Hd2 & HQ).
  rewrite <- Hc2 in Hl2. eapply wpp_step; [by apply lock_release_last|]. done.
Qed.

(** C22 A lock nobody waits for: taking it makes the running thread its holder,
    taking it again counts, releasing counts down and frees it at the end, and
    nothing else in the kernel changes, the interrupt flag included; only the
    holder may release. *)
Theorem lock_uncontended l k x :
  wait_fuel ≠ 0%nat → k_cur k ≠ NULL → k_locks k !! l = Some x → dlist (k_nodes k) (waiters l) [] →
  let with_lock y := set_locks (<[l := y]> (k_locks k)) k in
  (x = Lock NULL 1 0 → lock_acquire l k = Ok tt (with_lock (Lock (k_cur k) 0 1))) ∧
  (holder x = k_cur k → 0 ≤ holder_repeat_nr x < 2 ^ 32 - 1 →
   lock_acquire l k = Ok tt (with_lock (Lock (k_cur k) (value x) (holder_repeat_nr x + 1)))) ∧
  (holder x = k_cur k → 1 < holder_repeat_nr x < 2 ^ 32 →
   lock_release l k = Ok tt (with_lock (Lock (k_cur k) (value x) (holder_repeat_nr x - 1)))) ∧
  (x = Lock (k_cur k) 0 1 → lock_release l k = Ok tt (with_lock (Lock NULL 1 0))) ∧
  (holder x ≠ k_cur k → lock_release l k = Panic holder_site k).
Proof.
  intros Hf Hc Hl Hd with_lock. pose proof (load_lock_ok _ _ _ Hl) as Hload. split_and!.
  - intros ->. by apply lock_acquire_free.
  - intros Hh Hn. unfold lock_acquire, running_thread. rewrite (bind_Ok _ _ _ _ _ Hload), bind_gets.
    rewrite Hh, Z.eqb_refl. change (negb true) with false. cbv iota. rewrite (update_lock_ok _ _ _ _ Hl).
    unfold set_repeat_nr. by rewrite Hh, u32_small by lia.
  - intros Hh Hn. unfold lock_release, running_thread. rewrite (bind_Ok _ _ _ _ _ Hload), bind_gets.
    rewrite Hh, Z.eqb_refl, bind_assert, (proj2 (Z.ltb_lt 1 (holder_repeat_nr x))) by lia.
    rewrite (update_lock_ok _ _ _ _ Hl). unfold set_repeat_nr. by rewrite Hh, u32_small by lia.
  - intros ->. by apply lock_release_last.
  - intros Hh. unfold lock_release, running_thread. rewrite (bind_Ok _ _ _ _ _ Hload), bind_gets.
    by rewrite (proj2 (Z.eqb_neq (holder x) (k_cur k)) Hh).
Qed.
End sync_lemmas.

#[local] Existing Instances x87 demo_layout demo_env.

Lemma lock_uncontended_witness :
  lock_acquire 0x11000 demo_kernel =
    Ok tt (set_locks (<[0x11000 := Lock 0x20000 0 1]> (k_locks demo_kernel)) demo_kernel) ∧
  lock_release 0x11000 demo_kernel = Panic holder_site demo_kernel.
Proof.
  destruct (lock_uncontended 0x11000 demo_kernel (Lock NULL 1 0) ltac:(decided) ltac:(decided)
    ltac:(vm_compute; reflexivity) ltac:(decided)) as (H1 & _ & _ & _ & H2).
  split; [exact (H1 eq_refl)|exact (H2 ltac:(decided))].
Defined.
