(* ===== verification/Alloc.v ===== *)
(** * kernel/memory.c, the interface: malloc_kernel_pages, malloc_user_pages,
      get_a_page, memory_init *)

From Stdlib Require Import ZArith Lia.
From stdpp Require Import base tactics gmap strings fin_maps functions list.
From S2P Require Import Prelude ByteMem CString Bitmap Interrupt DList Format Paging Idt Memory.
From S2P Require Import Kernel Sched Sync.

Definition get_a_page_msg : string :=
  "get_a_page:not allow kernel alloc userspace or user alloc kernelspace by get_a_page".

Section alloc_c.
Context `{FpEval, Layout, Env}.

(** [running_thread()->userprog_vaddr]; only the user pool looks at it. *)
Definition cur_vaddr (type : pool_type) : prog kernel virtual_addr :=
  match type with
  | KERNEL_POOL => gets k_kernel_vaddr
  | USER_POOL => cur ← running_thread; t ← load_task cur; mret (userprog_vaddr t)
  end.

Definition k_malloc_pages (type : pool_type) (count : Z) : prog kernel Z :=
  v ← cur_vaddr type;
  zoom l_memst (malloc_pages type v count).

Definition malloc_kernel_pages (count : Z) : prog kernel Z :=
  _ ← lock_acquire kernel_pool_lock;
  vaddr ← k_malloc_pages KERNEL_POOL count;
  _ ← lock_release kernel_pool_lock;
  mret vaddr.

Definition malloc_user_pages (count : Z) : prog kernel Z :=
  _ ← lock_acquire user_pool_lock;
  vaddr ← k_malloc_pages USER_POOL count;
  _ ← lock_release user_pool_lock;
  mret vaddr.

Definition pool_lock (type : pool_type) : Z :=
  match type with KERNEL_POOL => kernel_pool_lock | USER_POOL => user_pool_lock end.

(** [bit_idx = (vaddr - v.addr_start) / PG_SIZE; ASSERT(bit_idx > 0);
    bitmap_set_bit(&v.addr_bitmap, bit_idx, 1);] *)
Definition mark_page (n : Z) (v : virtual_addr) (vaddr : Z) : prog kernel unit :=
  let bit_idx := i32 (u32 (vaddr - addr_start v) / PG_SIZE) in
  _ ← c_assert (site n "get_a_page" "bit_idx > 0") (0 <? bit_idx);
  zoom l_kmmu (bitmap_set_bit (addr_bitmap v) (u32 bit_idx) 1).

Definition get_a_page (pf : pool_type) (vaddr : Z) : prog kernel Z :=
  _ ← lock_acquire (pool_lock pf);
  cur ← running_thread;
  t ← load_task cur;
  _ ← (match pf with
       | USER_POOL =>
           if negb (pgdir t =? NULL) then mark_page 243 (userprog_vaddr t) vaddr
           else panic (site 250 "get_a_page" get_a_page_msg)
       | KERNEL_POOL =>
           if pgdir t =? NULL then v ← gets k_kernel_vaddr; mark_page 247 v vaddr
           else panic (site 250 "get_a_page" get_a_page_msg)
       end);
  page_phyaddr ← zoom l_memst (p ← mem_pool pf; paddr_get_page p);
  if page_phyaddr =? NULL then mret NULL else
  _ ← zoom l_memst (bind_vaddr_paddr_page vaddr page_phyaddr);
  _ ← lock_release (pool_lock pf);
  mret vaddr.

Definition memory_init : prog kernel unit :=
  mem_bytes_total ← zoom l_kmmu (load32 0xd00);
  _ ← zoom l_memst (mem_pool_init mem_bytes_total);
  _ ← lock_init user_pool_lock;
  _ ← lock_init kernel_pool_lock;
  kprint (line "memory_init done") [].
End alloc_c.
