(* ===== verification/Thread.v ===== *)
(** * kernel/thread.c: making threads *)

From Stdlib Require Import ZArith Lia.
From stdpp Require Import base tactics gmap strings fin_maps functions list.
From S2P Require Import Prelude ByteMem CString Bitmap Interrupt DList Format Paging Idt Memory.
From S2P Require Import Kernel Sched Sync Alloc.

(** [sizeof(struct intr_stack)], [sizeof(struct thread_stack)] *)
Definition sizeof_intr_stack : Z := 76.
Definition sizeof_thread_stack : Z := 32.

(** A PCB of zero bytes. *)
Definition zero_task : task_struct :=
  Task 0 TASK_RUNNING (replicate 16 0) 0 0 NULL (VirtualAddr (Bitmap 0 0) 0) 0.

(** [strcpy(pthread->name, name)]: 15 characters and the terminator fit. *)
Definition copy_name (nm : list Z) (old : list Z) : list Z := nm ++ 0 :: drop (S (length nm)) old.

Section thread_c.
Context `{FpEval, Layout, Env}.

(** [memset(pthread, 0, sizeof( *pthread))]: a PCB with its two list nodes. *)
Definition clear_task (pthread : Z) : prog kernel unit := λ k,
  match translate (k_mmu k) pthread with
  | Some _ =>
      Ok tt (set_tasks (<[pthread := zero_task]> (k_tasks k))
        (set_nodes (<[general_tag pthread := ListElem 0 0]>
                     (<[all_list_tag pthread := ListElem 0 0]> (k_nodes k))) k))
  | None => Fault pthread k
  end.

Definition init_thread (pthread : Z) (nm : list Z) (prio : Z) : prog kernel unit :=
  _ ← clear_task pthread;
  _ ← (if Z.of_nat (length nm) <? 16
       then update_task pthread (λ t,
              Task (self_kstack t) (status t) (copy_name nm (name t)) (priority t) (ticks t) (pgdir t)
                (userprog_vaddr t) (stack_magic t))
       else undef "strcpy: past the end of name");
  main_thread ← gets k_main_thread;
  _ ← update_task pthread
        (with_status (if pthread =? main_thread then TASK_RUNNING else TASK_READY));
  update_task pthread (λ t,
    Task (u32 (pthread + PG_SIZE)) (status t) (name t) (u8 prio) (u8 prio) NULL (userprog_vaddr t) magic).

(** The pointer arithmetic is on [u32 *]: each subtraction is four times the
    size. *)
Definition thread_create (pthread function func_arg : Z) : prog kernel unit :=
  _ ← update_task pthread (λ t, with_kstack (u32 (self_kstack t - 4 * sizeof_intr_stack)) t);
  _ ← update_task pthread (λ t, with_kstack (u32 (self_kstack t - 4 * sizeof_thread_stack)) t);
  t ← load_task pthread;
  let kthread_stack := self_kstack t in
  let put off v := zoom l_kmmu (store32 (u32 (kthread_stack + off)) v) in
  _ ← put 8 0; _ ← put 12 0; _ ← put 4 0; _ ← put 0 0;
  _ ← put 16 kernel_thread;
  _ ← put 24 function;
  put 28 func_arg.

Definition all_find (t : Z) : prog kernel bool :=
  zoom l_core (elem_find thread_all_list (all_list_tag t)).

(** The two assertions and appends that make a thread known, in [file] and
    [func] at line [n]. *)
Definition publish (file func : string) (n thread : Z) : prog kernel unit :=
  found ← ready_find thread;
  _ ← c_assert (PanicSite file n func "!elem_find(&thread_ready_list, &thread->general_tag)")
        (negb found);
  _ ← zoom l_core (list_append thread_ready_list (general_tag thread));
  found ← all_find thread;
  _ ← c_assert (PanicSite file (n + 2) func "!elem_find(&thread_all_list, &thread->all_list_tag)")
        (negb found);
  zoom l_core (list_append thread_all_list (all_list_tag thread)).

Definition thread_start (nm : list Z) (prio function func_arg : Z) : prog kernel Z :=
  thread ← malloc_kernel_pages 1;
  _ ← init_thread thread nm prio;
  _ ← thread_create thread function func_arg;
  _ ← publish "kernel/thread.c" "thread_start" 79 thread;
  mret thread.

(** kernel_thread(), where a new thread starts: its function runs with interrupts
    on. *)
Definition kernel_thread_run (function : prog kernel unit) : prog kernel unit :=
  _ ← k_intr_enable; function.

Definition make_main_thread : prog kernel unit :=
  main_thread ← running_thread;
  _ ← modify (set_main main_thread);
  _ ← init_thread main_thread (chars "main") 31;
  found ← all_find main_thread;
  _ ← c_assert (thread_site 113 "make_main_thread"
                  "!elem_find(&thread_all_list, &main_thread->all_list_tag)") (negb found);
  zoom l_core (list_append thread_all_list (all_list_tag main_thread)).

Definition thread_init : prog kernel unit :=
  _ ← zoom l_core (list_init thread_ready_list);
  _ ← zoom l_core (list_init thread_all_list);
  _ ← make_main_thread;
  kprint (line "thread_init is done.") [].
End thread_c.
