(* ===== verification/Spawn.v ===== *)
(** * kernel/thread.c and kernel/memory.c: a new thread on a fresh page

    malloc_kernel_pages as a critical section around malloc_pages; storing words in
    a page that belongs to the caller; thread_start from the allocation of the page
    to the two lists of threads. *)

From Stdlib Require Import ZArith Lia.
From stdpp Require Import base tactics gmap strings fin_maps functions list.
From S2P Require Import Prelude ByteMem CString Bitmap Interrupt DList Format Paging Idt Memory Malloc.
From S2P Require Import Kernel Sched Sync Alloc Thread.

(** ** A page of one's own *)

Section page.
Context (D : Z → Prop) (T N : Z).
Implicit Types (s : memst) (g : Z → Z) (B : Z → bool).

(** Heap page [j] is mapped to frame [b] of the pool. *)
Record page_at g B s (j b : Z) : Prop := {
  pa_heap : heap_ok D T N g B s;
  pa_page : 0 ≤ j < N;
  pa_frame : 0 ≤ b < pool_frames s;
  pa_map : ∀ off, 0 ≤ off < PG_SIZE → translate (m_mmu s) (heap_page s j + off) = Some (frame s b + off)
}.

Lemma page_in_ram g B s j b off n :
  page_at g B s j b → 0 ≤ off → off + n ≤ PG_SIZE → 0 ≤ n → in_ram (m_mmu s) (frame s b + off) n = true.
Proof.
  intros [Ho _ Hb _] H0 H1 Hn. destruct (hl_pool (ho_layout Ho)) as (Hp0 & _ & Hp1 & _).
  apply in_ram_true. unfold frame, PG_SIZE in *. nia.
Qed.

Lemma page_load g B s j b off :
  page_at g B s j b → 0 ≤ off → off + 4 ≤ PG_SIZE → off mod 4 = 0 →
  load32 (heap_page s j + off) (m_mmu s) = Ok (pword (m_mmu s) (frame s b + off)) (m_mmu s).
Proof.
  intros Hp H0 H1 Hal. pose proof Hp as [Ho Hj _ Hmap].
  destruct (heap_page_facts D T N s j (ho_layout Ho) Hj) as (_ & _ & Hpal & _).
  apply load32_ok; [unfold PG_SIZE in *; zlia|apply Hmap; lia|]. by apply (page_in_ram g B s j).
Qed.

(** A change of the bytes of the page only. *)
Lemma page_at_frame g B s j b m' :
  page_at g B s j b → ram m' = ram (m_mmu s) → cr3 m' = cr3 (m_mmu s) →
  (∀ x, ¬ region (frame s b) PG_SIZE x → pbyte m' x = pbyte (m_mmu s) x) →
  page_at g B (set_mmu m' s) j b ∧
  (∀ a, via_table T s a → translate m' a = translate (m_mmu s) a ∧ via_table T (set_mmu m' s) a).
Proof.
  intros [Ho Hj Hb Hmap] Hram Hcr Heq. pose proof (ho_layout Ho) as Hl.
  assert (Hpool : ∀ x, ¬ in_pool s x → pbyte m' x = pbyte (m_mmu s) x).
  { intros x Hx. apply Heq. intros Hr. apply Hx. unfold in_pool, region, frame, PG_SIZE in *. nia. }
  assert (Hdt : ∀ x, region (dir s) PG_SIZE x ∨ region T PG_SIZE x → pbyte m' x = pbyte (m_mmu s) x).
  { intros x Hx. apply Hpool. intros Hp. destruct (hl_apart Hl x Hp). tauto. }
  assert (Hvia : ∀ a, via_table T s a → translate m' a = translate (m_mmu s) a ∧ via_table T (set_mmu m' s) a).
  { intros a Ha. by apply (via_frame D T s m' a Hram Hcr Hdt). }
  split; [|exact Hvia]. split; [|done|done|].
  - apply (heap_ok_frame D T N g g B s m' Ho Hram Hcr); [|done]. by apply (bits_kept D T N g B s).
  - intros off Hoff. simpl m_mmu. change (heap_page (set_mmu m' s) j) with (heap_page s j).
    change (frame (set_mmu m' s) b) with (frame s b).
    rewrite (proj1 (Hvia _ (via_heap_page D T N g B s j off Ho Hj Hoff))). by apply Hmap.
Qed.

Lemma page_store g B s j b off v :
  page_at g B s j b → 0 ≤ off → off + 4 ≤ PG_SIZE → off mod 4 = 0 →
  let m' := pset32 (m_mmu s) (frame s b + off) v in
  store32 (heap_page s j + off) v (m_mmu s) = Ok tt m' ∧ page_at g B (set_mmu m' s) j b ∧
  (∀ a, via_table T s a → translate m' a = translate (m_mmu s) a ∧ via_table T (set_mmu m' s) a).
Proof.
  intros Hp H0 H1 Hal m'. pose proof Hp as [Ho Hj _ Hmap].
  destruct (heap_page_facts D T N s j (ho_layout Ho) Hj) as (_ & _ & Hpal & _). split.
  - apply store32_ok; [unfold PG_SIZE in *; zlia|apply Hmap; lia|]. by apply (page_in_ram g B s j).
  - apply page_at_frame; [done..|]. intros x Hx. apply pbyte_pset32_out. unfold region, PG_SIZE in *. lia.
Qed.
End page.

Arguments pa_map {_ _ _ _ _ _ _ _} _.
Arguments pa_heap {_ _ _ _ _ _ _ _} _.
Arguments pa_page {_ _ _ _ _ _ _ _} _.
Arguments pa_frame {_ _ _ _ _ _ _ _} _.

(** ** The allocator with its lock *)

Lemma get_memst_mmu m k : get_memst (lput l_kmmu m k) = set_mmu m (get_memst k).
Proof. by destruct k as [[]]. Qed.

(** What the heap's page table maps stays mapped, through the same table. *)
Definition via_kept (T : Z) (k k' : kernel) : Prop :=
  ∀ a pa, via_table T (get_memst k) a → translate (k_mmu k) a = Some pa →
    translate (k_mmu k') a = Some pa ∧ via_table T (get_memst k') a.

Lemma via_kept_trans T k1 k2 k3 : via_kept T k1 k2 → via_kept T k2 k3 → via_kept T k1 k3.
Proof. intros H12 H23 a pa Hv Ha. destruct (H12 a pa Hv Ha). by apply H23. Qed.

Section alloc_lemmas.
Context `{FpEval, Layout, Env}.
Context (D : Z → Prop) (T N : Z).
Implicit Types (f g : Z → Z) (k : kernel).

(** The kernel heap as it is between two calls. *)
Definition k_heap f k : Prop :=
  heap_ok D T N f (bits_of f (heap_bits (get_memst k))) (get_memst k).

(** A call for [count] pages can be served at once. *)
Record servable f k (count : Z) : Prop := {
  sv_fuel : wait_fuel ≠ 0%nat;
  sv_cur : k_cur k ≠ NULL;
  sv_lock : k_locks k !! kernel_pool_lock = Some (Lock NULL 1 0);
  sv_waiters : dlist (k_nodes k) (waiters kernel_pool_lock) [];
  sv_heap : k_heap f k;
  sv_count : 1 ≤ count < 3840;
  sv_room : room N f (get_memst k) count;
  sv_enough : enough f (get_memst k) (Z.to_nat count)
}.

(** The pages come, and nothing but memory changes. *)
Definition served f k (count r : Z) k' i (frames : list Z) g : Prop :=
  k' = lput l_kmmu (k_mmu k') k ∧
  fresh_pages T N f (get_memst k) count i frames r (get_memst k') ∧
  pages_taken N f g (get_memst k) count i frames ∧ k_heap g k'.

Lemma malloc_kernel_pages_ok f k count :
  servable f k count →
  wp (malloc_kernel_pages count) (λ r k', ∃ i frames g, served f k count r k' i frames g) k.
Proof.
  intros [Hfu Hcur Hl Hw Hh Hc Hroom Hen]. apply (critical_section kernel_pool_lock); [done..|]. cbv zeta.
  set (k1 := set_locks _ k). change (get_memst k) with (get_memst k1) in *.
  unfold k_malloc_pages. eapply wpp_step; [reflexivity|]. apply wpp_zoom.
  eapply wp_mono; [by apply (malloc_pages_ok D T N f)|].
  intros r s' (i & frames & g & Hf & Ht & Ho). assert (Hs : s' = set_mmu (m_mmu s') (get_memst k)) by apply (fp_mmu Hf).
  assert (Hk : lput l_memst s' k1 = lput l_kmmu (m_mmu s') k1).
  { transitivity (lput l_memst (set_mmu (m_mmu s') (get_memst k)) k1); [by rewrite <- Hs|by destruct k as [[]]]. }
  rewrite Hk. split_and!.
  1: done. 1: by apply lookup_insert_eq. 1: done. exists i, frames, g.
  unfold k1. rewrite (lock_cycle kernel_pool_lock _ _ _ Hl). unfold served, k_heap. rewrite get_memst_mmu, <- Hs. split_and!; [done..|].
  rewrite Hs at 1. exact Ho.
Qed.
End alloc_lemmas.

Arguments sv_heap {_ _ _ _ _ _ _ _} _.

(** ** The PCB, the first stack frame, the lists *)

(** The name field after memset and strcpy. *)
Lemma copy_name_zero nm : (length nm < 16)%nat → copy_name nm (replicate 16 0) = nm ++ replicate (16 - length nm) 0.
Proof.
  intros Hlen. unfold copy_name. rewrite drop_replicate.
  replace (16 - length nm)%nat with (S (16 - S (length nm))) by lia. done.
Qed.

(** The PCB of a thread that has just been made. *)
Definition new_task (st : task_status) (t : Z) (nm : list Z) (prio kstack : Z) : task_struct :=
  Task kstack st (nm ++ replicate (16 - length nm) 0) (u8 prio) (u8 prio) NULL
    (VirtualAddr (Bitmap 0 0) 0) magic.

Definition fresh_nodes (t : Z) (h : gmap Z list_elem) : gmap Z list_elem :=
  <[general_tag t := ListElem 0 0]> (<[all_list_tag t := ListElem 0 0]> h).

(** The words of [struct thread_stack] in the order they are written: saved
    registers, where switch_to returns to, and the arguments found there. *)
Definition first_frame `{Layout} (function arg : Z) : list (Z * Z) :=
  [(8, 0); (12, 0); (4, 0); (0, 0); (16, kernel_thread); (24, function); (28, arg)].

(** Where thread_create leaves the stack: the page's end less four times the two
    structs. *)
Definition first_stack : Z := PG_SIZE - 4 * (sizeof_intr_stack + sizeof_thread_stack).

Section create_lemmas.
Context `{FpEval, Layout, Env}.
Context (D : Z → Prop) (T N : Z).
Implicit Types (k : kernel) (t : Z).

Lemma init_thread_ok t nm prio k pa :
  translate (k_mmu k) t = Some pa → (length nm < 16)%nat →
  init_thread t nm prio k =
    Ok tt (set_tasks (<[t := new_task (if t =? k_main_thread k then TASK_RUNNING else TASK_READY) t nm prio
                               (u32 (t + PG_SIZE))]> (k_tasks k))
             (set_nodes (fresh_nodes t (k_nodes k)) k)).
Proof.
  intros Htr Hlen. unfold init_thread.
  set (k1 := set_tasks (<[t := zero_task]> (k_tasks k)) (set_nodes (fresh_nodes t (k_nodes k)) k)).
  assert (Hc : clear_task t k = Ok tt k1) by (unfold clear_task; by rewrite Htr).
  assert (Hins : ∀ x m k0, k_tasks (set_tasks (<[t := x]> m) k0) !! t = Some x)
    by (intros; apply lookup_insert_eq).
  rewrite (bind_Ok _ _ _ _ _ Hc), (proj2 (Z.ltb_lt _ 16)) by lia.
  rewrite (bind_Ok _ _ _ _ _ (update_task_ok _ _ _ k1 (Hins _ _ _))), bind_gets.
  rewrite (bind_Ok _ _ _ _ _ (update_task_ok _ _ _ _ (Hins _ _ _))).
  rewrite (update_task_ok _ _ _ _ (Hins _ _ _)). unfold k1, new_task, set_tasks. simpl.
  by rewrite !insert_insert_eq, copy_name_zero.
Qed.

End create_lemmas.

(** *** Several words in one page *)

(** The memory after the words [ws], as offsets from [A] with their values. *)
Definition stores (m : mmu) (A : Z) (ws : list (Z * Z)) : mmu :=
  foldl (λ m w, pset32 m (A + fst w) (snd w)) m ws.

Definition aligned_words (ws : list (Z * Z)) : Prop :=
  NoDup (fst <$> ws) ∧ Forall (λ o, o mod 4 = 0) (fst <$> ws).

Lemma stores_out m A ws o :
  Forall (λ o', o' mod 4 = 0) (fst <$> ws) → o mod 4 = 0 → (o ∉ fst <$> ws) →
  pword (stores m A ws) (A + o) = pword m (A + o).
Proof.
  revert m. induction ws as [|[o1 v1] ws IH]; intros m Hal Ho Hni; [done|].
  rewrite fmap_cons in Hal, Hni. apply Forall_cons in Hal as [Ho1 Hal].
  apply not_elem_of_cons in Hni as [Hne Hni]. simpl in *. rewrite IH by done.
  apply pword_pset32_other. zlia.
Qed.

Lemma stores_in m A ws o v : aligned_words ws → (o, v) ∈ ws → pword (stores m A ws) (A + o) = u32 v.
Proof.
  revert m. induction ws as [|[o1 v1] ws IH]; intros m [Hnd Hal] Hin; [by apply not_elem_of_nil in Hin|].
  rewrite fmap_cons in Hnd, Hal. apply NoDup_cons in Hnd as [Hni Hnd]. apply Forall_cons in Hal as [Ho1 Hal].
  apply elem_of_cons in Hin as [[= -> ->]|Hin]; [|by apply IH].
  simpl in *. rewrite stores_out by done. apply pword_pset32.
Qed.

Section put_lemmas.
Context `{FpEval, Layout, Env}.
Context (D : Z → Prop) (T N : Z).
Implicit Types (k : kernel).

Fixpoint put_words (base : Z) (ws : list (Z * Z)) : prog kernel unit :=
  match ws with
  | [] => mret tt
  | w :: ws' => _ ← zoom l_kmmu (store32 (u32 (base + fst w)) (snd w)); put_words base ws'
  end.

(** [base] is at offset [o] in heap page [j]. *)
Lemma put_words_ok g B k j b o ws :
  page_at D T N g B (get_memst k) j b → aligned_words ws → o mod 4 = 0 →
  Forall (λ x, 0 ≤ o + x ∧ o + x + 4 ≤ PG_SIZE) (fst <$> ws) →
  let k' := lput l_kmmu (stores (k_mmu k) (frame (get_memst k) b + o) ws) k in
  put_words (heap_page (get_memst k) j + o) ws k = Ok tt k' ∧ page_at D T N g B (get_memst k') j b.
Proof.
  intros Hp [Hnd Hal] Hoal Hr. revert k Hp. induction ws as [|[x v] ws IH]; intros k Hp.
  - assert (Hk : lput l_kmmu (stores (k_mmu k) (frame (get_memst k) b + o) []) k = k) by (by destruct k as [[]]).
    cbv zeta. rewrite Hk. by split.
  - rewrite fmap_cons in Hnd, Hal, Hr. apply NoDup_cons in Hnd as [Hni Hnd].
    apply Forall_cons in Hal as [Hx Hal]. apply Forall_cons in Hr as [Hxr Hr]. simpl in Hx, Hxr.
    destruct (page_store D T N g B _ j b (o + x) v Hp) as (Hst & Hp' & _); [lia|lia|zlia|].
    pose proof Hp as [Ho Hj _ _].
    destruct (heap_page_facts D T N _ j (ho_layout Ho) Hj) as (Hpg0 & Hpg32 & _).
    set (k1 := lput l_kmmu (pset32 (k_mmu k) (frame (get_memst k) b + (o + x)) v) k).
    assert (Hstep : zoom l_kmmu (store32 (u32 (heap_page (get_memst k) j + o + x)) v) k = Ok tt k1).
    { rewrite u32_small by (unfold PG_SIZE in *; lia). rewrite <- Z.add_assoc. by apply zoom_Ok. }
    rewrite <- (get_memst_mmu _ k) in Hp'. destruct (IH Hnd Hal Hr k1 Hp') as [Hrun Hp2].
    assert (Hk : lput l_kmmu (stores (k_mmu k1) (frame (get_memst k1) b + o) ws) k1 =
                 lput l_kmmu (stores (k_mmu k) (frame (get_memst k) b + o) ((x, v) :: ws)) k).
    { unfold k1. simpl stores. rewrite (Z.add_assoc _ o x). by destruct k as [[]]. }
    rewrite Hk in Hrun, Hp2. split; [|done]. simpl put_words.
    rewrite (bind_Ok _ _ _ _ _ Hstep). replace (heap_page (get_memst k) j) with (heap_page (get_memst k1) j); [done|].
    unfold k1. by rewrite get_memst_mmu.
Qed.

(** A word of the page, read back. *)
Lemma page_word g B k j b o ws x v m :
  page_at D T N g B (get_memst k) j b → k_mmu k = stores m (frame (get_memst k) b + o) ws →
  aligned_words ws → o mod 4 = 0 → (x, v) ∈ ws → 0 ≤ o + x → o + x + 4 ≤ PG_SIZE →
  load32 (heap_page (get_memst k) j + o + x) (k_mmu k) = Ok (u32 v) (k_mmu k).
Proof.
  intros Hp Hm Hal Ho Hin Hx0 Hx1. assert (Hx : x mod 4 = 0).
  { destruct Hal as [_ Hal]. rewrite Forall_forall in Hal. apply Hal, list_elem_of_fmap. by exists (x, v). }
  rewrite <- Z.add_assoc. pose proof (page_load D T N g B _ j b (o + x) Hp Hx0 ltac:(lia)) as Hld.
  change (m_mmu (get_memst k)) with (k_mmu k) in Hld. rewrite Hld by zlia. f_equal.
  rewrite Hm, Z.add_assoc. by apply stores_in.
Qed.
End put_lemmas.

Section create_thread.
Context `{FpEval, Layout, Env}.
Context (D : Z → Prop) (T N : Z).
Implicit Types (k : kernel).

Lemma thread_create_ok g B k j b x function arg :
  let t := heap_page (get_memst k) j in
  page_at D T N g B (get_memst k) j b → k_tasks k !! t = Some x → self_kstack x = u32 (t + PG_SIZE) →
  let k' := lput l_kmmu (stores (k_mmu k) (frame (get_memst k) b + first_stack) (first_frame function arg))
              (set_tasks (<[t := with_kstack (t + first_stack) x]> (k_tasks k)) k) in
  thread_create t function arg k = Ok tt k' ∧ page_at D T N g B (get_memst k') j b.
Proof.
  intros t Hp Hx Hks k'. pose proof Hp as [Ho Hj _ _].
  destruct (heap_page_facts D T N _ j (ho_layout Ho) Hj) as (Hpg0 & Hpg32 & _). fold t in Hpg0, Hpg32.
  set (k1 := set_tasks (<[t := with_kstack (t + first_stack) x]> (k_tasks k)) k) in *.
  change (get_memst k) with (get_memst k1) in Hp.
  destruct (put_words_ok D T N g B k1 j b first_stack (first_frame function arg) Hp) as [Hrun Hp'].
  { split; [decided|decided]. }
  { done. }
  { decided. }
  split; [|exact Hp']. unfold thread_create.
  rewrite (bind_Ok _ _ _ _ _ (update_task_ok _ _ _ _ Hx)).
  rewrite (bind_Ok _ _ _ _ _ (update_task_ok _ _ _ _ (lookup_insert_eq _ _ _))).
  match goal with |- mbind _ _ ?k2 = _ => replace k2 with k1 end.
  2: { unfold k1, set_tasks, with_kstack. simpl. rewrite insert_insert_eq, Hks. do 2 f_equal.
    unfold first_stack, sizeof_intr_stack, sizeof_thread_stack, PG_SIZE, u32 in *. f_equal. zlia. }
  rewrite (bind_Ok _ _ _ _ _ (load_task_ok _ _ _ (lookup_insert_eq _ _ _))). simpl self_kstack.
  etransitivity; [|exact Hrun]. simpl put_words. change (heap_page (get_memst k1) j) with t.
  do 6 (rewrite !bind_unfold; destruct (zoom l_kmmu _ _) as [[]| | | |]; [|done..]).
  rewrite bind_unfold. by destruct (zoom l_kmmu _ _) as [[]| | | |].
Qed.

End create_thread.

Section publish.
Context `{FpEval, Layout, Env}.

(** The assertions hold and both lists get the thread. *)
Lemma publish_ok file func n t k rs ts :
  dlist (k_nodes k) thread_ready_list rs → dlist (k_nodes k) thread_all_list ts →
  (∀ z, z ∈ general_tag t :: nodes thread_ready_list rs → z ∉ all_list_tag t :: nodes thread_all_list ts) →
  (general_tag t ∉ nodes thread_ready_list rs) → (all_list_tag t ∉ nodes thread_all_list ts) →
  is_Some (k_nodes k !! general_tag t) → is_Some (k_nodes k !! all_list_tag t) →
  ∃ h', publish file func n t k = Ok tt (set_nodes h' k) ∧
    dlist h' thread_ready_list (rs ++ [general_tag t]) ∧ dlist h' thread_all_list (ts ++ [all_list_tag t]) ∧
    same_outside ((general_tag t :: nodes thread_ready_list rs) ++ (all_list_tag t :: nodes thread_all_list ts))
      (k_nodes k) h'.
Proof.
  intros Hr Ha Hdis Hnr Hna Hsr Hsa.
  destruct (list_append_ok (i_if (k_intr k)) _ _ _ _ Hr Hnr Hsr) as (h1 & Hr1 & Hd1 & Hout1).
  assert (Ha1 : dlist h1 thread_all_list ts).
  { apply (dlist_frame (k_nodes k) _ _ _ _ Ha Hout1). intros z Hz Hz'. apply (Hdis z Hz'), elem_of_cons. auto. }
  assert (Hsa1 : is_Some (h1 !! all_list_tag t)).
  { destruct Hout1 as [Hdom _]. by rewrite <- elem_of_dom, Hdom, elem_of_dom. }
  destruct (list_append_ok (i_if (k_intr k)) _ _ _ _ Ha1 Hna Hsa1) as (h2 & Hr2 & Hd2 & Hout2).
  exists h2. split_and!.
  - unfold publish. assert (Hf1 : ready_find t k = Ok false k).
    { apply zoom_core_read. rewrite (elem_find_ok _ _ _ _ _ Hr).
      - f_equal. apply bool_decide_eq_false_2. intros Hin. apply Hnr, nodes_elem. auto.
      - intros Heq. apply Hnr, nodes_elem. auto. }
    assert (Hf2 : all_find t (set_nodes h1 k) = Ok false (set_nodes h1 k)).
    { apply zoom_core_read. simpl k_nodes. rewrite (elem_find_ok _ _ _ _ _ Ha1).
      - f_equal. apply bool_decide_eq_false_2. intros Hin. apply Hna, nodes_elem. auto.
      - intros Heq. apply Hna, nodes_elem. auto. }
    rewrite (bind_Ok _ _ _ _ _ Hf1), bind_assert, (bind_Ok _ _ _ _ _ (zoom_core _ k _ h1 Hr1)).
    rewrite (bind_Ok _ _ _ _ _ Hf2), bind_assert. rewrite (zoom_core _ (set_nodes h1 k) _ h2 Hr2). done.
  - apply (dlist_frame h1 _ _ _ _ Hd1 Hout2). intros z Hz.
    apply Hdis. revert Hz. rewrite !elem_of_cons, !nodes_elem. set_solver.
  - done.
  - eapply same_outside_trans; [eapply same_outside_mono; [|exact Hout1]|eapply same_outside_mono; [|exact Hout2]];
      set_solver.
Qed.
End publish.

(** ** Property *)

Section spawn.
Context `{FpEval, Layout, Env}.
Context (D : Z → Prop) (T N : Z).
Implicit Types (f g : Z → Z) (k : kernel) (rs ts : list Z).

(** A page can be had, and neither the lists of threads nor the main thread lie in
    a free page. *)
Record can_spawn f k rs ts : Prop := {
  cs_servable : servable D T N f k 1;
  cs_ready : dlist (k_nodes k) thread_ready_list rs;
  cs_all : dlist (k_nodes k) thread_all_list ts;
  cs_apart : ∀ z, z ∈ nodes thread_ready_list rs → z ∉ nodes thread_all_list ts;
  cs_used : ∀ j z, 0 ≤ j < N → bits_of f (heap_bits (get_memst k)) j = false →
    z ∈ k_main_thread k :: nodes thread_ready_list rs ++ nodes thread_all_list ts →
    ¬ region (heap_page (get_memst k) j) PG_SIZE z
}.

Arguments cs_ready {_ _ _ _} _.
Arguments cs_all {_ _ _ _} _.
Arguments cs_apart {_ _ _ _} _.

Lemma fresh_page_at f g k i frames r k' :
  served D T N f k 1 r k' i frames g →
  r = heap_page (get_memst k) i ∧ 0 ≤ i < N ∧ bits_of f (heap_bits (get_memst k)) i = false ∧
  ∃ b, frames = [frame (get_memst k) b] ∧
    page_at D T N g (bits_of g (heap_bits (get_memst k'))) (get_memst k') i b.
Proof.
  intros (Hk & [(Hi & HiN & ->) (_ & _ & Hfree & _) Hmm (Hlen & Hnd) Hff Hmap _ _ _] & _ & Hh).
  destruct frames as [|F [|]]; [simpl in Hlen; lia| |simpl in Hlen; lia].
  destruct (Hff F ltac:(set_solver)) as (b & Hb & -> & _).
  split_and!; [done|lia|lia|apply Hfree; lia|]. exists b. split; [done|]. unfold k_heap in Hh. rewrite Hmm.
  split; [by rewrite <- Hmm|lia|done|]. intros off Hoff.
  pose proof (Hmap 0%nat _ off eq_refl Hoff) as Htr. by rewrite Z.add_0_r in Htr.
Qed.

(** The page and its two nodes are new. *)
Lemma spawn_apart f k rs ts i :
  can_spawn f k rs ts → 0 ≤ i < N → bits_of f (heap_bits (get_memst k)) i = false →
  let t := heap_page (get_memst k) i in
  t ≠ k_main_thread k ∧
  ∀ z, z = general_tag t ∨ z = all_list_tag t →
    (z ∉ nodes thread_ready_list rs) ∧ (z ∉ nodes thread_all_list ts).
Proof.
  intros [_ _ _ _ Hused] Hi Hfree t.
  assert (Hout : ∀ z, z ∈ k_main_thread k :: nodes thread_ready_list rs ++ nodes thread_all_list ts →
    ¬ region t PG_SIZE z) by (intros z; by apply Hused).
  split.
  - intros Heq. apply (Hout (k_main_thread k)); [set_solver|]. rewrite <- Heq. unfold region, PG_SIZE. lia.
  - intros z Hz. split; intros Hin; apply (Hout z);
      (set_solver || (unfold general_tag, all_list_tag, region, PG_SIZE in *; lia)).
Qed.

Lemma fresh_dlist t h l xs :
  (general_tag t ∉ nodes l xs) → (all_list_tag t ∉ nodes l xs) → dlist h l xs → dlist (fresh_nodes t h) l xs.
Proof.
  intros Hg Ha Hd. apply (dlist_ext h); [done|]. intros z Hz. unfold fresh_nodes.
  by rewrite !lookup_insert_ne by congruence.
Qed.

(** Making the new thread known, when its nodes are new. *)
Lemma publish_new_ok file func n f k k3 rs ts i :
  can_spawn f k rs ts → 0 ≤ i < N → bits_of f (heap_bits (get_memst k)) i = false →
  let t := heap_page (get_memst k) i in
  k_nodes k3 = fresh_nodes t (k_nodes k) →
  ∃ h', publish file func n t k3 = Ok tt (set_nodes h' k3) ∧
    dlist h' thread_ready_list (rs ++ [general_tag t]) ∧ dlist h' thread_all_list (ts ++ [all_list_tag t]) ∧
    same_outside ((general_tag t :: nodes thread_ready_list rs) ++ (all_list_tag t :: nodes thread_all_list ts))
      (k_nodes k3) h'.
Proof.
  intros Hcs Hi Hfree t Hn3. destruct (spawn_apart f k rs ts i Hcs Hi Hfree) as [_ Htags]. fold t in Htags.
  destruct (Htags (general_tag t) (or_introl eq_refl)) as [Hg1 Hg2].
  destruct (Htags (all_list_tag t) (or_intror eq_refl)) as [Ha1 Ha2].
  destruct (publish_ok file func n t k3 rs ts) as (h' & Hpub & Hd1 & Hd2 & Hout); rewrite ?Hn3.
  - by apply fresh_dlist, (cs_ready Hcs).
  - by apply fresh_dlist, (cs_all Hcs).
  - intros z [->|Hz]%elem_of_cons [Hz'|Hz']%elem_of_cons; try done.
    + unfold general_tag, all_list_tag in Hz'. lia.
    + by subst z.
    + by apply (cs_apart Hcs z).
  - done.
  - done.
  - unfold fresh_nodes. rewrite lookup_insert_eq. eauto.
  - unfold fresh_nodes. rewrite lookup_insert_ne by (unfold general_tag, all_list_tag; lia).
    rewrite lookup_insert_eq. eauto.
  - exists h'. by rewrite Hn3 in Hout.
Qed.

End spawn.

Arguments cs_servable {_ _ _ _ _ _ _ _ _} _.

(** *** Witness: the demonstration kernel has a free page and a free lock *)

#[local] Existing Instances x87 demo_layout demo_env.

Lemma demo_kernel_memst : get_memst demo_kernel = demo_memst.
Proof. reflexivity. Qed.

Lemma demo_room : room 9 demo_contents demo_memst 1.
Proof.
  exists 0. split; [lia|]. split; [lia|]. split; [vm_compute; congruence|].
  intros j Hj. apply demo_bits_free; [by left|lia].
Qed.

Lemma demo_enough : enough demo_contents demo_memst (Z.to_nat 1).
Proof.
  exists {[0]}. split; [vm_compute; lia|]. intros i ->%elem_of_singleton.
  split; [by vm_compute|]. by apply demo_bits_free; [right|].
Qed.

Lemma demo_can_spawn : can_spawn demo_region 0x2000 9 demo_contents demo_kernel [0x2101c] [].
Proof.
  split.
  - split.
    + done.
    + done.
    + vm_compute. reflexivity.
    + decided.
    + unfold k_heap. rewrite demo_kernel_memst. exact demo_heap_ok.
    + lia.
    + rewrite demo_kernel_memst. exact demo_room.
    + rewrite demo_kernel_memst. exact demo_enough.
  - decided.
  - decided.
  - intros z. rewrite !nodes_elem. simpl. set_solver by lia.
  - intros j z Hj _ Hz.
    assert (Hall : Forall (λ z, z < 0x30000) (0x20000 :: nodes 0x10000 [0x2101c] ++ nodes 0x10020 [])) by decided.
    rewrite Forall_forall in Hall. specialize (Hall z Hz).
    rewrite demo_kernel_memst. change (heap_page demo_memst j) with (0xc0100000 + j * 4096). unfold region. lia.
Qed.

