(* ===== verification/Process.v ===== *)
(** * kernel/process.c: user processes *)

From Stdlib Require Import ZArith Lia.
From stdpp Require Import base tactics gmap strings fin_maps functions list.
From S2P Require Import Prelude ByteMem CString Bitmap Interrupt DList Format Paging Idt Memory.
From S2P Require Import Kernel Sched Sync Alloc Thread.

Definition USER_VADDR_START : Z := 0x8048000.

Definition DIV_ROUND_UP (X STEP : Z) : Z := (X + STEP - 1) / STEP.

Section process_c.
Context `{FpEval, Layout, Env}.

(** The frame start_process leaves for intr_exit: its address is the result. *)
Definition start_process (filename : Z) : prog kernel Z :=
  cur ← running_thread;
  _ ← update_task cur (λ t, with_kstack (u32 (self_kstack t + 4 * sizeof_thread_stack)) t);
  t ← load_task cur;
  let proc_stack := self_kstack t in
  let put off v := zoom l_kmmu (store32 (u32 (proc_stack + off)) v) in
  _ ← put 16 0; _ ← put 12 0; _ ← put 8 0; _ ← put 4 0;
  _ ← put 32 0; _ ← put 28 0; _ ← put 24 0; _ ← put 20 0;
  _ ← put 36 0;
  _ ← put 40 0x33; _ ← put 44 0x33; _ ← put 48 0x33;
  _ ← put 56 filename;
  _ ← put 60 0x2b;
  _ ← put 64 (Z.lor (c_bool (1 <? 1)) (Z.shiftl 1 9));
  page ← get_a_page USER_POOL (0xc0000000 - 0x1000);
  _ ← put 68 (u32 (page + PG_SIZE));
  _ ← put 72 0x33;
  mret proc_stack.

Definition create_page_dir : prog kernel Z :=
  page_dir_vaddr ← malloc_kernel_pages 1;
  if page_dir_vaddr =? NULL then
    _ ← console_print_str (chars "create_page_dir: get_kernel_page failed!");
    mret NULL
  else
    _ ← zoom l_kmmu (memcpy (u32 (page_dir_vaddr + 0x300 * 4)) (0xfffff000 + 0x300 * 4) 1024);
    new_page_dir_phy_addr ← zoom l_kmmu (vaddr_to_paddr page_dir_vaddr);
    _ ← zoom l_kmmu (store32 (u32 (page_dir_vaddr + 1023 * 4)) (Z.lor new_page_dir_phy_addr 7));
    mret page_dir_vaddr.

Definition create_user_vaddr_bitmap (user_prog : Z) : prog kernel unit :=
  let set_uv f := update_task user_prog (λ t, with_uvaddr (f (userprog_vaddr t)) t) in
  _ ← set_uv (λ v, VirtualAddr (addr_bitmap v) USER_VADDR_START);
  let bytes := (0xc0000000 - USER_VADDR_START) / PG_SIZE / 8 in
  let bitmap_pg_cnt := DIV_ROUND_UP bytes PG_SIZE in
  p ← malloc_kernel_pages bitmap_pg_cnt;
  _ ← set_uv (λ v, VirtualAddr (Bitmap (bm_length (addr_bitmap v)) p) (addr_start v));
  _ ← set_uv (λ v, VirtualAddr (Bitmap bytes (bm_bits (addr_bitmap v))) (addr_start v));
  t ← load_task user_prog;
  zoom l_kmmu (bitmap_init (addr_bitmap (userprog_vaddr t))).

Definition process_execute (filename : Z) (nm : list Z) : prog kernel unit :=
  thread ← malloc_kernel_pages 1;
  _ ← init_thread thread nm 31;
  _ ← create_user_vaddr_bitmap thread;
  _ ← thread_create thread start_process_addr filename;
  d ← create_page_dir;
  _ ← update_task thread (with_pgdir d);
  old_status ← k_intr_disable;
  _ ← publish "kernel/process.c" "process_execute" 104 thread;
  _ ← k_intr_set_status old_status;
  mret tt.
End process_c.
