(* ===== verification/AddrSpace.v ===== *)
(** * kernel/process.c: the address space of a process

    What create_page_dir builds, read as the processor reads it: a directory that
    shares the kernel's part with the current one, is empty below and refers to
    itself; and what happens when it is loaded. *)

From Stdlib Require Import ZArith Lia.
From stdpp Require Import base tactics gmap strings fin_maps functions list.
From S2P Require Import Prelude ByteMem CString Bitmap Interrupt DList Format Paging Idt Memory Malloc.
From S2P Require Import Kernel Sched Sync Alloc Thread Spawn Process.

(** ** Copying out of the page directory *)

Section copy_directory.
Context (D : Z → Prop) (T N : Z).
Implicit Types (s : memst) (g : Z → Z) (B : Z → bool).

(** The directory through its own last entry. *)
Lemma load_directory_char g B s off :
  heap_ok D T N g B s → 0 ≤ off < PG_SIZE →
  load_char (0xfffff000 + off) (m_mmu s) = Ok (i8 (pbyte (m_mmu s) (dir s + off))) (m_mmu s).
Proof.
  intros Ho Hoff. pose proof (ho_rec Ho) as Hrec.
  pose proof (translate_window (m_mmu s) 1023 off Hrec ltac:(lia) Hoff (rec_present _ Hrec)) as Htr.
  rewrite (rec_frame _ Hrec) in Htr. change (table_window 1023) with 0xfffff000 in Htr.
  change (frame_of (cr3 (m_mmu s))) with (dir s) in Htr.
  assert (Hram : in_ram (m_mmu s) (dir s + off) 1 = true).
  { eapply in_ram_sub; [exact (rec_ram _ Hrec)|unfold dir; lia|unfold dir, PG_SIZE in *; lia]. }
  unfold load_char, load8. rewrite bind_unfold. cbn [mload mmu_bytemem]. unfold vload8. rewrite Htr. cbn.
  by rewrite Hram.
Qed.

Lemma page_store8 g B s j b off v :
  page_at D T N g B s j b → 0 ≤ off < PG_SIZE →
  let m' := pset8 (m_mmu s) (frame s b + off) v in
  store8 (heap_page s j + off) v (m_mmu s) = Ok tt m' ∧ page_at D T N g B (set_mmu m' s) j b ∧
  (∀ a, via_table T s a → translate m' a = translate (m_mmu s) a ∧ via_table T (set_mmu m' s) a).
Proof.
  intros Hp Hoff m'. split.
  - unfold store8. cbn [mstore mmu_bytemem]. unfold vstore8. rewrite (pa_map Hp off Hoff). cbn.
    rewrite (page_in_ram D T N g B s j b off 1 Hp ltac:(lia) ltac:(unfold PG_SIZE in *; lia) ltac:(lia)).
    unfold m', pset8. by rewrite (u8_small (u8 v)) by apply u8_range.
  - apply (page_at_frame D T N g B s j b m' Hp); [done|done|]. intros x Hx. unfold m'. rewrite pbyte_pset8.
    rewrite decide_False; [done|]. intros ->. apply Hx. unfold region, PG_SIZE in *. lia.
Qed.

Lemma dir_not_pool s b x :
  heap_layout D T N s → 0 ≤ b < pool_frames s → region (dir s) PG_SIZE x → ¬ region (frame s b) PG_SIZE x.
Proof.
  intros Hl Hb Hx Hx'. destruct (hl_apart Hl x); [|done].
  unfold in_pool, region, frame, PG_SIZE in *. nia.
Qed.

(** [n] bytes of the directory from [i] on go to the page at [o]. *)
Lemma copy_directory_ok n g B s j b o i :
  page_at D T N g B s j b → 0 ≤ o → o + Z.of_nat n ≤ PG_SIZE → 0 ≤ i → i + Z.of_nat n ≤ PG_SIZE →
  ∃ m', memcpy_loop n (heap_page s j + o) (0xfffff000 + i) (m_mmu s) = Ok tt m' ∧
    page_at D T N g B (set_mmu m' s) j b ∧ ram m' = ram (m_mmu s) ∧ cr3 m' = cr3 (m_mmu s) ∧
    (∀ a, via_table T s a → translate m' a = translate (m_mmu s) a ∧ via_table T (set_mmu m' s) a) ∧
    (∀ x, pbyte m' x = if decide (region (frame s b + o) (Z.of_nat n) x)
                       then pbyte (m_mmu s) (dir s + i + (x - (frame s b + o))) else pbyte (m_mmu s) x).
Proof.
  revert s o i. induction n as [|n IH]; intros s o i Hp Ho0 Ho1 Hi0 Hi1.
  - exists (m_mmu s). assert (Hs : set_mmu (m_mmu s) s = s) by (by destruct s). rewrite Hs.
    split_and!; [done..|]. intros x. rewrite decide_False; [done|]. unfold region. lia.
  - destruct (page_store8 g B s j b o (i8 (pbyte (m_mmu s) (dir s + i))) Hp) as (Hst & Hp1 & Hvia1); [lia|].
    set (m1 := pset8 (m_mmu s) (frame s b + o) _) in *.
    destruct (IH (set_mmu m1 s) (o + 1) (i + 1) Hp1) as (m' & Hrun & Hp' & Hram & Hcr & Hvia & Hby); [lia..|].
    change (heap_page (set_mmu m1 s) j) with (heap_page s j) in Hrun.
    change (m_mmu (set_mmu m1 s)) with m1 in *. change (frame (set_mmu m1 s) b) with (frame s b) in Hby.
    change (dir (set_mmu m1 s)) with (dir s) in Hby.
    change (set_mmu m' (set_mmu m1 s)) with (set_mmu m' s) in *.
    exists m'. split_and!.
    + simpl memcpy_loop. rewrite (bind_Ok _ _ _ _ _ (load_directory_char g B s i (pa_heap Hp) ltac:(lia))).
      rewrite (bind_Ok _ _ _ _ _ Hst), <- !Z.add_assoc. exact Hrun.
    + done.
    + by rewrite Hram.
    + by rewrite Hcr.
    + intros a Ha. destruct (Hvia1 a Ha) as [Ht1 Hv1]. destruct (Hvia a Hv1) as [Ht2 Hv2]. by rewrite Ht2.
    + intros x. rewrite Hby. pose proof Hp as [Hok _ Hb _]. pose proof (ho_layout Hok) as Hl.
      assert (Hdir : ∀ y, region (dir s) PG_SIZE y → pbyte m1 y = pbyte (m_mmu s) y).
      { intros y Hy. unfold m1. rewrite pbyte_pset8, decide_False; [done|]. intros ->.
        apply (dir_not_pool s b _ Hl Hb Hy). unfold region, PG_SIZE in *. lia. }
      destruct (decide (x = frame s b + o)) as [->|Hne].
      * rewrite decide_False, decide_True by (unfold region; lia). unfold m1.
        rewrite pbyte_pset8, decide_True by done. rewrite u8_i8, u8_small by apply pbyte_range. f_equal. lia.
      * assert (Hm1 : pbyte m1 x = pbyte (m_mmu s) x) by (unfold m1; by rewrite pbyte_pset8, decide_False).
        repeat case_decide; unfold region in *; try lia.
        rewrite Hdir by (unfold region, PG_SIZE in *; lia). f_equal. lia.
Qed.
End copy_directory.

(** ** A directory in a page *)

(** The memory as the processor sees it with the directory at [pa]. *)
Definition with_dir (pa : Z) (m : mmu) : mmu := Mmu (ram m) (bytes m) (u32 pa).

(** What the page at [F] must hold to be the directory of a process. *)
Record directory_words (m : mmu) (F : Z) : Prop := {
  dw_frame : 0 ≤ F < 2 ^ 32 ∧ F mod PG_SIZE = 0 ∧ in_ram m F PG_SIZE = true;
  dw_user : ∀ i, 0 ≤ i < 768 → pword m (F + i * 4) = 0;
  dw_kernel : ∀ i, 768 ≤ i < 1023 → pword m (F + i * 4) = pword m (frame_of (cr3 m) + i * 4);
  dw_self : pword m (F + 1023 * 4) = u32 (Z.lor F 7)
}.

Lemma directory_space m F :
  recursive m → directory_words m F →
  recursive (with_dir F m) ∧
  (∀ va, 0 ≤ va < 0xc0000000 → translate (with_dir F m) va = None) ∧
  (∀ va, 0xc0000000 ≤ va < 0xffc00000 → translate (with_dir F m) va = translate m va).
Proof.
  intros Hrec [(HF & Hal & Hram) Hu Hk Hs].
  assert (Hcr : frame_of (cr3 (with_dir F m)) = F) by (simpl; rewrite u32_small, frame_of_id by done; done).
  assert (Hpde : ∀ va, pde_paddr (with_dir F m) va = F + va / 2 ^ 22 * 4) by (intros va; unfold pde_paddr; by rewrite Hcr).
  destruct (entry_frame F HF Hal) as (Hef & Hep & _).
  split_and!.
  - split; rewrite Hcr; [done|..]; change (pword (with_dir F m)) with (pword m); by rewrite Hs.
  - intros va Hva. unfold translate. rewrite Hpde. change (pword (with_dir F m)) with (pword m).
    rewrite Hu by zlia. repeat (case_match; [done|]). done.
  - intros va Hva. unfold translate. rewrite Hpde. change (pword (with_dir F m)) with (pword m).
    assert (Hin : ∀ A, in_ram m A PG_SIZE = true → in_ram m (A + va / 2 ^ 22 * 4) 4 = true).
    { intros A HA. eapply in_ram_sub; [exact HA|zlia|unfold PG_SIZE; zlia]. }
    change (in_ram (with_dir F m)) with (in_ram m). rewrite (Hin F Hram), Hk by zlia.
    change (pde_paddr m va) with (frame_of (cr3 m) + va / 2 ^ 22 * 4).
    by rewrite (Hin _ (rec_ram _ Hrec)).
Qed.

(** The address space of the directory at [pa]: the kernel's as now, nothing below,
    and itself in its last entry. *)
Definition process_space (m : mmu) (pa : Z) : Prop :=
  recursive (with_dir pa m) ∧
  (∀ va, 0 ≤ va < 0xc0000000 → translate (with_dir pa m) va = None) ∧
  (∀ va, 0xc0000000 ≤ va < 0xffc00000 → translate (with_dir pa m) va = translate m va).

Section build_directory.
Context (D : Z → Prop) (T N : Z).
Implicit Types (s : memst) (g : Z → Z) (B : Z → bool).

Lemma page_zero g B s j b :
  page_at D T N g B s j b →
  (∀ a, region (heap_page s j) PG_SIZE a → mload (m_mmu s) a = Some 0) →
  ∀ x, region (frame s b) PG_SIZE x → pbyte (m_mmu s) x = 0.
Proof.
  intros Hp Hz x Hx. unfold region in *. specialize (Hz (heap_page s j + (x - frame s b)) ltac:(lia)).
  cbn [mload mmu_bytemem] in Hz. unfold vload8 in Hz. rewrite (pa_map Hp) in Hz by lia.
  cbn in Hz. destruct (in_ram _ _ 1); [|done]. injection Hz as Hz. rewrite <- Hz. f_equal. lia.
Qed.

Lemma page_vaddr_to_paddr g B s j b :
  page_at D T N g B s j b → vaddr_to_paddr (heap_page s j) (m_mmu s) = Ok (frame s b) (m_mmu s).
Proof.
  intros [Ho _ _ Hmap]. specialize (Hmap 0 ltac:(done)). rewrite !Z.add_0_r in Hmap.
  apply translate_walks in Hmap as (pde & pte & Hw & ->).
  by apply (vaddr_to_paddr_ok _ _ pde pte); [apply Ho|].
Qed.

(** The copy of the kernel's quarter and the last entry make such a directory. *)
Lemma directory_built g B s j b m1 :
  page_at D T N g B s j b → (∀ x, region (frame s b) PG_SIZE x → pbyte (m_mmu s) x = 0) →
  ram m1 = ram (m_mmu s) → cr3 m1 = cr3 (m_mmu s) →
  (∀ x, pbyte m1 x = if decide (region (frame s b + 0xc00) 1024 x)
                     then pbyte (m_mmu s) (dir s + 0xc00 + (x - (frame s b + 0xc00))) else pbyte (m_mmu s) x) →
  directory_words (pset32 m1 (frame s b + 4092) (Z.lor (frame s b) 7)) (frame s b).
Proof.
  intros [Ho Hj Hb Hmap] Hz Hram Hcr Hby. pose proof (ho_layout Ho) as Hl.
  destruct (frame_facts D T N s b Hl Hb) as [HF Hal]. set (F := frame s b) in *.
  assert (Hdis : F + PG_SIZE ≤ dir s ∨ dir s + PG_SIZE ≤ F).
  { pose proof (frame_of_aligned (cr3 (m_mmu s))) as Hd. change (frame_of _) with (dir s) in Hd.
    destruct (decide (dir s = F)) as [Heq|]; [|unfold PG_SIZE in *; zlia].
    destruct (dir_not_pool D T N s b F Hl Hb); unfold region, PG_SIZE; fold F; lia. }
  assert (Hdirb : ∀ x, region (dir s) PG_SIZE x → pbyte m1 x = pbyte (m_mmu s) x).
  { intros x Hx. rewrite Hby, decide_False; [done|]. unfold region, PG_SIZE in *. lia. }
  split.
  - split_and!; [lia|lia|done|]. unfold in_ram. simpl. rewrite Hram.
    pose proof (page_in_ram D T N g B s j b 0 PG_SIZE ltac:(by split) ltac:(lia) ltac:(lia) ltac:(done)) as Hr.
    by rewrite Z.add_0_r in Hr.
  - intros i Hi. rewrite pword_pset32_other by lia.
    assert (Hb0 : ∀ x, region (F + i * 4) 4 x → pbyte m1 x = 0).
    { intros x Hx. unfold region in Hx. rewrite Hby, decide_False by (unfold region; lia).
      apply Hz. unfold region, PG_SIZE. lia. }
    unfold pword. by rewrite !Hb0 by (unfold region; lia).
  - intros i Hi. simpl cr3. rewrite Hcr. change (frame_of (cr3 (m_mmu s))) with (dir s).
    rewrite !pword_pset32_other by (unfold PG_SIZE in *; lia).
    assert (Hw : ∀ y, 0 ≤ y < 4 → pbyte m1 (F + i * 4 + y) = pbyte m1 (dir s + i * 4 + y)).
    { intros y Hy. rewrite (Hdirb (dir s + _ + y)) by (unfold region, PG_SIZE; lia).
      rewrite Hby, decide_True by (unfold region; lia). f_equal. lia. }
    unfold pword. pose proof (Hw 0 ltac:(lia)) as Hw0. rewrite !Z.add_0_r in Hw0.
    by rewrite Hw0, !Hw by lia.
  - change (1023 * 4) with 4092. apply pword_pset32.
Qed.
End build_directory.

(** ** create_page_dir *)

Section create_dir.
Context `{FpEval, Layout, Env}.
Context (D : Z → Prop) (T N : Z).
Implicit Types (f g : Z → Z) (k : kernel).

(** The bytes of the page are copied and set behind the page tables' back, so to
    speak: the rest of memory is as malloc_kernel_pages left it. *)
Lemma create_page_dir_ok f k :
  servable D T N f k 1 →
  wp create_page_dir (λ r k', ∃ j g b,
    r = heap_page (get_memst k) j ∧ bits_of f (heap_bits (get_memst k)) j = false ∧
    k' = lput l_kmmu (k_mmu k') k ∧
    page_at D T N g (bits_of g (heap_bits (get_memst k'))) (get_memst k') j b ∧
    directory_words (k_mmu k') (frame (get_memst k') b) ∧
    via_kept T k k' ∧
    first_run (bits_of f (heap_bits (get_memst k))) 1 (request_limit (heap_bits (get_memst k)) 1) j ∧
    pages_taken N f g (get_memst k) 1 j [frame (get_memst k) b] ∧
    bits_of f (pool_bitmap (kernel_pool (get_memst k))) b = false ∧
    ∀ x, in_pool (get_memst k) x → ¬ region (frame (get_memst k) b) PG_SIZE x →
      pbyte (k_mmu k') x = pbyte (k_mmu k) x) k.
Proof.
  intros Hsv. unfold create_page_dir. apply wp_bind. eapply wp_mono; [by apply (malloc_kernel_pages_ok D T N f)|].
  intros r k1 (j & frames & g & Hserved).
  destruct (fresh_page_at D T N f g k j frames r k1 Hserved) as (-> & Hj & Hfree & b & -> & Hp).
  destruct Hserved as (Hk1 & [_ Hrun Hmm _ Hff _ Hzero Hkeep Hby] & Htk & _).
  assert (Hl : heap_layout D T N (get_memst k)) by apply (ho_layout (sv_heap Hsv)).
  destruct (heap_page_facts D T N _ j Hl Hj) as (Hr0 & Hr32 & Hral & _). set (r := heap_page (get_memst k) j) in *.
  assert (Hr : r = heap_page (get_memst k1) j) by (by rewrite Hk1, get_memst_mmu).
  assert (Hnull : r ≠ NULL).
  { pose proof (hl_start Hl). unfold r, heap_page, heap_start, NULL, PG_SIZE in *. lia. }
  rewrite (proj2 (Z.eqb_neq _ _) Hnull). change (0x300 * 4) with 0xc00. change (1023 * 4) with 4092.
  rewrite (u32_small (r + 0xc00)), (u32_small (r + 4092)) by (unfold PG_SIZE in *; lia). set (B := bits_of g _) in *. set (s1 := get_memst k1) in *.
  destruct (copy_directory_ok D T N (Z.to_nat 1024) g B s1 j b 0xc00 0xc00 Hp)
    as (m1 & Hcopy & Hp1 & Hram1 & Hcr1 & Hvia1 & Hby1); [unfold PG_SIZE; lia..|].
  assert (Hcp : zoom l_kmmu (memcpy (r + 0xc00) (0xfffff000 + 0xc00) 1024) k1 =
                Ok (r + 0xc00) (lput l_kmmu m1 k1)).
  { apply zoom_Ok. unfold memcpy. rewrite Hr, (bind_Ok _ _ _ _ _ Hcopy). done. }
  eapply wpp_step; [exact Hcp|]. set (k2 := lput l_kmmu m1 k1).
  assert (Hs2 : get_memst k2 = set_mmu m1 s1) by apply get_memst_mmu. rewrite <- Hs2 in Hp1.
  assert (Hpa : zoom l_kmmu (vaddr_to_paddr r) k2 = Ok (frame s1 b) k2).
  { apply zoom_kmmu_read. pose proof (page_vaddr_to_paddr D T N _ _ _ _ _ Hp1) as Hv.
    rewrite Hs2 in Hv. change (heap_page (set_mmu m1 s1) j) with (heap_page s1 j) in Hv. by rewrite <- Hr in Hv. }
  eapply wpp_step; [exact Hpa|].
  destruct (page_store D T N g B (get_memst k2) j b 4092 (Z.lor (frame s1 b) 7) Hp1) as (Hst & Hp3 & Hvia3); [done..|].
  rewrite Hs2 in Hst, Hp3, Hvia3. change (heap_page (set_mmu m1 s1) j) with (heap_page s1 j) in Hst. rewrite <- Hr in Hst.
  change (frame (set_mmu m1 s1) b) with (frame s1 b) in *. change (m_mmu (set_mmu m1 s1)) with m1 in *.
  set (m3 := pset32 m1 (frame s1 b + 4092) (Z.lor (frame s1 b) 7)) in *.
  eapply wpp_step; [apply (zoom_Ok l_kmmu _ k2 tt m3); exact Hst|]. apply wpp_ret.
  assert (Hk3 : lput l_kmmu m3 k2 = lput l_kmmu m3 k1) by (by destruct k1 as [[]]).
  rewrite Hk3, get_memst_mmu. change (set_mmu m3 (set_mmu m1 s1)) with (set_mmu m3 s1) in Hp3.
  exists j, g, b. split_and!; [done|done| |exact Hp3| | |done|done| |].
  - rewrite Hk1. by destruct k as [[]].
  - apply (directory_built D T N g B s1 j b m1 Hp); [|done..]. apply (page_zero D T N g B s1 j b Hp).
    intros a Ha. apply Hzero. rewrite <- Hr in Ha. unfold region, PG_SIZE in *. lia.
  - intros a pa Hva Htr. destruct (Hkeep a pa Hva Htr) as [Ht1 Hv1]. destruct (Hvia1 a Hv1) as [Ht2 Hv2].
    destruct (Hvia3 a Hv2) as [Ht3 Hv3]. rewrite get_memst_mmu. change (k_mmu (lput l_kmmu m3 k1)) with m3.
    by rewrite Ht3, Ht2.
  - destruct (Hff _ (proj2 (list_elem_of_singleton _ _) eq_refl)) as (b' & _ & Heq & Hbf).
    by apply (frame_inj (get_memst k)) in Heq as <-.
  - intros x Hx Hnr. change (k_mmu (lput l_kmmu m3 k1)) with m3.
    assert (Hfr : frame s1 b = frame (get_memst k) b) by (by rewrite Hmm).
    unfold region in Hnr. unfold m3. rewrite pbyte_pset32_out, Hby1, decide_False.
    + apply Hby; [done|]. by intros F ->%list_elem_of_singleton.
    + rewrite Hfr. unfold region, PG_SIZE in *. lia.
    + rewrite Hfr. unfold region, PG_SIZE in *. lia.
Qed.
End create_dir.

(** ** Loading a directory that does not map the descriptor table *)

Section activate_fault.
Context `{FpEval, Layout, Env}.

Lemma page_dir_activate_fault k t x pa :
  k_tasks k !! t = Some x → directory_of x (k_mmu k) pa →
  gdt_mapped k = true → gdt_mapped (with_cr3 pa k) = false →
  ∃ c, page_dir_activate t k = Fault (video_descriptor k) (add_output c (with_cr3 pa k)).
Proof.
  intros Hx Hdir Hg Hg'.
  assert (Hpa : (if negb (pgdir x =? NULL) then zoom l_kmmu (vaddr_to_paddr (pgdir x))
                 else mret 0x100000) k = Ok pa k).
  { unfold directory_of in Hdir. destruct (pgdir x =? NULL); simpl; [by rewrite Hdir|].
    by apply zoom_kmmu_read. }
  destruct (kprint_x (line "pagedir_phy_addr: %x") (chars "pagedir_phy_addr: ") [10] pa k)
    as [c1 Hp1]; [done..|].
  destruct (kprint_lit (line "-----change cr3 beginning!-----") (add_output c1 k))
    as [c2 Hp2]; [done..|].
  set (k2 := add_output c2 (add_output c1 k)) in *.
  destruct (kprint_x (line "pde: 0x%x") (chars "pde: 0x") [10] pa k2) as [c3 Hp3]; [done..|].
  pose proof (kprint_unmapped (line "-----change cr3 finished!-----") (with_cr3 pa (add_output c3 k2))) as Hp4.
  exists (((c1 ++ c2) ++ c3)). unfold page_dir_activate.
  rewrite (bind_Ok _ _ _ _ _ (load_task_ok _ _ _ Hx)), (bind_Ok _ _ _ _ _ Hpa).
  rewrite (bind_Ok _ _ _ _ _ Hp1), (bind_Ok _ _ _ _ _ Hp2).
  assert (Hcr : set_cr3 pa k2 = Ok tt (with_cr3 pa (add_output c3 k2))).
  { unfold set_cr3. rewrite (bind_Ok _ _ _ _ _ Hp3). unfold zoom, with_cr3. reflexivity. }
  rewrite (bind_Ok _ _ _ _ _ Hcr). rewrite Hp4; [|done|by vm_compute| |].
  - unfold k2. by rewrite !with_cr3_output, !add_output_twice, !app_assoc.
  - apply (bool_decide_unpack _). by vm_compute.
  - unfold k2. by rewrite !with_cr3_output, !gdt_mapped_output.
Qed.
End activate_fault.

(** ** Properties *)

Section address_space.
Context `{FpEval, Layout, Env}.
Context (D : Z → Prop) (T N : Z).
Implicit Types (f g : Z → Z) (k : kernel).

(** C19 create_page_dir makes the address space of a process: on a fresh heap page
    it leaves a directory which, loaded into CR3, maps every kernel address below the
    tables' window as now, maps nothing below 0xc0000000, and refers to itself in its
    last entry, so that memory.c's way to the tables works in it; its physical address
    is what vaddr_to_paddr computes; mappings of the current directory and the heap's
    invariant are kept. *)
Theorem create_page_dir_shares_kernel f k :
  servable D T N f k 1 →
  wp create_page_dir (λ d k', ∃ j g pa,
    0 ≤ j < N ∧ d = heap_page (get_memst k) j ∧ bits_of f (heap_bits (get_memst k)) j = false ∧
    vaddr_to_paddr d (k_mmu k') = Ok pa (k_mmu k') ∧
    recursive (with_dir pa (k_mmu k')) ∧
    (∀ va, 0 ≤ va < 0xc0000000 → translate (with_dir pa (k_mmu k')) va = None) ∧
    (∀ va, 0xc0000000 ≤ va < 0xffc00000 →
       translate (with_dir pa (k_mmu k')) va = translate (k_mmu k') va) ∧
    (∀ a pa, via_table T (get_memst k) a → translate (k_mmu k) a = Some pa →
       translate (k_mmu k') a = Some pa) ∧
    k_heap D T N g k' ∧ k' = lput l_kmmu (k_mmu k') k) k.
Proof.
  intros Hsv. eapply wp_mono; [by apply (create_page_dir_ok D T N f)|].
  intros d k' (j & g & b & -> & Hfree & Hk & Hp & Hdw & Hkeep & _).
  pose proof (ho_rec (pa_heap Hp)) as Hrec.
  destruct (directory_space _ _ Hrec Hdw) as (Hr & Hu & Hkn).
  exists j, g, (frame (get_memst k') b). pose proof (pa_page Hp).
  split_and!; try done; try lia; [|intros a pa' Hv Ha; by apply (Hkeep a pa')|apply Hp].
  apply (page_vaddr_to_paddr D T N) in Hp. rewrite Hk in Hp at 1. by rewrite get_memst_mmu in Hp.
Qed.

(** Switching to a process stops the machine: the directory create_page_dir made
    maps nothing below 0xc0000000, where tss_init has put the descriptor table, so the
    first character printed after CR3 is loaded faults on the screen's descriptor, and
    process_activate never comes back. *)
Theorem process_switch_faults f k t x :
  servable D T N f k 1 → k_tasks k !! t = Some x → t ≠ NULL →
  gdt_mapped k = true → via_table T (get_memst k) (video_descriptor k) →
  video_descriptor k < 0xc0000000 →
  ∃ d k' k'', create_page_dir k = Ok d k' ∧
    (_ ← update_task t (with_pgdir d); process_activate t : prog kernel unit) k' =
      Fault (video_descriptor k) k''.
Proof.
  intros Hsv Hx Ht Hg Hvia Hlow.
  destruct (proj1 (wp_Ok _ _ _) (create_page_dir_ok D T N f k Hsv))
    as (d & k' & Hrun & j & g & b & Hd & Hfree & Hk & Hp & Hdw & Hkeep & _).
  exists d, k'. pose proof (ho_rec (pa_heap Hp)) as Hrec.
  destruct (directory_space _ _ Hrec Hdw) as (_ & Hu & _).
  assert (Hx' : k_tasks k' !! t = Some x) by (by rewrite Hk).
  set (k1 := set_tasks (<[t := with_pgdir d x]> (k_tasks k')) k').
  assert (Hv1 : video_descriptor k1 = video_descriptor k) by (unfold k1; by rewrite Hk).
  assert (Hdir : directory_of (with_pgdir d x) (k_mmu k1) (frame (get_memst k') b)).
  { unfold directory_of. simpl pgdir. rewrite (proj2 (Z.eqb_neq d NULL)).
    - rewrite Hd. apply (page_vaddr_to_paddr D T N) in Hp. rewrite Hk in Hp at 1. by rewrite get_memst_mmu in Hp.
    - pose proof (hl_start (ho_layout (sv_heap Hsv))).
      pose proof (pa_page Hp). rewrite Hd. unfold heap_page, heap_start, NULL, PG_SIZE in *. lia. }
  assert (Hm : ∃ pa, translate (k_mmu k) (video_descriptor k) = Some pa).
  { unfold gdt_mapped in Hg. by apply bool_decide_eq_true in Hg. }
  destruct Hm as [pa Hpa]. pose proof Hvia as [Hv0 _].
  destruct (page_dir_activate_fault k1 t (with_pgdir d x) (frame (get_memst k') b)) as [c Hf].
  - apply lookup_insert_eq.
  - exact Hdir.
  - unfold gdt_mapped. rewrite Hv1. apply bool_decide_eq_true_2. exists pa. by apply (Hkeep _ pa).
  - unfold gdt_mapped. apply bool_decide_eq_false_2.
    change (video_descriptor (with_cr3 _ k1)) with (video_descriptor k1). rewrite Hv1.
    change (k_mmu (with_cr3 (frame (get_memst k') b) k1)) with (with_dir (frame (get_memst k') b) (k_mmu k')).
    rewrite Hu by lia. by intros [].
  - rewrite Hv1 in Hf. eexists. split; [exact Hrun|]. rewrite (bind_Ok _ _ _ _ _ (update_task_ok _ _ _ _ Hx')).
    unfold process_activate. rewrite (proj2 (Z.eqb_neq t NULL) Ht). change (negb false) with true.
    rewrite bind_assert, bind_unfold. fold k1. by rewrite Hf.
Qed.
End address_space.

(** *** Witnesses *)

#[local] Existing Instances x87 demo_layout demo_env.

Lemma create_page_dir_shares_kernel_witness :
  ∃ d k' pa, create_page_dir demo_kernel = Ok d k' ∧ 0xc0100000 ≤ d < 0xc0109000 ∧
    recursive (with_dir pa (k_mmu k')) ∧ translate (with_dir pa (k_mmu k')) 0x123 = None.
Proof.
  destruct (proj1 (wp_Ok _ _ _) (create_page_dir_shares_kernel demo_region 0x2000 9 demo_contents demo_kernel
    (cs_servable demo_can_spawn)))
    as (d & k' & Hrun & j & g & pa & Hj & -> & _ & _ & Hrec & Hlow & _).
  exists (heap_page (get_memst demo_kernel) j), k', pa. split; [exact Hrun|]. split; [|split; [exact Hrec|]].
  - rewrite demo_kernel_memst. change (heap_page demo_memst j) with (0xc0100000 + j * 4096). lia.
  - apply Hlow. lia.
Defined.

(** The descriptor table at 0x800, as tss_init leaves it. *)
Definition demo_low_kernel : kernel := set_gdtr (0x800 * 2 ^ 16 + 55) 0x20 demo_kernel.

Lemma demo_low_servable : servable demo_region 0x2000 9 demo_contents demo_low_kernel 1.
Proof.
  destruct (cs_servable demo_can_spawn) as [H1 H2 H3 H4 H5 H6 H7 H8].
  split; [exact H1|exact H2|exact H3|exact H4|exact H5|exact H6|exact H7|exact H8].
Qed.

Lemma process_switch_faults_witness :
  ∃ d k' k'', create_page_dir demo_low_kernel = Ok d k' ∧
    (_ ← update_task 0x21000 (with_pgdir d); process_activate 0x21000 : prog kernel unit) k' = Fault 0x818 k''.
Proof.
  apply (process_switch_faults demo_region 0x2000 9 demo_contents demo_low_kernel 0x21000 (demo_task TASK_READY)).
  - exact demo_low_servable.
  - vm_compute. reflexivity.
  - discriminate.
  - vm_compute. reflexivity.
  - split; [vm_compute; split; congruence|vm_compute; reflexivity].
  - vm_compute. reflexivity.
Defined.
