(* ===== verification/Execute.v ===== *)
(** * kernel/process.c: making a process

    A run of calls to the allocator on a heap that is used from the front, what each
    leaves of the pages handed out before, and with it process_execute from its first
    page to the two lists of threads. *)

From Stdlib Require Import ZArith Lia.
From stdpp Require Import base tactics gmap strings fin_maps functions list.
From S2P Require Import Prelude ByteMem CString Bitmap Interrupt DList Format Paging Idt Memory Malloc.
From S2P Require Import Kernel Sched Sync Alloc Thread Spawn Process AddrSpace.

(** ** The heap, page after page *)

Section frames.
Context (D : Z → Prop) (T N : Z).
Implicit Types (s : memst) (f g : Z → Z).

Lemma enough_less f s c c' : (c' ≤ c)%nat → enough f s c → enough f s c'.
Proof. intros Hc (X & Hsize & HX). exists X. split; [lia|done]. Qed.

Lemma size_list_to_set_le (l : list Z) : (size (list_to_set l : gset Z) ≤ length l)%nat.
Proof.
  induction l as [|x l IH]; [done|]. rewrite list_to_set_cons. simpl length.
  pose proof (size_union_alt {[x]} (list_to_set l : gset Z)) as Hu. rewrite size_singleton in Hu.
  pose proof (subseteq_size (list_to_set l ∖ {[x]} : gset Z) (list_to_set l) ltac:(set_solver)). lia.
Qed.

(** What is left when [n] frames are gone. *)
Lemma enough_after f g s n i (frames : list Z) c :
  pages_taken N f g s n i frames → enough f s (length frames + c) → enough g s c.
Proof.
  intros (_ & Hpool & _) (X & Hsize & HX).
  set (R := list_to_set ((λ F, (F - phy_addr_start (kernel_pool s)) / PG_SIZE) <$> frames) : gset Z).
  assert (HR : (size R ≤ length frames)%nat).
  { etransitivity; [apply size_list_to_set_le|]. by rewrite length_fmap. }
  exists (X ∖ R). split.
  - rewrite size_difference_alt. pose proof (subseteq_size (X ∩ R) R ltac:(set_solver)). lia.
  - intros b [Hb HbR]%elem_of_difference. destruct (HX b Hb) as [Hr Hfree]. split; [done|].
    apply not_true_is_false. rewrite Hpool by done. intros [Htk|Hin]; [congruence|]. apply HbR.
    unfold R. apply elem_of_list_to_set, list_elem_of_fmap. exists (frame s b). split; [|done].
    unfold frame, PG_SIZE. zlia.
Qed.

(** The heap page [j] is mapped to frame [b]. *)
Definition maps_page s (j b : Z) : Prop :=
  ∀ off, 0 ≤ off < PG_SIZE → translate (m_mmu s) (heap_page s j + off) = Some (frame s b + off).

(** Reading a mapped page reads its frame. *)
Lemma maps_page_load g B s j b off :
  heap_ok D T N g B s → 0 ≤ b < pool_frames s → maps_page s j b → 0 ≤ off < PG_SIZE →
  mload (m_mmu s) (heap_page s j + off) = Some (pbyte (m_mmu s) (frame s b + off)).
Proof.
  intros Ho Hb Hm Hoff. destruct (hl_pool (ho_layout Ho)) as (Hp0 & _ & Hp1 & _).
  cbn [mload mmu_bytemem]. unfold vload8. rewrite (Hm off Hoff). cbn.
  assert (Hr : in_ram (m_mmu s) (frame s b + off) 1 = true).
  { apply in_ram_true. unfold frame, PG_SIZE in *. nia. }
  by rewrite Hr.
Qed.

Lemma frame_in_pool s b off : 0 ≤ b < pool_frames s → 0 ≤ off < PG_SIZE → in_pool s (frame s b + off).
Proof. unfold in_pool, region, frame, PG_SIZE. nia. Qed.

Lemma frames_apart s b b' off : b ≠ b' → 0 ≤ off < PG_SIZE → ¬ region (frame s b') PG_SIZE (frame s b + off).
Proof. unfold region, frame, PG_SIZE. lia. Qed.
End frames.

(** ** One call after the other *)

Section calls.
Context `{FpEval, Layout, Env}.
Context (D : Z → Prop) (T N : Z).
Implicit Types (f g : Z → Z) (k : kernel).

(** The first [p] pages of the heap are in use and no others, [c] more can be had,
    and the allocator's lock is free. *)
Record heap_at f k (p : Z) (c : nat) : Prop := {
  ha_fuel : wait_fuel ≠ 0%nat;
  ha_cur : k_cur k ≠ NULL;
  ha_lock : k_locks k !! kernel_pool_lock = Some (Lock NULL 1 0);
  ha_waiters : dlist (k_nodes k) (waiters kernel_pool_lock) [];
  ha_heap : k_heap D T N f k;
  ha_used : ∀ j, 0 ≤ j < N → bits_of f (heap_bits (get_memst k)) j = bool_decide (j < p);
  ha_room : 0 ≤ p ∧ p + Z.of_nat c ≤ N ∧ N ≤ 8 * bm_length (heap_bits (get_memst k));
  ha_enough : enough f (get_memst k) c
}.

Arguments ha_heap {_ _ _ _} _.

(** Only memory differs. *)
Definition only_memory k k' : Prop := k' = lput l_kmmu (k_mmu k') k.

(** The bytes of memory may differ, the allocator's records do not. *)
Definition same_pools k k' : Prop := get_memst k' = set_mmu (k_mmu k') (get_memst k).

Lemma only_memory_memst k k' : only_memory k k' → same_pools k k'.
Proof. unfold only_memory, same_pools. intros Hk. rewrite Hk at 1. apply get_memst_mmu. Qed.

Lemma only_memory_rest k k' :
  only_memory k k' → k_cur k' = k_cur k ∧ k_locks k' = k_locks k ∧ k_nodes k' = k_nodes k ∧
    k_tasks k' = k_tasks k ∧ k_intr k' = k_intr k ∧ k_main_thread k' = k_main_thread k.
Proof. unfold only_memory. intros ->. destruct k as [[]]. by split_and!. Qed.

Lemma only_memory_put m k : only_memory k (lput l_kmmu m k).
Proof. done. Qed.

Lemma only_memory_trans k1 k2 k3 : only_memory k1 k2 → only_memory k2 k3 → only_memory k1 k3.
Proof.
  unfold only_memory. generalize (k_mmu k2), (k_mmu k3). intros m2 m3 -> ->. by destruct k1 as [[]].
Qed.

Lemma only_memory_tasks tasks k k' : only_memory k k' → only_memory (set_tasks tasks k) (set_tasks tasks k').
Proof.
  unfold only_memory. change (k_mmu (set_tasks tasks k')) with (k_mmu k'). generalize (k_mmu k'). by intros m ->.
Qed.

Lemma only_memory_nodes h k k' : only_memory k k' → only_memory (set_nodes h k) (set_nodes h k').
Proof.
  unfold only_memory. change (k_mmu (set_nodes h k')) with (k_mmu k'). generalize (k_mmu k'). by intros m ->.
Qed.

Lemma heap_at_ext f k k' p c :
  heap_at f k p c → get_memst k' = get_memst k → k_cur k' = k_cur k → k_locks k' = k_locks k →
  dlist (k_nodes k') (waiters kernel_pool_lock) [] → heap_at f k' p c.
Proof.
  intros [H1' H2 H3 H4 H5 H6 H7 H8] Hs Hc Hl Hn. unfold k_heap in *.
  split; unfold k_heap; rewrite ?Hs, ?Hc, ?Hl; done.
Qed.

(** Writing to memory otherwise. *)
Lemma heap_at_memory f k k' m p c :
  heap_at f k p c → get_memst k' = set_mmu m (get_memst k) → k_heap D T N f k' → k_cur k' = k_cur k →
  k_locks k' = k_locks k → dlist (k_nodes k') (waiters kernel_pool_lock) [] → heap_at f k' p c.
Proof.
  intros [H1' H2 H3 H4 H5 H6 H7 H8] Hs Hh Hc Hl Hn.
  assert (Hbm : heap_bits (get_memst k') = heap_bits (get_memst k)) by (by rewrite Hs).
  split; rewrite ?Hbm, ?Hc, ?Hl; try done. by rewrite Hs.
Qed.

Lemma heap_at_run f k p c n :
  heap_at f k p c → 1 ≤ n ≤ Z.of_nat c →
  run_free (bits_of f (heap_bits (get_memst k))) p n ∧
  p + n ≤ request_limit (heap_bits (get_memst k)) n.
Proof.
  intros [_ _ _ _ _ Hu (Hp & HpN & HN) _] Hn. split.
  - intros j Hj. rewrite Hu by lia. apply bool_decide_eq_false_2. lia.
  - unfold request_limit. destruct (n =? 1); lia.
Qed.

Lemma heap_at_servable f k p c n :
  heap_at f k p c → 1 ≤ n ≤ Z.of_nat c → n < 3840 → servable D T N f k n.
Proof.
  intros Ha Hn Hmax. destruct (heap_at_run f k p c n Ha Hn) as [Hrun Hlim].
  destruct Ha as [H1' H2 H3 H4 H5 H6 (Hp & HpN & HN) H8]. split; try done.
  - lia.
  - exists p. split_and!; [done|lia|done|done].
  - eapply enough_less; [|exact H8]. lia.
Qed.

(** First fit on such a heap. *)
Lemma heap_at_first f k p c n i :
  heap_at f k p c → 1 ≤ n ≤ Z.of_nat c →
  first_run (bits_of f (heap_bits (get_memst k))) n (request_limit (heap_bits (get_memst k)) n) i → i = p.
Proof.
  intros Ha Hn (Hi & _ & Hfree & Hfirst). destruct (heap_at_run f k p c n Ha Hn) as [Hrun _].
  destruct Ha as [_ _ _ _ _ Hu (Hp & HpN & HN) _].
  assert (i ≤ p). { destruct (decide (i ≤ p)); [done|]. exfalso. by apply (Hfirst p ltac:(lia)). }
  specialize (Hfree i ltac:(lia)). rewrite Hu in Hfree by lia. apply bool_decide_eq_false in Hfree. lia.
Qed.

(** The heap after [n] pages. *)
Lemma heap_at_next f g k k' p c n (frames : list Z) :
  heap_at f k p (n + c) → only_memory k k' → (1 ≤ n)%nat → length frames = n →
  pages_taken N f g (get_memst k) (Z.of_nat n) p frames → k_heap D T N g k' →
  heap_at g k' (p + Z.of_nat n) c.
Proof.
  intros [H1' H2 H3 H4 H5 H6 (Hp & HpN & HN) H8] Hk Hn Hlen Ht Hh.
  pose proof (only_memory_memst k k' Hk) as Hs. unfold same_pools in Hs.
  assert (Hbm : heap_bits (get_memst k') = heap_bits (get_memst k)) by (by rewrite Hs).
  destruct (only_memory_rest k k' Hk) as (Hcur & Hlk & Hno & _).
  split; rewrite ?Hbm, ?Hcur, ?Hlk, ?Hno; try done.
  - intros j Hj. rewrite (proj1 Ht j Hj), H6 by done.
    repeat case_decide; repeat case_bool_decide; (done || lia).
  - lia.
  - rewrite Hs. eapply (enough_after D N f g (get_memst k)); [exact Ht|by rewrite Hlen].
Qed.

(** *** Pages handed out before *)

(** Pages on frames that are taken, but not [E], are still mapped, with the same
    contents. *)
Definition pages_kept f (E : Z → Prop) k k' : Prop :=
  ∀ j b, 0 ≤ j < N → 0 ≤ b < pool_frames (get_memst k) → ¬ E b →
    bits_of f (pool_bitmap (kernel_pool (get_memst k))) b = true → maps_page (get_memst k) j b →
    maps_page (get_memst k') j b ∧
    ∀ off, 0 ≤ off < PG_SIZE →
      pbyte (k_mmu k') (frame (get_memst k) b + off) = pbyte (k_mmu k) (frame (get_memst k) b + off).

Lemma pages_kept_trans f E k1 k2 k3 :
  same_pools k1 k2 → pages_kept f E k1 k2 → pages_kept f E k2 k3 → pages_kept f E k1 k3.
Proof.
  intros Hs H12 H23 j b Hj Hb HE Htk Hm. destruct (H12 j b Hj Hb HE Htk Hm) as [Hm2 Hby2].
  destruct (H23 j b) as [Hm3 Hby3]; rewrite ?Hs; try done; [by rewrite <- Hs|]. split; [done|].
  intros off Hoff. rewrite <- Hby2 by done. rewrite Hs in Hby3. by apply Hby3.
Qed.

Lemma pages_kept_mono f (E E' : Z → Prop) k k' :
  (∀ b, E b → E' b) → pages_kept f E k k' → pages_kept f E' k k'.
Proof. intros HE Hk j b Hj Hb HnE. apply Hk; [done|done|]. intros ?. by apply HnE, HE. Qed.

(** A call that takes [frames] and writes nothing else in the pool. *)
Lemma frames_kept f k k' (frames : list Z) :
  k_heap D T N f k → only_memory k k' →
  (∀ F, F ∈ frames → ∃ b, 0 ≤ b < pool_frames (get_memst k) ∧ F = frame (get_memst k) b ∧
    bits_of f (pool_bitmap (kernel_pool (get_memst k))) b = false) →
  (∀ a pa, via_table T (get_memst k) a → translate (k_mmu k) a = Some pa → translate (k_mmu k') a = Some pa) →
  (∀ x, in_pool (get_memst k) x → (∀ F, F ∈ frames → ¬ region F PG_SIZE x) →
    pbyte (k_mmu k') x = pbyte (k_mmu k) x) →
  pages_kept f (λ _, False) k k'.
Proof.
  intros Hh Hk Hff Hkeep Hby j b Hj Hb _ Htk Hm. pose proof (only_memory_memst k k' Hk) as Hs. unfold same_pools in Hs. split.
  - intros off Hoff. rewrite Hs. change (heap_page (set_mmu _ _) j) with (heap_page (get_memst k) j).
    apply (Hkeep _ (frame (get_memst k) b + off)); [|by apply Hm].
    by apply (via_heap_page D T N f (bits_of f (heap_bits (get_memst k)))).
  - intros off Hoff. apply Hby; [by apply frame_in_pool|]. intros F HF.
    destruct (Hff F HF) as (b' & _ & -> & Hfree). apply frames_apart; [congruence|done].
Qed.

Lemma alloc_ok f k p c n :
  heap_at f k p (n + c) → (1 ≤ n)%nat → Z.of_nat n < 3840 →
  wp (malloc_kernel_pages (Z.of_nat n)) (λ r k', ∃ frames g,
    r = heap_page (get_memst k) p ∧ served D T N f k (Z.of_nat n) r k' p frames g ∧
    heap_at g k' (p + Z.of_nat n) c ∧ pages_kept f (λ _, False) k k') k.
Proof.
  intros Ha Hn Hmax. eapply wp_mono.
  { apply (malloc_kernel_pages_ok D T N f). apply (heap_at_servable f k p (n + c)); [done|lia|done]. }
  intros r k' (i & frames & g & Hsv). pose proof Hsv as (Hk & [(Hi & HiN & Hr) Hrun Hmm (Hlen & Hnd) Hff Hmap Hz Hkeep Hby] & Ht & Hh).
  assert (i = p) as ->. { apply (heap_at_first f k p (n + c) (Z.of_nat n) i Ha); [lia|done]. }
  exists frames, g. split_and!; [done|done| |].
  - apply (heap_at_next f g k k' p c n frames Ha Hk Hn); [lia|done|done].
  - apply (frames_kept f k k' frames (ha_heap Ha) Hk Hff); [|done].
    intros a pa Hv Hpa. by apply (Hkeep a pa Hv Hpa).
Qed.

(** Heap page by heap page, a kept block reads as before. *)
Lemma kept_load f g E k k' j b off :
  pages_kept f E k k' → k_heap D T N f k → k_heap D T N g k' → same_pools k k' →
  0 ≤ j < N → 0 ≤ b < pool_frames (get_memst k) → ¬ E b →
  bits_of f (pool_bitmap (kernel_pool (get_memst k))) b = true → maps_page (get_memst k) j b →
  0 ≤ off < PG_SIZE →
  mload (k_mmu k') (heap_page (get_memst k) j + off) = mload (k_mmu k) (heap_page (get_memst k) j + off).
Proof.
  intros Hkp Hh Hh' Hs Hj Hb HE Htk Hm Hoff. destruct (Hkp j b Hj Hb HE Htk Hm) as [Hm' Hby].
  unfold same_pools in Hs.
  pose proof (maps_page_load D T N _ _ _ j b off Hh Hb Hm Hoff) as Hl.
  pose proof (maps_page_load D T N _ _ _ j b off Hh' ltac:(by rewrite Hs) Hm' Hoff) as Hl'.
  rewrite Hs in Hl'. change (heap_page (set_mmu _ _) j) with (heap_page (get_memst k) j) in Hl'.
  change (frame (set_mmu _ _) b) with (frame (get_memst k) b) in Hl'. simpl m_mmu in Hl, Hl'.
  by rewrite Hl', Hl, (Hby off Hoff).
Qed.
End calls.

Arguments ha_heap {_ _ _ _ _ _ _ _ _} _.
Arguments ha_waiters {_ _ _ _ _ _ _ _ _} _.
Arguments ha_room {_ _ _ _ _ _ _ _ _} _.
Arguments ha_used {_ _ _ _ _ _ _ _ _} _.
Arguments ha_enough {_ _ _ _ _ _ _ _ _} _.

(** ** create_user_vaddr_bitmap *)

(** The bytes of the bitmap of a process: a bit for every page from
    USER_VADDR_START up to the kernel. *)
Definition user_bitmap_bytes : Z := (0xc0000000 - USER_VADDR_START) / PG_SIZE / 8.

Section user_bitmap.
Context `{FpEval, Layout, Env}.
Context (D : Z → Prop) (T N : Z).
Implicit Types (f g : Z → Z) (k : kernel).

(** No frame is given back, and of the bytes of [D] only those of the kernel's two
    bitmaps change. *)
Definition still_taken f g k : Prop :=
  (∀ b, 0 ≤ b < pool_frames (get_memst k) →
     bits_of f (pool_bitmap (kernel_pool (get_memst k))) b = true →
     bits_of g (pool_bitmap (kernel_pool (get_memst k))) b = true) ∧
  ∀ x, other_byte (get_memst k) x → g x = f x.

Lemma still_taken_refl f k : still_taken f f k.
Proof. by split. Qed.

Lemma still_taken_trans f g h k k' :
  same_pools k k' → still_taken f g k → still_taken g h k' → still_taken f h k.
Proof.
  intros Hs [Ht Ho] [Ht' Ho']. rewrite Hs in Ht', Ho'. split.
  - intros b Hb Htk. apply Ht'; [done|]. by apply Ht.
  - intros x Hx. rewrite Ho' by done. by apply Ho.
Qed.

(** The heap pages from [i] on are mapped to the frames [bs], which are taken. *)
Definition owned g k (i : Z) (bs : list Z) : Prop :=
  NoDup bs ∧ ∀ (q : nat) b, bs !! q = Some b → 0 ≤ b < pool_frames (get_memst k) ∧
    maps_page (get_memst k) (i + Z.of_nat q) b ∧
    bits_of g (pool_bitmap (kernel_pool (get_memst k))) b = true.

(** Frames that are free. *)
Definition all_free f k (bs : list Z) : Prop :=
  Forall (λ b, bits_of f (pool_bitmap (kernel_pool (get_memst k))) b = false) bs.

Lemma served_owned f k n r k' i frames g :
  served D T N f k n r k' i frames g →
  still_taken f g k ∧ ∃ bs, Z.of_nat (length bs) = n ∧ owned g k' i bs ∧ all_free f k bs.
Proof.
  intros (Hk & [(Hi & HiN & ->) _ Hmm (Hlen & Hnd) Hff Hmap _ _ _] & (_ & Hpool & Hoth) & Hh).
  split; [split; [intros b Hb Htk; apply Hpool; tauto|done]|].
  set (nr := λ F, (F - phy_addr_start (kernel_pool (get_memst k))) / PG_SIZE).
  assert (Hnr : ∀ F, F ∈ frames → F = frame (get_memst k) (nr F) ∧ 0 ≤ nr F < pool_frames (get_memst k) ∧
    bits_of f (pool_bitmap (kernel_pool (get_memst k))) (nr F) = false).
  { intros F HF. destruct (Hff F HF) as (b & Hb & -> & Hfree).
    assert (nr (frame (get_memst k) b) = b) as -> by (unfold nr, frame, PG_SIZE; zlia). done. }
  exists (nr <$> frames). split; [by rewrite length_fmap|]. split; [split|].
  - apply NoDup_fmap_2_strong; [|done]. intros F F' HF HF' Heq.
    rewrite (proj1 (Hnr F HF)), (proj1 (Hnr F' HF')). by rewrite Heq.
  - intros q b Hq. rewrite list_lookup_fmap in Hq. apply fmap_Some in Hq as (F & HF & ->).
    pose proof (list_elem_of_lookup_2 _ _ _ HF) as Hin. destruct (Hnr F Hin) as (Heq & Hb & _).
    rewrite Hmm. split; [exact Hb|]. split; [|apply Hpool; [done|]; right; by rewrite <- Heq].
    intros off Hoff. change (heap_page (set_mmu _ _) (i + Z.of_nat q)) with (heap_page (get_memst k) (i + Z.of_nat q)).
    change (frame (set_mmu _ _) (nr F)) with (frame (get_memst k) (nr F)). rewrite <- Heq, <- (Hmap q F off HF Hoff).
    simpl m_mmu. f_equal. unfold heap_page, PG_SIZE. lia.
  - apply Forall_fmap, Forall_forall. intros F HF. by apply Hnr.
Qed.

Lemma owned_cons g k i b bs : owned g k i (b :: bs) → (b ∉ bs) ∧ owned g k (i + 1) bs.
Proof.
  intros [[Hb Hnd]%NoDup_cons Ho]. split; [done|]. split; [done|]. intros q b' Hq.
  replace (i + 1 + Z.of_nat q) with (i + Z.of_nat (S q)) by lia. by apply Ho.
Qed.

Lemma owned_app g k i bs bs' :
  owned g k i bs → owned g k (i + Z.of_nat (length bs)) bs' → (∀ b, b ∈ bs → b ∉ bs') → owned g k i (bs ++ bs').
Proof.
  intros [Hnd Ho] [Hnd' Ho'] Hap. split; [by apply NoDup_app|].
  intros q b [Hq|[Hq Hb]]%lookup_app_Some; [by apply Ho|].
  replace (i + Z.of_nat q) with (i + Z.of_nat (length bs) + Z.of_nat (q - length bs)) by lia. by apply Ho'.
Qed.

Lemma owned_not_free f k i bs bs' : owned f k i bs → all_free f k bs' → ∀ b, b ∈ bs → b ∉ bs'.
Proof.
  unfold all_free. rewrite Forall_forall. intros [_ Ho] Hfree b [q Hq]%list_elem_of_lookup Hin.
  destruct (Ho q b Hq) as (_ & _ & Htk). by rewrite Hfree in Htk.
Qed.

(** Owned pages are kept with what is in them. *)
Lemma owned_kept g g' E k k' i bs :
  pages_kept N g E k k' → same_pools k k' → still_taken g g' k → owned g k i bs →
  0 ≤ i → i + Z.of_nat (length bs) ≤ N → (∀ b, b ∈ bs → ¬ E b) → owned g' k' i bs.
Proof.
  intros Hkp Hs [Hst _] [Hnd Hown] Hi HN HE. split; [done|]. intros q b Hq. destruct (Hown q b Hq) as (Hb & Hm & Htk).
  pose proof (lookup_lt_Some _ _ _ Hq). rewrite Hs.
  destruct (Hkp (i + Z.of_nat q) b ltac:(lia) Hb) as [Hm' _]; [|done|done|].
  { by apply HE, (list_elem_of_lookup_2 _ q). }
  split_and!; [apply Hb..| |by apply Hst]. by rewrite Hs in Hm'.
Qed.

Lemma owned_load f g E k k' i bs a :
  pages_kept N f E k k' → k_heap D T N f k → k_heap D T N g k' → same_pools k k' →
  owned f k i bs → 0 ≤ i → i + Z.of_nat (length bs) ≤ N → (∀ b, b ∈ bs → ¬ E b) →
  region (heap_page (get_memst k) i) (Z.of_nat (length bs) * PG_SIZE) a → mload (k_mmu k') a = mload (k_mmu k) a.
Proof.
  intros Hkp Hh Hh' Hk [_ Hown] Hi HN HE Ha. unfold region in Ha.
  set (q := (a - heap_page (get_memst k) i) / PG_SIZE). set (off := (a - heap_page (get_memst k) i) mod PG_SIZE).
  assert (Hq : 0 ≤ q < Z.of_nat (length bs) ∧ 0 ≤ off < PG_SIZE) by (unfold q, off, PG_SIZE in *; zlia).
  destruct (lookup_lt_is_Some_2 bs (Z.to_nat q) ltac:(lia)) as [b Hb].
  destruct (Hown _ _ Hb) as (Hbr & Hm & Htk). rewrite Z2Nat.id in Hm by lia.
  assert (Haq : a = heap_page (get_memst k) (i + q) + off) by (unfold q, off, heap_page, PG_SIZE in *; zlia).
  rewrite Haq. apply (kept_load D T N f g E k k' (i + q) b off); try done; [lia| |lia].
  by apply HE, (list_elem_of_lookup_2 _ (Z.to_nat q)).
Qed.
End user_bitmap.

Section user_vaddr.
Context `{FpEval, Layout, Env}.
Context (D : Z → Prop) (T N : Z).
Implicit Types (f g : Z → Z) (k : kernel).

(** Clearing [n] bytes in pages of one's own. *)
Lemma clear_block_ok g k i n (frames : list Z) r f k0 len :
  served D T N f k0 n r k i frames g → 0 ≤ len ≤ n * PG_SIZE →
  ∃ m', bitmap_init (Bitmap len (heap_page (get_memst k) i)) (k_mmu k) = Ok tt m' ∧
    k_heap D T N g (lput l_kmmu m' k) ∧
    (∀ a, region (heap_page (get_memst k) i) len a → mload m' a = Some 0) ∧
    (∀ a, via_table T (get_memst k) a →
       translate m' a = translate (k_mmu k) a ∧ via_table T (set_mmu m' (get_memst k)) a) ∧
    (∀ x, (∀ F, F ∈ frames → ¬ region F PG_SIZE x) → pbyte m' x = pbyte (k_mmu k) x).
Proof.
  intros (Hk & [(Hi & HiN & ->) _ Hmm (Hln & Hnd) Hff Hmap _ _ _] & _ & Hh) Hlen. unfold k_heap in Hh.
  set (s := get_memst k) in *. assert (Hpg : ∀ (q : nat) F off, frames !! q = Some F → 0 ≤ off < PG_SIZE →
    translate (m_mmu s) (heap_page s (i + Z.of_nat q) + off) = Some (F + off)).
  { intros q F off HF Hoff. rewrite <- (Hmap q F off HF Hoff), Hmm. simpl m_mmu. f_equal.
    change (heap_page (set_mmu _ _) (i + Z.of_nat q)) with (heap_page (get_memst k0) (i + Z.of_nat q)).
    unfold heap_page, PG_SIZE. lia. }
  assert (Hfr : ∀ F, F ∈ frames → ∃ b, 0 ≤ b < pool_frames s ∧ F = frame s b).
  { intros F HF. destruct (Hff F HF) as (b & Hb & -> & _). exists b. by rewrite Hmm. }
  destruct (pages_hold D T N g _ s i frames Hh Hi ltac:(lia) Hnd Hfr Hpg) as [Hblock _].
  rewrite Hln in Hblock. set (P := region (heap_page s i) (n * PG_SIZE)) in *.
  pose proof (memset_ok (m_mmu s) P _ (heap_page s i) 0 len Hblock ltac:(lia)
    ltac:(unfold P, region; lia)) as Hms.
  apply wp_Ok in Hms as (r & m' & Hrun & _ & Hch & [_ Hz]).
  destruct (pages_change D T N g _ s i frames m' Hh Hi ltac:(lia) Hnd Hfr Hpg) as (Ho' & Hvia & Hout).
  { by rewrite Hln. }
  exists m'. split_and!.
  - unfold bitmap_init. simpl. by rewrite (bind_Ok _ _ _ _ _ Hrun).
  - unfold k_heap. rewrite get_memst_mmu. exact Ho'.
  - intros a Ha. rewrite Hz by (unfold P, region in *; lia). f_equal. by apply blit_replicate.
  - intros a Ha. by apply Hvia.
  - done.
Qed.

Lemma user_vaddr_ok f k p c t x :
  heap_at D T N f k p (23 + c) → k_tasks k !! t = Some x →
  let bm := heap_page (get_memst k) p in
  let v := VirtualAddr (Bitmap user_bitmap_bytes bm) USER_VADDR_START in
  wp (create_user_vaddr_bitmap t) (λ _ k', ∃ g bs,
    only_memory (set_tasks (<[t := with_uvaddr v x]> (k_tasks k)) k) k' ∧
    heap_at D T N g k' (p + 23) c ∧ pages_kept N f (λ _, False) k k' ∧ still_taken f g k ∧ via_kept T k k' ∧
    length bs = 23%nat ∧ owned g k' p bs ∧ all_free f k bs ∧ ∀ a, region bm user_bitmap_bytes a → mload (k_mmu k') a = Some 0) k.
Proof.
  intros Ha Hx bm v. unfold create_user_vaddr_bitmap.
  assert (Hpg : DIV_ROUND_UP user_bitmap_bytes PG_SIZE = Z.of_nat 23) by (by vm_compute).
  fold user_bitmap_bytes. cbv zeta. rewrite Hpg.
  eapply wpp_step; [by apply update_task_ok|].
  set (x0 := with_uvaddr (VirtualAddr (addr_bitmap (userprog_vaddr x)) USER_VADDR_START) x).
  set (k0 := set_tasks (<[t := x0]> (k_tasks k)) k).
  assert (Ha0 : heap_at D T N f k0 p (23 + c)) by exact (heap_at_ext D T N f k k0 p _ Ha eq_refl eq_refl eq_refl (ha_waiters Ha)).
  apply wp_bind. eapply wp_mono; [apply (alloc_ok D T N f k0 p c 23 Ha0); lia|].
  intros r k1 (frames & g & -> & Hsv & Ha1 & Hkp). change (heap_page (get_memst k0) p) with bm.
  destruct (served_owned D T N f k0 _ _ k1 p frames g Hsv) as (Hst & bs & Hlen & [Hnd Hown] & Hfree).
  assert (Hk1 : k1 = lput l_kmmu (k_mmu k1) k0) by apply Hsv.
  assert (Hbm : heap_page (get_memst k1) p = bm) by (by rewrite Hk1, get_memst_mmu).
  assert (Hx1 : k_tasks k1 !! t = Some x0) by (rewrite Hk1; apply lookup_insert_eq).
  destruct (clear_block_ok g k1 p (Z.of_nat 23) frames bm f k0 user_bitmap_bytes Hsv ltac:(by vm_compute))
    as (m' & Hrun & Hh' & Hz & Hvia & Hby). rewrite Hbm in Hrun, Hz.
  eapply wpp_step; [by apply update_task_ok|].
  eapply wpp_step; [apply update_task_ok; apply lookup_insert_eq|].
  eapply wpp_step; [apply load_task_ok; apply lookup_insert_eq|].
  match goal with |- wpp _ _ _ ?k2 => set (k2' := k2) end.
  assert (Hk2 : k2' = set_tasks (<[t := with_uvaddr v x]> (k_tasks k)) (lput l_kmmu (k_mmu k1) k)).
  { unfold k2', set_tasks. rewrite Hk1. simpl. rewrite !insert_insert_eq. by destruct k as [[]]. }
  clearbody k2'. subst k2'. apply wp_Ok. exists tt. eexists. split; [by apply zoom_Ok|].
  set (k' := lput l_kmmu m' _). set (k2 := set_tasks (<[t := with_uvaddr v x]> (k_tasks k)) k).
  assert (Hk' : only_memory k2 k') by (unfold only_memory, k', k2; by destruct k as [[]]).
  assert (Hs' : get_memst k' = set_mmu m' (get_memst k1)).
  { unfold k'. rewrite Hk1, !get_memst_mmu. by destruct k as [[]]. }
  assert (Hh2 : k_heap D T N g k') by (unfold k_heap in *; by rewrite Hs', <- get_memst_mmu).
  destruct Hsv as (_ & [_ _ _ _ Hff _ _ Hkeep Hfb] & _ & _).
  assert (Hvk : via_kept T k k').
  { intros a pa Hv Hpa. destruct (Hkeep a pa Hv Hpa) as [Hpa1 Hv1]. rewrite Hs'. change (k_mmu k') with m'.
    destruct (Hvia a Hv1) as [-> Hv2]. done. }
  exists g, bs. split_and!; [done| | |done|done|lia| |exact Hfree|done].
  - apply (heap_at_memory D T N g k1 k' m'); [done|done|done|by rewrite Hk1..|].
    pose proof (ha_waiters Ha) as Hw. exact Hw.
  - apply (frames_kept D T N f k2 k' frames); [apply Ha|done|done| |].
    + intros a pa Hv Hpa. by apply (Hvk a pa).
    + intros z Hz' HF. change (k_mmu k') with m'. rewrite Hby by done. by apply Hfb.
  - split; [done|]. intros q b Hq. destruct (Hown q b Hq) as (Hb & Hm & Htk). rewrite Hs'.
    pose proof (lookup_lt_Some _ _ _ Hq).
    split; [exact Hb|]. split; [|done]. intros off Hoff. simpl m_mmu.
    change (heap_page (set_mmu _ _) (p + Z.of_nat q)) with (heap_page (get_memst k1) (p + Z.of_nat q)).
    rewrite (proj1 (Hvia _ (via_heap_page D T N g (bits_of g (heap_bits (get_memst k1))) (get_memst k1) (p + Z.of_nat q) off
      (ha_heap Ha1) ltac:(pose proof (ha_room Ha); lia) Hoff))). by apply Hm.
Qed.
End user_vaddr.

(** ** process_execute *)

Lemma stores_frame m A ws (F : Z) :
  Forall (λ x, F ≤ A + x ∧ A + x + 4 ≤ F + PG_SIZE) (fst <$> ws) →
  ram (stores m A ws) = ram m ∧ cr3 (stores m A ws) = cr3 m ∧
  ∀ x, ¬ region F PG_SIZE x → pbyte (stores m A ws) x = pbyte m x.
Proof.
  revert m. induction ws as [|[o v] ws IH]; intros m Hr; [done|].
  rewrite fmap_cons in Hr. apply Forall_cons in Hr as [Ho Hr]. simpl in Ho.
  destruct (IH (pset32 m (A + o) v) Hr) as (Hram & Hcr & Hby). simpl stores. split_and!; [done..|].
  intros x Hx. rewrite Hby by done. apply pbyte_pset32_out. unfold region in *. lia.
Qed.

Section execute.
Context `{FpEval, Layout, Env}.
Context (D : Z → Prop) (T N : Z) (more : nat).
Implicit Types (f g : Z → Z) (k : kernel) (rs ts : list Z).

(** The pages for a process can be had and [more] besides, and nothing the kernel has linked into its
    lists lies in a free page. *)
Record can_execute f k p rs ts : Prop := {
  ce_heap : heap_at D T N f k p (25 + more);
  ce_ready : dlist (k_nodes k) thread_ready_list rs;
  ce_all : dlist (k_nodes k) thread_all_list ts;
  ce_apart : ∀ z, z ∈ nodes thread_ready_list rs → z ∉ nodes thread_all_list ts;
  ce_waiters : ∀ z, z ∈ nodes (waiters kernel_pool_lock) [] →
    (z ∉ nodes thread_ready_list rs) ∧ (z ∉ nodes thread_all_list ts);
  ce_used : ∀ j z, p ≤ j < N →
    z ∈ k_main_thread k :: nodes (waiters kernel_pool_lock) [] ++ nodes thread_ready_list rs ++ nodes thread_all_list ts →
    ¬ region (heap_page (get_memst k) j) PG_SIZE z
}.

Arguments ce_heap {_ _ _ _ _} _.
Arguments ce_waiters {_ _ _ _ _} _.

(** The PCB of a process: its directory at [d], the bitmap of its pages at [bm]. *)
Definition user_task (t : Z) (nm : list Z) (d bm : Z) : task_struct :=
  Task (t + first_stack) TASK_READY (nm ++ replicate (16 - length nm) 0) 31 31 d
    (VirtualAddr (Bitmap user_bitmap_bytes bm) USER_VADDR_START) magic.

(** Everything of process_execute before the lists. *)
Record process_made f k p g k' (b : Z) filename nm : Prop := {
  pm_heap_at : heap_at D T N g k' (p + 25) more;
  pm_memory : let t := heap_page (get_memst k) p in only_memory
    (set_tasks (<[t := user_task t nm (heap_page (get_memst k) (p + 24)) (heap_page (get_memst k) (p + 1))]> (k_tasks k))
       (set_nodes (fresh_nodes t (k_nodes k)) k)) k';
  pm_frame : Forall (λ w, load32 (heap_page (get_memst k) p + first_stack + fst w) (k_mmu k') = Ok (u32 (snd w)) (k_mmu k'))
    (first_frame start_process_addr filename);
  pm_bitmap : ∀ a, region (heap_page (get_memst k) (p + 1)) user_bitmap_bytes a → mload (k_mmu k') a = Some 0;
  pm_dir_page : page_at D T N g (bits_of g (heap_bits (get_memst k'))) (get_memst k') (p + 24) b;
  pm_directory : directory_words (k_mmu k') (frame (get_memst k') b);
  pm_via : via_kept T k k';
  pm_kept : still_taken f g k;
  pm_owned : ∃ bs, length bs = 24%nat ∧ owned g k' p (bs ++ [b])
}.

(** A page of one's own. *)
Definition own_page g k j b : Prop :=
  page_at D T N g (bits_of g (heap_bits (get_memst k))) (get_memst k) j b ∧
  bits_of g (pool_bitmap (kernel_pool (get_memst k))) b = true.

Lemma own_page_alloc f k p c :
  heap_at D T N f k p (1 + c) →
  wp (malloc_kernel_pages 1) (λ t k1, ∃ g b, t = heap_page (get_memst k) p ∧ only_memory k k1 ∧
    heap_at D T N g k1 (p + 1) c ∧ own_page g k1 p b ∧ via_kept T k k1 ∧ still_taken f g k) k.
Proof.
  intros Ha. eapply wp_mono; [apply (alloc_ok D T N f k p c 1 Ha); lia|].
  intros r k1 (frames & g & -> & Hsv & Ha1 & _).
  destruct (fresh_page_at D T N f g k p frames _ k1 Hsv) as (_ & _ & _ & b & -> & Hp).
  destruct (served_owned D T N f k _ _ k1 p _ g Hsv) as [Hst _].
  destruct Hsv as (Hk & [_ _ Hmm _ _ _ _ Hkeep _] & (_ & Hpool & _) & _).
  exists g, b. split_and!; try done. split; [done|].
  pose proof (pa_frame Hp) as Hb. rewrite Hmm in Hb |- *. apply Hpool; [done|].
  right. by apply list_elem_of_singleton.
Qed.

Lemma own_page_owned g k j b : own_page g k j b → owned g k j [b].
Proof.
  intros [[_ Hj Hb Hm] Htk]. split; [apply NoDup_singleton|]. intros q b' [-> <-]%list_lookup_singleton_Some.
  by rewrite Z.add_0_r.
Qed.

Lemma own_page_kept g g' E k k' m j b :
  own_page g k j b → pages_kept N g E k k' → ¬ E b → get_memst k' = set_mmu m (get_memst k) →
  k_heap D T N g' k' → still_taken g g' k →
  own_page g' k' j b ∧
  ∀ off, 0 ≤ off < PG_SIZE →
    pbyte (k_mmu k') (frame (get_memst k) b + off) = pbyte (k_mmu k) (frame (get_memst k) b + off).
Proof.
  intros [[Ho Hj Hb Hm] Htk] Hkp HE Hs Hh Hst. destruct (Hkp j b Hj Hb HE Htk Hm) as [Hm' Hby].
  split; [|done]. split; [split; try done; by rewrite Hs|]. rewrite Hs. by apply (proj1 Hst).
Qed.

Lemma first_frame_range function arg o v :
  (o, v) ∈ first_frame function arg → 0 ≤ first_stack + o ∧ first_stack + o + 4 ≤ PG_SIZE ∧ (first_stack + o) mod 4 = 0.
Proof.
  intros Hw.
  assert (Hall : Forall (λ o, 0 ≤ first_stack + o ∧ first_stack + o + 4 ≤ PG_SIZE ∧ (first_stack + o) mod 4 = 0)
    (fst <$> first_frame function arg)) by decided.
  rewrite Forall_forall in Hall. apply Hall, list_elem_of_fmap. by exists (o, v).
Qed.

(** The first stack frame, with what it leaves alone. *)
Lemma thread_create_frame g k j b x function arg :
  let t := heap_page (get_memst k) j in
  own_page g k j b → k_tasks k !! t = Some x → self_kstack x = u32 (t + PG_SIZE) →
  ∃ m', let k' := lput l_kmmu m' (set_tasks (<[t := with_kstack (t + first_stack) x]> (k_tasks k)) k) in
    thread_create t function arg k = Ok tt k' ∧ own_page g k' j b ∧ via_kept T k k' ∧
    pages_kept N g (λ b', b' = b) k k' ∧
    Forall (λ w, pword m' (frame (get_memst k) b + first_stack + fst w) = u32 (snd w)) (first_frame function arg).
Proof.
  intros t [Hp Htk] Hx Hks. set (A := frame (get_memst k) b + first_stack).
  set (m' := stores (k_mmu k) A (first_frame function arg)). exists m'. cbv zeta.
  destruct (thread_create_ok D T N g _ k j b x function arg Hp Hx Hks) as [Hrun Hp'].
  fold t A m' in Hrun, Hp'. set (k' := lput l_kmmu m' _) in *.
  assert (Hs : get_memst k' = set_mmu m' (get_memst k)) by exact (get_memst_mmu m' (set_tasks _ k)).
  destruct (stores_frame (k_mmu k) A (first_frame function arg) (frame (get_memst k) b)) as (Hram & Hcr & Hby).
  { apply Forall_fmap, Forall_forall. intros [o v] Hw. pose proof (first_frame_range _ _ _ _ Hw). simpl. unfold A. lia. }
  destruct (page_at_frame D T N g _ (get_memst k) j b m' Hp Hram Hcr Hby) as [_ Hvia].
  assert (Hvk : via_kept T k k').
  { intros a pa Hv Hpa. rewrite Hs. destruct (Hvia a Hv) as [Ht Hv']. split; [|done].
    change (k_mmu k') with m'. by rewrite <- Hpa. }
  split_and!; [done|split|done| |].
  - rewrite Hs in Hp' |- *. exact Hp'.
  - by rewrite Hs.
  - intros j' b' Hj' Hb' Hne _ Hm. split.
    + intros off Hoff. rewrite Hs. simpl m_mmu. change (heap_page (set_mmu _ _) j') with (heap_page (get_memst k) j').
      apply Hvk; [|by apply Hm]. by apply (via_heap_page D T N g _ _ j' off (pa_heap Hp)).
    + intros off Hoff. apply Hby. by apply frames_apart.
  - apply Forall_forall. intros [o v] Hw. simpl. unfold m'. apply stores_in; [|done]. split; decided.
Qed.

Lemma process_dir_ok g k p c :
  heap_at D T N g k p (1 + c) →
  wp create_page_dir (λ d k', ∃ g' b, d = heap_page (get_memst k) p ∧ only_memory k k' ∧
    heap_at D T N g' k' (p + 1) c ∧ own_page g' k' p b ∧ directory_words (k_mmu k') (frame (get_memst k') b) ∧
    via_kept T k k' ∧ pages_kept N g (λ _, False) k k' ∧ still_taken g g' k ∧ all_free g k [b]) k.
Proof.
  intros Ha. eapply wp_mono.
  { apply (create_page_dir_ok D T N g). by apply (heap_at_servable D T N g k p (1 + c)); [done|lia|]. }
  intros d k' (j & g' & b & -> & _ & Hk & Hp & Hdw & Hvk & Hrun & Ht & Hfree & Hby).
  assert (j = p) as -> by (apply (heap_at_first D T N g k p (1 + c) 1 j Ha); [lia|done]).
  assert (Hh : k_heap D T N g' k') by apply (pa_heap Hp).
  pose proof (only_memory_memst k k' Hk) as Hs. unfold same_pools in Hs.
  pose proof (pa_frame Hp) as Hb. rewrite Hs in Hb. change (pool_frames (set_mmu _ _)) with (pool_frames (get_memst k)) in Hb.
  exists g', b. split_and!; try done.
  - by apply (heap_at_next D T N g g' k k' p c 1 [frame (get_memst k) b]).
  - split; [done|]. rewrite Hs. apply (proj1 (proj2 Ht) b Hb). right. by apply list_elem_of_singleton.
  - apply (frames_kept D T N g k k' [frame (get_memst k) b]); [apply Ha|done| | |].
    + intros F ->%list_elem_of_singleton. by exists b.
    + intros a pa Hv Hpa. by apply (Hvk a pa).
    + intros x Hx HF. apply Hby; [done|]. apply HF. by apply list_elem_of_singleton.
  - split; [intros b' Hb' Htk; apply (proj1 (proj2 Ht) b' Hb'); by left|apply Ht].
  - by apply Forall_singleton.
Qed.

Lemma pages_kept_load g g' E k k' j b off :
  own_page g k j b → pages_kept N g E k k' → ¬ E b → 0 ≤ off → off + 4 ≤ PG_SIZE → off mod 4 = 0 →
  own_page g' k' j b → get_memst k' = set_mmu (k_mmu k') (get_memst k) →
  load32 (heap_page (get_memst k) j + off) (k_mmu k') = Ok (pword (k_mmu k) (frame (get_memst k) b + off)) (k_mmu k').
Proof.
  intros [[Ho Hj Hb Hm] Htk] Hkp HE H0' H1' Hal [Hp' _] Hs. destruct (Hkp j b Hj Hb HE Htk Hm) as [_ Hby].
  pose proof (page_load D T N g' _ (get_memst k') j b off Hp' H0' H1' Hal) as Hl.
  rewrite Hs in Hl. change (heap_page (set_mmu _ _) j) with (heap_page (get_memst k) j) in Hl.
  change (frame (set_mmu _ _) b) with (frame (get_memst k) b) in Hl. simpl m_mmu in Hl. rewrite Hl. f_equal.
  unfold pword. rewrite <- !Z.add_assoc, !Hby by lia. done.
Qed.

(** The PCB and the two nodes in a page that is handed out do not meet the lists. *)
Lemma execute_can_spawn f k p rs ts : can_execute f k p rs ts → can_spawn D T N f k rs ts.
Proof.
  intros [Ha Hr Hal Hap Hw Hu]. split; try done.
  - apply (heap_at_servable D T N f k p (25 + more)); [done|lia|done].
  - intros j z Hj Hfree Hz. apply Hu.
    + split; [|lia]. rewrite (ha_used Ha) in Hfree by done. apply bool_decide_eq_false in Hfree. lia.
    + revert Hz. rewrite !elem_of_cons, !elem_of_app. tauto.
Qed.

Lemma waiters_apart f k p rs ts z :
  can_execute f k p rs ts → let t := heap_page (get_memst k) p in
  z = general_tag t ∨ z = all_list_tag t → z ∉ nodes (waiters kernel_pool_lock) [].
Proof.
  intros [Ha _ _ _ _ Hu] t Hz Hin. destruct (ha_room Ha) as (? & ? & _).
  apply (Hu p z ltac:(lia)); [|fold t; unfold general_tag, all_list_tag, region, PG_SIZE in *; lia].
  rewrite !elem_of_cons, !elem_of_app. tauto.
Qed.

(** With the PCB, but nothing in it. *)
Record pcb_made f k p g k' (b : Z) nm : Prop := {
  pcb_heap : heap_at D T N g k' (p + 1) (24 + more);
  pcb_memory : let t := heap_page (get_memst k) p in only_memory
    (set_tasks (<[t := new_task TASK_READY t nm 31 (u32 (t + PG_SIZE))]> (k_tasks k))
       (set_nodes (fresh_nodes t (k_nodes k)) k)) k';
  pcb_own : own_page g k' p b;
  pcb_via : via_kept T k k';
  pcb_kept : still_taken f g k
}.

Lemma pcb_made_ok f k p rs ts nm (rest : Z → prog kernel unit) Q :
  can_execute f k p rs ts → (length nm < 16)%nat →
  (∀ g b k', pcb_made f k p g k' b nm → wp (rest (heap_page (get_memst k) p)) Q k') →
  wp (t ← malloc_kernel_pages 1; _ ← init_thread t nm 31; rest t) Q k.
Proof.
  intros Hce Hlen Hrest. pose proof (ce_heap Hce) as Ha.
  apply wp_bind. eapply wp_mono; [apply (own_page_alloc f k p (24 + more) Ha)|].
  intros t k1 (g1 & b & Ht & Hk1 & Ha1 & Hown1 & Hvk1 & Hst1).
  destruct (only_memory_rest k k1 Hk1) as (_ & _ & Hno1 & Htk1 & _ & Hmain1).
  pose proof (only_memory_memst k k1 Hk1) as Hs1.
  pose proof (pa_map (proj1 Hown1) 0 ltac:(done)) as Htr.
  rewrite Hs1 in Htr. change (heap_page (set_mmu _ _) p) with (heap_page (get_memst k) p) in Htr.
  rewrite Z.add_0_r, <- Ht in Htr. eapply wpp_step; [by apply (init_thread_ok t nm 31 k1 _ Htr)|].
  destruct (ha_room Ha) as (Hp & HpN & _).
  rewrite Hmain1, (proj2 (Z.eqb_neq t (k_main_thread k))).
  2: { rewrite Ht. apply (spawn_apart D T N f k rs ts p (execute_can_spawn _ _ _ _ _ Hce)); [lia|].
       rewrite (ha_used Ha) by lia. apply bool_decide_eq_false_2. lia. }
  rewrite Ht. apply (Hrest g1 b). split; [|cbv zeta; rewrite <- Ht| |exact Hvk1|exact Hst1].
  - apply (heap_at_ext D T N g1 k1); [exact Ha1|done|done|done|].
    apply fresh_dlist; [apply (waiters_apart f k p rs ts _ Hce); by left|
      apply (waiters_apart f k p rs ts _ Hce); by right|apply Ha1].
  - rewrite Htk1, Hno1. exact (only_memory_tasks _ _ _ (only_memory_nodes _ _ _ Hk1)).
  - exact Hown1.
Qed.

(** With the PCB, the bitmap and the first stack frame, but without a directory. *)
Record half_made f k p g k' (b : Z) filename nm : Prop := {
  hm_heap : heap_at D T N g k' (p + 24) (1 + more);
  hm_memory : let t := heap_page (get_memst k) p in only_memory
    (set_tasks (<[t := user_task t nm NULL (heap_page (get_memst k) (p + 1))]> (k_tasks k))
       (set_nodes (fresh_nodes t (k_nodes k)) k)) k';
  hm_own : own_page g k' p b;
  hm_frame : Forall (λ w, pword (k_mmu k') (frame (get_memst k') b + first_stack + fst w) = u32 (snd w))
    (first_frame start_process_addr filename);
  hm_owned : ∃ bs, length bs = 23%nat ∧ owned g k' p (b :: bs);
  hm_bitmap : ∀ a, region (heap_page (get_memst k) (p + 1)) user_bitmap_bytes a → mload (k_mmu k') a = Some 0;
  hm_via : via_kept T k k';
  hm_kept : still_taken f g k
}.
Lemma half_made_ok f k p rs ts filename nm (rest : Z → prog kernel unit) Q :
  can_execute f k p rs ts → (length nm < 16)%nat →
  (∀ g b k', half_made f k p g k' b filename nm → wp (rest (heap_page (get_memst k) p)) Q k') →
  wp (t ← malloc_kernel_pages 1;
      _ ← init_thread t nm 31;
      _ ← create_user_vaddr_bitmap t;
      _ ← thread_create t start_process_addr filename;
      rest t) Q k.
Proof.
  intros Hce Hlen Hrest. set (t := heap_page (get_memst k) p) in *.
  apply (pcb_made_ok f k p rs ts nm
    (λ t, _ ← create_user_vaddr_bitmap t; _ ← thread_create t start_process_addr filename; rest t) Q Hce Hlen).
  intros g1 b k2 [Ha2 Hk2 Hown2 Hvk2 Hst2]. cbv zeta in Hk2. fold t in Hk2 |- *.
  set (x := new_task _ _ _ _ _) in Hk2. set (k1 := set_tasks _ _) in Hk2.
  assert (Hs2 : same_pools k k2) by exact (only_memory_memst k1 k2 Hk2).
  destruct (only_memory_rest k1 k2 Hk2) as (_ & _ & _ & Htk2 & _).
  destruct (ha_room (ce_heap Hce)) as (Hp & HpN & _).
  assert (Hbm2 : ∀ j, heap_page (get_memst k2) j = heap_page (get_memst k) j) by (intros j; by rewrite Hs2).
  apply wp_bind. eapply wp_mono; [apply (user_vaddr_ok D T N g1 k2 (p + 1) (1 + more) t x Ha2);
    rewrite Htk2; apply lookup_insert_eq|].
  intros [] k3 (g3 & bs & Hk3 & Ha3 & Hkp3 & Hst3 & Hvk3 & Hbs & Howned3 & Hfree3 & Hz). rewrite Hbm2 in Hk3, Hz.
  set (x3 := with_uvaddr _ x) in Hk3. set (k2' := set_tasks _ k2) in Hk3.
  assert (Hs3 : same_pools k2 k3) by exact (only_memory_memst k2' k3 Hk3).
  destruct (own_page_kept g1 g3 _ k2 k3 (k_mmu k3) p b Hown2 Hkp3 ltac:(tauto) Hs3 (ha_heap Ha3) Hst3)
    as [Hown3 _].
  assert (Hbm3 : ∀ j, heap_page (get_memst k3) j = heap_page (get_memst k) j) by (intros j; by rewrite Hs3, <- Hbm2).
  assert (Hpb : b ∉ bs).
  { apply (owned_not_free g1 k2 p [b] bs (own_page_owned _ _ _ _ Hown2) Hfree3). by apply list_elem_of_singleton. }
  destruct (thread_create_frame g3 k3 p b x3 start_process_addr filename Hown3)
    as (m4 & Hcr & Hown4 & Hvk4 & Hkp4 & Hfr).
  { rewrite Hbm3, (proj1 (proj2 (proj2 (proj2 (only_memory_rest k2' k3 Hk3))))). apply lookup_insert_eq. }
  { by rewrite Hbm3. }
  rewrite Hbm3 in *. fold t in Hcr, Hkp4, Hown4, Hvk4. eapply wpp_step; [exact Hcr|]. set (k4 := lput l_kmmu m4 _) in *.
  assert (Hs4 : same_pools k3 k4) by exact (get_memst_mmu m4 (set_tasks _ k3)).
  assert (Hbsb : ∀ b', b' ∈ bs → ¬ b' = b) by congruence.
  apply (Hrest g3 b k4).
  split; [| |exact Hown4|rewrite Hs4; exact Hfr| | | |by eapply still_taken_trans].
  - replace (p + 24) with (p + 1 + 23) by lia.
    apply (heap_at_memory D T N g3 k3 k4 m4); [done|done|apply Hown4|done|done|apply Ha3].
  - cbv zeta. fold t. eapply only_memory_trans; [|exact (only_memory_put m4 _)].
    rewrite (proj1 (proj2 (proj2 (proj2 (only_memory_rest k2' k3 Hk3))))).
    eapply only_memory_trans; [|apply only_memory_tasks; exact Hk3].
    unfold k2'. simpl k_tasks. rewrite Htk2. unfold k1. simpl k_tasks. rewrite !insert_insert_eq.
    exact (only_memory_tasks _ _ _ Hk2).
  - exists bs. split; [done|]. apply (owned_app g3 k4 p [b] bs); [by apply own_page_owned| |].
    + apply (owned_kept N g3 g3 (λ b', b' = b) k3 k4); try done; simpl; lia.
    + by intros b' ->%list_elem_of_singleton.
  - intros a Ha. rewrite <- (Hz a Ha).
    apply (owned_load D T N g3 g3 (λ b', b' = b) k3 k4 (p + 1) bs a); try done; [apply Ha3|apply Hown4|lia|lia|].
    rewrite Hbm3, Hbs. unfold region in *. assert (user_bitmap_bytes = 94199) by by vm_compute. unfold PG_SIZE. lia.
  - eapply via_kept_trans; [exact Hvk2|]. eapply via_kept_trans; [exact Hvk3|exact Hvk4].
Qed.

Lemma make_process_ok f k p rs ts filename nm (rest : Z → prog kernel unit) Q :
  can_execute f k p rs ts → (length nm < 16)%nat →
  (∀ g b k', process_made f k p g k' b filename nm → wp (rest (heap_page (get_memst k) p)) Q k') →
  wp (t ← malloc_kernel_pages 1;
      _ ← init_thread t nm 31;
      _ ← create_user_vaddr_bitmap t;
      _ ← thread_create t start_process_addr filename;
      d ← create_page_dir;
      _ ← update_task t (with_pgdir d);
      rest t) Q k.
Proof.
  intros Hce Hlen Hrest. set (t := heap_page (get_memst k) p) in *.
  apply (half_made_ok f k p rs ts filename nm
    (λ t, d ← create_page_dir; _ ← update_task t (with_pgdir d); rest t) Q Hce Hlen).
  intros g4 b4 k4 [Ha4 Hk4 Hown4 Hfr (bs & Hbs & Howned4) Hz Hvk4 Hst4]. cbv zeta in Hk4. fold t in Hk4 |- *.
  set (k4' := set_tasks _ _) in Hk4. pose proof (only_memory_memst _ _ Hk4) as Hs4.
  destruct (ha_room (ce_heap Hce)) as (Hp & HpN & _).
  apply wp_bind. eapply wp_mono; [apply (process_dir_ok g4 k4 (p + 24) more Ha4)|].
  intros d k5 (g5 & b5 & -> & Hk5 & Ha5 & Hown5 & Hdw & Hvk5 & Hkp5 & Hst5 & Hfree5).
  pose proof (only_memory_memst _ _ Hk5) as Hs5.
  assert (Hd : heap_page (get_memst k4) (p + 24) = heap_page (get_memst k) (p + 24)) by (by rewrite Hs4).
  assert (Ht : heap_page (get_memst k4) p = t) by (by rewrite Hs4).
  destruct (own_page_kept g4 g5 _ k4 k5 _ p b4 Hown4 Hkp5 ltac:(tauto) Hs5 (ha_heap Ha5) Hst5) as [Hown5' _].
  set (bm := heap_page (get_memst k) (p + 1)) in *. set (d := heap_page (get_memst k) (p + 24)) in *.
  destruct (only_memory_rest _ _ Hk4) as (_ & _ & _ & Htk4 & _).
  destruct (only_memory_rest _ _ Hk5) as (_ & _ & _ & Htk5 & _).
  assert (Hx5 : k_tasks k5 !! t = Some (user_task t nm NULL bm)) by (rewrite Htk5, Htk4; apply lookup_insert_eq).
  eapply wpp_step; [apply (update_task_ok _ _ _ _ Hx5)|]. rewrite Hd.
  change (with_pgdir d (user_task t nm NULL bm)) with (user_task t nm d bm).
  set (k6 := set_tasks _ k5). apply (Hrest g5 b5 k6). split.
  - replace (p + 25) with (p + 24 + 1) by lia.
    exact (heap_at_ext D T N g5 k5 k6 _ _ Ha5 eq_refl eq_refl eq_refl (ha_waiters Ha5)).
  - cbv zeta. fold t bm d. unfold k6. rewrite Htk5, Htk4. unfold k4'. simpl k_tasks. rewrite insert_insert_eq.
    eapply only_memory_trans; [|apply only_memory_tasks; exact Hk5].
    exact (only_memory_tasks (<[t := user_task t nm d bm]> (k_tasks k)) _ _ Hk4).
  - fold t. change (k_mmu k6) with (k_mmu k5). apply Forall_forall. intros [o v] Hw.
    rewrite Forall_forall in Hfr. specialize (Hfr _ Hw). simpl in Hfr |- *. rewrite <- Hfr, <- Ht, <- !Z.add_assoc.
    destruct (first_frame_range _ _ _ _ Hw) as (? & ? & ?).
    apply (pages_kept_load g4 g5 _ k4 k5 p b4 _ Hown4 Hkp5); (done || tauto).
  - intros a Ha. change (k_mmu k6) with (k_mmu k5). rewrite <- (Hz a Ha).
    apply (owned_load D T N g4 g5 _ k4 k5 (p + 1) bs a Hkp5); try done; [apply Ha4|apply Ha5|apply (owned_cons _ _ _ _ _ Howned4)|lia|lia|tauto|].
    rewrite Hs4, Hbs. change (heap_page (set_mmu _ _) (p + 1)) with (heap_page (get_memst k) (p + 1)).
    unfold region in *. assert (user_bitmap_bytes = 94199) by by vm_compute. unfold PG_SIZE. lia.
  - apply Hown5.
  - exact Hdw.
  - eapply via_kept_trans; [exact Hvk4|exact Hvk5].
  - by apply (still_taken_trans f g4 g5 k k4).
  - exists (b4 :: bs). split; [by rewrite <- Hbs|]. apply (owned_app g5 k5 p (b4 :: bs) [b5]).
    + apply (owned_kept N g4 g5 (λ _, False) k4 k5); try done; [simpl; lia|tauto].
    + simpl. rewrite Hbs. by apply own_page_owned.
    + by apply (owned_not_free g4 k4 p).
Qed.

(** The kernel [k'] after process_execute in [k]: the process is in the heap pages
    from [p] on, its directory in the frame at [pa]. *)
Record executed f k p rs ts g k' (pa : Z) filename nm : Prop := {
  ex_state : let t := heap_page (get_memst k) p in
    k' = lput l_kmmu (k_mmu k') (set_nodes (k_nodes k') (set_tasks
      (<[t := user_task t nm (heap_page (get_memst k) (p + 24)) (heap_page (get_memst k) (p + 1))]> (k_tasks k)) k));
  ex_frame : Forall (λ w, load32 (heap_page (get_memst k) p + first_stack + fst w) (k_mmu k') = Ok (u32 (snd w)) (k_mmu k'))
    (first_frame start_process_addr filename);
  ex_bitmap : ∀ a, region (heap_page (get_memst k) (p + 1)) user_bitmap_bytes a → mload (k_mmu k') a = Some 0;
  ex_dir : vaddr_to_paddr (heap_page (get_memst k) (p + 24)) (k_mmu k') = Ok pa (k_mmu k');
  ex_space : process_space (k_mmu k') pa;
  ex_ready : dlist (k_nodes k') thread_ready_list (rs ++ [general_tag (heap_page (get_memst k) p)]);
  ex_all : dlist (k_nodes k') thread_all_list (ts ++ [all_list_tag (heap_page (get_memst k) p)]);
  ex_nodes : ∀ z, z ∉ general_tag (heap_page (get_memst k) p) :: all_list_tag (heap_page (get_memst k) p) ::
      nodes thread_ready_list rs ++ nodes thread_all_list ts → k_nodes k' !! z = k_nodes k !! z;
  ex_heap : heap_at D T N g k' (p + 25) more;
  ex_via : via_kept T k k';
  ex_kept : still_taken f g k;
  ex_words : directory_words (k_mmu k') pa;
  ex_owned : ∃ bs b, length bs = 24%nat ∧ owned g k' p (bs ++ [b]) ∧ pa = frame (get_memst k') b
}.

Lemma fresh_nodes_other t h z : z ≠ general_tag t → z ≠ all_list_tag t → fresh_nodes t h !! z = h !! z.
Proof. intros Hg Ha. unfold fresh_nodes. by rewrite !lookup_insert_ne. Qed.

Lemma process_execute_ok f k p rs ts filename nm :
  can_execute f k p rs ts → (length nm < 16)%nat →
  wp (process_execute filename nm) (λ _ k', ∃ g pa, executed f k p rs ts g k' pa filename nm) k.
Proof.
  intros Hce Hlen. unfold process_execute.
  apply (make_process_ok f k p rs ts filename nm (λ t, old_status ← k_intr_disable;
    _ ← publish "kernel/process.c" "process_execute" 104 t; _ ← k_intr_set_status old_status; mret tt) _ Hce Hlen).
  intros g b k1 [Ha Hk1 Hfr Hz Hp Hdw Hvk Hst (bs & Hbs & Howned)]. cbv zeta in Hk1. set (t := heap_page (get_memst k) p) in *.
  destruct (only_memory_rest _ _ Hk1) as (Hcur & Hlk & Hno & Htk & Hint & _).
  pose proof (only_memory_memst _ _ Hk1) as Hs1.
  destruct (ha_room (ce_heap Hce)) as (Hp0 & HpN & _).
  eapply wpp_step; [apply k_intr_disable_ok|].
  destruct (publish_new_ok D T N "kernel/process.c" "process_execute" 104 f k (set_if false k1) rs ts p
    (execute_can_spawn _ _ _ _ _ Hce)) as (h' & Hpub & Hd1 & Hd2 & Hout); [lia| |exact Hno|].
  { rewrite (ha_used (ce_heap Hce)) by lia. apply bool_decide_eq_false_2. lia. }
  eapply wpp_step; [exact Hpub|]. eapply wpp_step; [apply k_intr_set_status_ok|]. apply wpp_ret.
  exists g, (frame (get_memst k1) b). set (k' := set_if _ _).
  assert (Hm : get_memst k' = get_memst k1) by (by destruct k1 as [[]]).
  assert (Hn : ∀ z, z ∉ general_tag t :: all_list_tag t :: nodes thread_ready_list rs ++ nodes thread_all_list ts →
    h' !! z = k_nodes k !! z).
  { intros z. rewrite !not_elem_of_cons, not_elem_of_app. intros (Hz1 & Hz2 & Hz3 & Hz4).
    change (k_nodes (set_if false k1)) with (k_nodes k1) in Hout. rewrite (proj2 Hout), Hno.
    - by apply fresh_nodes_other.
    - by rewrite not_elem_of_app, !not_elem_of_cons. }
  assert (Hw : dlist h' (waiters kernel_pool_lock) []).
  { apply (dlist_ext (k_nodes k) _ _ _ (ha_waiters (ce_heap Hce))). intros z Hz'. apply Hn.
    destruct (ce_waiters Hce z Hz') as [Hz1 Hz2].
    pose proof (waiters_apart f k p rs ts z Hce) as Hwa. fold t in Hwa. cbv zeta in Hwa.
    rewrite !not_elem_of_cons, not_elem_of_app. split_and!; [intros Heq|intros Heq|done|done]; apply Hwa; auto. }
  split; [|exact Hfr|exact Hz| | |exact Hd1|exact Hd2|exact Hn| | |exact Hst|exact Hdw|].
  - change (k_mmu k') with (k_mmu k1). change (k_nodes k') with h'. unfold k'. unfold only_memory in Hk1.
    rewrite Hk1 at 1 2. destruct k as [[]]. done.
  - apply (page_vaddr_to_paddr D T N) in Hp.
    assert (Hd : heap_page (get_memst k1) (p + 24) = heap_page (get_memst k) (p + 24)) by (by rewrite Hs1).
    rewrite Hd in Hp. exact Hp.
  - apply directory_space; [exact (ho_rec (pa_heap Hp))|exact Hdw].
  - exact (heap_at_ext D T N g k1 k' _ _ Ha Hm eq_refl eq_refl Hw).
  - intros a pa Hv Htr. rewrite Hm. by apply Hvk.
  - exists bs, b. unfold owned. rewrite Hm. split; [exact Hbs|]. split; [exact Howned|]. by rewrite Hs1.
Qed.

(** C11 process_execute makes a process that is ready to run: of the next twenty-five
    heap pages the first is its PCB with the first stack frame, whose switch returns
    into start_process with the program as argument; twenty-three hold the bitmap of
    its pages, all free; the last is its page directory, which maps the kernel as now,
    nothing below, and refers to itself.  All are on frames of their own, and no other
    byte the kernel works on changes.  It is at the end of both lists of threads.
    Outside memory only this PCB and the nodes of the two lists change, what the
    heap's table mapped stays mapped, and the heap is in order: the [more] pages that
    could be had besides can be had still. *)
Theorem process_execute_makes_process f k p rs ts filename nm :
  can_execute f k p rs ts → (length nm < 16)%nat →
  wp (process_execute filename nm) (λ _ k', ∃ g pa,
    let t := heap_page (get_memst k) p in
    let bm := heap_page (get_memst k) (p + 1) in
    let d := heap_page (get_memst k) (p + 24) in
    k' = lput l_kmmu (k_mmu k') (set_nodes (k_nodes k')
      (set_tasks (<[t := user_task t nm d bm]> (k_tasks k)) k)) ∧
    Forall (λ w, load32 (t + first_stack + fst w) (k_mmu k') = Ok (u32 (snd w)) (k_mmu k'))
      (first_frame start_process_addr filename) ∧
    (∀ a, region bm user_bitmap_bytes a → mload (k_mmu k') a = Some 0) ∧
    vaddr_to_paddr d (k_mmu k') = Ok pa (k_mmu k') ∧ process_space (k_mmu k') pa ∧
    dlist (k_nodes k') thread_ready_list (rs ++ [general_tag t]) ∧
    dlist (k_nodes k') thread_all_list (ts ++ [all_list_tag t]) ∧
    (∀ z, z ∉ general_tag t :: all_list_tag t :: nodes thread_ready_list rs ++ nodes thread_all_list ts →
       k_nodes k' !! z = k_nodes k !! z) ∧
    (∃ bs b, length bs = 24%nat ∧ owned g k' p (bs ++ [b]) ∧ pa = frame (get_memst k') b) ∧
    still_taken f g k ∧ heap_at D T N g k' (p + 25) more ∧ via_kept T k k') k.
Proof.
  intros Hce Hlen. eapply wp_mono; [by apply process_execute_ok|].
  intros _ k' (g & pa & [Hk Hfr Hbm Hdir Hsp Hr Hal Hno Hh Hv Hst _ Hown]).
  exists g, pa. cbv zeta. do 11 (split; [assumption|]). exact Hv.
Qed.
End execute.
