(* ===== verification/IoQueue.v ===== *)
(** * kernel/ioqueue.c: the ring buffer between an interrupt handler and threads *)

From Stdlib Require Import ZArith Lia.
From stdpp Require Import base tactics gmap strings fin_maps functions list.
From S2P Require Import Prelude ByteMem CString Bitmap Interrupt DList Format Paging Idt Memory.
From S2P Require Import Kernel Sched Sync.

Definition ioq_site (n : Z) (func cond : string) : panic_site :=
  PanicSite "kernel/ioqueue.c" n func cond.

(** The two waiter fields of the struct: [&ioq->producer], [&ioq->consumer]. *)
Inductive waiter_field := PRODUCER | CONSUMER.

Definition get_waiter (w : waiter_field) (q : ioqueue) : Z :=
  match w with PRODUCER => producer q | CONSUMER => consumer q end.

Definition set_waiter (w : waiter_field) (t : Z) (q : ioqueue) : ioqueue :=
  match w with
  | PRODUCER => IoQueue t (consumer q) (buf q) (head q) (tail q)
  | CONSUMER => IoQueue (producer q) t (buf q) (head q) (tail q)
  end.

Definition next_pos (pos : Z) : Z := u32 (pos + 1) mod bufsize.

Definition off_cond : string := "intr_get_status() == INTR_OFF".

Section ioqueue_c.
Context `{FpEval, Layout, Env}.

Definition assert_intr_off (n : Z) (func : string) : prog kernel unit :=
  s ← k_intr_get_status;
  c_assert (ioq_site n func off_cond) (bool_decide (s = INTR_OFF)).

Definition ioq_init (ioq : Z) : prog kernel unit :=
  _ ← lock_init ioq;
  _ ← update_queue ioq (λ q, set_waiter CONSUMER NULL (set_waiter PRODUCER NULL q));
  update_queue ioq (λ q, IoQueue (producer q) (consumer q) (buf q) 0 0).

Definition ioq_full (ioq : Z) : prog kernel bool :=
  _ ← assert_intr_off 18 "ioq_full";
  q ← load_queue ioq;
  mret (next_pos (head q) =? tail q).

Definition ioq_empty (ioq : Z) : prog kernel bool :=
  _ ← assert_intr_off 23 "ioq_empty";
  q ← load_queue ioq;
  mret (head q =? tail q).

Definition ioq_wait (ioq : Z) (waiter : waiter_field) : prog kernel unit :=
  q ← load_queue ioq;
  _ ← c_assert (ioq_site 28 "ioq_wait" "*waiter == NULL && waiter != NULL")
        (get_waiter waiter q =? NULL);
  cur ← running_thread;
  _ ← update_queue ioq (set_waiter waiter cur);
  thread_block TASK_BLOCKED.

Definition wakeup (ioq : Z) (waiter : waiter_field) : prog kernel unit :=
  q ← load_queue ioq;
  _ ← c_assert (ioq_site 34 "wakeup" "*waiter != NULL") (negb (get_waiter waiter q =? NULL));
  _ ← thread_unblock (get_waiter waiter q);
  update_queue ioq (set_waiter waiter NULL).

(** [while (ioq_empty(ioq)) { lock_acquire; ioq_wait; lock_release; }], and the
    same with [ioq_full] *)
Fixpoint ioq_block_while (fuel : nat) (test : prog kernel bool) (ioq : Z) (waiter : waiter_field) :
    prog kernel unit :=
  match fuel with
  | O => no_fuel
  | S fuel' =>
      b ← test;
      if b : bool then
        _ ← lock_acquire ioq;
        _ ← ioq_wait ioq waiter;
        _ ← lock_release ioq;
        ioq_block_while fuel' test ioq waiter
      else mret tt
  end.

Definition ioq_getchar (ioq : Z) : prog kernel Z :=
  _ ← assert_intr_off 40 "ioq_getchar";
  _ ← ioq_block_while wait_fuel (ioq_empty ioq) ioq CONSUMER;
  q ← load_queue ioq;
  byte ← match buf q !! Z.to_nat (tail q) with
         | Some b => mret b
         | None => undef "ioq_getchar: index out of bounds"
         end;
  _ ← update_queue ioq (λ q, IoQueue (producer q) (consumer q) (buf q) (head q) (next_pos (tail q)));
  q ← load_queue ioq;
  _ ← when (negb (producer q =? NULL)) (wakeup ioq PRODUCER);
  mret byte.

Definition ioq_putchar (ioq byte : Z) : prog kernel unit :=
  _ ← assert_intr_off 54 "ioq_putchar";
  _ ← ioq_block_while wait_fuel (ioq_full ioq) ioq PRODUCER;
  q ← load_queue ioq;
  _ ← (if head q <? Z.of_nat (length (buf q))
       then update_queue ioq (λ q,
              IoQueue (producer q) (consumer q) (<[Z.to_nat (head q) := i8 byte]> (buf q)) (head q) (tail q))
       else undef "ioq_putchar: index out of bounds");
  _ ← update_queue ioq (λ q, IoQueue (producer q) (consumer q) (buf q) (next_pos (head q)) (tail q));
  q ← load_queue ioq;
  when (negb (consumer q =? NULL)) (wakeup ioq CONSUMER).
End ioqueue_c.

(** ** The abstract queue *)

Record ring (q : ioqueue) : Prop := {
  ring_buf : length (buf q) = Z.to_nat bufsize;
  ring_head : 0 ≤ head q < bufsize;
  ring_tail : 0 ≤ tail q < bufsize
}.

(** How many characters wait. *)
Definition used (q : ioqueue) : Z := (head q - tail q) mod bufsize.

(** The characters from the tail to the head, oldest first. *)
Definition contents (q : ioqueue) : list Z :=
  (λ i, buf q !!! Z.to_nat ((tail q + i) mod bufsize)) <$> (seqZ 0 (used q)).

Definition advance_tail (q : ioqueue) : ioqueue :=
  IoQueue (producer q) (consumer q) (buf q) (head q) (next_pos (tail q)).

Definition put_head (byte : Z) (q : ioqueue) : ioqueue :=
  IoQueue (producer q) (consumer q) (<[Z.to_nat (head q) := byte]> (buf q)) (next_pos (head q)) (tail q).

Section ring_lemmas.
Implicit Types (q : ioqueue).

Lemma used_range q : 0 ≤ used q < bufsize.
Proof. apply Z.mod_pos_bound. reflexivity. Qed.

Lemma length_contents q : Z.of_nat (length (contents q)) = used q.
Proof.
  unfold contents. rewrite length_fmap, length_seqZ. pose proof (used_range q). lia.
Qed.

Lemma next_pos_ring p : 0 ≤ p < bufsize → next_pos p = (p + 1) mod bufsize ∧ 0 ≤ next_pos p < bufsize.
Proof. unfold next_pos, bufsize. intros Hp. rewrite u32_small by lia. split; [done|zlia]. Qed.

(** The test of ioq_empty and of ioq_full. *)
Lemma ring_empty q : ring q → (head q =? tail q) = bool_decide (contents q = []).
Proof.
  intros [Hb Hh Ht]. pose proof (length_contents q) as Hl. unfold used, bufsize in *.
  destruct (Z.eqb_spec (head q) (tail q)) as [Heq|Hne]; symmetry.
  - apply bool_decide_eq_true_2, nil_length_inv. rewrite Heq, Z.sub_diag in Hl. rewrite Z.mod_0_l in Hl by lia. lia.
  - apply bool_decide_eq_false_2. intros Hnil. rewrite Hnil in Hl. simpl in Hl. zlia.
Qed.

Lemma ring_full q :
  ring q → (next_pos (head q) =? tail q) = bool_decide (length (contents q) = 63%nat).
Proof.
  intros [Hb Hh Ht]. pose proof (length_contents q) as Hl.
  destruct (next_pos_ring _ Hh) as [-> _]. unfold used, bufsize in *.
  destruct (Z.eqb_spec ((head q + 1) mod 64) (tail q)) as [Heq|Hne]; symmetry.
  - apply bool_decide_eq_true_2. zlia.
  - apply bool_decide_eq_false_2. intros H63. rewrite H63 in Hl. zlia.
Qed.

Lemma ring_put q byte :
  ring q → used q < 63 → ring (put_head byte q) ∧ contents (put_head byte q) = contents q ++ [byte].
Proof.
  intros [Hb Hh Ht] Hfree. destruct (next_pos_ring _ Hh) as [Hn Hnr].
  split; [split; simpl; [by rewrite length_insert|done|done]|].
  assert (Hu : used (put_head byte q) = used q + 1).
  { unfold used in *. simpl. rewrite Hn. unfold bufsize in *. zlia. }
  pose proof (used_range q) as Hur. unfold contents. rewrite Hu, seqZ_app, fmap_app by lia. f_equal.
  - apply list_fmap_ext. intros i x Hx. apply lookup_seqZ in Hx as [-> Hx].
    rewrite Z.add_0_l. simpl. rewrite list_lookup_total_insert_ne; [done|].
    intros Heq. unfold used, bufsize in *. zlia.
  - rewrite (seqZ_cons _ 1), seqZ_nil by lia. rewrite Z.add_0_l. simpl. f_equal.
    replace (Z.to_nat ((tail q + used q) mod bufsize)) with (Z.to_nat (head q)).
    2: { unfold used, bufsize in *. f_equal. zlia. }
    apply list_lookup_total_insert_eq. rewrite Hb. unfold bufsize in *. lia.
Qed.

Lemma ring_get q c cs :
  ring q → contents q = c :: cs →
  buf q !! Z.to_nat (tail q) = Some c ∧ ring (advance_tail q) ∧ contents (advance_tail q) = cs.
Proof.
  intros [Hb Hh Ht] Hc. destruct (next_pos_ring _ Ht) as [Hn Hnr].
  pose proof (length_contents q) as Hl. rewrite Hc in Hl. simpl in Hl.
  pose proof (used_range q) as Hur.
  unfold contents in Hc. rewrite seqZ_cons in Hc by lia. simpl in Hc. injection Hc as Hc Hcs.
  split_and!; [|split; simpl; done|].
  - rewrite Z.add_0_r, Z.mod_small in Hc by lia. rewrite <- Hc. apply list_lookup_lookup_total_lt.
    rewrite Hb. unfold bufsize in *. lia.
  - rewrite <- Hcs. unfold contents.
    assert (Hu : used (advance_tail q) = used q - 1).
    { unfold used in *. simpl. rewrite Hn. unfold bufsize in *. zlia. }
    rewrite Hu. change (Z.succ 0) with 1.
    replace (seqZ 1 (Z.pred (used q))) with (Z.add 1 <$> seqZ 0 (used q - 1))
      by (rewrite fmap_add_seqZ; f_equal; lia).
    rewrite <- list_fmap_compose.
    apply list_fmap_ext. intros i x Hx. apply lookup_seqZ in Hx as [-> Hx]. simpl.
    do 2 f_equal. rewrite Hn. unfold bufsize. zlia.
Qed.
End ring_lemmas.

(** ** The operations on the queue *)

(** A waiter field names no thread, or a blocked one that is not in the ready
    list. *)
Definition wakeable `{Layout} (k : kernel) (rs : list Z) (t : Z) : Prop :=
  t = NULL ∨
  (general_tag t ∉ nodes thread_ready_list rs) ∧ is_Some (k_nodes k !! general_tag t) ∧
  ∃ x, k_tasks k !! t = Some x ∧ blocked_status (status x) = true.

(** The ready list, and the status of the thread, after waking it. *)
Definition woken `{Layout} (k' : kernel) (rs : list Z) (t : Z) : Prop :=
  if t =? NULL then dlist (k_nodes k') thread_ready_list rs
  else dlist (k_nodes k') thread_ready_list (general_tag t :: rs) ∧
       (status <$> (k_tasks k' !! t)) = Some TASK_READY.

(** The parts of the kernel no queue operation touches. *)
Definition same_machine (k k' : kernel) : Prop :=
  k_mmu k' = k_mmu k ∧ k_gdtr k' = k_gdtr k ∧ k_keys k' = k_keys k.

Section queue_ops.
Context `{FpEval, Layout, Env}.
Implicit Types (k : kernel) (q : ioqueue).

Definition with_queue (ioq : Z) (q : ioqueue) (k : kernel) : kernel :=
  set_queues (<[ioq := q]> (k_queues k)) k.

Lemma assert_intr_off_ok n func k : k_if k = false → assert_intr_off n func k = Ok tt k.
Proof.
  intros Hif. unfold assert_intr_off. rewrite (bind_Ok _ _ _ _ _ (k_intr_get_status_ok k)), Hif. done.
Qed.

Lemma ioq_full_ok ioq q k :
  k_if k = false → k_queues k !! ioq = Some q → ring q →
  ioq_full ioq k = Ok (bool_decide (length (contents q) = 63%nat)) k.
Proof.
  intros Hif Hq Hr. unfold ioq_full. rewrite (bind_Ok _ _ _ _ _ (assert_intr_off_ok _ _ _ Hif)).
  rewrite (bind_Ok _ _ _ _ _ (load_queue_ok _ _ _ Hq)). by rewrite ring_full.
Qed.

Lemma ioq_empty_ok ioq q k :
  k_if k = false → k_queues k !! ioq = Some q → ring q →
  ioq_empty ioq k = Ok (bool_decide (contents q = [])) k.
Proof.
  intros Hif Hq Hr. unfold ioq_empty. rewrite (bind_Ok _ _ _ _ _ (assert_intr_off_ok _ _ _ Hif)).
  rewrite (bind_Ok _ _ _ _ _ (load_queue_ok _ _ _ Hq)). by rewrite ring_empty.
Qed.

Lemma ioq_no_wait test ioq w k :
  (0 < wait_fuel)%nat → test k = Ok false k → ioq_block_while wait_fuel test ioq w k = Ok tt k.
Proof.
  intros Hf Ht. destruct wait_fuel as [|fuel]; [lia|]. simpl. by rewrite (bind_Ok _ _ _ _ _ Ht).
Qed.

(** Waking the waiter, if there is one. *)
Lemma wakeup_ok ioq w q k rs :
  k_queues k !! ioq = Some q → dlist (k_nodes k) thread_ready_list rs →
  wakeable k rs (get_waiter w q) →
  ∃ k', when (negb (get_waiter w q =? NULL)) (wakeup ioq w) k = Ok tt k' ∧
    k_queues k' !! ioq = Some (set_waiter w NULL q) ∧ k_if k' = k_if k ∧
    woken k' rs (get_waiter w q) ∧ same_machine k k'.
Proof.
  intros Hq Hd [Hnull|(Hni & Hs & x & Hx & Hb)].
  - rewrite Hnull. exists k. unfold woken. rewrite Z.eqb_refl. split_and!; try done.
    rewrite Hq. f_equal. destruct w, q; simpl in *; by subst.
  - destruct (thread_unblock_ok k (get_waiter w q) x rs Hx Hb Hd Hni Hs) as (h' & Hun & Hd' & _).
    unfold woken. destruct (Z.eqb_spec (get_waiter w q) NULL) as [Hnull|Hne].
    { exists k. simpl. split_and!; try done.
      - rewrite Hq. f_equal. destruct w, q; simpl in *; by subst. }
    simpl. unfold wakeup. rewrite (bind_Ok _ _ _ _ _ (load_queue_ok _ _ _ Hq)).
    rewrite (proj2 (Z.eqb_neq _ _) Hne), bind_assert. simpl negb.
    rewrite (bind_Ok _ _ _ _ _ Hun). eexists. split_and!.
    + apply update_queue_ok. exact Hq.
    + simpl. by rewrite lookup_insert_eq.
    + done.
    + exact Hd'.
    + simpl. by rewrite lookup_insert_eq.
    + done.
Qed.

(** ioq_putchar into a queue with room, up to the wake-up. *)
Lemma ioq_putchar_run ioq q byte k :
  (0 < wait_fuel)%nat → k_if k = false → k_queues k !! ioq = Some q → ring q → (length (contents q) < 63)%nat →
  ioq_putchar ioq byte k =
    when (negb (consumer q =? NULL)) (wakeup ioq CONSUMER) (with_queue ioq (put_head (i8 byte) q) k).
Proof.
  intros Hfuel Hif Hq Hr Hfree. pose proof Hr as [Hb Hh Ht]. set (k1 := with_queue ioq (put_head (i8 byte) q) k).
  unfold ioq_putchar. rewrite (bind_Ok _ _ _ _ _ (assert_intr_off_ok _ _ _ Hif)).
  erewrite (bind_Ok (ioq_block_while _ _ _ _)).
  2: { apply ioq_no_wait; [done|]. rewrite (ioq_full_ok _ _ _ Hif Hq Hr).
       by rewrite bool_decide_eq_false_2 by lia. }
  rewrite (bind_Ok _ _ _ _ _ (load_queue_ok _ _ _ Hq)).
  rewrite (proj2 (Z.ltb_lt _ _)) by (rewrite Hb; unfold bufsize in *; lia).
  erewrite (bind_Ok (update_queue _ _)) by (apply update_queue_ok; exact Hq).
  erewrite (bind_Ok (update_queue _ _)) by (apply update_queue_ok; simpl; apply lookup_insert_eq).
  cbv beta. match goal with |- mbind _ _ ?s = _ => replace s with k1 end.
  2: { unfold k1, with_queue, set_queues. simpl. by rewrite insert_insert_eq. }
  by rewrite (bind_Ok _ _ _ _ _ (load_queue_ok ioq (put_head (i8 byte) q) k1 (lookup_insert_eq _ _ _))).
Qed.

Lemma ioq_putchar_ok ioq q byte k rs :
  (0 < wait_fuel)%nat → k_if k = false → k_queues k !! ioq = Some q → ring q →
  (length (contents q) < 63)%nat → dlist (k_nodes k) thread_ready_list rs →
  wakeable k rs (consumer q) →
  ∃ k' q', ioq_putchar ioq byte k = Ok tt k' ∧ k_queues k' !! ioq = Some q' ∧ ring q' ∧
    contents q' = contents q ++ [i8 byte] ∧ consumer q' = NULL ∧ producer q' = producer q ∧
    k_if k' = false ∧ woken k' rs (consumer q) ∧ same_machine k k'.
Proof.
  intros Hfuel Hif Hq Hr Hfree Hd Hw. pose proof Hr as [Hb Hh Ht].
  destruct (ring_put q (i8 byte) Hr) as [Hr' Hc']. { pose proof (length_contents q). lia. }
  set (k1 := with_queue ioq (put_head (i8 byte) q) k).
  destruct (wakeup_ok ioq CONSUMER (put_head (i8 byte) q) k1 rs) as (k' & Hrun & Hq' & Hif' & Hwk & Hsm).
  { apply lookup_insert_eq. } { done. } { done. }
  exists k', (set_waiter CONSUMER NULL (put_head (i8 byte) q)).
  split_and!; [|done|by destruct Hr'|exact Hc'|done|done|by rewrite Hif'|exact Hwk|apply Hsm..].
  rewrite (ioq_putchar_run ioq q byte k) by done. exact Hrun.
Qed.

Lemma ioq_getchar_ok ioq q c cs k rs :
  (0 < wait_fuel)%nat → k_if k = false → k_queues k !! ioq = Some q → ring q →
  contents q = c :: cs → dlist (k_nodes k) thread_ready_list rs → wakeable k rs (producer q) →
  ∃ k' q', ioq_getchar ioq k = Ok c k' ∧ k_queues k' !! ioq = Some q' ∧ ring q' ∧
    contents q' = cs ∧ producer q' = NULL ∧ consumer q' = consumer q ∧
    k_if k' = false ∧ woken k' rs (producer q) ∧ same_machine k k'.
Proof.
  intros Hfuel Hif Hq Hr Hc Hd Hw.
  destruct (ring_get q c cs Hr Hc) as (Hbyte & Hr' & Hc').
  set (k1 := with_queue ioq (advance_tail q) k).
  destruct (wakeup_ok ioq PRODUCER (advance_tail q) k1 rs) as (k' & Hrun & Hq' & Hif' & Hwk & Hsm).
  { apply lookup_insert_eq. } { done. } { done. }
  exists k', (set_waiter PRODUCER NULL (advance_tail q)).
  split_and!; [|done|by destruct Hr'|exact Hc'|done|done|by rewrite Hif'|exact Hwk|apply Hsm..].
  unfold ioq_getchar. rewrite (bind_Ok _ _ _ _ _ (assert_intr_off_ok _ _ _ Hif)).
  erewrite (bind_Ok (ioq_block_while _ _ _ _)).
  2: { apply ioq_no_wait; [done|]. rewrite (ioq_empty_ok _ _ _ Hif Hq Hr), Hc. done. }
  rewrite (bind_Ok _ _ _ _ _ (load_queue_ok _ _ _ Hq)), Hbyte, bind_ret.
  erewrite (bind_Ok (update_queue _ _)) by (apply update_queue_ok; exact Hq).
  change (set_queues _ k) with k1.
  rewrite (bind_Ok _ _ _ _ _ (load_queue_ok ioq (advance_tail q) k1 (lookup_insert_eq _ _ _))).
  simpl producer. simpl get_waiter in Hrun. by rewrite (bind_Ok _ _ _ _ _ Hrun).
Qed.
End queue_ops.

(** ** Properties *)

Section queue_properties.
Context `{FpEval, Layout, Env}.

(** C39 The ring buffer is a first-in first-out queue of 63 characters: with
    interrupts off, the tests tell emptiness and fullness of the abstract queue;
    ioq_putchar into a queue with room appends the character, ioq_getchar from a
    queue with characters takes the oldest; either wakes the thread the queue
    remembers as waiting on the other side, by putting it in front of the ready
    list, and forgets it. *)
Theorem ioqueue_refines_fifo ioq q k rs :
  (0 < wait_fuel)%nat → k_if k = false → k_queues k !! ioq = Some q → ring q →
  dlist (k_nodes k) thread_ready_list rs →
  wakeable k rs (producer q) → wakeable k rs (consumer q) →
  ioq_empty ioq k = Ok (bool_decide (contents q = [])) k ∧
  ioq_full ioq k = Ok (bool_decide (length (contents q) = 63%nat)) k ∧
  (∀ byte, (length (contents q) < 63)%nat → ∃ k' q',
     ioq_putchar ioq byte k = Ok tt k' ∧ k_queues k' !! ioq = Some q' ∧ ring q' ∧
     contents q' = contents q ++ [i8 byte] ∧ consumer q' = NULL ∧ producer q' = producer q ∧
     k_if k' = false ∧ woken k' rs (consumer q)) ∧
  (∀ c cs, contents q = c :: cs → ∃ k' q',
     ioq_getchar ioq k = Ok c k' ∧ k_queues k' !! ioq = Some q' ∧ ring q' ∧
     contents q' = cs ∧ producer q' = NULL ∧ consumer q' = consumer q ∧
     k_if k' = false ∧ woken k' rs (producer q)).
Proof.
  intros. split_and!; [by apply ioq_empty_ok|by apply ioq_full_ok| |].
  - intros byte Hfree. destruct (ioq_putchar_ok ioq q byte k rs) as (k' & q' & ?); [done..|].
    exists k', q'. naive_solver.
  - intros c cs Hc. destruct (ioq_getchar_ok ioq q c cs k rs) as (k' & q' & ?); [done..|].
    exists k', q'. naive_solver.
Qed.
End queue_properties.

(** *** Witness: one character waits, and so does a consumer *)

#[local] Existing Instances x87 demo_layout demo_env.

Definition demo_ring : ioqueue := IoQueue NULL 0x22000 (<[63%nat := 104]> (replicate 64 0)) 0 63.

Definition demo_ring_kernel : kernel := set_queues {[0x12000 := demo_ring]} demo_kernel.

Lemma demo_ring_ok : ring demo_ring.
Proof. split; vm_compute; by repeat split. Qed.

Lemma demo_wakeable t x :
  x = 0x22000 → t = x → wakeable demo_ring_kernel [0x2101c] t.
Proof.
  intros -> ->. right. split_and!.
  - apply (bool_decide_unpack _). by vm_compute.
  - by eexists.
  - by eexists.
Qed.

Lemma ioqueue_refines_fifo_witness :
  ioq_empty 0x12000 demo_ring_kernel = Ok false demo_ring_kernel ∧
  ioq_full 0x12000 demo_ring_kernel = Ok false demo_ring_kernel ∧
  (∀ byte, (1 < 63)%nat → ∃ k' q',
     ioq_putchar 0x12000 byte demo_ring_kernel = Ok tt k' ∧
     k_queues k' !! 0x12000 = Some q' ∧ ring q' ∧
     contents q' = [104] ++ [i8 byte] ∧ consumer q' = NULL ∧ producer q' = NULL ∧
     k_if k' = false ∧ woken k' [0x2101c] 0x22000) ∧
  (∀ c cs, [104] = c :: cs → ∃ k' q',
     ioq_getchar 0x12000 demo_ring_kernel = Ok c k' ∧
     k_queues k' !! 0x12000 = Some q' ∧ ring q' ∧
     contents q' = cs ∧ producer q' = NULL ∧ consumer q' = 0x22000 ∧
     k_if k' = false ∧ woken k' [0x2101c] NULL).
Proof.
  apply (ioqueue_refines_fifo 0x12000 demo_ring demo_ring_kernel [0x2101c]).
  - simpl. lia.
  - reflexivity.
  - reflexivity.
  - exact demo_ring_ok.
  - apply (bool_decide_unpack _). by vm_compute.
  - by left.
  - by apply (demo_wakeable _ 0x22000).
Defined.
