(* ===== verification/Keyboard.v ===== *)
(** * kernel/keyboard.c: from scan codes to characters in the ring buffer *)

From Stdlib Require Import ZArith Lia.
From stdpp Require Import base tactics gmap strings fin_maps functions list.
From S2P Require Import Prelude ByteMem CString Bitmap Interrupt DList Format Paging Idt Memory.
From S2P Require Import Kernel Sched Sync IoQueue.

Definition shift_l_make : Z := 0x2a.
Definition shift_r_make : Z := 0x36.
Definition alt_l_make : Z := 0x38.
Definition alt_r_make : Z := 0xe038.
Definition ctrl_l_make : Z := 0x1d.
Definition ctrl_r_make : Z := 0xe01d.
Definition caps_lock_make : Z := 0x3a.

(** [keymap]: the character without and with shift, for the codes 0x00 to 0x3a;
    0 is [char_invisible]. *)
Definition keymap : list (Z * Z) := [
  (0, 0); (27, 27); (49, 33); (50, 64); (51, 35); (52, 36); (53, 37); (54, 94);
  (55, 38); (56, 42); (57, 40); (48, 41); (45, 95); (61, 43); (8, 8); (9, 9);
  (113, 81); (119, 87); (101, 69); (114, 82); (116, 84); (121, 89); (117, 85); (105, 73);
  (111, 79); (112, 80); (91, 123); (93, 125); (13, 13); (0, 0); (97, 65); (115, 83);
  (100, 68); (102, 70); (103, 71); (104, 72); (106, 74); (107, 75); (108, 76); (59, 58);
  (39, 34); (96, 126); (0, 0); (92, 124); (122, 90); (120, 88); (99, 67); (118, 86);
  (98, 66); (110, 78); (109, 77); (44, 60); (46, 62); (47, 63); (0, 0); (42, 42);
  (0, 0); (32, 32); (0, 0)].

Definition with_ctrl (b : bool) (s : keys) : keys :=
  Keys b (shift_status s) (alt_status s) (caps_lock_status s) (ext_scancode s).
Definition with_shift (b : bool) (s : keys) : keys :=
  Keys (ctrl_status s) b (alt_status s) (caps_lock_status s) (ext_scancode s).
Definition with_alt (b : bool) (s : keys) : keys :=
  Keys (ctrl_status s) (shift_status s) b (caps_lock_status s) (ext_scancode s).
Definition with_caps (b : bool) (s : keys) : keys :=
  Keys (ctrl_status s) (shift_status s) (alt_status s) b (ext_scancode s).
Definition with_ext (b : bool) (s : keys) : keys :=
  Keys (ctrl_status s) (shift_status s) (alt_status s) (caps_lock_status s) b.

(** The flags after a break code. *)
Definition on_break (make_code : Z) (s : keys) : keys :=
  if (make_code =? ctrl_l_make) || (make_code =? ctrl_r_make) then with_ctrl false s
  else if (make_code =? shift_l_make) || (make_code =? shift_r_make) then with_shift false s
  else if (make_code =? alt_l_make) || (make_code =? alt_r_make) then with_alt false s
  else s.

(** The flags after the make code of a key without a character. *)
Definition on_modifier (scancode : Z) (s : keys) : keys :=
  if (scancode =? ctrl_l_make) || (scancode =? ctrl_r_make) then with_ctrl true s
  else if (scancode =? shift_l_make) || (scancode =? shift_r_make) then with_shift true s
  else if (scancode =? alt_l_make) || (scancode =? alt_r_make) then with_alt true s
  else if scancode =? caps_lock_make then with_caps (negb (caps_lock_status s)) s
  else s.

(** The keys whose second character shift alone selects. *)
Definition not_a_letter (scancode : Z) : bool :=
  (scancode <? 0x0e) || (scancode =? 0x29) || (scancode =? 0x1a) || (scancode =? 0x1b) ||
  (scancode =? 0x2b) || (scancode =? 0x27) || (scancode =? 0x28) || (scancode =? 0x33) ||
  (scancode =? 0x34) || (scancode =? 0x35).

Definition use_shift (scancode : Z) (shift_down_last caps_lock_last : bool) : bool :=
  if not_a_letter scancode then shift_down_last
  else if shift_down_last && caps_lock_last then false
  else shift_down_last || caps_lock_last.

Section keyboard_c.
Context `{FpEval, Layout, Env}.

Definition put_keys (s : keys) : prog kernel unit := modify (set_keys s).

(** [inb] is what the port 0x60 gives. *)
Definition intr_keyboard_handler (inb : Z) : prog kernel unit :=
  s ← gets k_keys;
  let shift_down_last := shift_status s in
  let caps_lock_last := caps_lock_status s in
  let scancode := u16 (u8 inb) in
  if scancode =? 0xe0 then put_keys (with_ext true s) else
  let '(scancode, s) :=
    if ext_scancode s then (Z.lor 0xe000 scancode, with_ext false s) else (scancode, s) in
  _ ← put_keys s;
  if negb (Z.land scancode 0x0080 =? 0) then put_keys (on_break (Z.land scancode 0xff7f) s)
  else if ((0x00 <? scancode) && (scancode <? 0x3b)) || (scancode =? alt_r_make) ||
          (scancode =? ctrl_r_make) then
    let shift := use_shift scancode shift_down_last caps_lock_last in
    let scancode := Z.land scancode 0x00ff in
    cur_char ← match keymap !! Z.to_nat (u8 scancode) with
               | Some c => mret (if shift then snd c else fst c)
               | None => undef "keymap: index out of bounds"
               end;
    if negb (cur_char =? 0) then
      full ← ioq_full kbd_buf;
      when (negb full) (ioq_putchar kbd_buf cur_char)
    else put_keys (on_modifier scancode s)
  else kprint (line "unknown key") [].

Definition keyboard_init : prog kernel unit :=
  _ ← ioq_init kbd_buf;
  _ ← zoom l_intr (register_handler 0x21 keyboard_handler_addr);
  kprint (line "keyboard_init id done.") [].
End keyboard_c.

(** ** What a keyboard driver should do *)

Inductive modifier := CTRL | SHIFT | ALT | CAPS.

(** The keys: a modifier, a key with two characters, or none the driver knows. *)
Inductive key := Modifier (m : modifier) | Character (plain shifted : Z) | NoKey.

(** The key behind a code of seven bits, with or without the prefix 0xe0. *)
Definition key_of (ext : bool) (code : Z) : key :=
  if ext then
    if code =? 0x1d then Modifier CTRL else if code =? 0x38 then Modifier ALT else NoKey
  else
    if code =? 0x1d then Modifier CTRL
    else if (code =? 0x2a) || (code =? 0x36) then Modifier SHIFT
    else if code =? 0x38 then Modifier ALT
    else if code =? 0x3a then Modifier CAPS
    else match keymap !! Z.to_nat code with
         | Some (c, C) => if c =? 0 then NoKey else Character c C
         | None => NoKey
         end.

Definition is_letter (c : Z) : bool := (97 <=? c) && (c <=? 122).

(** Caps lock reverses shift for letters and is ignored for the other keys. *)
Definition typed (shift caps : bool) (c C : Z) : Z :=
  if (if is_letter c then xorb shift caps else shift) then C else c.

Definition press (m : modifier) (pressed : bool) (s : keys) : keys :=
  match m with
  | CTRL => with_ctrl pressed s
  | SHIFT => with_shift pressed s
  | ALT => with_alt pressed s
  | CAPS => if pressed then with_caps (negb (caps_lock_status s)) s else s
  end.

Inductive action := Quiet | Type_char (c : Z) | Complain.

(** One byte from the keyboard: the prefix, or a code whose top bit says that the
    key was released. *)
Definition decode (s : keys) (b : Z) : keys * action :=
  if b =? 0xe0 then (with_ext true s, Quiet) else
  let s' := with_ext false s in
  let pressed := b <? 128 in
  match key_of (ext_scancode s) (b mod 128) with
  | Modifier m => (press m pressed s', Quiet)
  | Character c C =>
      (s', if pressed then Type_char (typed (shift_status s) (caps_lock_status s) c C) else Quiet)
  | NoKey => (s', if pressed then Complain else Quiet)
  end.

(** ** The decision the handler takes, as a function *)

Definition handler_decision (s : keys) (b : Z) : keys * action :=
  if b =? 0xe0 then (with_ext true s, Quiet) else
  let '(scancode, s') := if ext_scancode s then (Z.lor 0xe000 b, with_ext false s) else (b, s) in
  if negb (Z.land scancode 0x0080 =? 0) then (on_break (Z.land scancode 0xff7f) s', Quiet)
  else if ((0x00 <? scancode) && (scancode <? 0x3b)) || (scancode =? alt_r_make) ||
          (scancode =? ctrl_r_make) then
    match keymap !! Z.to_nat (Z.land scancode 0x00ff) with
    | Some c =>
        let cur_char := if use_shift scancode (shift_status s) (caps_lock_status s) then snd c else fst c in
        if negb (cur_char =? 0) then (s', Type_char cur_char)
        else (on_modifier (Z.land scancode 0x00ff) s', Quiet)
    | None => (s', Complain)
    end
  else (s', Complain).

(** Every byte the keyboard can send and every state of the flags. *)
Definition all_keys : list keys :=
  c ← [false; true]; s ← [false; true]; a ← [false; true]; p ← [false; true]; e ← [false; true];
  [Keys c s a p e].

#[global] Instance keys_eq_dec : EqDecision keys.
Proof. solve_decision. Defined.

#[global] Instance action_eq_dec : EqDecision action.
Proof. solve_decision. Defined.

Lemma all_keys_complete s : s ∈ all_keys.
Proof. apply (bool_decide_unpack _). by destruct s as [[] [] [] [] []]; vm_compute. Qed.

Lemma decision_decode s b : 0 ≤ b < 256 → handler_decision s b = decode s b.
Proof.
  intros Hb. assert (Hin : b ∈ seqZ 0 256) by (apply elem_of_seqZ; lia).
  pose proof (all_keys_complete s) as Hs.
  assert (Hall : forallb (λ s, forallb (λ b, bool_decide (handler_decision s b = decode s b)) (seqZ 0 256))
                   all_keys = true) by (vm_compute; reflexivity).
  rewrite forallb_forall in Hall. specialize (Hall s (proj1 (list_elem_of_In _ _) Hs)).
  rewrite forallb_forall in Hall. specialize (Hall b (proj1 (list_elem_of_In _ _) Hin)).
  by apply bool_decide_eq_true in Hall.
Qed.

(** The codes the handler computes with stay in their ranges. *)
Lemma char_code_range scancode :
  ((0x00 <? scancode) && (scancode <? 0x3b)) || (scancode =? alt_r_make) ||
  (scancode =? ctrl_r_make) = true →
  u8 (Z.land scancode 0x00ff) = Z.land scancode 0x00ff ∧
  is_Some (keymap !! Z.to_nat (Z.land scancode 0x00ff)).
Proof.
  intros Hc. assert (Hr : 0 ≤ Z.land scancode 0x00ff < 0x3b).
  { destruct ((0x00 <? scancode) && (scancode <? 0x3b)) eqn:E; simpl in Hc.
    - zb. change 0x00ff with (Z.ones 8). rewrite Z.land_ones, Z.mod_small by lia. lia.
    - destruct (Z.eqb_spec scancode alt_r_make) as [->|]; [vm_compute; by split|]. simpl in Hc.
      apply Z.eqb_eq in Hc as ->. vm_compute. by split. }
  split; [apply u8_small; lia|]. apply lookup_lt_is_Some_2. change (length keymap) with 59%nat. lia.
Qed.

Section keyboard_properties.
Context `{FpEval, Layout, Env}.

(** What the kernel does for each action. *)
Definition perform (a : action) : prog kernel unit :=
  match a with
  | Quiet => mret tt
  | Type_char c => full ← ioq_full kbd_buf; when (negb full) (ioq_putchar kbd_buf c)
  | Complain => kprint (line "unknown key") []
  end.

Lemma handler_performs b k :
  0 ≤ b < 256 →
  intr_keyboard_handler b k =
    perform (snd (handler_decision (k_keys k) b)) (set_keys (fst (handler_decision (k_keys k) b)) k).
Proof.
  intros Hb. unfold intr_keyboard_handler, handler_decision. rewrite bind_gets. cbv zeta.
  rewrite u8_small, u16_small by lia. destruct (b =? 0xe0); [done|].
  set (sc := if ext_scancode (k_keys k) then _ else _).
  destruct sc as [scancode s'].
  change (put_keys s') with (modify (set_keys s')). rewrite bind_modify.
  destruct (negb (Z.land scancode 0x0080 =? 0)); [done|].
  destruct (_ || _) eqn:Hc; [|done].
  destruct (char_code_range _ Hc) as [-> [c ->]]. rewrite bind_ret.
  by destruct (negb (_ =? 0)).
Qed.

(** The keyboard handler is the driver of the layout: for every byte and every
    state of the flags it does what [decode] says.  The prefix 0xe0 is remembered
    for one byte; press and release of control, shift and alt set and clear their
    flag, caps lock toggles on press; a key with characters puts one into the
    buffer unless that is full, the shifted one when shift is down, reversed by
    caps lock for letters only; any other press is reported. *)
Theorem keyboard_refines_layout b k :
  0 ≤ b < 256 →
  intr_keyboard_handler b k =
    let '(s, a) := decode (k_keys k) b in perform a (set_keys s k).
Proof.
  intros Hb. rewrite (handler_performs b k Hb), (decision_decode _ _ Hb).
  by destruct (decode (k_keys k) b).
Qed.
(** One interrupt for each byte. *)
Fixpoint interrupts (bs : list Z) : prog kernel unit :=
  match bs with
  | [] => mret tt
  | b :: bs' => _ ← intr_keyboard_handler b; interrupts bs'
  end.

(** What was typed. *)
Fixpoint decode_all (s : keys) (bs : list Z) : keys * list Z :=
  match bs with
  | [] => (s, [])
  | b :: bs' =>
      let '(s1, a) := decode s b in
      let '(s2, cs) := decode_all s1 bs' in
      (s2, match a with Type_char c => c :: cs | _ => cs end)
  end.

Definition char_in_range (a : action) : bool := match a with Type_char c => i8 c =? c | _ => true end.

Lemma take_take_app {A} n (l k : list A) : take n (take n l ++ k) = take n (l ++ k).
Proof.
  rewrite !take_app, take_take, length_take. rewrite Nat.min_id. do 2 f_equal. lia.
Qed.

Lemma decode_char_range s b c : 0 ≤ b < 256 → snd (decode s b) = Type_char c → i8 c = c.
Proof.
  intros Hb. assert (Hin : b ∈ seqZ 0 256) by (apply elem_of_seqZ; lia).
  pose proof (all_keys_complete s) as Hs.
  assert (Hall : Forall (λ s, Forall (λ b, char_in_range (snd (decode s b)) = true) (seqZ 0 256)) all_keys)
    by decided.
  rewrite Forall_forall in Hall. specialize (Hall s Hs). rewrite Forall_forall in Hall.
  specialize (Hall b Hin). intros Hc. rewrite Hc in Hall. by apply Z.eqb_eq.
Qed.

(** The buffer between two interrupts: its contents [cs], and who may be waiting. *)
Record buffer_ok (k : kernel) (q : ioqueue) (rs : list Z) : Prop := {
  bo_if : k_if k = false;
  bo_queue : k_queues k !! kbd_buf = Some q;
  bo_ring : ring q;
  bo_ready : dlist (k_nodes k) thread_ready_list rs;
  bo_waiter : wakeable k rs (consumer q);
  bo_gdt : gdt_mapped k = true
}.

(** The effect of one action. *)
Lemma perform_ok a k q rs :
  wait_fuel ≠ 0%nat → buffer_ok k q rs → (∀ c, a = Type_char c → i8 c = c) →
  ∃ k' q' rs', perform a k = Ok tt k' ∧ buffer_ok k' q' rs' ∧ k_keys k' = k_keys k ∧
    contents q' = take 63 (contents q ++ match a with Type_char c => [c] | _ => [] end).
Proof.
  intros Hf [Hif Hq Hr Hd Hw Hg] Hc.
  assert (Hlen : (length (contents q) ≤ 63)%nat).
  { pose proof (length_contents q). pose proof (used_range q). unfold bufsize in *. lia. }
  assert (Hsame : contents q = take 63 (contents q ++ [])) by (by rewrite app_nil_r, take_ge).
  destruct a as [|c|]; simpl perform.
  - exists k, q, rs. by split_and!.
  - specialize (Hc c eq_refl). rewrite (bind_Ok _ _ _ _ _ (ioq_full_ok kbd_buf q k Hif Hq Hr)).
    destruct (decide (length (contents q) = 63%nat)) as [Hfull|Hroom].
    + rewrite bool_decide_true by done. exists k, q, rs. split_and!; [done|done|done|].
      by rewrite take_app_le, take_ge by lia.
    + rewrite bool_decide_false by done. change (negb false) with true. simpl when.
      destruct (ioq_putchar_ok kbd_buf q c k rs) as (k' & q' & Hrun & Hq' & Hr' & Hc' & Hcons & _ & Hif' & Hwk & Hm & Hgd & Hk);
        [lia|done|done|done|lia|done|done|].
      assert (Hrd : ∃ rs', dlist (k_nodes k') thread_ready_list rs').
      { unfold woken in Hwk. destruct (consumer q =? NULL); [by exists rs|]. eexists. by apply Hwk. }
      destruct Hrd as [rs' Hrd]. exists k', q', rs'. split_and!; [done| |done|].
      * split; try done; [by left|]. unfold gdt_mapped, video_descriptor in *. by rewrite Hm, Hgd.
      * rewrite Hc', Hc, take_ge; [done|]. rewrite length_app. simpl. lia.
  - destruct (kprint_lit (line "unknown key") k) as [o Hp]; [done|done|done|].
    exists (add_output o k), q, rs. split_and!; [done| |done|done]. by split.
Qed.

Lemma buffer_ok_keys s k q rs : buffer_ok k q rs → buffer_ok (set_keys s k) q rs.
Proof. intros []. by split. Qed.

(** C40 Typing: for any bytes from the keyboard, one interrupt each with interrupts
    off, the buffer holds what it held and then the characters typed, in their order,
    up to its 63 places, and the modifier flags are those of the whole sequence; a
    thread that waits for a character is woken by the first. *)
Theorem keyboard_types bs k q rs :
  wait_fuel ≠ 0%nat → buffer_ok k q rs → Forall (λ b, 0 ≤ b < 256) bs →
  ∃ k' q' rs', interrupts bs k = Ok tt k' ∧ buffer_ok k' q' rs' ∧
    k_keys k' = fst (decode_all (k_keys k) bs) ∧
    contents q' = take 63 (contents q ++ snd (decode_all (k_keys k) bs)).
Proof.
  intros Hf. revert k q rs. induction bs as [|b bs IH]; intros k q rs Hb Hbs.
  - exists k, q, rs. split_and!; [done|done|done|]. simpl. rewrite app_nil_r, take_ge; [done|].
    pose proof (length_contents q). pose proof (used_range q). unfold bufsize in *. lia.
  - apply Forall_cons in Hbs as [Hbr Hbs]. simpl interrupts. simpl decode_all.
    pose proof (handler_performs b k Hbr) as Hh. rewrite (decision_decode _ _ Hbr) in Hh.
    pose proof (decode_char_range (k_keys k) b) as Hc.
    destruct (decode (k_keys k) b) as [s1 a] eqn:Hdec. simpl fst in *. simpl snd in *.
    destruct (perform_ok a (set_keys s1 k) q rs Hf) as (k1 & q1 & rs1 & Hp & Hb1 & Hk1 & Hc1);
      [by apply buffer_ok_keys|by intros c ->; apply Hc|].
    destruct (IH k1 q1 rs1 Hb1 Hbs) as (k' & q' & rs' & Hrun & Hb' & Hk' & Hc').
    exists k', q', rs'. rewrite Hk1 in Hk', Hc'. change (k_keys (set_keys s1 k)) with s1 in *.
    destruct (decode_all s1 bs) as [s2 cs]. simpl in Hk', Hc'.
    split_and!; [by rewrite (bind_Ok _ _ _ _ _ (eq_trans Hh Hp))|done|done|].
    rewrite Hc', Hc1. simpl snd. rewrite take_take_app, <- (assoc (++)).
    by destruct a.
Qed.
End keyboard_properties.

(** *** Witness: the byte 0x1e presses the key A *)

#[local] Existing Instances x87 demo_layout demo_env.

Lemma keyboard_refines_layout_witness :
  decode (k_keys demo_kernel) 0x1e = (k_keys demo_kernel, Type_char 97) ∧
  intr_keyboard_handler 0x1e demo_kernel =
    (let '(s, a) := decode (k_keys demo_kernel) 0x1e in perform a (set_keys s demo_kernel)).
Proof. split; [vm_compute; reflexivity|]. apply (keyboard_refines_layout 0x1e demo_kernel). lia. Defined.

(** Shift down, H, shift up, I, behind a character that waits. *)
Lemma keyboard_types_witness :
  decode_all (k_keys demo_ring_kernel) [0x2a; 0x23; 0xaa; 0x17] = (k_keys demo_ring_kernel, [72; 105]) ∧
  ∃ k' q' rs', interrupts [0x2a; 0x23; 0xaa; 0x17] demo_ring_kernel = Ok tt k' ∧ buffer_ok k' q' rs' ∧
    contents q' = [104; 72; 105].
Proof.
  split; [vm_compute; reflexivity|].
  destruct (keyboard_types [0x2a; 0x23; 0xaa; 0x17] demo_ring_kernel demo_ring [0x2101c])
    as (k' & q' & rs' & Hrun & Hb & _ & Hc).
  - discriminate.
  - split; [reflexivity|reflexivity|exact demo_ring_ok|decided|by apply (demo_wakeable _ 0x22000)|vm_compute; reflexivity].
  - decided.
  - exists k', q', rs'. split; [exact Hrun|]. split; [exact Hb|]. rewrite Hc. vm_compute. reflexivity.
Defined.
