(* ===== verification/Timer.v ===== *)
(** * kernel/timer.c: the interval timer and the clock interrupt *)

From Stdlib Require Import ZArith Lia.
From stdpp Require Import base tactics gmap strings fin_maps functions list.
From S2P Require Import Prelude ByteMem CString Bitmap Interrupt DList Format Paging Idt Memory.
From S2P Require Import Kernel Sched Sync Alloc Thread.

Definition HZ : Z := 100.

Definition pic_init : prog istate unit :=
  _ ← outb 0x43 0x34;
  _ ← outb 0x40 (u8 (1193180 / HZ));
  outb 0x40 (u8 (Z.shiftr (1193180 / HZ) 8)).

Section timer_c.
Context `{FpEval, Layout, Env}.

Definition clock_site : panic_site :=
  PanicSite "kernel/timer.c" 25 "clock_interrupt_handler" "cur_thread->stack_magic == 0x19870916".

Definition clock_interrupt_handler : prog kernel unit :=
  cur_thread ← running_thread;
  t ← load_task cur_thread;
  _ ← c_assert clock_site (stack_magic t =? magic);
  if ticks t =? 0 then schedule
  else update_task cur_thread (λ t, with_ticks (u8 (ticks t - 1)) t).

Definition timer_init : prog kernel unit :=
  _ ← zoom l_intr (register_handler 0x20 clock_handler_addr);
  _ ← zoom l_intr pic_init;
  kprint (line "timer_init is done") [].
End timer_c.
