(* ===== verification/Tss.v ===== *)
(** * kernel/tss.c: segment descriptors and the task state segment *)

From Stdlib Require Import ZArith Lia.
From stdpp Require Import base tactics gmap strings fin_maps functions list.
From S2P Require Import Prelude ByteMem CString Bitmap Interrupt DList Format Paging Idt Memory.
From S2P Require Import Kernel Sched.

(** [struct gdt_desc] of include/tss.h *)
Record gdt_desc := GdtDesc {
  limit_low_word : Z;
  base_low_word : Z;
  base_mid_byte : Z;
  attr_low_byte : Z;
  limit_high_attr_high : Z;
  base_high_byte : Z
}.

Definition make_gdt_desc (desc_addr limit attr_low attr_high : Z) : gdt_desc :=
  let desc_base := u32 desc_addr in
  GdtDesc
    (u16 (Z.land limit 0x0000ffff))
    (u16 (Z.land desc_base 0x0000ffff))
    (u8 (Z.shiftr (Z.land desc_base 0x00ff0000) 16))
    (u8 attr_low)
    (u8 (Z.shiftr (Z.land limit 0x000f0000) 16 + u8 attr_high))
    (u8 (Z.shiftr desc_base 24)).

(** The descriptor's eight bytes in memory. *)
Definition word_bytes (w : Z) : list Z := [w mod 2 ^ 8; w / 2 ^ 8].

Definition desc_bytes (d : gdt_desc) : list Z :=
  word_bytes (limit_low_word d) ++ word_bytes (base_low_word d) ++
  [base_mid_byte d; attr_low_byte d; limit_high_attr_high d; base_high_byte d].

(** The two little-endian words the CPU reads. *)
Definition dword (bs : list Z) : Z := foldr (λ b acc, b + 2 ^ 8 * acc) 0 bs.

Definition desc_low (bs : list Z) : Z := dword (take 4 bs).

Definition desc_high (bs : list Z) : Z := dword (drop 4 bs).

(** The descriptor as the CPU reads it from its two words: base, limit in bytes,
    type and privilege byte, flags. *)
Definition cpu_base (lo hi : Z) : Z :=
  lo / 2 ^ 16 + hi mod 2 ^ 8 * 2 ^ 16 + hi / 2 ^ 24 * 2 ^ 24.

Definition cpu_limit (lo hi : Z) : Z :=
  let l := lo mod 2 ^ 16 + (hi / 2 ^ 16) mod 2 ^ 4 * 2 ^ 16 in
  if Z.odd (hi / 2 ^ 23) then l * 2 ^ 12 + 4095 else l.

Definition cpu_access (hi : Z) : Z := (hi / 2 ^ 8) mod 2 ^ 8.

(** [sizeof(struct tss)]: 27 words. *)
Definition sizeof_tss : Z := 108.

Section tss_c.
Context `{FpEval, Layout}.

(** A struct assignment: byte by byte, at any alignment. *)
Fixpoint store_bytes (a : Z) (bs : list Z) : prog mmu unit :=
  match bs with
  | [] => mret tt
  | b :: bs' => _ ← store8 a b; store_bytes (u32 (a + 1)) bs'
  end.

Definition store_desc (a : Z) (d : gdt_desc) : prog kernel unit :=
  zoom l_kmmu (store_bytes (u32 a) (desc_bytes d)).

Definition tss_init : prog kernel unit :=
  let tss_size := sizeof_tss in
  _ ← modify (set_tss (replicate 27 0));
  _ ← modify (λ k, set_tss (<[2%nat := Z.shiftl 2 3]> (k_tss k)) k);
  _ ← modify (λ k, set_tss (<[26%nat := tss_size]> (k_tss k)) k);
  gdt_base ← zoom l_kmmu (load32 0xd04);
  _ ← store_desc (gdt_base + 0x20) (make_gdt_desc tss_addr (tss_size - 1) 0x89 0x80);
  _ ← store_desc (gdt_base + 0x28) (make_gdt_desc 0 0xfffff 0xf8 0xc0);
  _ ← store_desc (gdt_base + 0x30) (make_gdt_desc 0 0xfffff 0xf2 0xc0);
  _ ← modify (set_gdtr (Z.lor (8 * 7 - 1) (Z.shiftl gdt_base 16)) (Z.shiftl 4 3));
  kprint (line "tss_init is done.") [].
End tss_c.

(** ** Descriptors *)

Lemma make_gdt_desc_words desc_addr limit attr_low attr_high :
  0 ≤ desc_addr < 2 ^ 32 → 0 ≤ limit < 2 ^ 20 → 0 ≤ attr_low < 2 ^ 8 →
  0 ≤ attr_high < 2 ^ 8 → attr_high mod 2 ^ 4 = 0 →
  let bs := desc_bytes (make_gdt_desc desc_addr limit attr_low attr_high) in
  desc_low bs = limit mod 2 ^ 16 + desc_addr mod 2 ^ 16 * 2 ^ 16 ∧
  desc_high bs = (desc_addr / 2 ^ 16) mod 2 ^ 8 + attr_low * 2 ^ 8 +
    (limit / 2 ^ 16 + attr_high) * 2 ^ 16 + desc_addr / 2 ^ 24 * 2 ^ 24.
Proof.
  intros Ha Hl Hal Hah Hfl. unfold make_gdt_desc. cbv zeta. rewrite (u32_small desc_addr Ha).
  change 0x0000ffff with (Z.ones 16). change 0x00ff0000 with (Z.shiftl (Z.ones 8) 16).
  change 0x000f0000 with (Z.shiftl (Z.ones 4) 16).
  rewrite !Z.shiftr_land, !Z.shiftr_shiftl_l by lia.
  rewrite !Z.shiftl_0_r, !Z.land_ones, !Z.shiftr_div_pow2 by lia.
  unfold desc_bytes, word_bytes, desc_low, desc_high, dword. simpl.
  unfold u16, u8. split; zlia.
Qed.

Lemma make_gdt_desc_ok desc_addr limit attr_low attr_high :
  0 ≤ desc_addr < 2 ^ 32 → 0 ≤ limit < 2 ^ 20 → 0 ≤ attr_low < 2 ^ 8 →
  0 ≤ attr_high < 2 ^ 8 → attr_high mod 2 ^ 4 = 0 →
  let bs := desc_bytes (make_gdt_desc desc_addr limit attr_low attr_high) in
  Forall (λ b, 0 ≤ b < 256) bs ∧
  cpu_base (desc_low bs) (desc_high bs) = desc_addr ∧
  cpu_limit (desc_low bs) (desc_high bs) =
    (if Z.odd (attr_high / 2 ^ 7) then limit * 2 ^ 12 + 4095 else limit) ∧
  cpu_access (desc_high bs) = attr_low.
Proof.
  intros Ha Hl Hal Hah Hfl bs.
  destruct (make_gdt_desc_words desc_addr limit attr_low attr_high Ha Hl Hal Hah Hfl) as [Hlo Hhi].
  fold bs in Hlo, Hhi. split_and!.
  - subst bs. unfold desc_bytes, word_bytes, make_gdt_desc. simpl.
    rewrite !Forall_cons, Forall_nil. unfold u8, u16. split_and!; try done; zlia.
  - rewrite Hlo, Hhi. unfold cpu_base. zlia.
  - rewrite Hlo, Hhi. unfold cpu_limit.
    assert (Hbit : ((desc_addr / 2 ^ 16) mod 2 ^ 8 + attr_low * 2 ^ 8 +
      (limit / 2 ^ 16 + attr_high) * 2 ^ 16 + desc_addr / 2 ^ 24 * 2 ^ 24) / 2 ^ 23 =
      attr_high / 2 ^ 7 + 2 * (desc_addr / 2 ^ 24)) by zlia.
    rewrite Hbit, Z.odd_add_mul_2.
    destruct (Z.odd (attr_high / 2 ^ 7)); zlia.
  - rewrite Hhi. unfold cpu_access. zlia.
Qed.

(** make_gdt_desc builds the descriptor it is asked for: the CPU, which finds
    base and limit scattered over the eight bytes, reads back the base, the limit
    (in bytes, or in pages with the granularity flag) and the access byte, for
    every address, every 20-bit limit and all attributes. *)
Theorem make_gdt_desc_roundtrip desc_addr limit attr_low attr_high :
  0 ≤ desc_addr < 2 ^ 32 → 0 ≤ limit < 2 ^ 20 → 0 ≤ attr_low < 2 ^ 8 →
  0 ≤ attr_high < 2 ^ 8 → attr_high mod 2 ^ 4 = 0 →
  let bs := desc_bytes (make_gdt_desc desc_addr limit attr_low attr_high) in
  Forall (λ b, 0 ≤ b < 256) bs ∧
  cpu_base (desc_low bs) (desc_high bs) = desc_addr ∧
  cpu_limit (desc_low bs) (desc_high bs) =
    (if Z.odd (attr_high / 2 ^ 7) then limit * 2 ^ 12 + 4095 else limit) ∧
  cpu_access (desc_high bs) = attr_low.
Proof. apply make_gdt_desc_ok. Qed.

Lemma make_gdt_desc_roundtrip_witness :
  cpu_base (desc_low (desc_bytes (make_gdt_desc 0xc0013579 107 0x89 0x80)))
    (desc_high (desc_bytes (make_gdt_desc 0xc0013579 107 0x89 0x80))) = 0xc0013579.
Proof.
  exact (proj1 (proj2 (make_gdt_desc_roundtrip 0xc0013579 107 0x89 0x80
    ltac:(lia) ltac:(lia) ltac:(lia) ltac:(lia) eq_refl))).
Defined.

(** ** tss_init *)

Lemma store_bytes_ok (m : mmu) (D : Z → Prop) f a bs :
  holds m D f → (∀ x, region a (Z.of_nat (length bs)) x → D x) → Forall (λ b, 0 ≤ b < 256) bs →
  0 ≤ a → a + Z.of_nat (length bs) < 2 ^ 32 →
  wp (store_bytes a bs) (λ _ m', holds m' D (blit f a bs) ∧ changes D m m') m.
Proof.
  revert m f a. induction bs as [|b bs IH]; intros m f a Hm HD Hbs H0 H32.
  - split; [|apply changes_refl]. eapply holds_ext; [exact Hm|]. intros x _. by rewrite blit_nil.
  - apply Forall_cons in Hbs as [Hb Hbs]. simpl store_bytes. unfold region in HD. simpl length in *.
    apply wp_bind, (wp_store8 _ _ _ _ _ _ Hm); [apply HD; lia|]. intros m1 Hm1 Hch1.
    rewrite u32_small by lia. rewrite (u8_small b Hb) in Hm1.
    eapply wp_mono; [apply (IH m1 _ (a + 1) Hm1)|].
    + unfold region. intros x Hx. apply HD. lia.
    + done.
    + lia.
    + lia.
    + intros _ m2 [Hm2 Hch2]. split; [|by eapply changes_trans].
      eapply holds_ext; [exact Hm2|]. intros x _. apply blit_cons.
Qed.

(** What the CPU makes of eight bytes of the descriptor table. *)
Definition cpu_desc (bs : list Z) : Z * Z * Z :=
  (cpu_base (desc_low bs) (desc_high bs), cpu_limit (desc_low bs) (desc_high bs), cpu_access (desc_high bs)).

Lemma cpu_desc_ok desc_addr limit attr_low attr_high :
  0 ≤ desc_addr < 2 ^ 32 → 0 ≤ limit < 2 ^ 20 → 0 ≤ attr_low < 2 ^ 8 →
  0 ≤ attr_high < 2 ^ 8 → attr_high mod 2 ^ 4 = 0 →
  let bs := desc_bytes (make_gdt_desc desc_addr limit attr_low attr_high) in
  Forall (λ b, 0 ≤ b < 256) bs ∧
  cpu_desc bs = (desc_addr, if Z.odd (attr_high / 2 ^ 7) then limit * 2 ^ 12 + 4095 else limit, attr_low).
Proof.
  intros Ha Hl Hal Hah Hfl bs. destruct (make_gdt_desc_ok desc_addr limit attr_low attr_high Ha Hl Hal Hah Hfl)
    as (Hb & Hbase & Hlim & Hacc).
  split; [done|]. unfold cpu_desc. fold bs in Hbase, Hlim, Hacc. by rewrite Hbase, Hlim, Hacc.
Qed.

Section tss_properties.
Context `{FpEval, Layout}.

Lemma store_desc_ok k (D : Z → Prop) f a d :
  holds (k_mmu k) D f → (∀ x, region a 8 x → D x) → Forall (λ b, 0 ≤ b < 256) (desc_bytes d) →
  0 ≤ a → a + 8 < 2 ^ 32 →
  ∃ m', store_desc a d k = Ok tt (lput l_kmmu m' k) ∧ holds m' D (blit f a (desc_bytes d)) ∧
    changes D (k_mmu k) m'.
Proof.
  intros Hm HD Hb H0' H32. unfold store_desc. rewrite u32_small by lia.
  assert (Hlen : Z.of_nat (length (desc_bytes d)) = 8) by done.
  pose proof (store_bytes_ok (k_mmu k) D f a (desc_bytes d) Hm) as Hst. rewrite Hlen in Hst.
  destruct (proj1 (wp_Ok _ _ _) (Hst HD Hb H0' H32)) as ([] & m' & Hrun & Hm' & Hch).
  exists m'. split_and!; [by apply zoom_Ok|done|done].
Qed.

(** The descriptor table tss_init builds, as bytes. *)
Definition user_descriptors (base : Z) (f : Z → Z) : Z → Z :=
  blit (blit (blit f (base + 0x20) (desc_bytes (make_gdt_desc tss_addr (sizeof_tss - 1) 0x89 0x80)))
    (base + 0x28) (desc_bytes (make_gdt_desc 0 0xfffff 0xf8 0xc0)))
    (base + 0x30) (desc_bytes (make_gdt_desc 0 0xfffff 0xf2 0xc0)).

Lemma user_descriptors_ok base f :
  0 ≤ tss_addr < 2 ^ 32 →
  let g := user_descriptors base f in
  cpu_desc (peek g (base + 0x20) 8) = (tss_addr, 108 * 2 ^ 12 - 1, 0x89) ∧
  cpu_desc (peek g (base + 0x28) 8) = (0, 2 ^ 32 - 1, 0xf8) ∧
  cpu_desc (peek g (base + 0x30) 8) = (0, 2 ^ 32 - 1, 0xf2) ∧
  ∀ x, ¬ region (base + 0x20) 24 x → g x = f x.
Proof.
  intros Htss g.
  destruct (cpu_desc_ok tss_addr 107 0x89 0x80) as [_ H4]; [done..|].
  destruct (cpu_desc_ok 0 0xfffff 0xf8 0xc0) as [_ H5]; [done..|].
  destruct (cpu_desc_ok 0 0xfffff 0xf2 0xc0) as [_ H6]; [done..|].
  assert (Hlen : ∀ d, Z.of_nat (length (desc_bytes d)) = 8) by done.
  unfold g, user_descriptors. split_and!.
  - erewrite (peek_ext _ (blit f (base + 0x20) (desc_bytes (make_gdt_desc tss_addr (sizeof_tss - 1) 0x89 0x80)))).
    + change 8%nat with (length (desc_bytes (make_gdt_desc tss_addr (sizeof_tss - 1) 0x89 0x80))).
      rewrite peek_blit. exact H4.
    + unfold region. intros x Hx. rewrite (blit_outside _ (base + 0x30)), (blit_outside _ (base + 0x28)); [done|..]; rewrite Hlen; unfold region; lia.
  - erewrite (peek_ext _ (blit (blit f (base + 0x20) (desc_bytes (make_gdt_desc tss_addr (sizeof_tss - 1) 0x89 0x80)))
      (base + 0x28) (desc_bytes (make_gdt_desc 0 0xfffff 0xf8 0xc0)))).
    + change 8%nat with (length (desc_bytes (make_gdt_desc 0 0xfffff 0xf8 0xc0))). rewrite peek_blit. exact H5.
    + unfold region. intros x Hx. rewrite blit_outside; [done|]. rewrite Hlen. unfold region. lia.
  - change 8%nat with (length (desc_bytes (make_gdt_desc 0 0xfffff 0xf2 0xc0))). rewrite peek_blit. exact H6.
  - unfold region. intros x Hx. rewrite !blit_outside; [done|..]; rewrite Hlen; unfold region; lia.
Qed.

(** tss_init as one change of state. *)
Lemma tss_init_ok k (D : Z → Prop) f base :
  load32 0xd04 (k_mmu k) = Ok base (k_mmu k) → 0 ≤ base → base + 0x38 < 2 ^ 32 → 0 ≤ tss_addr < 2 ^ 32 →
  holds (k_mmu k) D f → (∀ x, region base 0x38 x → D x) →
  ∃ c m, tss_init k = Ok tt (add_output c (set_gdtr (base * 2 ^ 16 + 55) 0x20
      (lput l_kmmu m (set_tss (<[26%nat := 108]> (<[2%nat := 16]> (replicate 27 0))) k)))) ∧
    holds m D (user_descriptors base f) ∧ changes D (k_mmu k) m.
Proof.
  intros Hld Hb0 Hb32 Htss Hm HD.
  set (k1 := set_tss (<[26%nat := 108]> (<[2%nat := 16]> (replicate 27 0))) k).
  assert (Hsub : ∀ a, base ≤ a → a + 8 ≤ base + 0x38 → ∀ x, region a 8 x → D x).
  { unfold region in *. intros a Ha0 Ha1 x Hx. apply HD. lia. }
  destruct (store_desc_ok k1 D f (base + 0x20) (make_gdt_desc tss_addr (sizeof_tss - 1) 0x89 0x80))
    as (m1 & Hr1 & Hm1 & Hc1); [done|by apply Hsub; lia|by apply cpu_desc_ok|lia|lia|].
  destruct (store_desc_ok (lput l_kmmu m1 k1) D _ (base + 0x28) (make_gdt_desc 0 0xfffff 0xf8 0xc0) Hm1)
    as (m2 & Hr2 & Hm2 & Hc2); [by apply Hsub; lia|by apply cpu_desc_ok|lia|lia|].
  destruct (store_desc_ok (lput l_kmmu m2 (lput l_kmmu m1 k1)) D _ (base + 0x30) (make_gdt_desc 0 0xfffff 0xf2 0xc0) Hm2)
    as (m3 & Hr3 & Hm3 & Hc3); [by apply Hsub; lia|by apply cpu_desc_ok|lia|lia|].
  assert (Hgdtr : Z.lor (8 * 7 - 1) (Z.shiftl base 16) = base * 2 ^ 16 + 55).
  { rewrite <- Z.add_nocarry_lor; [rewrite Z.shiftl_mul_pow2 by lia; lia|].
    apply Z.bits_inj'. intros n Hn. rewrite Z.land_spec, Z.bits_0.
    destruct (decide (n < 16)); [by rewrite (Z.shiftl_spec_low base), andb_false_r|].
    by rewrite (Z.bits_above_log2 (8 * 7 - 1) n) by (change (Z.log2 (8 * 7 - 1)) with 5; lia). }
  assert (Hk3 : lput l_kmmu m3 (lput l_kmmu m2 (lput l_kmmu m1 k1)) = lput l_kmmu m3 k1) by (by destruct k as [[]]).
  set (k4 := set_gdtr (base * 2 ^ 16 + 55) 0x20 (lput l_kmmu m3 k1)).
  assert (Hgdt : gdt_mapped k4 = true).
  { unfold gdt_mapped. apply bool_decide_eq_true_2. change (video_descriptor k4) with ((base * 2 ^ 16 + 55) / 2 ^ 16 + 0x18).
    change (k_mmu k4) with m3. replace ((base * 2 ^ 16 + 55) / 2 ^ 16) with base by zlia.
    destruct Hm3 as [(Hown & _) _]. destruct (Hown (base + 0x18)) as (pa & -> & _); [|done].
    apply HD. unfold region. lia. }
  destruct (kprint_lit (line "tss_init is done.") k4) as [c Hp]; [done|done|done|].
  exists c, m3. split_and!; try done.
  - unfold tss_init. rewrite !bind_modify, (bind_Ok _ _ _ _ _ (zoom_kmmu_read _ k1 base Hld)).
    rewrite (bind_Ok _ _ _ _ _ Hr1), (bind_Ok _ _ _ _ _ Hr2), (bind_Ok _ _ _ _ _ Hr3), bind_modify, Hgdtr, Hk3.
    exact Hp.
  - eapply changes_trans; [exact Hc1|]. eapply changes_trans; [exact Hc2|exact Hc3].
Qed.

End tss_properties.

(** *** Witness: the loader left 0x800 at 0xd04 *)

#[local] Existing Instances x87 demo_layout.

Definition tss_kernel : kernel := lput l_kmmu (pset32 demo_mmu 0x5d04 0x800) demo_kernel.

Lemma tss_kernel_walk : walks (k_mmu tss_kernel) 0 0x2007 0x5007.
Proof. split; vm_compute; (reflexivity || (split; congruence)). Qed.

