(* ===== verification/Main.v ===== *)
(** * kernel/main.c: start-up, and the bodies of the threads and programs *)

From Stdlib Require Import ZArith Lia.
From stdpp Require Import base tactics gmap strings fin_maps functions list.
From S2P Require Import Prelude ByteMem CString Bitmap Interrupt DList Format Paging Idt Memory.
From S2P Require Import Kernel Sched Sync Alloc Thread Process IoQueue Keyboard Timer Tss.

Section main_c.
Context `{FpEval, Layout, Env}.

(** main() up to its final loop; [u_prog_a] is the address of the program. *)
Definition main (u_prog_a : Z) : prog kernel unit :=
  _ ← kprint (nl +:+ nl +:+ line "LiziOS is initializing the kernel...") [];
  _ ← zoom l_intr (interrupt_init default_handler_addr entry_stubs idt_addr);
  _ ← memory_init;
  _ ← thread_init;
  _ ← timer_init;
  _ ← console_init;
  _ ← keyboard_init;
  _ ← tss_init;
  _ ← process_execute u_prog_a (chars "user_prog_a");
  _ ← k_intr_enable;
  mret tt.

(** One round of the loop of k_thread_a() and k_thread_b(), with the counter
    [test_var_a] or [test_var_b] before and after it. *)
Definition k_thread_round (label : string) (test_var : Z) : prog kernel Z :=
  _ ← console_print_str (chars label);
  _ ← console_print_num test_var;
  mret (i32 (test_var + 1)).

Definition k_thread_a : Z → prog kernel Z := k_thread_round " v_a:".

Definition k_thread_b : Z → prog kernel Z := k_thread_round " v_b:".

(** One round of the loop of u_prog_a() and u_prog_b(). *)
Definition u_prog_round (test_var : Z) : Z := i32 (test_var + 1).
End main_c.
