(* ===== verification/Boot.v ===== *)
(** * kernel/main.c: start-up, from what the loader leaves to the running system

    main() run on the page tables, the words and the zeroed globals of
    boot/loader.asm: every part of the kernel is initialised, the first process is
    made, interrupts go on; and what the first 32 clock interrupts do then. *)

From Stdlib Require Import ZArith Lia.
From stdpp Require Import base tactics gmap strings fin_maps functions list.
From S2P Require Import Prelude ByteMem CString Bitmap Interrupt DList Format Paging Idt Memory Malloc Loader.
From S2P Require Import Kernel Sched Sync Alloc Thread Spawn Process AddrSpace Execute IoQueue Keyboard Timer Tss Main.

(** ** Lists that are set up one after the other *)

(** The lists in [dl] with their elements. *)
Definition lists_up (dl : list (Z * list Z)) (h : gmap Z list_elem) : Prop :=
  Forall (λ d, dlist h (fst d) (snd d)) dl.

Definition agree_outside (ns : list Z) (h h' : gmap Z list_elem) : Prop := ∀ z, z ∉ ns → h' !! z = h !! z.

Definition apart_from (ns : list Z) (dl : list (Z * list Z)) : Prop :=
  Forall (λ d, ∀ z, z ∈ nodes (fst d) (snd d) → z ∉ ns) dl.

Lemma lists_up_step dl ns h h' : lists_up dl h → agree_outside ns h h' → apart_from ns dl → lists_up dl h'.
Proof.
  intros Hl Hout Hap. apply Forall_forall. intros d Hd. unfold lists_up, apart_from in *.
  rewrite Forall_forall in Hl, Hap. apply (dlist_ext h); [by apply Hl|]. intros z Hz. by apply Hout, (Hap d Hd).
Qed.

Lemma lists_up_cons l xs dl h : dlist h l xs → lists_up dl h → lists_up ((l, xs) :: dl) h.
Proof. intros Hd Hl. by apply Forall_cons. Qed.

Lemma same_agree ns h h' : same_outside ns h h' → agree_outside ns h h'.
Proof. intros [_ Hs]. exact Hs. Qed.

Lemma agree_trans ns1 ns2 h1 h2 h3 :
  agree_outside ns1 h1 h2 → agree_outside ns2 h2 h3 → agree_outside (ns1 ++ ns2) h1 h3.
Proof. intros H12 H23 z [Hz1 Hz2]%not_elem_of_app. rewrite H23 by done. by apply H12. Qed.

(** ** The machine and the image the loader hands over *)

Section boot.
Context `{FpEval, Layout, Env}.
Implicit Types (k : kernel).

(** The stack the loader gives main() is in this page. *)
Definition main_pcb : Z := 0xc009e000.

Definition kernel_locks : list Z := [kernel_pool_lock; user_pool_lock; console_lock; kbd_buf].

Definition kernel_lists : list Z := [thread_ready_list; thread_all_list] ++ (waiters <$> kernel_locks).

(** The list nodes that are not in the heap. *)
Definition static_nodes : list Z :=
  general_tag main_pcb :: all_list_tag main_pcb :: mjoin ((λ l, nodes l []) <$> kernel_lists).

(** The linker's work: the globals do not overlap and lie below the heap. *)
Record image_ok : Prop := {
  im_nodes : NoDup static_nodes;
  im_below : Forall (λ z, z < K_HEAP_START) static_nodes;
  im_locks : NoDup kernel_locks;
  im_tss : 0 ≤ tss_addr < 2 ^ 32
}.

(** The loader has set up the tables, stored the size of memory at 0xd00 and the
    address of the descriptor table at 0xd04, and loaded GDTR with its address in the
    kernel's half; interrupts are off, the stack is in [main_pcb]'s page, the globals
    are there.  At least 64 pages are free (counted as the code counts them). *)
Record loader_state (all_mem base : Z) k : Prop := {
  ld_mem : loader_mem (k_mmu k);
  ld_ram : ram (k_mmu k) = all_mem ∧ all_mem < 2 ^ 32 ∧ 64 ≤ free_pages all_mem;
  ld_size : pword (k_mmu k) 0xd00 = all_mem;
  ld_gdt : pword (k_mmu k) 0xd04 = base ∧ 0 ≤ base ∧ base + 0x38 ≤ 0x9a000;
  ld_gdtr : video_descriptor k = 0xc0000000 + base + 0x18;
  ld_cur : k_cur k = main_pcb;
  ld_if : k_if k = false;
  ld_nodes : ∀ l z, l ∈ kernel_lists → z ∈ nodes l [] → is_Some (k_nodes k !! z);
  ld_locks : ∀ l, l ∈ kernel_locks → is_Some (k_locks k !! l);
  ld_queue : ∃ q, k_queues k !! kbd_buf = Some q ∧ length (buf q) = Z.to_nat bufsize
}.

Arguments ld_gdt {_ _ _} _.
Arguments ld_ram {_ _ _} _.

(** ** Printing and reading while the loader's tables are in force *)

Lemma gdt_up k : loader_mem (k_mmu k) → first_mb (video_descriptor k) → gdt_mapped k = true.
Proof. intros Hm Hv. unfold gdt_mapped. apply bool_decide_eq_true_2. rewrite loader_translate by done. eauto. Qed.

Lemma loader_load32 m a : loader_mem m → first_mb a → a mod 4 = 0 → load32 a m = Ok (pword m (phys a)) m.
Proof.
  intros Hm Ha Hal. apply load32_ok; [done|by apply loader_translate|]. pose proof (lm_ram _ Hm).
  destruct (phys_first_mb a Ha) as [Hp Hmod]. apply in_ram_true. unfold PG_SIZE in *. zlia.
Qed.

(** ** memory_init *)

Lemma memory_init_ok k all_mem xk xu :
  loader_mem (k_mmu k) → pword (k_mmu k) 0xd00 = all_mem → first_mb (video_descriptor k) →
  k_locks k !! kernel_pool_lock = Some xk → k_locks k !! user_pool_lock = Some xu →
  kernel_pool_lock ≠ user_pool_lock →
  (∀ l z, l ∈ kernel_lists → z ∈ nodes l [] → is_Some (k_nodes k !! z)) →
  (∀ z, z ∈ nodes (waiters user_pool_lock) [] → z ∉ nodes (waiters kernel_pool_lock) []) →
  ∃ s' h' c, memory_init k = Ok tt (add_output c (set_nodes h' (set_locks
      (<[kernel_pool_lock := Lock NULL 1 0]> (<[user_pool_lock := Lock NULL 1 0]> (k_locks k))) (put_memst s' k)))) ∧
    loader_mem (m_mmu s') ∧ ram (m_mmu s') = ram (k_mmu k) ∧ pools_set all_mem s' ∧
    bits_free all_mem s' ∧
    (∀ x, ¬ region 0x9a000 (bitmap_bytes all_mem) x → pbyte (m_mmu s') x = pbyte (k_mmu k) x) ∧
    lists_up [(waiters kernel_pool_lock, []); (waiters user_pool_lock, [])] h' ∧
    agree_outside (nodes (waiters user_pool_lock) [] ++ nodes (waiters kernel_pool_lock) []) (k_nodes k) h' ∧
    dom h' = dom (k_nodes k).
Proof.
  intros Hm Hsize Hv Hxk Hxu Hne Hn Hap.
  assert (Hn' : ∀ l, l ∈ kernel_lists → is_Some (k_nodes k !! list_head l) ∧ is_Some (k_nodes k !! list_tail l)).
  { intros l Hl. split; apply (Hn l); rewrite ?nodes_elem; auto. }
  destruct (proj1 (wp_Ok _ _ _) (mem_pool_init_heap (get_memst k) all_mem Hm))
    as ([] & s' & Hrun & Hm' & Hram & Hps & Hbits & Hby).
  set (k1 := put_memst s' k).
  destruct (lock_init_ok user_pool_lock xu k1 Hxu) as (h1 & Hr1 & Hd1 & Ho1); [apply (Hn' (waiters user_pool_lock)); set_solver..|].
  set (k2 := set_nodes h1 (set_locks _ k1)) in *.
  assert (Hdom1 : dom h1 = dom (k_nodes k)) by apply Ho1.
  destruct (lock_init_ok kernel_pool_lock xk k2) as (h2 & Hr2 & Hd2 & Ho2).
  { simpl. by rewrite lookup_insert_ne. }
  { simpl. apply elem_of_dom. rewrite Hdom1. apply elem_of_dom, (Hn' (waiters kernel_pool_lock)). set_solver. }
  { simpl. apply elem_of_dom. rewrite Hdom1. apply elem_of_dom, (Hn' (waiters kernel_pool_lock)). set_solver. }
  set (k3 := set_nodes h2 (set_locks _ k2)) in *.
  destruct (kprint_lit (line "memory_init done") k3) as [c Hp]; [done|done| |].
  { apply gdt_up; [exact Hm'|exact Hv]. }
  exists s', h2, c. split_and!; try done.
  - unfold memory_init.
    assert (Hld : zoom l_kmmu (load32 0xd00) k = Ok all_mem k).
    { apply zoom_kmmu_read. rewrite loader_load32 by (first [done|left; lia]). by rewrite <- Hsize. }
    rewrite (bind_Ok _ _ _ _ _ Hld), (bind_Ok _ _ _ _ _ (zoom_Ok l_memst _ k tt s' Hrun)).
    change (lput l_memst s' k) with k1. rewrite (bind_Ok _ _ _ _ _ Hr1), (bind_Ok _ _ _ _ _ Hr2). exact Hp.
  - apply lists_up_cons; [done|]. apply lists_up_cons; [|by apply Forall_nil].
    apply (dlist_frame h1 _ _ _ _ Hd1 Ho2). done.
  - eapply agree_trans; [apply same_agree; exact Ho1|apply same_agree; exact Ho2].
  - transitivity (dom h1); [apply Ho2|exact Hdom1].
Qed.

(** ** thread_init *)

(** The PCB of the thread main() runs on. *)
Definition main_task : task_struct := new_task TASK_RUNNING main_pcb (chars "main") 31 0xc009f000.

Lemma thread_init_ok k :
  loader_mem (k_mmu k) → first_mb (video_descriptor k) → k_cur k = main_pcb →
  (∀ l z, l ∈ [thread_ready_list; thread_all_list] → z ∈ nodes l [] → is_Some (k_nodes k !! z)) →
  (∀ z, z ∈ nodes thread_ready_list [] → z ∉ nodes thread_all_list []) →
  (∀ l, l ∈ [thread_ready_list; thread_all_list] →
     (general_tag main_pcb ∉ nodes l []) ∧ (all_list_tag main_pcb ∉ nodes l [])) →
  ∃ h' c, thread_init k = Ok tt (add_output c (set_nodes h' (set_tasks (<[main_pcb := main_task]> (k_tasks k))
      (set_main main_pcb k)))) ∧
    lists_up [(thread_ready_list, []); (thread_all_list, [all_list_tag main_pcb])] h' ∧
    agree_outside ([general_tag main_pcb; all_list_tag main_pcb] ++ nodes thread_ready_list [] ++ nodes thread_all_list [])
      (k_nodes k) h' ∧
    dom (k_nodes k) ⊆ dom h' ∧ is_Some (h' !! general_tag main_pcb).
Proof.
  intros Hm Hv Hc Hn Hap Htags. set (R := thread_ready_list) in *. set (L := thread_all_list) in *.
  assert (Hn' : ∀ l, l ∈ [R; L] → is_Some (k_nodes k !! list_head l) ∧ is_Some (k_nodes k !! list_tail l)).
  { intros l Hl. split; apply (Hn l _ Hl); rewrite nodes_elem; auto. }
  destruct (Htags R) as [HgR HaR]; [set_solver|]. destruct (Htags L) as [HgL HaL]; [set_solver|].
  destruct (Hn' R) as [HR1 HR2]; [set_solver|]. destruct (Hn' L) as [HL1 HL2]; [set_solver|].
  destruct (list_init_ok (i_if (k_intr k)) _ _ HR1 HR2) as (h1 & Hr1 & Hd1 & Ho1).
  assert (Hn1 : ∀ z, is_Some (k_nodes k !! z) → is_Some (h1 !! z)).
  { intros z. rewrite <- !elem_of_dom. by rewrite (proj1 Ho1). }
  destruct (list_init_ok (i_if (k_intr k)) h1 L (Hn1 _ HL1) (Hn1 _ HL2)) as (h2 & Hr2 & Hd2 & Ho2).
  pose proof (dlist_frame _ _ _ _ _ Hd1 Ho2 Hap) as Hd1'.
  set (k2 := set_nodes h2 (set_nodes h1 k)).
  set (k3 := set_tasks (<[main_pcb := main_task]> (k_tasks k)) (set_nodes (fresh_nodes main_pcb h2) (set_main main_pcb k2))).
  assert (Hinit : init_thread main_pcb (chars "main") 31 (set_main main_pcb k2) = Ok tt k3).
  { rewrite (init_thread_ok _ _ _ _ (phys main_pcb)); [done| |simpl; lia].
    apply loader_translate; [exact Hm|]. unfold first_mb, main_pcb. lia. }
  pose proof (fresh_dlist main_pcb _ _ _ HgR HaR Hd1') as Hd1''.
  pose proof (fresh_dlist main_pcb _ _ _ HgL HaL Hd2) as Hd2'.
  destruct (list_append_ok (i_if (k_intr k)) _ _ _ (all_list_tag main_pcb) Hd2' HaL) as (h3 & Happ & Hd3 & Ho3).
  { unfold fresh_nodes. rewrite lookup_insert_ne by done. rewrite lookup_insert_eq. eauto. }
  set (k4 := set_nodes h3 k3).
  destruct (kprint_lit (line "thread_init is done.") k4) as [c Hp]; [done|done|by apply gdt_up|].
  exists h3, c. split_and!.
  - unfold thread_init. rewrite (bind_Ok _ _ _ _ _ (zoom_core _ k _ h1 Hr1)).
    rewrite (bind_Ok _ _ _ _ _ (zoom_core _ (set_nodes h1 k) _ h2 Hr2)).
    assert (Hmk : make_main_thread k2 = Ok tt k4).
    { unfold make_main_thread, running_thread. rewrite bind_gets. change (k_cur k2) with (k_cur k). rewrite Hc.
      rewrite bind_modify, (bind_Ok _ _ _ _ _ Hinit).
      assert (Hfind : all_find main_pcb k3 = Ok false k3).
      { apply zoom_core_read. rewrite (elem_find_ok _ _ _ [] _ Hd2'); [done|].
        intros Heq. apply HaL, nodes_elem. auto. }
      rewrite (bind_Ok _ _ _ _ _ Hfind), bind_assert. exact (zoom_core _ k3 _ h3 Happ). }
    rewrite (bind_Ok _ _ _ _ _ Hmk). exact Hp.
  - apply lists_up_cons; [|apply lists_up_cons; [exact Hd3|by apply Forall_nil]].
    apply (dlist_frame _ _ _ _ _ Hd1'' Ho3). intros z Hz [->|Hz']%elem_of_cons; [by apply HaR|].
    by apply (Hap z).
  - intros z [Hzt [HzR HzL]%not_elem_of_app]%not_elem_of_app.
    assert (Hz3 : z ∉ all_list_tag main_pcb :: nodes L []).
    { apply not_elem_of_cons. split; [intros ->; apply Hzt; set_solver|done]. }
    rewrite (proj2 Ho3 z Hz3). unfold fresh_nodes.
    rewrite !lookup_insert_ne by (intros <-; apply Hzt; set_solver).
    by rewrite (proj2 Ho2 z HzL), (proj2 Ho1 z HzR).
  - rewrite (proj1 Ho3). unfold fresh_nodes. rewrite !dom_insert, (proj1 Ho2), (proj1 Ho1). set_solver.
  - apply elem_of_dom. rewrite (proj1 Ho3). unfold fresh_nodes. rewrite dom_insert. set_solver.
Qed.
(** ** timer_init, console_init, keyboard_init *)

Definition with_handler (num h : Z) (i : istate) : istate :=
  with_table (<[Z.to_nat num := h]> (c_interrupt_entry_table i)) i.

(** What pic_init of timer.c writes. *)
Definition timer_ports : list (Z * Z) := [(0x43, 0x34); (0x40, 155); (0x40, 46)].

Definition add_ports (ws : list (Z * Z)) (i : istate) : istate := with_ports (i_ports i ++ ws) i.

Lemma gdt_up_same k k' :
  loader_mem (k_mmu k) → first_mb (video_descriptor k) → k_mmu k' = k_mmu k → k_gdtr k' = k_gdtr k → gdt_mapped k' = true.
Proof. intros Hm Hv Hm' Hg. apply gdt_up; unfold video_descriptor in *; by rewrite ?Hm', ?Hg. Qed.

Lemma register_ok num h k :
  0 ≤ num < interrupt_num →
  zoom l_intr (register_handler num h) k = Ok tt (set_intr (with_handler num h (k_intr k)) k).
Proof.
  intros Hn. apply zoom_Ok. unfold register_handler. rewrite u8_small by (unfold interrupt_num in *; lia).
  by rewrite (proj2 (Z.ltb_lt _ _)) by lia.
Qed.

Lemma timer_init_ok k :
  loader_mem (k_mmu k) → first_mb (video_descriptor k) →
  ∃ c, timer_init k =
    Ok tt (add_output c (set_intr (add_ports timer_ports (with_handler 0x20 clock_handler_addr (k_intr k))) k)).
Proof.
  intros Hm Hv. set (k1 := set_intr (with_handler 0x20 clock_handler_addr (k_intr k)) k).
  set (k2 := set_intr (add_ports timer_ports (k_intr k1)) k1).
  destruct (kprint_lit (line "timer_init is done") k2) as [c Hp]; [done|done|by apply (gdt_up_same k)|].
  exists c. unfold timer_init. rewrite (bind_Ok _ _ _ _ _ (register_ok 0x20 clock_handler_addr k ltac:(done))). fold k1.
  assert (Hpic : zoom l_intr Timer.pic_init k1 = Ok tt k2).
  { apply zoom_Ok. unfold Timer.pic_init, outb. rewrite !bind_modify. unfold add_ports, with_ports, modify.
    simpl. by rewrite <- !app_assoc. }
  rewrite (bind_Ok _ _ _ _ _ Hpic). exact Hp.
Qed.

Lemma console_init_ok k x :
  loader_mem (k_mmu k) → first_mb (video_descriptor k) → k_locks k !! console_lock = Some x →
  (∀ z, z ∈ nodes (waiters console_lock) [] → is_Some (k_nodes k !! z)) →
  ∃ h' c, console_init k =
      Ok tt (add_output c (set_nodes h' (set_locks (<[console_lock := Lock NULL 1 0]> (k_locks k)) k))) ∧
    dlist h' (waiters console_lock) [] ∧ same_outside (nodes (waiters console_lock) []) (k_nodes k) h'.
Proof.
  intros Hm Hv Hx Hn.
  destruct (lock_init_ok console_lock x k Hx) as (h' & Hr & Hd & Ho); [apply Hn, nodes_elem; auto..|].
  set (k1 := set_nodes h' _) in *.
  destruct (kprint_lit (line "console_init is done.") k1) as [c Hp]; [done|done|by apply (gdt_up_same k)|].
  exists h', c. split_and!; [|done|done]. unfold console_init. by rewrite (bind_Ok _ _ _ _ _ Hr), Hp.
Qed.

(** An empty queue nobody waits on. *)
Definition empty_queue (q : ioqueue) : ioqueue := IoQueue NULL NULL (buf q) 0 0.

Lemma keyboard_init_ok k x q :
  loader_mem (k_mmu k) → first_mb (video_descriptor k) → k_locks k !! kbd_buf = Some x →
  k_queues k !! kbd_buf = Some q → (∀ z, z ∈ nodes (waiters kbd_buf) [] → is_Some (k_nodes k !! z)) →
  ∃ h' c, keyboard_init k =
      Ok tt (add_output c (set_intr (with_handler 0x21 keyboard_handler_addr (k_intr k))
        (set_queues (<[kbd_buf := empty_queue q]> (k_queues k))
           (set_nodes h' (set_locks (<[kbd_buf := Lock NULL 1 0]> (k_locks k)) k))))) ∧
    dlist h' (waiters kbd_buf) [] ∧ same_outside (nodes (waiters kbd_buf) []) (k_nodes k) h'.
Proof.
  intros Hm Hv Hx Hq Hn.
  destruct (lock_init_ok kbd_buf x k Hx) as (h' & Hr & Hd & Ho); [apply Hn, nodes_elem; auto..|].
  set (k1 := set_nodes h' _) in *. set (k2 := set_queues (<[kbd_buf := empty_queue q]> (k_queues k)) k1).
  assert (Hioq : ioq_init kbd_buf k = Ok tt k2).
  { unfold ioq_init. rewrite (bind_Ok _ _ _ _ _ Hr), (bind_Ok _ _ _ _ _ (update_queue_ok _ q _ k1 Hq)).
    rewrite (update_queue_ok kbd_buf (set_waiter CONSUMER NULL (set_waiter PRODUCER NULL q)))
      by apply lookup_insert_eq.
    f_equal. unfold k2, set_queues. simpl. by rewrite insert_insert_eq. }
  set (k3 := set_intr (with_handler 0x21 keyboard_handler_addr (k_intr k2)) k2).
  destruct (kprint_lit (line "keyboard_init id done.") k3) as [c Hp]; [done|done|by apply (gdt_up_same k)|].
  exists h', c. split_and!; [|done|done]. unfold keyboard_init.
  rewrite (bind_Ok _ _ _ _ _ Hioq), (bind_Ok _ _ _ _ _ (register_ok 0x21 keyboard_handler_addr k2 ltac:(done))).
  exact Hp.
Qed.
(** ** The lists do not meet *)

Lemma nodup_lists ls : NoDup (mjoin ((λ l, nodes l []) <$> ls)) →
  NoDup ls ∧ ∀ l l' z, l ∈ ls → l' ∈ ls → l ≠ l' → z ∈ nodes l [] → z ∉ nodes l' [].
Proof.
  induction ls as [|a ls IH]; [intros _; split; [constructor|set_solver]|].
  change (mjoin ((λ l, nodes l []) <$> a :: ls)) with (nodes a [] ++ mjoin ((λ l, nodes l []) <$> ls)).
  intros (_ & Ha & [Hnd Hap]%IH)%NoDup_app.
  assert (Hin : ∀ l z, l ∈ ls → z ∈ nodes l [] → z ∈ mjoin ((λ l, nodes l []) <$> ls)).
  { intros l z Hl Hz. apply list_elem_of_join. exists (nodes l []). split; [done|]. apply list_elem_of_fmap. eauto. }
  split.
  - constructor; [|done]. intros Hal. apply (Ha (list_head a)); [apply nodes_elem; auto|].
    apply (Hin a); [done|apply nodes_elem; auto].
  - intros l l' z [->|Hl]%elem_of_cons [->|Hl']%elem_of_cons Hne Hz; [done| | |by eauto].
    + intros Hz'. by apply (Ha z Hz), (Hin l').
    + intros Hz'. by apply (Ha z Hz'), (Hin l).
Qed.

Lemma static_apart l l' z :
  image_ok → l ∈ kernel_lists → l' ∈ kernel_lists → l ≠ l' → z ∈ nodes l [] → z ∉ nodes l' [].
Proof. intros [Hnd _ _ _]. apply NoDup_cons in Hnd as [_ [_ Hnd]%NoDup_cons]. by apply nodup_lists. Qed.

Lemma main_tags_apart l :
  image_ok → l ∈ kernel_lists → (general_tag main_pcb ∉ nodes l []) ∧ (all_list_tag main_pcb ∉ nodes l []).
Proof.
  intros [Hnd _ _ _] Hl. apply NoDup_cons in Hnd as [Hg [Ha _]%NoDup_cons].
  assert (Hin : ∀ z, z ∈ nodes l [] → z ∈ mjoin ((λ l, nodes l []) <$> kernel_lists)).
  { intros z Hz. apply list_elem_of_join. exists (nodes l []). split; [done|]. apply list_elem_of_fmap. eauto. }
  split; intros Hz%Hin; [by apply Hg, elem_of_cons; right|by apply Ha].
Qed.

Lemma lists_distinct : image_ok → NoDup kernel_lists.
Proof. intros [Hnd _ _ _]. apply NoDup_cons in Hnd as [_ [_ Hnd]%NoDup_cons]. by apply nodup_lists. Qed.

(** Every list is empty but for main's place in the list of all threads. *)
Definition boot_lists : list (Z * list Z) :=
  [(thread_ready_list, []); (thread_all_list, [all_list_tag main_pcb]); (waiters kernel_pool_lock, []);
   (waiters user_pool_lock, []); (waiters console_lock, []); (waiters kbd_buf, [])].

Lemma apart_lists ls dl :
  image_ok → Forall (λ l, l ∈ kernel_lists) ls →
  Forall (λ d, d.1 ∈ kernel_lists ∧ (d.1 ∉ ls) ∧ Forall (λ z, z = all_list_tag main_pcb) d.2) dl →
  apart_from (mjoin ((λ l, nodes l []) <$> ls)) dl.
Proof.
  intros Hi Hls Hdl. apply Forall_forall. intros [l xs] Hd z Hz Hin. rewrite Forall_forall in Hls. rewrite Forall_forall in Hdl.
  destruct (Hdl _ Hd) as (Hl & Hnot & Hxs). rewrite Forall_forall in Hxs. cbn [fst snd] in *.
  apply list_elem_of_join in Hin as (ns & Hin & (l' & -> & Hl')%list_elem_of_fmap).
  assert (Hst : z ∈ nodes l [] → False).
  { intros Hz'. apply (static_apart l l' z Hi); [done|by apply Hls|congruence|done|done]. }
  apply nodes_elem in Hz as [Hz|[Hz|Hz]]; [apply Hst, nodes_elem; auto| |apply Hst, nodes_elem; auto].
  apply Hxs in Hz as ->. by apply (main_tags_apart l' Hi (Hls _ Hl')).
Qed.

Lemma apart_tags dl :
  image_ok → Forall (λ d, d.1 ∈ kernel_lists ∧ d.2 = []) dl →
  apart_from [general_tag main_pcb; all_list_tag main_pcb] dl.
Proof.
  intros Hi Hdl. apply Forall_forall. intros [l xs] Hd z Hz Hin. rewrite Forall_forall in Hdl.
  destruct (Hdl _ Hd) as (Hl & Hxs). cbn [fst snd] in *. subst xs.
  destruct (main_tags_apart l Hi Hl). by apply elem_of_cons in Hin as [->| ->%list_elem_of_singleton].
Qed.

Lemma apart_app ns1 ns2 dl : apart_from ns1 dl → apart_from ns2 dl → apart_from (ns1 ++ ns2) dl.
Proof.
  unfold apart_from. rewrite !Forall_forall. intros H1' H2' d Hd z Hz. apply not_elem_of_app. eauto.
Qed.

(** Membership of lists in lists, one by one. *)
Ltac each :=
  simpl; repeat apply Forall_cons_2; try apply Forall_nil_2; simpl; rewrite ?not_elem_of_cons; split_and?;
  try apply not_elem_of_nil; first [assumption|reflexivity|congruence|repeat apply Forall_cons_2; by try apply Forall_nil_2].

(** main_pcb's nodes after thread_init, and what each later part writes to. *)
Lemma boot_lists_ok h1 h2 h3 h4 :
  image_ok →
  lists_up [(waiters kernel_pool_lock, []); (waiters user_pool_lock, [])] h1 →
  lists_up [(thread_ready_list, []); (thread_all_list, [all_list_tag main_pcb])] h2 →
  agree_outside ([general_tag main_pcb; all_list_tag main_pcb] ++ nodes thread_ready_list [] ++ nodes thread_all_list [])
    h1 h2 →
  dlist h3 (waiters console_lock) [] → same_outside (nodes (waiters console_lock) []) h2 h3 →
  dlist h4 (waiters kbd_buf) [] → same_outside (nodes (waiters kbd_buf) []) h3 h4 →
  lists_up boot_lists h4 ∧ h4 !! general_tag main_pcb = h2 !! general_tag main_pcb.
Proof.
  intros Hi Hm Ht Hot Hc Hoc%same_agree Hb Hob%same_agree.
  pose proof (lists_distinct Hi) as Hnd. unfold kernel_lists, kernel_locks in Hnd. simpl in Hnd.
  repeat (apply NoDup_cons in Hnd as [? Hnd]). rewrite ?not_elem_of_cons in *. destruct_and?.
  assert (Hin : Forall (λ l, l ∈ kernel_lists) kernel_lists) by by apply Forall_forall.
  unfold kernel_lists at 2, kernel_locks in Hin. simpl in Hin. rewrite ?Forall_cons in Hin. destruct_and?.
  assert (Hm2 : lists_up [(waiters kernel_pool_lock, []); (waiters user_pool_lock, [])] h2).
  { apply (lists_up_step _ _ _ _ Hm Hot). apply apart_app; [apply (apart_tags _ Hi); each|].
    rewrite <- (app_nil_r (nodes thread_all_list [])). apply (apart_lists [thread_ready_list; thread_all_list]); [done|each..]. }
  pose proof (Forall_app_2 _ _ _ Ht Hm2) as Hall2. simpl app in Hall2.
  rewrite <- (app_nil_r (nodes _ _)) in Hoc. rewrite <- (app_nil_r (nodes _ _)) in Hob.
  eapply lists_up_step in Hall2; [|exact Hoc|apply (apart_lists [waiters console_lock]); [done|each..]].
  pose proof (Forall_app_2 _ _ _ Hall2 (lists_up_cons _ _ _ _ Hc (Forall_nil_2 _))) as Hall3. simpl app in Hall3.
  eapply lists_up_step in Hall3; [|exact Hob|apply (apart_lists [waiters kbd_buf]); [done|each..]].
  split; [exact (Forall_app_2 _ _ _ Hall3 (lists_up_cons _ _ _ _ Hb (Forall_nil_2 _)))|].
  rewrite app_nil_r in Hoc. rewrite app_nil_r in Hob. rewrite Hob, Hoc; [done| |]; by apply main_tags_apart.
Qed.

(** ** tss_init on the loader's tables *)

Lemma tss_boot_ok k base n :
  loader_mem (k_mmu k) → pword (k_mmu k) 0xd04 = base → 0 ≤ base → base + 0x38 ≤ 0x9a000 → 0 ≤ tss_addr < 2 ^ 32 →
  0 ≤ n < 0x4000 →
  ∃ c m, tss_init k = Ok tt (add_output c (set_gdtr (base * 2 ^ 16 + 55) 0x20
      (lput l_kmmu m (set_tss (<[26%nat := 108]> (<[2%nat := 16]> (replicate 27 0))) k)))) ∧
    loader_mem m ∧ ram m = ram (k_mmu k) ∧
    (∀ a, region MEM_BITMAP_BASE n a → pbyte m (phys a) = pbyte (k_mmu k) (phys a)).
Proof.
  intros Hm Hw Hb0 Hb1 Htss Hn. set (D := boot_region base n). set (f := λ a, pbyte (k_mmu k) (phys a)).
  assert (HD : ∀ a, D a → first_mb a).
  { unfold D, boot_region, first_mb, region, MEM_BITMAP_BASE. intros a Ha. lia. }
  assert (Hinj : ∀ a b, D a → D b → phys a = phys b → a = b).
  { unfold D, boot_region, region, phys, MEM_BITMAP_BASE. intros. zlia. }
  assert (Hld : load32 0xd04 (k_mmu k) = Ok base (k_mmu k)).
  { rewrite loader_load32 by (first [done|left; lia]). by rewrite <- Hw. }
  destruct (tss_init_ok k D f base Hld Hb0 ltac:(lia) Htss (loader_holds D HD Hinj _ Hm)) as (c & m & Hrun & Hh & Hc).
  { intros x Hx. by right. }
  pose proof (loader_mem_changes D HD _ _ Hm Hc) as Hm'. pose proof (loader_holds D HD Hinj _ Hm') as Hh'.
  exists c, m. split_and!; [exact Hrun|exact Hm'|apply Hc|].
  intros a Ha. rewrite <- (holds_agree _ _ _ _ _ a Hh Hh') by (by left).
  destruct (user_descriptors_ok base f Htss) as (_ & _ & _ & Hout). apply Hout.
  unfold region, MEM_BITMAP_BASE in *. lia.
Qed.

(** ** The state when the first process is made *)

Record initialised (all_mem base : Z) k : Prop := {
  in_mem : loader_mem (k_mmu k);
  in_ram : ram (k_mmu k) = all_mem;
  in_pools : pools_set all_mem (get_memst k);
  in_free : bits_free all_mem (get_memst k);
  in_if : k_if k = false;
  in_cur : k_cur k = main_pcb ∧ k_main_thread k = main_pcb;
  in_gdtr : video_descriptor k = base + 0x18;
  in_main : k_tasks k !! main_pcb = Some main_task;
  in_locks : ∀ l, l ∈ kernel_locks → k_locks k !! l = Some (Lock NULL 1 0);
  in_lists : lists_up boot_lists (k_nodes k);
  in_tag : is_Some (k_nodes k !! general_tag main_pcb);
  in_gates : idt (k_intr k) = make_idt_desc 0x8e <$> take (Z.to_nat interrupt_num) entry_stubs;
  in_handlers : c_interrupt_entry_table (k_intr k) =
    <[33%nat := keyboard_handler_addr]> (<[32%nat := clock_handler_addr]>
      (replicate (Z.to_nat interrupt_num) default_handler_addr));
  in_queue : ∃ b, length b = Z.to_nat bufsize ∧ k_queues k !! kbd_buf = Some (IoQueue NULL NULL b 0 0)
}.

Arguments in_lists {_ _ _} _.
Arguments in_pools {_ _ _} _.
Arguments in_cur {_ _ _} _.
Arguments in_free {_ _ _} _.
Arguments in_mem {_ _ _} _.
Arguments in_gdtr {_ _ _} _.
Arguments in_main {_ _ _} _.
Arguments in_locks {_ _ _} _.
Arguments in_gates {_ _ _} _.
Arguments in_handlers {_ _ _} _.
Arguments in_queue {_ _ _} _.
Arguments in_tag {_ _ _} _.

(** ... and after memory_init. *)
Record memory_up (all_mem base : Z) k : Prop := {
  mu_mem : loader_mem (k_mmu k);
  mu_ram : ram (k_mmu k) = all_mem;
  mu_pools : pools_set all_mem (get_memst k);
  mu_free : bits_free all_mem (get_memst k);
  mu_gdt : pword (k_mmu k) 0xd04 = base ∧ 0 ≤ base ∧ base + 0x38 ≤ 0x9a000;
  mu_gdtr : first_mb (video_descriptor k);
  mu_if : k_if k = false;
  mu_cur : k_cur k = main_pcb;
  mu_free_locks : k_locks k !! kernel_pool_lock = Some (Lock NULL 1 0) ∧ k_locks k !! user_pool_lock = Some (Lock NULL 1 0);
  mu_locks : is_Some (k_locks k !! console_lock) ∧ is_Some (k_locks k !! kbd_buf);
  mu_lists : lists_up [(waiters kernel_pool_lock, []); (waiters user_pool_lock, [])] (k_nodes k);
  mu_nodes : ∀ l z, l ∈ kernel_lists → z ∈ nodes l [] → is_Some (k_nodes k !! z);
  mu_gates : idt (k_intr k) = make_idt_desc 0x8e <$> take (Z.to_nat interrupt_num) entry_stubs;
  mu_handlers : c_interrupt_entry_table (k_intr k) = replicate (Z.to_nat interrupt_num) default_handler_addr;
  mu_queue : ∃ q, k_queues k !! kbd_buf = Some q ∧ length (buf q) = Z.to_nat bufsize
}.

(** main() up to memory_init, and from there to process_execute. *)
Definition start_memory : prog kernel unit :=
  _ ← kprint (nl +:+ nl +:+ line "LiziOS is initializing the kernel...") [];
  _ ← zoom l_intr (interrupt_init default_handler_addr entry_stubs idt_addr);
  memory_init.

Definition start_rest : prog kernel unit :=
  _ ← thread_init;
  _ ← timer_init;
  _ ← console_init;
  _ ← keyboard_init;
  tss_init.

Lemma kernel_locks_apart : image_ok → NoDup kernel_locks → 
  kernel_pool_lock ≠ user_pool_lock ∧ ∀ z, z ∈ nodes (waiters user_pool_lock) [] → z ∉ nodes (waiters kernel_pool_lock) [].
Proof.
  intros Hi Hnd. assert (Hne : kernel_pool_lock ≠ user_pool_lock).
  { apply NoDup_cons in Hnd as [Hnot _]. intros Heq. apply Hnot. rewrite Heq. apply elem_of_cons. by left. }
  split; [done|]. intros z. apply (static_apart _ _ z Hi).
  - unfold kernel_lists, kernel_locks. simpl. rewrite !elem_of_cons. tauto.
  - unfold kernel_lists, kernel_locks. simpl. rewrite !elem_of_cons. tauto.
  - unfold waiters. lia.
Qed.

Lemma thread_lists_in l : l ∈ [thread_ready_list; thread_all_list] → l ∈ kernel_lists.
Proof. intros Hl. unfold kernel_lists. apply elem_of_app. by left. Qed.

Lemma thread_lists_apart : image_ok → ∀ z, z ∈ nodes thread_ready_list [] → z ∉ nodes thread_all_list [].
Proof.
  intros Hi z. apply (static_apart _ _ z Hi); [apply thread_lists_in; rewrite !elem_of_cons; tauto..|].
  pose proof (lists_distinct Hi) as Hnd. apply NoDup_cons in Hnd as [Hnot _]. intros Heq. apply Hnot.
  rewrite Heq. apply elem_of_cons. by left.
Qed.

Lemma start_memory_ok k all_mem base :
  image_ok → loader_state all_mem base k → wp start_memory (λ _ k', memory_up all_mem base k') k.
Proof.
  intros Hi [Hm [Hram [H32 Hfree]] Hsize (Hgdt & Hb0 & Hb1) Hv Hc Hif Hn Hlk Hqu].
  assert (Hmb : first_mb (video_descriptor k)) by (rewrite Hv; unfold first_mb; lia).
  destruct (kprint_lit (nl +:+ nl +:+ line "LiziOS is initializing the kernel...") k) as [c0 Hp];
    [done|done|by apply (gdt_up_same k)|].
  unfold start_memory. eapply wpp_step; [exact Hp|].
  eapply wpp_step; [apply zoom_Ok, interrupt_init_run|]. set (k1 := lput l_intr _ _).
  assert (Hin : ∀ l, l ∈ kernel_locks → ∃ x, k_locks k1 !! l = Some x) by exact Hlk.
  destruct (Hin kernel_pool_lock ltac:(apply elem_of_cons; by left)) as [xk Hxk].
  destruct (Hin user_pool_lock ltac:(apply elem_of_cons; right; apply elem_of_cons; by left)) as [xu Hxu].
  destruct (kernel_locks_apart Hi (im_locks Hi)) as [Hne Hap].
  destruct (memory_init_ok k1 all_mem xk xu Hm Hsize Hmb Hxk Hxu Hne Hn Hap)
    as (s' & h1 & c1 & Hr & Hm' & Hram' & Hps & Hbits & Hby & Hl & Ho & Hd).
  eapply wpp_eq; [exact Hr|]. apply wpp_ret. set (k2 := add_output c1 _).
  pose proof (bitmap_bytes_range all_mem) as Hbb.
  split; try done.
  - exact (eq_trans Hram' Hram).
  - split; apply Hps.
  - split; [|done]. change (k_mmu k2) with (m_mmu s'). rewrite <- Hgdt. apply pword_ext.
    intros x Hx. apply Hby. unfold region in *. lia.
  - split; simpl; [apply lookup_insert_eq|]. by rewrite lookup_insert_ne, lookup_insert_eq.
  - split; simpl; rewrite !lookup_insert_is_Some'; right; right; apply Hlk; unfold kernel_locks; rewrite !elem_of_cons; tauto.
  - intros l z Hl' Hz. simpl. apply elem_of_dom. rewrite Hd. apply elem_of_dom. by apply (Hn l).
Qed.

(** The bits of the three bitmaps are in the bitmaps' bytes. *)
Lemma bits_free_ext all_mem s s' :
  pools_set all_mem s → pools_set all_mem s' →
  (∀ a, region MEM_BITMAP_BASE (bitmap_bytes all_mem) a → pbyte (m_mmu s') (phys a) = pbyte (m_mmu s) (phys a)) →
  bits_free all_mem s → bits_free all_mem s'.
Proof.
  intros [Hk Hu Hv] [Hk' Hu' Hv'] Heq [Hf Hfu]. pose proof (bitmap_bytes_range all_mem) as Hbb. unfold bits_free, heap_bits in *.
  rewrite Hk, Hv in Hf. rewrite Hu in Hfu. rewrite Hk', Hu', Hv'. unfold region in Heq.
  assert (Hbit : ∀ n bits i, 0 ≤ i < 8 * n → MEM_BITMAP_BASE ≤ bits → bits + n ≤ MEM_BITMAP_BASE + bitmap_bytes all_mem →
    bits_of (λ a, pbyte (m_mmu s') (phys a)) (Bitmap n bits) i = bits_of (λ a, pbyte (m_mmu s) (phys a)) (Bitmap n bits) i).
  { intros n bits i Hi H0' H1'. unfold bits_of, bm_bit. simpl. by rewrite Heq by zlia. }
  unfold bitmap_bytes in *. split.
  - intros i Hi. destruct (Hf i Hi). simpl in *. by rewrite !Hbit by lia.
  - intros i Hi. simpl in *. rewrite Hbit by lia. by apply Hfu.
Qed.

Lemma start_rest_ok k all_mem base :
  image_ok → memory_up all_mem base k → wp start_rest (λ _ k', initialised all_mem base k') k.
Proof.
  intros Hi [Hm Hram Hps Hbits (Hgdt & Hb0 & Hb1) Hmb Hif Hc [HlK HlU] [[xc Hxc] [xb Hxb]] Hl Hn Hgates Htab (q & Hq & Hlen)].
  assert (Hnodes : ∀ l, l ∈ kernel_locks → ∀ z, z ∈ nodes (waiters l) [] → is_Some (k_nodes k !! z)).
  { intros l Hl' z Hz. apply (Hn (waiters l) z); [|done]. unfold kernel_lists. apply elem_of_app. right.
    by apply list_elem_of_fmap_2. }
  destruct (thread_init_ok k) as (h2 & c2 & Hr2 & Hl2 & Ho2 & Hd2 & Ht2); try done.
  { intros l z Hl'. by apply Hn, thread_lists_in. }
  { apply (thread_lists_apart Hi). }
  { intros l Hl'. by apply (main_tags_apart l Hi), thread_lists_in. }
  unfold start_rest. eapply wpp_step; [exact Hr2|]. set (k3 := add_output c2 _).
  destruct (timer_init_ok k3 Hm Hmb) as (c3 & Hr3). eapply wpp_step; [exact Hr3|]. set (k4 := add_output c3 _).
  destruct (console_init_ok k4 xc Hm Hmb Hxc) as (h3 & c4 & Hr4 & Hl4 & Ho4).
  { intros z Hz. apply elem_of_dom, Hd2, elem_of_dom, (Hnodes console_lock); [|done]. unfold kernel_locks. rewrite !elem_of_cons. tauto. }
  eapply wpp_step; [exact Hr4|]. set (k5 := add_output c4 _).
  assert (Hxb' : is_Some (k_locks k5 !! kbd_buf)) by (apply lookup_insert_is_Some'; right; eauto).
  destruct Hxb' as [xb' Hxb'].
  destruct (keyboard_init_ok k5 xb' q Hm Hmb Hxb' Hq) as (h4 & c5 & Hr5 & Hl5 & Ho5).
  { intros z Hz. simpl. apply elem_of_dom. rewrite (proj1 Ho4).
    apply Hd2, elem_of_dom, (Hnodes kbd_buf); [|done]. unfold kernel_locks. rewrite !elem_of_cons. tauto. }
  eapply wpp_step; [exact Hr5|]. set (k6 := add_output c5 _).
  pose proof (bitmap_bytes_range all_mem) as Hbb.
  destruct (tss_boot_ok k6 base (bitmap_bytes all_mem) Hm Hgdt Hb0 Hb1 (im_tss Hi)) as (c6 & m & Hr6 & Hm6 & Hram6 & Hby6); [lia|].
  eapply wpp_eq; [exact Hr6|]. apply wpp_ret. set (k7 := add_output c6 _).
  destruct (boot_lists_ok (k_nodes k) h2 h3 h4 Hi Hl Hl2 Ho2 Hl4 Ho4 Hl5 Ho5) as [Hlists Htag].
  split; try done.
  - exact (eq_trans Hram6 Hram).
  - split; apply Hps.
  - apply (bits_free_ext all_mem (get_memst k)); [done|split; apply Hps|exact Hby6|done].
  - unfold video_descriptor. change (k_gdtr k7) with (base * 2 ^ 16 + 55). zlia.
  - apply lookup_insert_eq.
  - intros l Hl'. change (k_locks k7) with (<[kbd_buf := Lock NULL 1 0]> (<[console_lock := Lock NULL 1 0]> (k_locks k))).
    rewrite !lookup_insert. repeat case_decide; try done. unfold kernel_locks in Hl'. rewrite !elem_of_cons in Hl'.
    destruct Hl' as [->|[->|[->|[->|Hl']]]]; try done; by apply not_elem_of_nil in Hl'.
  - change (k_nodes k7) with h4. by rewrite Htag.
  - simpl c_interrupt_entry_table. rewrite Htab. done.
  - exists (buf q). split; [done|]. apply lookup_insert_eq.
Qed.

(** ** Room for the first process *)

Definition boot_bytes k (a : Z) : Z := pbyte (k_mmu k) (phys a).

Definition boot_memory (all_mem base : Z) : Z → Prop := boot_region base (bitmap_bytes all_mem + 1).

Lemma enough_prefix f s n :
  0 ≤ n ≤ pool_frames s → (∀ i, 0 ≤ i < n → bits_of f (pool_bitmap (kernel_pool s)) i = false) → enough f s (Z.to_nat n).
Proof.
  intros Hn Hfree. exists (list_to_set (seqZ 0 n)). split.
  - rewrite size_list_to_set by apply NoDup_seqZ. by rewrite length_seqZ.
  - intros i Hi. rewrite elem_of_list_to_set, elem_of_seqZ in Hi. split; [lia|]. apply Hfree. lia.
Qed.

Lemma heap_pages_enough all_mem : 64 ≤ free_pages all_mem → 32 ≤ heap_pages all_mem ≤ 8 * pool_bytes all_mem.
Proof. unfold heap_pages, pool_bytes. intros Hf. zlia. Qed.

Lemma boot_heap_at k all_mem base :
  wait_fuel ≠ 0%nat → 0 ≤ base → base + 0x38 ≤ 0x9a000 → all_mem < 2 ^ 32 → 64 ≤ free_pages all_mem →
  initialised all_mem base k →
  heap_at (boot_memory all_mem base) loader_table (heap_pages all_mem) (boot_bytes k) k 0 (25 + 7).
Proof.
  intros Hfuel Hb0 Hb1 H32 Hfree [Hm Hram Hps [Hbits _] _ [Hc _] _ _ Hlk Hl _ _ _ _].
  pose proof (heap_pages_enough all_mem Hfree) as Hhp. pose proof (lm_ram _ Hm) as Hr.
  assert (Hlen : bm_length (heap_bits (get_memst k)) = pool_bytes all_mem).
  { unfold heap_bits. by rewrite (ps_vaddr Hps). }
  assert (Hpf : pool_frames (get_memst k) = 8 * pool_bytes all_mem).
  { unfold pool_frames. by rewrite (ps_kernel Hps). }
  split.
  - done.
  - by rewrite Hc.
  - apply Hlk. apply elem_of_cons. by left.
  - unfold lists_up, boot_lists in Hl. rewrite !Forall_cons in Hl. apply Hl.
  - apply (loader_heap_ok base all_mem Hb0 Hb1 (get_memst k)); [exact Hm|exact Hps| |done]. simpl m_mmu. lia.
  - intros j Hj. rewrite bool_decide_eq_false_2 by lia. apply (Hbits j). lia.
  - rewrite Hlen. lia.
  - apply (enough_prefix _ _ 32); [lia|]. intros i Hi. apply (Hbits i). lia.
Qed.

Lemma below_heap z :
  image_ok → z ∈ static_nodes → ∀ j s, 0 ≤ j → heap_start s = K_HEAP_START → ¬ region (heap_page s j) PG_SIZE z.
Proof.
  intros Hi Hz j s Hj Hs. pose proof (im_below Hi) as Hb. rewrite Forall_forall in Hb. specialize (Hb z Hz).
  unfold region, heap_page, PG_SIZE. rewrite Hs. lia.
Qed.

Lemma static_list l z : l ∈ kernel_lists → z ∈ nodes l [] → z ∈ static_nodes.
Proof.
  intros Hl Hz. unfold static_nodes. rewrite !elem_of_cons. do 2 right. apply list_elem_of_join.
  exists (nodes l []). split; [done|]. apply list_elem_of_fmap. eauto.
Qed.

Lemma boot_can_execute k all_mem base :
  image_ok → wait_fuel ≠ 0%nat → 0 ≤ base → base + 0x38 ≤ 0x9a000 → all_mem < 2 ^ 32 → 64 ≤ free_pages all_mem →
  initialised all_mem base k →
  can_execute (boot_memory all_mem base) loader_table (heap_pages all_mem) 7 (boot_bytes k) k 0 [] [all_list_tag main_pcb].
Proof.
  intros Hi Hfuel Hb0 Hb1 H32 Hfree Hk.
  pose proof (boot_heap_at k all_mem base Hfuel Hb0 Hb1 H32 Hfree Hk) as Ha.
  pose proof (in_lists Hk) as Hl. unfold lists_up, boot_lists in Hl. rewrite !Forall_cons in Hl.
  destruct Hl as (Hr & Hal & Hw & _). simpl fst in *. simpl snd in *.
  assert (Hwin : waiters kernel_pool_lock ∈ kernel_lists).
  { unfold kernel_lists, kernel_locks. simpl. rewrite !elem_of_cons. tauto. }
  assert (HR : thread_ready_list ∈ kernel_lists) by (apply thread_lists_in; rewrite !elem_of_cons; tauto).
  assert (HA : thread_all_list ∈ kernel_lists) by (apply thread_lists_in; rewrite !elem_of_cons; tauto).
  destruct (main_tags_apart thread_ready_list Hi HR) as [_ HtR].
  destruct (main_tags_apart (waiters kernel_pool_lock) Hi Hwin) as [_ HtW].
  assert (Hall : ∀ z, z ∈ nodes thread_all_list [all_list_tag main_pcb] → z = all_list_tag main_pcb ∨ z ∈ nodes thread_all_list []).
  { intros z. rewrite !nodes_elem, list_elem_of_singleton. tauto. }
  assert (Hne : waiters kernel_pool_lock ≠ thread_ready_list ∧ waiters kernel_pool_lock ≠ thread_all_list).
  { pose proof (lists_distinct Hi) as Hnd. unfold kernel_lists, kernel_locks in Hnd. simpl in Hnd.
    repeat (apply NoDup_cons in Hnd as [? Hnd]). rewrite ?not_elem_of_cons in *. destruct_and?. by split. }
  split; [exact Ha|exact Hr|exact Hal| | |].
  - intros z Hz [->|Hz']%Hall; [done|]. by apply (thread_lists_apart Hi z).
  - intros z Hz. split; [by apply (static_apart (waiters kernel_pool_lock) _ z Hi); [..|apply Hne|]|].
    intros [->|Hz']%Hall; [done|]. by apply (static_apart (waiters kernel_pool_lock) thread_all_list z Hi); [..|apply Hne| |].
  - intros j z Hj Hz. assert (Hhs : heap_start (get_memst k) = K_HEAP_START).
    { unfold heap_start. by rewrite (ps_vaddr (in_pools Hk)). }
    apply elem_of_cons in Hz as [->|Hz].
    { destruct (in_cur Hk) as [_ ->]. unfold region, heap_page, PG_SIZE. rewrite Hhs.
      unfold main_pcb, K_HEAP_START. lia. }
    apply (below_heap z Hi); [|lia|done]. rewrite !elem_of_app in Hz.
    destruct Hz as [Hz|[Hz|[->|Hz]%Hall]]; [by apply (static_list _ z Hwin)|by apply (static_list _ z HR)| |by apply (static_list _ z HA)].
    unfold static_nodes. rewrite !elem_of_cons. tauto.
Qed.

(** ** The running system *)

(** The PCB, the bitmap and the directory of the first process. *)
Definition proc_pcb : Z := K_HEAP_START.
Definition proc_bitmap : Z := K_HEAP_START + 0x1000.
Definition proc_dir : Z := K_HEAP_START + 0x18000.

Definition proc_task : task_struct := user_task proc_pcb (chars "user_prog_a") proc_dir proc_bitmap.

(** The frames of the process, the last of them its directory, and the two pools'
    bitmaps: seven more pages can be had, and no frame of the user pool is taken. *)
Record first_frames (all_mem base pa : Z) (g : Z → Z) k : Prop := {
  ff_pools : pools_set all_mem (get_memst k);
  ff_heap : heap_at (boot_memory all_mem base) loader_table (heap_pages all_mem) g k 25 7;
  ff_user : ∀ i, 0 ≤ i < 8 * user_bytes all_mem → bits_of g (pool_bitmap (user_pool (get_memst k))) i = false;
  ff_words : directory_words (k_mmu k) pa;
  ff_owned : ∃ bs b, length bs = 24%nat ∧ owned g k 0 (bs ++ [b]) ∧ pa = frame (get_memst k) b
}.

(** What main() leaves when it enters its loop. *)
Record booted (all_mem base u_prog_a pa : Z) k : Prop := {
  bt_if : k_if k = true;
  bt_cur : k_cur k = main_pcb;
  bt_gdt : video_descriptor k = base + 0x18 ∧ gdt_mapped k = true;
  bt_main : k_tasks k !! main_pcb = Some main_task;
  bt_proc : k_tasks k !! proc_pcb = Some proc_task;
  bt_frame : Forall (λ w, load32 (proc_pcb + first_stack + fst w) (k_mmu k) = Ok (u32 (snd w)) (k_mmu k))
    (first_frame start_process_addr u_prog_a);
  bt_dir : vaddr_to_paddr proc_dir (k_mmu k) = Ok pa (k_mmu k) ∧ process_space (k_mmu k) pa;
  bt_ready : dlist (k_nodes k) thread_ready_list [general_tag proc_pcb];
  bt_all : dlist (k_nodes k) thread_all_list [all_list_tag main_pcb; all_list_tag proc_pcb];
  bt_locks : ∀ l, l ∈ kernel_locks → k_locks k !! l = Some (Lock NULL 1 0) ∧ dlist (k_nodes k) (waiters l) [];
  bt_gates : idt (k_intr k) = make_idt_desc 0x8e <$> take (Z.to_nat interrupt_num) entry_stubs;
  bt_handlers : c_interrupt_entry_table (k_intr k) =
    <[33%nat := keyboard_handler_addr]> (<[32%nat := clock_handler_addr]>
      (replicate (Z.to_nat interrupt_num) default_handler_addr));
  bt_queue : ∃ b, length b = Z.to_nat bufsize ∧ k_queues k !! kbd_buf = Some (IoQueue NULL NULL b 0 0);
  bt_heap : ∃ g, first_frames all_mem base pa g k;
  bt_tag : is_Some (k_nodes k !! general_tag main_pcb);
  bt_low : ∀ a, first_mb a → translate (k_mmu k) a = Some (phys a)
}.

Lemma main_split u_prog_a k :
  main u_prog_a k = (_ ← start_memory; _ ← start_rest; _ ← process_execute u_prog_a (chars "user_prog_a");
                     _ ← k_intr_enable; mret tt : prog kernel unit) k.
Proof.
  unfold main, start_memory, start_rest. rewrite !bind_unfold.
  destruct (kprint _ _ k) as [[] k1| | | |]; try done. rewrite !bind_unfold.
  destruct (zoom _ _ k1) as [[] k2| | | |]; try done. rewrite !bind_unfold.
  destruct (memory_init k2) as [[] k3| | | |]; try done. rewrite !bind_unfold.
  destruct (thread_init k3) as [[] k4| | | |]; try done. rewrite !bind_unfold.
  destruct (timer_init k4) as [[] k5| | | |]; try done. rewrite !bind_unfold.
  destruct (console_init k5) as [[] k6| | | |]; try done. rewrite !bind_unfold.
  by destruct (keyboard_init k6) as [[] k7| | | |].
Qed.

Lemma main_wp u_prog_a Q k :
  wp (_ ← start_memory; _ ← start_rest; _ ← process_execute u_prog_a (chars "user_prog_a"); _ ← k_intr_enable; mret tt) Q k →
  wp (main u_prog_a) Q k.
Proof. unfold wp, wpp. by rewrite main_split. Qed.

Lemma boot_lists_in l xs k all_mem base :
  initialised all_mem base k → (l, xs) ∈ boot_lists → dlist (k_nodes k) l xs.
Proof.
  intros Hk Hin. pose proof (in_lists Hk) as Hl. unfold lists_up in Hl. rewrite Forall_forall in Hl.
  exact (Hl _ Hin).
Qed.

Lemma waiters_in l : l ∈ kernel_locks → waiters l ∈ kernel_lists ∧ (waiters l, []) ∈ boot_lists.
Proof.
  intros Hl. split; [unfold kernel_lists; apply elem_of_app; right; by apply list_elem_of_fmap_2|].
  unfold kernel_locks, boot_lists in *. rewrite !elem_of_cons in *.
  destruct Hl as [->|[->|[->|[->|Hl]]]]; [tauto..|by apply not_elem_of_nil in Hl].
Qed.

(** The nodes process_execute writes to are in the heap or in the two lists of
    threads. *)
Lemma waiters_untouched l z :
  image_ok → l ∈ kernel_locks → z ∈ nodes (waiters l) [] →
  z ∉ general_tag proc_pcb :: all_list_tag proc_pcb :: nodes thread_ready_list [] ++ nodes thread_all_list [all_list_tag main_pcb].
Proof.
  intros Hi Hl Hz. destruct (waiters_in l Hl) as [Hin _].
  pose proof (im_below Hi) as Hb. rewrite Forall_forall in Hb. pose proof (Hb z (static_list _ z Hin Hz)) as Hz'.
  assert (Hne : waiters l ≠ thread_ready_list ∧ waiters l ≠ thread_all_list).
  { pose proof (lists_distinct Hi) as Hnd. unfold kernel_lists in Hnd.
    apply NoDup_cons in Hnd as [Hn1 [Hn2 _]%NoDup_cons]. apply list_elem_of_fmap_2 with (f := waiters) in Hl.
    split; intros Heq; [apply Hn1|apply Hn2]; rewrite <- Heq; [apply elem_of_cons; right|]; done. }
  rewrite !not_elem_of_cons, not_elem_of_app. split_and!.
  - unfold general_tag, proc_pcb. lia.
  - unfold all_list_tag, proc_pcb. lia.
  - apply (static_apart (waiters l) _ z Hi); [done|apply thread_lists_in; rewrite !elem_of_cons; tauto|apply Hne|done].
  - intros [Heq|[Heq%list_elem_of_singleton|Heq]]%nodes_elem.
    2: { subst z. by apply (main_tags_apart _ Hi Hin). }
    all: apply (static_apart (waiters l) thread_all_list z Hi);
      [done|apply thread_lists_in; rewrite !elem_of_cons; tauto|apply Hne|done|apply nodes_elem; tauto].
Qed.

Lemma tag_untouched :
  image_ok →
  general_tag main_pcb ∉ general_tag proc_pcb :: all_list_tag proc_pcb :: nodes thread_ready_list [] ++ nodes thread_all_list [all_list_tag main_pcb].
Proof.
  intros Hi. destruct (main_tags_apart thread_ready_list Hi) as [HR _]; [apply thread_lists_in; rewrite !elem_of_cons; tauto|].
  destruct (main_tags_apart thread_all_list Hi) as [HA _]; [apply thread_lists_in; rewrite !elem_of_cons; tauto|].
  rewrite !not_elem_of_cons, not_elem_of_app. split_and!; [done|done|done|].
  intros [Heq|[Heq%list_elem_of_singleton|Heq]]%nodes_elem; [|done|]; apply HA, nodes_elem; tauto.
Qed.

Lemma user_bits_kept all_mem s f g :
  pools_set all_mem s → (∀ x, other_byte s x → g x = f x) →
  (∀ i, 0 ≤ i < 8 * user_bytes all_mem → bits_of f (pool_bitmap (user_pool s)) i = false) →
  ∀ i, 0 ≤ i < 8 * user_bytes all_mem → bits_of g (pool_bitmap (user_pool s)) i = false.
Proof.
  intros [Hk Hu Hv] Ho Hf i Hi. pose proof (bitmap_bytes_range all_mem) as Hbb.
  rewrite <- (Hf i Hi). apply bits_same; [|by rewrite Hu].
  intros x. rewrite Hu. unfold in_bitmap, region. simpl. intros Hx. apply Ho. unfold other_byte, heap_bits.
  rewrite Hk, Hv. unfold in_bitmap, region, bitmap_bytes. simpl. unfold bitmap_bytes. lia.
Qed.

Lemma execute_frames k k' all_mem base u_prog_a g pa :
  initialised all_mem base k →
  executed (boot_memory all_mem base) loader_table (heap_pages all_mem) 7 (boot_bytes k) k 0 [] [all_list_tag main_pcb]
    g k' pa u_prog_a (chars "user_prog_a") →
  first_frames all_mem base pa g (set_if true k').
Proof.
  intros Hk [Hst _ _ _ _ _ _ _ Hh _ [_ Ho] Hw Hown].
  assert (Hs : get_memst (set_if true k') = set_mmu (k_mmu k') (get_memst k)).
  { cbv zeta in Hst. rewrite Hst. by destruct k as [[]]. }
  split; rewrite ?Hs.
  - split; apply (in_pools Hk).
  - apply (heap_at_ext _ _ _ g k'); [exact Hh|done|done|done|apply Hh].
  - apply (user_bits_kept all_mem (get_memst k) (boot_bytes k)); [apply (in_pools Hk)|exact Ho|].
    apply (in_free Hk).
  - exact Hw.
  - destruct Hown as (bs & b & Hlen & Hown & ->). exists bs, b. by rewrite <- Hs.
Qed.

Lemma execute_booted k k' all_mem base u_prog_a g pa :
  image_ok → 0 ≤ base → base + 0x38 ≤ 0x9a000 → initialised all_mem base k →
  executed (boot_memory all_mem base) loader_table (heap_pages all_mem) 7 (boot_bytes k) k 0 [] [all_list_tag main_pcb]
    g k' pa u_prog_a (chars "user_prog_a") →
  booted all_mem base u_prog_a pa (set_if true k').
Proof.
  intros Hi Hb0 Hb1 Hk Hex. pose proof (execute_frames _ _ _ _ _ _ _ Hk Hex) as Hff.
  destruct Hex as [Hst Hfr Hbm Hdir Hsp Hr Hal Hno Hh Hv _ _ _].
  assert (Hhp : ∀ j, heap_page (get_memst k) j = K_HEAP_START + j * PG_SIZE).
  { intros j. unfold heap_page, heap_start. by rewrite (ps_vaddr (in_pools Hk)). }
  rewrite !Hhp in *. change (K_HEAP_START + 0 * PG_SIZE) with proc_pcb in *.
  change (K_HEAP_START + (0 + 1) * PG_SIZE) with proc_bitmap in *. change (K_HEAP_START + (0 + 24) * PG_SIZE) with proc_dir in *.
  assert (Hrest : k_intr k' = k_intr k ∧ k_tasks k' = <[proc_pcb := proc_task]> (k_tasks k) ∧ k_locks k' = k_locks k ∧
    k_queues k' = k_queues k ∧ k_cur k' = k_cur k ∧ video_descriptor k' = video_descriptor k).
  { cbv zeta in Hst. rewrite Hst. by destruct k as [[]]. }
  destruct Hrest as (Hint & Htk & Hlk & Hqu & Hcur & Hvd). clear Hst.
  assert (Hlow : first_mb (base + 0x18)) by (unfold first_mb; lia).
  assert (Hmap : ∀ a, first_mb a → translate (k_mmu k') a = Some (phys a)).
  { intros a Ha. pose proof (loader_walk _ _ (in_mem Hk) Ha) as Hw.
    apply (Hv a); [|apply (loader_translate _ _ (in_mem Hk) Ha)].
    split; [apply Hw|]. pose proof (walk_pde _ _ _ _ Hw) as Hp. unfold pde_paddr in Hp.
    unfold dir. simpl m_mmu. by rewrite Hp. }
  split; simpl k_tasks; simpl k_locks; rewrite ?Hlk, ?Htk.
  - done.
  - exact (eq_trans Hcur (proj1 (in_cur Hk))).
  - change (video_descriptor (set_if true k')) with (video_descriptor k').
    rewrite Hvd, (in_gdtr Hk). split; [done|].
    unfold gdt_mapped. apply bool_decide_eq_true_2. change (video_descriptor (set_if true k')) with (video_descriptor k').
    rewrite Hvd, (in_gdtr Hk). exists (phys (base + 0x18)). by apply Hmap.
  - rewrite lookup_insert_ne by done. apply (in_main Hk).
  - apply lookup_insert_eq.
  - exact Hfr.
  - by split.
  - exact Hr.
  - exact Hal.
  - intros l Hl. split; [apply (in_locks Hk l Hl)|].
    apply (dlist_ext (k_nodes k) _ _ _ (boot_lists_in _ _ _ _ _ Hk (proj2 (waiters_in l Hl)))).
    intros z Hz. by apply Hno, (waiters_untouched l).
  - simpl idt. rewrite Hint. apply (in_gates Hk).
  - simpl c_interrupt_entry_table. rewrite Hint. apply (in_handlers Hk).
  - simpl k_queues. rewrite Hqu. apply (in_queue Hk).
  - by exists g.
  - simpl k_nodes. rewrite Hno by by apply tag_untouched. apply (in_tag Hk).
  - exact Hmap.
Qed.

Lemma main_ok k all_mem base u_prog_a :
  image_ok → wait_fuel ≠ 0%nat → loader_state all_mem base k →
  wp (main u_prog_a) (λ _ k', ∃ pa, booted all_mem base u_prog_a pa k') k.
Proof.
  intros Hi Hfuel Hld. destruct (ld_gdt Hld) as (_ & Hb0 & Hb1). destruct (ld_ram Hld) as (_ & H32 & Hfree).
  apply main_wp.
  apply wp_bind. eapply wp_mono; [by apply (start_memory_ok k all_mem base)|]. intros [] k1 Hk1.
  apply wp_bind. eapply wp_mono; [by apply (start_rest_ok k1 all_mem base)|]. intros [] k2 Hk2.
  apply wp_bind. eapply wp_mono; [apply process_execute_ok; [by apply boot_can_execute|simpl; lia]|].
  intros [] k3 (g & pa & Hex). eapply wpp_step; [apply k_intr_enable_ok|]. apply wpp_ret.
  exists pa. by eapply execute_booted.
Qed.

End boot.

Arguments ld_gdt {_ _ _ _} _.
Arguments ld_ram {_ _ _ _} _.
Arguments ld_mem {_ _ _ _} _.
Arguments ld_gdtr {_ _ _ _} _.
Arguments in_pools {_ _ _ _} _.
Arguments ff_pools {_ _ _ _ _ _ _} _.
Arguments bt_heap {_ _ _ _ _ _ _} _.
Arguments bt_dir {_ _ _ _ _ _ _} _.
Arguments bt_low {_ _ _ _ _ _ _} _.
Arguments bt_cur {_ _ _ _ _ _ _} _.
Arguments bt_tag {_ _ _ _ _ _ _} _.
Arguments bt_locks {_ _ _ _ _ _ _} _.

(** *** Witness: 4 MB of memory, the descriptors at 0x800 *)

#[local] Existing Instances x87 demo_layout demo_env.

Definition boot_mmu : mmu :=
  Mmu 0x400000 (put32s ∅ ([(0xd00, 0x400000); (0xd04, 0x800); (0x100000, 0x101007); (0x100000 + 768 * 4, 0x101007);
    (0x100000 + 1023 * 4, 0x100007)] ++ ((λ i, (0x101000 + i * 4, i * PG_SIZE + 7)) <$> seqZ 0 256))) 0x100000.

Definition boot_kernel : kernel := set_cur main_pcb (set_tasks ∅ (lput l_kmmu boot_mmu demo_kernel)).

Lemma boot_image : image_ok.
Proof. split; decided. Qed.

Lemma boot_pages : ∀ i, 0 ≤ i < 256 → pword boot_mmu (loader_table + i * 4) = i * PG_SIZE + 7.
Proof.
  assert (Hall : Forall (λ i, pword boot_mmu (loader_table + i * 4) = i * PG_SIZE + 7) (seqZ 0 256)) by decided.
  rewrite Forall_forall in Hall. intros i Hi. apply Hall, elem_of_seqZ. lia.
Qed.

Lemma boot_rest : ∀ i, 256 ≤ i < 1024 → present (pword boot_mmu (loader_table + i * 4)) = false.
Proof.
  assert (Hall : Forall (λ i, present (pword boot_mmu (loader_table + i * 4)) = false) (seqZ 256 768)) by decided.
  rewrite Forall_forall in Hall. intros i Hi. apply Hall, elem_of_seqZ. lia.
Qed.

Lemma boot_loader_mem : loader_mem boot_mmu.
Proof.
  split; [done|decided|decided|decided|decided|exact boot_pages|exact boot_rest].
Qed.

Lemma boot_loader_state : loader_state 0x400000 0x800 boot_kernel.
Proof.
  split.
  - exact boot_loader_mem.
  - split; [done|decided].
  - decided.
  - split; [decided|done].
  - decided.
  - done.
  - done.
  - assert (Hall : Forall (λ l, Forall (λ z, is_Some (k_nodes boot_kernel !! z)) (nodes l [])) kernel_lists) by decided.
    rewrite Forall_forall in Hall. intros l z Hl Hz. specialize (Hall l Hl). rewrite Forall_forall in Hall. auto.
  - assert (Hall : Forall (λ l, is_Some (k_locks boot_kernel !! l)) kernel_locks) by decided.
    by rewrite Forall_forall in Hall.
  - eexists. split; [vm_compute; reflexivity|done].
Qed.


Lemma process_execute_makes_process_witness :
  ∃ k k', start_memory boot_kernel = Ok tt k ∧ (_ ← start_rest; process_execute 0xc0002000 (chars "user_prog_a")) k = Ok tt k' ∧
    dlist (k_nodes k') 0x10000 [0xc010001c].
Proof.
  destruct (proj1 (wp_Ok _ _ _) (start_memory_ok boot_kernel _ _ boot_image boot_loader_state)) as ([] & k1 & Hr1 & Hk1).
  destruct (proj1 (wp_Ok _ _ _) (start_rest_ok k1 _ _ boot_image Hk1)) as ([] & k2 & Hr2 & Hk2).
  destruct (proj1 (wp_Ok _ _ _) (process_execute_makes_process _ _ _ 7 _ k2 0 [] [all_list_tag main_pcb] 0xc0002000
    (chars "user_prog_a") (boot_can_execute k2 0x400000 0x800 boot_image ltac:(decided) ltac:(decided) ltac:(decided) ltac:(decided)
      ltac:(decided) Hk2) ltac:(decided))) as ([] & k3 & Hr3 & g & pa & _ & _ & _ & _ & _ & Hr & _).
  exists k1, k3. split; [exact Hr1|]. split; [by rewrite (bind_Ok _ _ _ _ _ Hr2)|].
  assert (Hp : heap_page (get_memst k2) 0 = K_HEAP_START).
  { unfold heap_page, heap_start. by rewrite (ps_vaddr (in_pools Hk2)). }
  rewrite Hp in Hr. exact Hr.
Defined.
