(* ===== verification/FirstSwitch.v ===== *)
(** * The first 32 clock interrupts after start-up

    31 of them use up main's time slice; the next one hands the processor to the first
    process, whose page directory does not map the descriptor table. *)

From Stdlib Require Import ZArith Lia.
From stdpp Require Import base tactics gmap strings fin_maps functions list.
From S2P Require Import Prelude ByteMem CString Bitmap Interrupt DList Format Paging Idt Memory Malloc Loader.
From S2P Require Import Kernel Sched Sync Alloc Thread Spawn Process AddrSpace Execute IoQueue Keyboard Timer Tss Main Boot.

Section first_switch.
Context `{FpEval, Layout, Env}.
Implicit Types (k : kernel).

(** ** The clock *)

(** A clock interrupt as the gate and the entry stub let it run: interrupts off, the
    handler, and back with the flag as it was, which is on. *)
Definition clock_interrupt : prog kernel unit :=
  _ ← k_intr_disable;
  _ ← clock_interrupt_handler;
  _ ← k_intr_enable;
  mret tt.

Fixpoint clock_interrupts (n : nat) : prog kernel unit :=
  match n with
  | O => mret tt
  | S n' => _ ← clock_interrupts n'; clock_interrupt
  end.

(** One tick of a thread whose slice is not used up. *)
Lemma clock_interrupt_tick k t x :
  k_if k = true → k_cur k = t → k_tasks k !! t = Some x → stack_magic x = magic → 0 < ticks x < 256 →
  clock_interrupt k = Ok tt (set_tasks (<[t := with_ticks (ticks x - 1) x]> (k_tasks k)) k).
Proof.
  intros Hif Hc Hx Hmag Ht. unfold clock_interrupt. rewrite (bind_Ok _ _ _ _ _ (k_intr_disable_ok k)).
  assert (Hx' : k_tasks (set_if false k) !! t = Some x) by done.
  assert (Hh : clock_interrupt_handler (set_if false k) =
    Ok tt (set_tasks (<[t := with_ticks (ticks x - 1) x]> (k_tasks k)) (set_if false k))).
  { unfold clock_interrupt_handler, running_thread. rewrite bind_gets. change (k_cur (set_if false k)) with (k_cur k).
    rewrite Hc, (bind_Ok _ _ _ _ _ (load_task_ok _ _ _ Hx')), Hmag, Z.eqb_refl, bind_assert.
    rewrite (proj2 (Z.eqb_neq (ticks x) 0)) by lia. rewrite (update_task_ok _ _ _ _ Hx').
    by rewrite u8_small by lia. }
  rewrite (bind_Ok _ _ _ _ _ Hh), (bind_Ok _ _ _ _ _ (k_intr_enable_ok _)). unfold mret, prog_ret. f_equal.
  unfold k_if in Hif. destruct k as [[]]. simpl in *. by rewrite Hif.
Qed.

Lemma clock_interrupts_ok k t x n :
  k_if k = true → k_cur k = t → k_tasks k !! t = Some x → stack_magic x = magic → ticks x < 256 → Z.of_nat n ≤ ticks x →
  clock_interrupts n k = Ok tt (set_tasks (<[t := with_ticks (ticks x - Z.of_nat n) x]> (k_tasks k)) k).
Proof.
  intros Hif Hc Hx Hmag Ht. induction n as [|n IH]; intros Hn.
  - simpl. rewrite Z.sub_0_r. assert (Heq : with_ticks (ticks x) x = x) by (by destruct x). rewrite Heq.
    rewrite insert_id by done. by destruct k.
  - simpl clock_interrupts. rewrite (bind_Ok _ _ _ _ _ (IH ltac:(lia))).
    rewrite (clock_interrupt_tick _ t (with_ticks (ticks x - Z.of_nat n) x));
      [|done|done|apply lookup_insert_eq|done|simpl; lia].
    f_equal. unfold set_tasks. simpl. rewrite insert_insert_eq.
    replace (ticks x - Z.of_nat (S n)) with (ticks x - Z.of_nat n - 1) by lia. done.
Qed.

(** Switching to a thread whose directory does not map the descriptor table. *)
Lemma schedule_fault k x cur ts next q y pa :
  k_cur k = cur → k_tasks k !! cur = Some x →
  dlist (k_nodes k) thread_ready_list (general_tag <$> ts) →
  general_tag cur ∉ nodes thread_ready_list (general_tag <$> ts) →
  is_Some (k_nodes k !! general_tag cur) →
  requeue x cur ts = next :: q → recharge x cur (k_tasks k) !! next = Some y → next ≠ NULL →
  directory_of y (k_mmu k) pa → gdt_mapped k = true → gdt_mapped (with_cr3 pa k) = false →
  ∃ k', schedule k = Fault (video_descriptor k) k'.
Proof.
  intros Hcur Hx Hd Hni Hs Hq Hy Hnext Hdir Hg Hg'.
  destruct (requeue_ok k x cur ts Hx Hcur Hd Hni Hs) as (h1 & Hrq & Hd1 & Hout1).
  set (k1 := set_tasks (recharge x cur (k_tasks k)) (set_nodes h1 k)) in *.
  rewrite Hq, fmap_cons in Hd1.
  assert (Hempty := list_empty_ok (i_if (k_intr k)) _ _ _ Hd1). rewrite bool_decide_false in Hempty by done.
  destruct (list_pop_ok (i_if (k_intr k)) _ _ _ _ Hd1) as (h2 & Hpop & Hd2 & Hout2).
  set (k2 := set_tasks (alter (with_status TASK_RUNNING) next (k_tasks k1)) (set_nodes h2 k1)).
  destruct (page_dir_activate_fault k2 next (with_status TASK_RUNNING y) pa) as [c Hact];
    [by simpl; rewrite lookup_alter_eq, Hy|done..|].
  eexists. unfold schedule. apply bind_Fault.
  unfold schedule_out, running_thread. rewrite bind_gets, Hcur.
  rewrite (bind_Ok _ _ _ _ _ (load_task_ok _ _ _ Hx)), (bind_Ok _ _ _ _ _ Hrq).
  rewrite (bind_Ok _ _ _ _ _ (zoom_core_read _ k1 _ Hempty)), bind_assert.
  rewrite (bind_Ok _ _ _ _ _ (zoom_core _ k1 _ h2 Hpop)). cbv zeta. rewrite entry_general_tag.
  rewrite (bind_Ok _ _ _ _ _ (update_task_alter next _ (set_nodes h2 k1) (mk_is_Some _ _ Hy))).
  change (set_tasks _ (set_nodes h2 k1)) with k2. apply bind_Fault. unfold process_activate.
  rewrite (proj2 (Z.eqb_neq next NULL) Hnext). simpl negb. rewrite bind_assert. apply bind_Fault. exact Hact.
Qed.

(** The state after main(), when its slice is used up. *)
Definition slice_used k : kernel :=
  set_tasks (<[main_pcb := with_ticks (ticks main_task - Z.of_nat 31) main_task]> (k_tasks k)) k.

Lemma slice_used_ok k :
  k_if k = true → k_cur k = main_pcb → k_tasks k !! main_pcb = Some main_task →
  clock_interrupts 31 k = Ok tt (slice_used k).
Proof.
  intros Hif Hc Hm. exact (clock_interrupts_ok k main_pcb main_task 31 Hif Hc Hm eq_refl ltac:(done) ltac:(done)).
Qed.

Lemma slice_used_ready k all_mem base u_prog_a pa :
  image_ok → booted all_mem base u_prog_a pa k →
  let x := with_ticks (ticks main_task - Z.of_nat 31) main_task in
  k_tasks (slice_used k) !! main_pcb = Some x ∧
  dlist (k_nodes k) thread_ready_list (general_tag <$> [proc_pcb]) ∧
  (general_tag main_pcb ∉ nodes thread_ready_list (general_tag <$> [proc_pcb])) ∧
  requeue x main_pcb [proc_pcb] = [proc_pcb; main_pcb] ∧
  recharge x main_pcb (k_tasks (slice_used k)) !! proc_pcb = Some proc_task ∧
  directory_of proc_task (k_mmu k) pa.
Proof.
  intros Hi Hb x. split_and!.
  - apply lookup_insert_eq.
  - apply Hb.
  - destruct (main_tags_apart thread_ready_list Hi) as [HR _]; [apply thread_lists_in; rewrite !elem_of_cons; tauto|].
    intros [Heq|[Heq%list_elem_of_singleton|Heq]]%nodes_elem; [|done|]; apply HR, nodes_elem; tauto.
  - done.
  - unfold recharge. rewrite decide_True by done. rewrite lookup_alter_ne by done.
    simpl. rewrite lookup_insert_ne by done. apply Hb.
  - apply Hb.
Qed.

(** ... with a process to switch to. *)
Lemma booted_fault k k' all_mem base u_prog_a pa :
  image_ok → 0 ≤ base → base + 0x38 ≤ 0x9a000 → booted all_mem base u_prog_a pa k →
  clock_interrupts 31 k = Ok tt k' → ∃ k'', clock_interrupt k' = Fault (base + 0x18) k''.
Proof.
  intros Hi Hb0 Hb1 Hb. destruct (slice_used_ready _ _ _ _ _ Hi Hb) as (Hx & Hr & Hni & Hq & Hy & Hdir).
  destruct Hb as [Hif Hc [Hv Hg] Hm Hp _ [_ (_ & Hu & _)] _ _ _ _ _ _ _ Htag _].
  rewrite (slice_used_ok k Hif Hc Hm). intros Hk'. assert (k' = slice_used k) as -> by congruence. clear Hk'.
  set (x := with_ticks (ticks main_task - Z.of_nat 31) main_task) in *. set (k1 := set_if false (slice_used k)).
  destruct (schedule_fault k1 x main_pcb [proc_pcb] proc_pcb [main_pcb] proc_task pa Hc Hx Hr Hni Htag Hq Hy
    ltac:(done) Hdir Hg) as [k2 Hf].
  - unfold gdt_mapped. apply bool_decide_eq_false_2. change (video_descriptor (with_cr3 pa k1)) with (video_descriptor k).
    change (k_mmu (with_cr3 pa k1)) with (with_dir pa (k_mmu k)). rewrite Hu by lia. by intros [].
  - change (video_descriptor k1) with (video_descriptor k) in Hf. rewrite Hv in Hf. exists k2.
    unfold clock_interrupt. rewrite (bind_Ok _ _ _ _ _ (k_intr_disable_ok _)). fold k1. apply bind_Fault.
    unfold clock_interrupt_handler, running_thread. rewrite bind_gets. change (k_cur k1) with (k_cur k).
    rewrite Hc, (bind_Ok _ _ _ _ _ (load_task_ok _ _ k1 Hx)). change (stack_magic x =? magic) with true.
    rewrite bind_assert. exact Hf.
Qed.

(** C9 Started from what the loader leaves, the machine runs main() and 31 clock
    interrupts, each of which takes one tick from main's time slice.  The 32nd switches
    to the first process and faults on the screen's descriptor in the table that
    tss_init left at its low address: no process ever runs. *)
Theorem first_switch_faults k all_mem base u_prog_a n :
  image_ok → wait_fuel ≠ 0%nat → loader_state all_mem base k →
  let run : prog kernel unit := _ ← main u_prog_a; clock_interrupts n in
  ((n ≤ 31)%nat → ∃ k', run k = Ok tt k' ∧ k_cur k' = main_pcb ∧
     (ticks <$> k_tasks k' !! main_pcb) = Some (31 - Z.of_nat n)) ∧
  ((32 ≤ n)%nat → ∃ k', run k = Fault (base + 0x18) k').
Proof.
  intros Hi Hfuel Hld run. destruct (ld_gdt Hld) as (_ & Hb0 & Hb1).
  destruct (proj1 (wp_Ok _ _ _) (main_ok k all_mem base u_prog_a Hi Hfuel Hld)) as ([] & k1 & Hrun & pa & Hb).
  unfold run. rewrite (bind_Ok _ _ _ _ _ Hrun).
  assert (Hticks : ∀ m, (m ≤ 31)%nat → clock_interrupts m k1 =
    Ok tt (set_tasks (<[main_pcb := with_ticks (ticks main_task - Z.of_nat m) main_task]> (k_tasks k1)) k1)).
  { intros m Hm. apply (clock_interrupts_ok k1 main_pcb main_task m); try apply Hb; [done|done|].
    change (ticks main_task) with 31. lia. }
  split.
  - intros Hn. eexists. split; [by apply Hticks|]. split; [apply Hb|]. simpl. by rewrite lookup_insert_eq.
  - intros Hn. replace n with (n - 32 + 32)%nat by lia. induction (n - 32)%nat as [|m IH].
    + destruct (booted_fault k1 _ all_mem base u_prog_a pa Hi Hb0 Hb1 Hb (Hticks 31%nat ltac:(lia))) as [k2 Hf].
      exists k2. simpl clock_interrupts at 1. rewrite (bind_Ok _ _ _ _ _ (Hticks 31%nat ltac:(lia))). exact Hf.
    + destruct IH as [k2 Hf]. exists k2. by apply bind_Fault.
Qed.
End first_switch.

(** *** Witness: 4 MB of memory, the descriptors at 0x800 *)

#[local] Existing Instances x87 demo_layout demo_env.

Lemma first_switch_faults_witness :
  (∃ k', (_ ← main 0xc0002000; clock_interrupts 31) boot_kernel = Ok tt k' ∧
     (ticks <$> k_tasks k' !! main_pcb) = Some 0) ∧
  ∃ k', (_ ← main 0xc0002000; clock_interrupts 32) boot_kernel = Fault 0x818 k'.
Proof.
  split.
  - destruct (first_switch_faults boot_kernel 0x400000 0x800 0xc0002000 31 boot_image ltac:(decided) boot_loader_state)
      as [Hok _]. destruct (Hok ltac:(decided)) as (k' & Hrun & _ & Ht). exists k'. split; [exact Hrun|exact Ht].
  - destruct (first_switch_faults boot_kernel 0x400000 0x800 0xc0002000 32 boot_image ltac:(decided) boot_loader_state)
      as [_ Hf]. destruct (Hf ltac:(decided)) as [k' Hrun]. exists k'. exact Hrun.
Defined.
