(* ===== verification/UserPage.v ===== *)
(** * The stack page of a process, and its way to ring 3

    get_a_page of kernel/memory.c for a process and start_process of
    kernel/process.c, run by the process itself in its own address space: a page of
    the user pool behind a new page table, three bitmaps brought up to date, and the
    frame from which intr_exit enters the program. *)

From Stdlib Require Import ZArith Lia.
From stdpp Require Import base tactics gmap strings fin_maps functions list.
From S2P Require Import Prelude ByteMem CString Bitmap Interrupt DList Format Paging Idt Memory Words.
From S2P Require Import Kernel Sched Sync Alloc Thread Process.

(** ** What a mapped page needs *)

(** Bit [i] of a bitmap was set, and no other. *)
Definition bit_set (bm : bitmap) (i : Z) (f g : Z → Z) : Prop :=
  0 ≤ i < 8 * bm_length bm ∧
  ∀ j, 0 ≤ j < 8 * bm_length bm → bits_of g bm j = if decide (j = i) then true else bits_of f bm j.

Definition apart (P Q : Z → Prop) : Prop := ∀ x, P x → ¬ Q x.

(** A frame that leads nowhere: not the directory, and no owned address is in it or
    reached through it. *)
Record spare (m : mmu) (D : Z → Prop) (F : Z) : Prop := {
  sp_dir : F ≠ frame_of (cr3 m);
  sp_walk : ∀ a x, D a → walk_bytes m a x → ¬ region F PG_SIZE x;
  sp_image : ∀ a x, D a → translate m a = Some x → ¬ region F PG_SIZE x
}.

Arguments sp_dir {_ _ _} _.
Arguments sp_walk {_ _ _} _.
Arguments sp_image {_ _ _} _.

(** The memory in which the page [va] can be given to a process: [vb] is the bitmap of
    its pages, [up] and [kp] are the pools, [D] what the code works on. *)
Record page_room (D : Z → Prop) (f : Z → Z) (m : mmu) (vb : bitmap) (up kp : pool) (va idx : Z) : Prop := {
  pr_mem : holds m D f;
  pr_rec : recursive m;
  pr_ram : ram m ≤ 2 ^ 32;
  pr_bit : 0 ≤ idx < 8 * bm_length vb ∧ D (bm_bits vb + idx / 8);
  pr_pools : bitmap_in D (pool_bitmap up) ∧ bitmap_in D (pool_bitmap kp);
  pr_user : 0 < phy_addr_start up ∧ phy_addr_start up mod PG_SIZE = 0 ∧
    phy_addr_start up + 8 * bm_length (pool_bitmap up) * PG_SIZE ≤ 2 ^ 32;
  pr_kernel : 0 ≤ phy_addr_start kp ∧ phy_addr_start kp mod PG_SIZE = 0 ∧
    phy_addr_start kp + 8 * bm_length (pool_bitmap kp) * PG_SIZE ≤ ram m;
  pr_vb_up : apart (in_bitmap vb) (in_bitmap (pool_bitmap up));
  pr_vb_kp : apart (in_bitmap vb) (in_bitmap (pool_bitmap kp));
  pr_up_kp : apart (in_bitmap (pool_bitmap up)) (in_bitmap (pool_bitmap kp));
  pr_va : 0 ≤ va < 2 ^ 32 ∧ va mod PG_SIZE = 0;
  pr_table : present (pword m (pde_paddr m va)) = false;
  pr_images : ∀ a x, D a → translate m a = Some x → ¬ region (frame_of (cr3 m)) PG_SIZE x;
  pr_entry : ∀ a x, D a → walk_bytes m a x → ¬ region (pde_paddr m va) 4 x;
  pr_spare : ∀ i, 0 ≤ i < 8 * bm_length (pool_bitmap kp) → bits_of f (pool_bitmap kp) i = false →
    spare m D (phy_addr_start kp + i * PG_SIZE)
}.

Arguments pr_bit {_ _ _ _ _ _ _ _} _.
Arguments pr_mem {_ _ _ _ _ _ _ _} _.
Arguments pr_vb_kp {_ _ _ _ _ _ _ _} _.
Arguments pr_user {_ _ _ _ _ _ _ _} _.
Arguments pr_pools {_ _ _ _ _ _ _ _} _.
Arguments pr_up_kp {_ _ _ _ _ _ _ _} _.
Arguments pr_va {_ _ _ _ _ _ _ _} _.
Arguments pr_kernel {_ _ _ _ _ _ _ _} _.
Arguments pr_spare {_ _ _ _ _ _ _ _} _.
Arguments pr_rec {_ _ _ _ _ _ _ _} _.
Arguments pr_table {_ _ _ _ _ _ _ _} _.
Arguments pr_ram {_ _ _ _ _ _ _ _} _.
Arguments pr_images {_ _ _ _ _ _ _ _} _.
Arguments pr_entry {_ _ _ _ _ _ _ _} _.
Arguments pr_vb_up {_ _ _ _ _ _ _ _} _.

(** ... and after it was given: frame [u] of the user pool is the page, frame [c] of
    the kernel pool its table, empty but for the page.  [S] are addresses written
    besides. *)
Record page_given (D S : Z → Prop) (f g : Z → Z) (m m' : mmu) (vb : bitmap) (up kp : pool)
    (va idx u c : Z) : Prop := {
  pg_mem : holds m' D g;
  pg_rec : recursive m';
  pg_bit : bit_set vb idx f g;
  pg_user : bit_set (pool_bitmap up) u f g ∧ first_run (bits_of f (pool_bitmap up)) 1 (8 * bm_length (pool_bitmap up)) u;
  pg_kernel : bit_set (pool_bitmap kp) c f g ∧ first_run (bits_of f (pool_bitmap kp)) 1 (8 * bm_length (pool_bitmap kp)) c;
  pg_same : ∀ x, ¬ S x → ¬ in_bitmap vb x → ¬ in_bitmap (pool_bitmap up) x → ¬ in_bitmap (pool_bitmap kp) x → g x = f x;
  pg_map : ∀ off, 0 ≤ off < PG_SIZE → translate m' (va + off) = Some (phy_addr_start up + u * PG_SIZE + off);
  pg_table : ∀ off, 0 ≤ off < PG_SIZE → off / 4 ≠ (va / 2 ^ 12) mod 2 ^ 10 →
    pbyte m' (phy_addr_start kp + c * PG_SIZE + off) = 0;
  pg_entry : frame_of (pword m' (pde_paddr m' va)) = phy_addr_start kp + c * PG_SIZE;
  pg_kept : ∀ a, D a → translate m' a = translate m a;
  pg_images : ∀ a x, D a → translate m' a = Some x →
    ¬ region (frame_of (cr3 m')) PG_SIZE x ∧ ¬ region (phy_addr_start kp + c * PG_SIZE) PG_SIZE x;
  pg_frame : ram m' = ram m ∧ cr3 m' = cr3 m ∧
    ∀ x, (∀ a, D a → translate m a ≠ Some x) → ¬ region (pde_paddr m va) 4 x →
      ¬ region (phy_addr_start kp + c * PG_SIZE) PG_SIZE x → pbyte m' x = pbyte m x
}.

Arguments pg_images {_ _ _ _ _ _ _ _ _ _ _ _ _} _.
Arguments pg_entry {_ _ _ _ _ _ _ _ _ _ _ _ _} _.
Arguments pg_mem {_ _ _ _ _ _ _ _ _ _ _ _ _} _.
Arguments pg_same {_ _ _ _ _ _ _ _ _ _ _ _ _} _.
Arguments pg_map {_ _ _ _ _ _ _ _ _ _ _ _ _} _.
Arguments pg_user {_ _ _ _ _ _ _ _ _ _ _ _ _} _.
Arguments pg_kernel {_ _ _ _ _ _ _ _ _ _ _ _ _} _.

(** The bits set one after the other, seen from the start and from the end. *)
Lemma bit_set_later bm i f g g' :
  bit_set bm i f g → (∀ x, in_bitmap bm x → g' x = g x) → bit_set bm i f g'.
Proof.
  intros [Hi Hb] Heq. split; [done|]. intros j Hj. rewrite <- Hb by done. by apply bits_same.
Qed.

Lemma bit_set_earlier bm i f f' g :
  bit_set bm i f' g → (∀ x, in_bitmap bm x → f' x = f x) → bit_set bm i f g.
Proof.
  intros [Hi Hb] Heq. split; [done|]. intros j Hj. rewrite Hb by done.
  by rewrite (bits_same bm f f' Heq j Hj).
Qed.

Lemma first_run_ext B B' limit i :
  first_run B 1 limit i → (∀ j, 0 ≤ j < limit → B' j = B j) → first_run B' 1 limit i.
Proof.
  intros (Hi0 & Hi1 & Hfr & Hmin) Heq. split_and!; [done|done|..].
  - intros j Hj. rewrite Heq by lia. by apply Hfr.
  - intros r Hr Hrun. apply (Hmin r Hr). intros j Hj. rewrite <- Heq by lia. by apply Hrun.
Qed.

(** The rest of the page goes where its first byte goes. *)
Lemma translate_page m a F off :
  a mod PG_SIZE = 0 → translate m a = Some F → 0 ≤ off < PG_SIZE → translate m (a + off) = Some (F + off).
Proof.
  intros Hal (pde & pte & Hw & ->)%translate_walks Hoff.
  rewrite (walks_translate _ _ _ _ (walks_same_page m a off pde pte Hw Hal Hoff)). f_equal.
  unfold PG_SIZE in *. zlia.
Qed.

Section room.
Context (D : Z → Prop) (vb : bitmap) (up kp : pool) (va idx : Z).
Implicit Types (f g : Z → Z) (m : mmu).

(** Changes in what the code works on keep the room, as long as the taken frames of
    the kernel pool stay taken. *)
Lemma page_room_changes f g m m1 :
  page_room D f m vb up kp va idx → changes D m m1 → holds m1 D g →
  (∀ j, 0 ≤ j < 8 * bm_length (pool_bitmap kp) → bits_of g (pool_bitmap kp) j = bits_of f (pool_bitmap kp) j) →
  page_room D g m1 vb up kp va idx.
Proof.
  intros [Hm Hrec Hr ? ? ? Hk ? ? ? ? Hp Him He Hs] Hch Hm1 Hb. pose proof Hch as (Hram & Hcr & Htr & Hby).
  assert (Hdir : ∀ x, region (frame_of (cr3 m)) PG_SIZE x → pbyte m1 x = pbyte m x).
  { intros x Hx. apply Hby. intros a Ha Hax. by apply (Him a x). }
  assert (Hpd : pde_paddr m1 va = pde_paddr m va) by (unfold pde_paddr; by rewrite Hcr).
  assert (Hw : ∀ a x, D a → walk_bytes m1 a x → walk_bytes m a x).
  { intros a x Ha. by apply (changes_walk m m1 D f). }
  split; rewrite ?Hpd, ?Hcr, ?Hram; try done.
  - apply (recursive_ext m); [done..|]. by apply (pword_page _ _ _ (1023 * 4)).
  - rewrite <- Hp. f_equal. unfold pde_paddr. apply pword_page; [done|zlia|unfold PG_SIZE; zlia].
  - intros a x Ha. rewrite Htr by done. by apply Him.
  - intros a x Ha Hax. by apply (He a x Ha), Hw.
  - intros i Hi. rewrite Hb by done. intros Hfr. destruct (Hs i Hi Hfr) as [S1 S2 S3].
    split; [by rewrite Hcr|intros a x Ha Hax; by apply (S2 a), Hw|intros a x Ha].
    rewrite Htr by done. by apply S3.
Qed.
End room.

(** ** The three steps *)

Section steps.
Context `{FpEval}.
Context (D : Z → Prop) (vb : bitmap) (up kp : pool) (va idx : Z).
Implicit Types (f g : Z → Z) (m : mmu) (s : memst).

Lemma taken_bit bm i f g :
  0 ≤ i < 8 * bm_length bm → bits_taken bm i 1 f g →
  bit_set bm i f g ∧ ∀ x, ¬ in_bitmap bm x → g x = f x.
Proof.
  intros Hi [Hb Ho]. split; [split; [done|]|].
  - intros j Hj. rewrite Hb by lia. repeat case_decide; first [done|lia].
  - intros x Hx. apply Ho. intros j Hj. replace j with i by lia. by apply bit_byte.
Qed.

Lemma mark_ok f m :
  page_room D f m vb up kp va idx →
  wp (bitmap_set_bit vb idx 1)
    (λ _ m1, ∃ g, page_room D g m1 vb up kp va idx ∧ changes D m m1 ∧ bit_set vb idx f g ∧
       ∀ x, ¬ in_bitmap vb x → g x = f x) m.
Proof.
  intros Hp. destruct (pr_bit Hp) as [Hi HD].
  eapply wp_mono; [by apply (bitmap_set_bit_ok m D f vb idx 1 (pr_mem Hp) (proj1 Hi))|].
  intros [] m1 (Hch & g & Hg & Hb & Ho). exists g.
  assert (Hout : ∀ x, ¬ in_bitmap vb x → g x = f x) by (intros x Hx; by apply Ho, bit_byte).
  split_and!; [|done|split; [done|]|done].
  - apply (page_room_changes D vb up kp va idx f _ m); [done..|]. apply bits_same. intros x Hx.
    apply Hout. intros Hv. by apply (pr_vb_kp Hp x).
  - intros j Hj. unfold bits_of. by rewrite Hb by lia.
Qed.

Lemma user_frame_ok f s :
  page_room D f (m_mmu s) vb up kp va idx →
  wpp (paddr_get_page up)
    (λ r s', ∃ u m1 g, s' = set_mmu m1 s ∧ r = phy_addr_start up + u * PG_SIZE ∧
       first_run (bits_of f (pool_bitmap up)) 1 (8 * bm_length (pool_bitmap up)) u ∧
       page_room D g m1 vb up kp va idx ∧ changes D (m_mmu s) m1 ∧ bit_set (pool_bitmap up) u f g ∧
       ∀ x, ¬ in_bitmap (pool_bitmap up) x → g x = f x)
    (λ x s', s' = s ∧ x = bitmap_assert_site ∧
       ∀ i, 0 ≤ i < 8 * bm_length (pool_bitmap up) → bits_of f (pool_bitmap up) i = true) s.
Proof.
  intros Hp. destruct (pr_user Hp) as (H0 & Hal & H32).
  eapply wpp_mono; [by apply (paddr_get_page_ok s D f up (pr_mem Hp)
    (proj1 (pr_pools Hp)) ltac:(lia) H32)| |done].
  intros r s' (u & m1 & g & -> & Hrun & -> & Hch & Hg & Ht). exists u, m1, g.
  destruct (taken_bit (pool_bitmap up) u f g) as [Hb Ho]; [|done|].
  { destruct Hrun as (? & ? & _). lia. }
  split_and!; try done. apply (page_room_changes D vb up kp va idx f _ (m_mmu s)); [done..|].
  apply bits_same. intros x Hx. apply Ho. intros Hu. by apply (pr_up_kp Hp x).
Qed.

(** What bind_vaddr_paddr_page leaves. *)
Record page_bound (D' : Z → Prop) f g m m' (pool : pool) (va' page c : Z) : Prop := {
  pb_run : first_run (bits_of f (pool_bitmap pool)) 1 (8 * bm_length (pool_bitmap pool)) c;
  pb_mem : holds m' D' g;
  pb_rec : recursive m';
  pb_bit : bit_set (pool_bitmap pool) c f g;
  pb_same : ∀ x, ¬ in_bitmap (pool_bitmap pool) x → g x = f x;
  pb_map : ∀ off, 0 ≤ off < PG_SIZE → translate m' (va' + off) = Some (page + off);
  pb_table : ∀ off, 0 ≤ off < PG_SIZE → off / 4 ≠ (va' / 2 ^ 12) mod 2 ^ 10 →
    pbyte m' (phy_addr_start pool + c * PG_SIZE + off) = 0;
  pb_entry : frame_of (pword m' (pde_paddr m' va')) = phy_addr_start pool + c * PG_SIZE;
  pb_kept : ∀ a, D' a → translate m' a = translate m a;
  pb_images : ∀ a x, D' a → translate m' a = Some x →
    ¬ region (frame_of (cr3 m')) PG_SIZE x ∧ ¬ region (phy_addr_start pool + c * PG_SIZE) PG_SIZE x;
  pb_ram : ram m' = ram m;
  pb_cr3 : cr3 m' = cr3 m;
  pb_frame : ∀ x, (∀ a, D' a → translate m a ≠ Some x) → ¬ region (pde_paddr m va') 4 x →
    ¬ region (phy_addr_start pool + c * PG_SIZE) PG_SIZE x → pbyte m' x = pbyte m x
}.

Lemma bind_given f s page :
  page_room D f (m_mmu s) vb up kp va idx → kernel_pool s = kp →
  0 ≤ page < 2 ^ 32 → page mod PG_SIZE = 0 →
  wpp (bind_vaddr_paddr_page va page)
    (λ _ s', ∃ c m' g, s' = set_mmu m' s ∧ page_bound D f g (m_mmu s) m' kp va page c)
    (λ x s', s' = s ∧ x = bitmap_assert_site ∧
       ∀ i, 0 ≤ i < 8 * bm_length (pool_bitmap kp) → bits_of f (pool_bitmap kp) i = true) s.
Proof.
  intros Hp <- Hpage Hpal. destruct (pr_va Hp) as [Hva Hval].
  destruct (pr_kernel Hp) as (Hk0 & Hkal & Hkr).
  pose proof (pr_mem Hp) as Hm. pose proof (pr_spare Hp) as Hsp.
  eapply wpp_mono.
  { apply (bind_absent_ok s D f va page (pr_rec Hp) Hva Hpage Hpal
      (pr_table Hp) Hm (proj2 (pr_pools Hp)) Hk0 Hkal Hkr (pr_ram Hp)).
    - intros i Hi Hfr. by apply (sp_dir (Hsp i Hi Hfr)).
    - exact (pr_images Hp). }
  - intros [] s' (c & m' & m1 & g & -> & Hrun & Hram & Hcr & Hrec & He & Htr & Hz & Hch & Hg & Ht & Hby).
    set (F := phy_addr_start (kernel_pool s) + c * PG_SIZE) in *.
    pose proof Hrun as (Hc0 & Hc1 & Hfr & _). pose proof (Hsp c ltac:(lia) (Hfr c ltac:(lia))) as Hspc.
    destruct (taken_bit (pool_bitmap (kernel_pool s)) c f g ltac:(lia) Ht) as [Hb Ho].
    pose proof Hch as (Hram1 & Hcr1 & Htr1 & Hby1).
    destruct (holds_update m1 m' D g g Hg) as [Hg' Ht']; [congruence|congruence|..].
    + intros a x Ha Hw. apply (changes_walk (m_mmu s) m1 D f a x Hm Hch Ha) in Hw.
      apply Hby; [by apply (pr_entry Hp a)|by apply (sp_walk Hspc a)].
    + intros a x Ha Hx. rewrite <- (holds_pbyte m1 D g a x) by done. rewrite Htr1 in Hx by done.
      apply Hby; [|by apply (sp_image Hspc a)].
      intros Hin. apply (pr_images Hp a x Ha Hx).
      unfold region, pde_paddr, PG_SIZE in *. zlia.
    + exists c, m', g.
      assert (Hva0 : translate m' va = Some page) by (rewrite Htr, Hval; f_equal; lia).
      assert (Hkept : ∀ a, D a → translate m' a = translate (m_mmu s) a) by (intros a Ha; by rewrite Ht', Htr1).
      split; [done|]. split; try done.
      { by intros; apply translate_page. }
      { unfold pde_paddr in *. by rewrite Hcr. }
      { intros a x Ha. rewrite Hkept, Hcr by done. intros Hx.
        split; [by apply (pr_images Hp a)|by apply (sp_image Hspc a)]. }
      intros x HxD Hxp HxF. rewrite Hby by done. by apply Hby1.
  - done.
Qed.

(** The three steps together. *)
Lemma page_given_steps f f1 f2 g m m2 m' u c :
  page_room D f m vb up kp va idx → changes D m m2 →
  bit_set vb idx f f1 → (∀ x, ¬ in_bitmap vb x → f1 x = f x) →
  first_run (bits_of f1 (pool_bitmap up)) 1 (8 * bm_length (pool_bitmap up)) u →
  bit_set (pool_bitmap up) u f1 f2 → (∀ x, ¬ in_bitmap (pool_bitmap up) x → f2 x = f1 x) →
  page_bound D f2 g m2 m' kp va (phy_addr_start up + u * PG_SIZE) c →
  page_given D (λ _, False) f g m m' vb up kp va idx u c.
Proof.
  intros Hp (Hram & Hcr & Htr & Hby) Hb1 Ho1 Hrun Hb2 Ho2 [Hrunk Hm' Hrec Hb3 Ho3 Hmap Htab He Hkept Him Hr Hc Hfr].
  pose proof (pr_vb_up Hp) as Hvu. pose proof (pr_vb_kp Hp) as Hvk.
  pose proof (pr_up_kp Hp) as Huk. unfold apart in *.
  assert (E1 : ∀ x, in_bitmap (pool_bitmap up) x → f1 x = f x) by (intros x Hx; apply Ho1; intros Hv; by apply (Hvu x)).
  assert (E2 : ∀ x, in_bitmap (pool_bitmap kp) x → f2 x = f x).
  { intros x Hx. rewrite Ho2 by (intros Hu; by apply (Huk x)). apply Ho1. intros Hv. by apply (Hvk x). }
  split; [done|done|..|done|done|done| |done|].
  - apply (bit_set_later _ _ _ f1); [done|]. intros x Hx. rewrite Ho3 by by apply Hvk. by apply Ho2, Hvu.
  - split.
    + apply (bit_set_later _ _ _ f2); [by apply (bit_set_earlier _ _ f f1)|]. intros x Hx. by apply Ho3, Huk.
    + eapply first_run_ext; [exact Hrun|]. intros j Hj. symmetry. by apply bits_same.
  - split; [by apply (bit_set_earlier _ _ f f2)|].
    eapply first_run_ext; [exact Hrunk|]. intros j Hj. symmetry. by apply bits_same.
  - intros x _ Hv Hu Hk. by rewrite Ho3, Ho2, Ho1.
  - intros a Ha. by rewrite Hkept, Htr.
  - split_and!; [congruence|congruence|]. intros x HxD Hxp HxF.
    rewrite Hfr; [|..|done].
    + by apply Hby.
    + intros a Ha. rewrite Htr by done. by apply HxD.
    + unfold pde_paddr in *. by rewrite Hcr.
Qed.
End steps.

(** ** get_a_page *)

Section get_page.
Context `{FpEval, Layout, Env}.
Context (D : Z → Prop).
Implicit Types (f g : Z → Z) (k : kernel).

(** The running thread [x] is a process that may ask for the page [va]. *)
Record page_owner k (x : task_struct) (va : Z) : Prop := {
  po_fuel : wait_fuel ≠ 0%nat;
  po_cur : k_cur k ≠ NULL;
  po_task : k_tasks k !! k_cur k = Some x;
  po_dir : pgdir x ≠ NULL;
  po_lock : k_locks k !! user_pool_lock = Some (Lock NULL 1 0);
  po_waiters : dlist (k_nodes k) (waiters user_pool_lock) [];
  po_range : 0 ≤ addr_start (userprog_vaddr x) ∧ addr_start (userprog_vaddr x) + PG_SIZE ≤ va < 2 ^ 32
}.

Definition page_index (x : task_struct) (va : Z) : Z := (va - addr_start (userprog_vaddr x)) / PG_SIZE.

Definition room_for f k x va : Prop :=
  page_room D f (k_mmu k) (addr_bitmap (userprog_vaddr x)) (k_user_pool k) (k_kernel_pool k) va (page_index x va).

Definition given S f g k (m' : mmu) x va u c : Prop :=
  page_given D S f g (k_mmu k) m' (addr_bitmap (userprog_vaddr x)) (k_user_pool k) (k_kernel_pool k) va
    (page_index x va) u c.

Definition full f (p : pool) : Prop :=
  ∀ i, 0 ≤ i < 8 * bm_length (pool_bitmap p) → bits_of f (pool_bitmap p) i = true.

Lemma mark_page_ok n f k x va :
  0 ≤ addr_start (userprog_vaddr x) → addr_start (userprog_vaddr x) + PG_SIZE ≤ va < 2 ^ 32 →
  room_for f k x va →
  wp (mark_page n (userprog_vaddr x) va)
    (λ _ k', ∃ m1 g, k' = lput l_kmmu m1 k ∧ room_for g (lput l_kmmu m1 k) x va ∧ changes D (k_mmu k) m1 ∧
       bit_set (addr_bitmap (userprog_vaddr x)) (page_index x va) f g ∧
       ∀ y, ¬ in_bitmap (addr_bitmap (userprog_vaddr x)) y → g y = f y) k.
Proof.
  intros Hs Hva Hr. unfold mark_page. cbv zeta.
  assert (Hi : u32 (va - addr_start (userprog_vaddr x)) / PG_SIZE = page_index x va).
  { unfold page_index. by rewrite u32_small by (unfold PG_SIZE in *; lia). }
  assert (Hpos : 0 < page_index x va < 2 ^ 20) by (unfold page_index, PG_SIZE in *; zlia).
  rewrite Hi, i32_small, u32_small by lia.
  apply wp_bind, wp_assert; [apply Z.ltb_lt; lia|]. apply wp_zoom.
  eapply wp_mono; [exact (mark_ok D _ _ _ _ _ f _ Hr)|]. intros [] m1 (g & Hg & Hch & Hb & Hout).
  by exists m1, g.
Qed.

Lemma full_ext f g p : full g p → (∀ x, in_bitmap (pool_bitmap p) x → g x = f x) → full f p.
Proof. intros Hf Heq i Hi. rewrite <- (Hf i Hi). symmetry. by apply bits_same. Qed.

Lemma get_a_page_ok f k x va :
  page_owner k x va → room_for f k x va →
  wpp (get_a_page USER_POOL va)
    (λ r k', r = va ∧ k' = lput l_kmmu (k_mmu k') k ∧ ∃ u c g, given (λ _, False) f g k (k_mmu k') x va u c)
    (λ s k', s = bitmap_assert_site ∧ (full f (k_user_pool k) ∨ full f (k_kernel_pool k))) k.
Proof.
  intros Ho Hr. pose proof Ho as [Hfu Hcur Htask Hdir Hl Hw Hrange].
  set (vb := addr_bitmap (userprog_vaddr x)) in *.
  set (k1 := set_locks (<[user_pool_lock := Lock (k_cur k) 0 1]> (k_locks k)) k).
  unfold get_a_page, pool_lock. eapply wpp_step; [by apply lock_acquire_free|]. fold k1.
  unfold running_thread. eapply wpp_step; [reflexivity|].
  eapply wpp_step; [apply load_task_ok; exact Htask|].
  rewrite (proj2 (Z.eqb_neq (pgdir x) NULL) Hdir). change (negb false) with true. cbv iota.
  apply wpp_bind, wp_wpp. eapply wp_mono; [by apply (mark_page_ok 243 f k1 x va (proj1 Hrange) (proj2 Hrange) Hr)|].
  intros [] k2 (m1 & f1 & -> & Hr1 & Hch1 & Hb1 & Ho1).
  apply wpp_bind, wpp_zoom. eapply wpp_step; [reflexivity|].
  eapply wpp_mono; [by apply (user_frame_ok D vb (k_user_pool k) (k_kernel_pool k) va (page_index x va) f1)| |].
  2: { intros s s' (_ & -> & Hfull). split; [done|]. left. apply (full_ext f f1); [done|].
    intros y Hy. apply Ho1. intros Hv. by apply (pr_vb_up Hr y). }
  intros r s' (u & m2 & f2 & -> & -> & Hrun & Hr2 & Hch2 & Hb2 & Ho2).
  set (U := phy_addr_start (k_user_pool k) + u * PG_SIZE).
  destruct (pr_user Hr) as (HU0 & HUal & HU32).
  assert (HU : 0 < U < 2 ^ 32 ∧ U mod PG_SIZE = 0).
  { destruct Hb2 as [Hu _]. subst U. unfold PG_SIZE in *. zlia. }
  rewrite (proj2 (Z.eqb_neq U NULL)) by (unfold NULL; lia).
  apply wpp_bind, wpp_zoom. set (k3 := lput l_memst _ _).
  assert (Hmu : m_mmu (lget l_memst k3) = m2) by (by destruct k as [[]]).
  eapply wpp_mono.
  { apply (bind_given D vb (k_user_pool k) (k_kernel_pool k) va (page_index x va) f2);
      [by rewrite Hmu|by destruct k as [[]]|lia|apply HU]. }
  2: { intros s s' (_ & -> & Hfull). split; [done|]. right. apply (full_ext f f2); [exact Hfull|].
    intros y Hy. rewrite Ho2 by (intros Hu; by apply (pr_up_kp Hr y)).
    apply Ho1. intros Hv. by apply (pr_vb_kp Hr y). }
  intros [] s' (c & m' & g & -> & Hbound). rewrite Hmu in Hbound.
  assert (Hk : lput l_memst (set_mmu m' (lget l_memst k3)) k3 = lput l_kmmu m' k1) by (by destruct k as [[]]).
  rewrite Hk. eapply wpp_step.
  { apply lock_release_last; [by apply lookup_insert_eq|exact Hw]. }
  apply wpp_ret.
  unfold k1. rewrite (lock_cycle user_pool_lock _ _ _ Hl). split_and!; [done|by destruct k as [[]]|]. exists u, c, g.
  apply (page_given_steps D vb (k_user_pool k) (k_kernel_pool k) va (page_index x va) f f1 f2 g (k_mmu k) m2);
    try done. apply (changes_trans D _ m1); [exact Hch1|]. replace m1 with (m_mmu (lget l_memst (lput l_kmmu m1 k1))); [done|].
  by destruct k as [[]].
Qed.
End get_page.

(** ** Writing around it *)

Section around.
Context (D : Z → Prop) (vb : bitmap) (up kp : pool) (va idx : Z).
Implicit Types (f g : Z → Z) (m : mmu).

(** The directory and the new table are not where the code writes, so the page stays. *)
Lemma page_stays f g S m m2 m3 u c :
  0 ≤ va < 2 ^ 32 → page_given D S f g m m2 vb up kp va idx u c → changes D m2 m3 →
  let F := phy_addr_start kp + c * PG_SIZE in
  (∀ x, region (frame_of (cr3 m2)) PG_SIZE x ∨ region F PG_SIZE x → pbyte m3 x = pbyte m2 x) ∧
  pword m3 (pde_paddr m3 va) = pword m2 (pde_paddr m2 va) ∧ translate m3 va = translate m2 va.
Proof.
  intros Hva Hg (Hr3 & Hc3 & _ & Hby3) F. pose proof (pg_images Hg) as Him.
  assert (Hout : ∀ x, region (frame_of (cr3 m2)) PG_SIZE x ∨ region F PG_SIZE x → pbyte m3 x = pbyte m2 x).
  { intros x Hx. apply Hby3. intros a Ha Hax. destruct (Him a x Ha Hax). tauto. }
  assert (Hpd : pde_paddr m3 va = pde_paddr m2 va) by (unfold pde_paddr; by rewrite Hc3).
  assert (Hpde : ∀ x, region (pde_paddr m2 va) 4 x → region (frame_of (cr3 m2)) PG_SIZE x).
  { unfold region, pde_paddr, PG_SIZE. intros x. zlia. }
  split; [done|]. split; [rewrite Hpd; apply pword_ext; auto|].
  apply translate_frame; [done|done|]. intros x [Hx|Hx]; [auto|]. apply Hout. right.
  unfold pte_paddr in Hx. rewrite (pg_entry Hg) in Hx.
  pose proof (Z.mod_pos_bound (va / 2 ^ 12) (2 ^ 10)). unfold region, F, PG_SIZE in *. lia.
Qed.

Lemma page_given_after f g g' S m m2 m3 u c :
  0 ≤ va < 2 ^ 32 → va mod PG_SIZE = 0 →
  page_given D S f g m m2 vb up kp va idx u c → changes D m2 m3 → holds m3 D g' →
  (∀ x, in_bitmap vb x ∨ in_bitmap (pool_bitmap up) x ∨ in_bitmap (pool_bitmap kp) x ∨ ¬ S x → g' x = g x) →
  page_given D S f g' m m3 vb up kp va idx u c.
Proof.
  intros Hva Hal Hg Hch Hm3 Heq. destruct (page_stays f g S m m2 m3 u c Hva Hg Hch) as (Hout & Hpde & Htr).
  destruct Hg as [Hm Hrec Hb [Hu Hur] [Hk Hkr] Hs Hmap Htab He Hkept Him (Hr & Hc & Hfr)].
  destruct Hch as (Hr3 & Hc3 & Htr3 & Hby3).
  pose proof (Hmap 0 ltac:(done)) as Hva0. rewrite !Z.add_0_r in Hva0.
  split; [done|..].
  - apply (recursive_ext m2); [done..|]. apply (pword_page _ _ _ (1023 * 4)); [auto|lia|by unfold PG_SIZE].
  - apply (bit_set_later _ _ _ g); [done|]. intros. apply Heq. tauto.
  - split; [|done]. apply (bit_set_later _ _ _ g); [done|]. intros. apply Heq. tauto.
  - split; [|done]. apply (bit_set_later _ _ _ g); [done|]. intros. apply Heq. tauto.
  - intros x HS Hv Hx Hy. rewrite Heq by tauto. by apply Hs.
  - intros off Hoff. apply translate_page; [done|by rewrite Htr|done].
  - intros off Hoff Hj. rewrite Hout by (right; unfold region; lia). by apply Htab.
  - by rewrite Hpde.
  - intros a Ha. by rewrite Htr3, Hkept.
  - intros a x Ha. rewrite Htr3, Hc3 by done. by apply Him.
  - split_and!; [congruence|congruence|]. intros x HxD Hxp HxF. rewrite Hby3; [by apply Hfr|].
    intros a Ha. rewrite Hkept by done. by apply HxD.
Qed.

Lemma page_given_before f f1 g S m m1 m2 u c :
  changes D m m1 → page_given D (λ _, False) f1 g m1 m2 vb up kp va idx u c →
  (∀ x, in_bitmap vb x ∨ in_bitmap (pool_bitmap up) x ∨ in_bitmap (pool_bitmap kp) x ∨ ¬ S x → f1 x = f x) →
  page_given D S f g m m2 vb up kp va idx u c.
Proof.
  intros (Hr1 & Hc1 & Htr1 & Hby1) [Hm Hrec Hb [Hu Hur] [Hk Hkr] Hs Hmap Htab He Hkept Him (Hr & Hc & Hfr)] Heq.
  split; try done.
  - apply (bit_set_earlier _ _ f f1); [done|]. intros. apply Heq. tauto.
  - split; [apply (bit_set_earlier _ _ f f1); [done|]; intros; apply Heq; tauto|].
    eapply first_run_ext; [exact Hur|]. intros j Hj. symmetry. apply bits_same; [|done]. intros. apply Heq. tauto.
  - split; [apply (bit_set_earlier _ _ f f1); [done|]; intros; apply Heq; tauto|].
    eapply first_run_ext; [exact Hkr|]. intros j Hj. symmetry. apply bits_same; [|done]. intros. apply Heq. tauto.
  - intros x HS Hv Hx Hy. rewrite Hs by tauto. apply Heq. tauto.
  - intros a Ha. by rewrite Hkept, Htr1.
  - split_and!; [congruence|congruence|]. intros x HxD Hxp HxF. unfold pde_paddr in *. rewrite Hc1 in Hfr.
    rewrite Hfr; [by apply Hby1| |done|done]. intros a Ha. rewrite Htr1 by done. by apply HxD.
Qed.
End around.

(** ** start_process *)

Definition stack_page : Z := 0xc0000000 - 0x1000.

(** The words start_process writes before and after it asks for the stack page. *)
Definition frame_before (filename : Z) : list (Z * Z) :=
  [(16, 0); (12, 0); (8, 0); (4, 0); (32, 0); (28, 0); (24, 0); (20, 0); (36, 0); (40, 0x33); (44, 0x33); (48, 0x33);
   (56, filename); (60, 0x2b); (64, 0x200)].

Definition frame_after : list (Z * Z) := [(68, 0xc0000000); (72, 0x33)].

Definition user_frame (filename : Z) : list (Z * Z) := frame_before filename ++ frame_after.

Section writing.
Context (D : Z → Prop).
Implicit Types (k : kernel).

Definition writing (A : Z) (ws : list (Z * Z)) (rest : prog kernel Z) : prog kernel Z :=
  foldr (λ w p, _ ← zoom l_kmmu (store32 (u32 (A + fst w)) (snd w)); p) rest ws.

Lemma writing_ok A n ws rest Q E k f :
  holds (k_mmu k) D f → (∀ y, region A n y → D y) → 0 ≤ A → A + n ≤ 2 ^ 32 → A mod 4 = 0 →
  Forall (λ o, 0 ≤ o ∧ o + 4 ≤ n ∧ o mod 4 = 0) (fst <$> ws) →
  (∀ m', holds m' D (puts A ws f) → changes D (k_mmu k) m' → wpp rest Q E (lput l_kmmu m' k)) →
  wpp (writing A ws rest) Q E k.
Proof.
  intros Hm HD HA Hn Hal Hws Hrest. revert k f Hm Hrest. induction ws as [|[o v] ws IH]; intros k f Hm Hrest.
  - specialize (Hrest (k_mmu k) Hm (changes_refl _ _)).
    replace (lput l_kmmu (k_mmu k) k) with k in Hrest by (by destruct k as [[]]). exact Hrest.
  - rewrite fmap_cons in Hws. apply Forall_cons in Hws as [(Ho0 & Ho1 & Hoal) Hws]. simpl in Ho0, Ho1, Hoal.
    simpl writing. rewrite u32_small by lia. apply wpp_bind, wpp_zoom, wp_wpp.
    apply (wp_store32 _ D f (A + o) v); [exact Hm|zlia|intros y Hy; apply HD; unfold region in *; lia|].
    intros m1 Hm1 Hch1. change (lget l_kmmu k) with (k_mmu k) in Hch1.
    assert (Hk1 : k_mmu (lput l_kmmu m1 k) = m1) by (by destruct k as [[]]).
    apply (IH Hws _ (put32 A f (o, v))); [by rewrite Hk1|]. rewrite Hk1. intros m2 Hm2 Hch2.
    replace (lput l_kmmu m2 (lput l_kmmu m1 k)) with (lput l_kmmu m2 k) by (by destruct k as [[]]).
    apply Hrest; [done|]. by apply (changes_trans D _ m1).
Qed.
End writing.

Section start.
Context `{FpEval, Layout, Env}.
Context (D : Z → Prop).
Implicit Types (f g : Z → Z) (k : kernel).

(** Where start_process puts the frame for intr_exit. *)
Definition user_stack (x : task_struct) : Z := self_kstack x + 4 * sizeof_thread_stack.

Definition frame_bytes (x : task_struct) : Z → Prop := region (user_stack x) sizeof_intr_stack.

(** The frame is inside the kernel stack and away from the bitmaps. *)
Record frame_room k x : Prop := {
  fr_range : 0 ≤ self_kstack x ∧ user_stack x + sizeof_intr_stack ≤ 2 ^ 32 ∧ user_stack x mod 4 = 0;
  fr_mem : ∀ y, frame_bytes x y → D y;
  fr_vb : apart (in_bitmap (addr_bitmap (userprog_vaddr x))) (frame_bytes x);
  fr_up : apart (in_bitmap (pool_bitmap (k_user_pool k))) (frame_bytes x);
  fr_kp : apart (in_bitmap (pool_bitmap (k_kernel_pool k))) (frame_bytes x)
}.

Lemma puts_in_frame x ws f y :
  Forall (λ o, 0 ≤ o ∧ o + 4 ≤ sizeof_intr_stack ∧ o mod 4 = 0) (fst <$> ws) →
  ¬ frame_bytes x y → puts (user_stack x) ws f y = f y.
Proof.
  intros Hws Hy. apply puts_outside. intros o Ho Hin. rewrite Forall_forall in Hws. specialize (Hws o Ho).
  apply Hy. unfold frame_bytes, region in *. lia.
Qed.

(** Bytes of the bitmaps are not in the frame. *)
Lemma frame_apart k x y :
  frame_room k x →
  in_bitmap (addr_bitmap (userprog_vaddr x)) y ∨ in_bitmap (pool_bitmap (k_user_pool k)) y ∨
    in_bitmap (pool_bitmap (k_kernel_pool k)) y ∨ ¬ frame_bytes x y → ¬ frame_bytes x y.
Proof. intros [_ _ Hv Hu Hk] [Hy|[Hy|[Hy|Hy]]]; [by apply Hv|by apply Hu|by apply Hk|done]. Qed.

Lemma start_process_split filename x k :
  k_tasks k !! k_cur k = Some x → frame_room k x →
  start_process filename k =
    writing (user_stack x) (frame_before filename)
      (page ← get_a_page USER_POOL stack_page;
       writing (user_stack x) [(68, u32 (page + PG_SIZE)); (72, 0x33)] (mret (user_stack x)))
      (set_tasks (<[k_cur k := with_kstack (user_stack x) x]> (k_tasks k)) k).
Proof.
  intros Hx [Hr _ _ _ _]. unfold start_process, running_thread. rewrite bind_gets.
  rewrite (bind_Ok _ _ _ _ _ (update_task_ok _ _ _ _ Hx)).
  rewrite (bind_Ok _ _ _ _ _ (load_task_ok _ _ _ (lookup_insert_eq _ _ _))).
  unfold user_stack, sizeof_intr_stack, sizeof_thread_stack in *.
  rewrite (u32_small (self_kstack x + 4 * 32)) by lia. done.
Qed.

(** The words of the frame, read back at the end. *)
Lemma user_frame_read x f g m filename :
  holds m D g → (∀ y, frame_bytes x y → D y) → user_stack x mod 4 = 0 →
  (∀ y, frame_bytes x y → g y = puts (user_stack x) frame_after (puts (user_stack x) (frame_before filename) f) y) →
  Forall (λ w, load32 (user_stack x + fst w) m = Ok (u32 (snd w)) m) (user_frame filename).
Proof.
  intros Hm HD Hal Hg. apply Forall_forall. intros [o v] Hin. cbn [fst snd].
  assert (Ho : 0 ≤ o ∧ o + 4 ≤ sizeof_intr_stack ∧ o mod 4 = 0).
  { assert (Hall : Forall (λ o, 0 ≤ o ∧ o + 4 ≤ sizeof_intr_stack ∧ o mod 4 = 0) (fst <$> user_frame filename)) by decided.
    rewrite Forall_forall in Hall. apply Hall, list_elem_of_fmap. by exists (o, v). }
  assert (Hin4 : ∀ y, region (user_stack x + o) 4 y → frame_bytes x y) by (unfold frame_bytes, region; lia).
  rewrite (load32_word m D g) by (auto; zlia). f_equal.
  rewrite (word_ext g (puts (user_stack x) (user_frame filename) f)).
  - apply word_puts; [decided|decided|done].
  - intros y Hy. rewrite Hg by auto. unfold puts, user_frame. by rewrite foldl_app.
Qed.

(** The frame is there, and the page the process starts with. *)
Definition enters_ring3 f k x filename r k' : Prop :=
  r = user_stack x ∧
  k' = lput l_kmmu (k_mmu k') (set_tasks (<[k_cur k := with_kstack r x]> (k_tasks k)) k) ∧
  Forall (λ w, load32 (r + fst w) (k_mmu k') = Ok (u32 (snd w)) (k_mmu k')) (user_frame filename) ∧
  ∃ u c g, given D (frame_bytes x) f g k (k_mmu k') x stack_page u c.

Lemma start_process_ok f k x filename :
  page_owner k x stack_page → room_for D f k x stack_page → frame_room k x →
  wpp (start_process filename) (enters_ring3 f k x filename)
    (λ s k', s = bitmap_assert_site ∧ (full f (k_user_pool k) ∨ full f (k_kernel_pool k))) k.
Proof.
  intros Ho Hr Hfr. pose proof Ho as [Hfu Hcur Htask Hdir Hl Hw Hrange]. pose proof Hfr as [(Hk0 & Hk1 & Hkal) HD _ _ _].
  eapply wpp_eq; [by apply start_process_split|]. set (x' := with_kstack (user_stack x) x). set (k1 := set_tasks _ k).
  assert (HA : 0 ≤ user_stack x) by (unfold user_stack, sizeof_thread_stack; lia).
  apply (writing_ok D (user_stack x) sizeof_intr_stack _ _ _ _ k1 f);
    [exact (pr_mem Hr)|exact HD|done|done|done|decided|].
  intros m1 Hm1 Hch1. set (f1 := puts _ _ f) in *. set (k2 := lput l_kmmu m1 k1).
  assert (Hf1 : ∀ y, ¬ frame_bytes x y → f1 y = f y) by (intros y; apply puts_in_frame; decided).
  assert (Hr2 : room_for D f1 k2 x' stack_page).
  { apply (page_room_changes D _ _ _ _ _ f f1 (k_mmu k) m1 Hr Hch1 Hm1). apply bits_same.
    intros y Hy. apply Hf1, (frame_apart k x y Hfr). tauto. }
  apply wpp_bind. eapply wpp_mono; [apply (get_a_page_ok D f1 k2 x' stack_page); [|exact Hr2]| |].
  { split; try done. by apply lookup_insert_eq. }
  2: { intros s k' [-> Hfull]. split; [done|].
    destruct Hfull as [Hfull|Hfull]; [left|right]; apply (full_ext f f1); try done;
      intros y Hy; apply Hf1, (frame_apart k x y Hfr); tauto. }
  intros r k3 (-> & Hk3 & u & c & g & Hg). change (u32 (stack_page + PG_SIZE)) with 0xc0000000.
  apply (writing_ok D (user_stack x) sizeof_intr_stack _ _ _ _ k3 g);
    [exact (pg_mem Hg)|exact HD|done|done|done|decided|].
  intros m4 Hm4 Hch4. set (g4 := puts _ _ g) in *. apply wpp_ret.
  assert (Hg4 : ∀ y, ¬ frame_bytes x y → g4 y = g y) by (intros y; apply puts_in_frame; decided).
  split; [done|]. rewrite Hk3. split; [by destruct k as [[]]|].
  assert (Hm : k_mmu (lput l_kmmu m4 (lput l_kmmu (k_mmu k3) k2)) = m4) by (by destruct k as [[]]). rewrite Hm.
  split.
  - apply (user_frame_read x f g4); [exact Hm4|exact HD|done|]. intros y Hy. apply puts_ext.
    apply (pg_same Hg); intros Hin;
      [by destruct Hin|by apply (fr_vb k x Hfr y)|by apply (fr_up k x Hfr y)|by apply (fr_kp k x Hfr y)].
  - exists u, c, g4. apply (page_given_after D _ _ _ _ _ f g g4 (frame_bytes x) _ (k_mmu k3)); try done.
    + apply (page_given_before D _ _ _ _ _ f f1 g (frame_bytes x) (k_mmu k) m1); [exact Hch1|exact Hg|].
      intros y Hy. by apply Hf1, (frame_apart k x y Hfr).
    + intros y Hy. by apply Hg4, (frame_apart k x y Hfr).
Qed.

(** C12 A process that starts: on its kernel stack start_process leaves the frame with
    which intr_exit enters the program at ring 3 - segments of the user, interrupts
    on, the entry point, a stack that ends at 0xc0000000 - and returns its address;
    the page below 0xc0000000 is then the first free frame of the user pool, behind a
    new page table in the first free frame of the kernel pool; the three bits are set
    and no others, all locks are free again, and no other byte of memory changes. *)
Theorem start_process_enters f k x filename :
  page_owner k x stack_page → room_for D f k x stack_page → frame_room k x →
  wpp (start_process filename)
    (λ r k', r = user_stack x ∧
       k' = lput l_kmmu (k_mmu k') (set_tasks (<[k_cur k := with_kstack r x]> (k_tasks k)) k) ∧
       Forall (λ w, load32 (r + fst w) (k_mmu k') = Ok (u32 (snd w)) (k_mmu k')) (user_frame filename) ∧
       ∃ u c g, given D (frame_bytes x) f g k (k_mmu k') x stack_page u c)
    (λ s k', s = bitmap_assert_site ∧ (full f (k_user_pool k) ∨ full f (k_kernel_pool k))) k.
Proof. exact (start_process_ok f k x filename). Qed.
End start.

(** *** Witness: a process with its directory at 0x1000, its bitmap up to 0xc009a100,
    the pools' bitmaps behind 0xc009a200 and its kernel stack from 0xc009a300 *)

#[local] Existing Instances x87 demo_layout demo_env.

Definition ring3_mmu : mmu :=
  Mmu 0x20000 (put32s ∅ [(0x1000 + 768 * 4, 0x2007); (0x1000 + 1023 * 4, 0x1007); (0x2000 + 0x9a * 4, 0x3007)]) 0x1000.

Definition ring3_task : task_struct :=
  Task 0xc009a280 TASK_RUNNING (replicate 16 0) 31 31 0xc0118000
    (VirtualAddr (Bitmap 94199 (0xc009a100 - 94199)) USER_VADDR_START) magic.

Definition ring3_kernel : kernel :=
  put_memst (MemSt ring3_mmu (Pool (Bitmap 1 0xc009a200) 0x6000 0x8000) (Pool (Bitmap 1 0xc009a204) 0xe000 0x8000)
    demo_vaddr []) (set_tasks (<[0x20000 := ring3_task]> (k_tasks demo_kernel)) demo_kernel).

Definition ring3_region : Z → Prop := region 0xc009a000 PG_SIZE.

Definition ring3_bytes : Z → Z := λ x, pbyte ring3_mmu (0x3000 + (x - 0xc009a000)).

Lemma ring3_walk : walks ring3_mmu 0xc009a000 0x2007 0x3007.
Proof. split; vm_compute; by repeat split. Qed.

Lemma ring3_holds : holds ring3_mmu ring3_region ring3_bytes.
Proof. apply (page_holds ring3_mmu 0xc009a000 0x2007 0x3007 0xc009a000 PG_SIZE ring3_walk); vm_compute; congruence. Qed.

Lemma ring3_translate a x : ring3_region a → translate ring3_mmu a = Some x → region 0x3000 PG_SIZE x.
Proof.
  unfold ring3_region, region. intros Ha.
  replace a with (0xc009a000 + (a - 0xc009a000)) by lia.
  rewrite (translate_page ring3_mmu 0xc009a000 0x3000) by first [reflexivity|lia]. intros [= <-]. lia.
Qed.

Lemma ring3_walk_bytes a x : ring3_region a → walk_bytes ring3_mmu a x → region 0x1c00 4 x ∨ region 0x2268 4 x.
Proof.
  unfold ring3_region. intros Ha. pose proof (walks_same_page _ _ (a - 0xc009a000) _ _ ring3_walk eq_refl) as Hw.
  unfold region, PG_SIZE in Ha, Hw. specialize (Hw ltac:(lia)).
  replace (0xc009a000 + (a - 0xc009a000)) with a in Hw by lia.
  unfold walk_bytes. rewrite (walk_pde _ _ _ _ Hw). unfold pde_paddr, pte_paddr.
  replace (a / 2 ^ 22) with 768 by zlia. replace ((a / 2 ^ 12) mod 2 ^ 10) with 0x9a by zlia. done.
Qed.

Lemma ring3_owner : page_owner ring3_kernel ring3_task stack_page.
Proof. split; first [decided|vm_compute; reflexivity]. Qed.

Lemma ring3_room : room_for ring3_region ring3_bytes ring3_kernel ring3_task stack_page.
Proof.
  split; try first [exact ring3_holds|decided].
  - split; vm_compute; reflexivity.
  - split; (split; [decided|]); unfold ring3_region, region; simpl; unfold PG_SIZE; lia.
  - unfold apart, in_bitmap, region. simpl. lia.
  - unfold apart, in_bitmap, region. simpl. lia.
  - unfold apart, in_bitmap, region. simpl. lia.
  - intros a x Ha Hx. pose proof (ring3_translate a x Ha Hx) as Hr.
    change (frame_of (cr3 (k_mmu ring3_kernel))) with 0x1000. unfold region, PG_SIZE in *. lia.
  - intros a x Ha Hx. change (pde_paddr (k_mmu ring3_kernel) stack_page) with 0x1bfc.
    destruct (ring3_walk_bytes a x Ha Hx) as [Hr|Hr]; unfold region in *; lia.
  - intros i Hi _. change (8 * bm_length (pool_bitmap (k_kernel_pool ring3_kernel))) with 8 in Hi.
    change (phy_addr_start (k_kernel_pool ring3_kernel)) with 0x6000. split.
    + change (frame_of (cr3 (k_mmu ring3_kernel))) with 0x1000. unfold PG_SIZE. lia.
    + intros a x Ha Hx. destruct (ring3_walk_bytes a x Ha Hx) as [Hr|Hr]; unfold region, PG_SIZE in *; lia.
    + intros a x Ha Hx. pose proof (ring3_translate a x Ha Hx) as Hr. unfold region, PG_SIZE in *. lia.
Qed.

Lemma ring3_frame_room : frame_room ring3_region ring3_kernel ring3_task.
Proof.
  split; [decided|..]; unfold frame_bytes, ring3_region, apart, in_bitmap, region, user_stack; simpl;
    unfold PG_SIZE, sizeof_thread_stack, sizeof_intr_stack; lia.
Qed.

(** The program at 0x8049000; its frame comes to 0xc009a300. *)
Lemma start_process_enters_witness :
  wpp (start_process 0x8049000)
    (λ r k', r = 0xc009a300 ∧
       k' = lput l_kmmu (k_mmu k') (set_tasks (<[0x20000 := with_kstack r ring3_task]> (k_tasks ring3_kernel)) ring3_kernel) ∧
       Forall (λ w, load32 (r + fst w) (k_mmu k') = Ok (u32 (snd w)) (k_mmu k')) (user_frame 0x8049000) ∧
       ∃ u c g, given ring3_region (region 0xc009a300 76) ring3_bytes g ring3_kernel (k_mmu k') ring3_task stack_page u c)
    (λ s k', s = bitmap_assert_site ∧
       (full ring3_bytes (k_user_pool ring3_kernel) ∨ full ring3_bytes (k_kernel_pool ring3_kernel))) ring3_kernel.
Proof.
  exact (start_process_enters ring3_region ring3_bytes ring3_kernel ring3_task 0x8049000
    ring3_owner ring3_room ring3_frame_room).
Defined.
