(* ===== verification/FirstProcess.v ===== *)
(** * The first process, in its own address space

    What process_execute leaves is what start_process needs: the PCB, the bitmap and
    the directory of the process are on frames of their own, its directory maps them as
    the kernel's does, and both pools have frames to spare.  So with the descriptor
    table in reach the first process gets from main() to ring 3. *)

From Stdlib Require Import ZArith Lia.
From stdpp Require Import base tactics gmap strings fin_maps functions list.
From S2P Require Import Prelude ByteMem CString Bitmap Interrupt DList Format Paging Idt Memory Words Malloc Loader.
From S2P Require Import Kernel Sched Sync Alloc Thread Spawn Process AddrSpace Execute IoQueue Keyboard Timer Tss Main Boot.
From S2P Require Import FirstSwitch UserPage.

(** ** The memory a process works on *)

Section process_memory.
Context `{FpEval, Layout, Env}.
Context (D : Z → Prop) (T N : Z).
Implicit Types (g : Z → Z) (k : kernel) (bs : list Z).

Definition kernel_half (a : Z) : Prop := 0xc0000000 ≤ a < 0xffc00000.

(** The kernel's own bytes above 0xc0000000 and the pages that belong to the process. *)
Definition process_mem k (i : Z) bs (a : Z) : Prop :=
  (D a ∧ kernel_half a) ∨ region (heap_page (get_memst k) i) (Z.of_nat (length bs) * PG_SIZE) a.

(** A process that was made: its pages from [i] on are on the frames [bs], its
    directory is in frame [d]. *)
Record process_pages g k (i : Z) bs (d : Z) : Prop := {
  pp_heap : k_heap D T N g k;
  pp_owned : owned g k i (bs ++ [d]);
  pp_range : 0 ≤ i ∧ i + Z.of_nat (length bs) + 1 ≤ N;
  pp_words : directory_words (k_mmu k) (frame (get_memst k) d);
  pp_half : kernel_half (heap_start (get_memst k))
}.

Arguments pp_heap {_ _ _ _ _} _.
Arguments pp_words {_ _ _ _ _} _.
Arguments pp_owned {_ _ _ _ _} _.
Arguments pp_range {_ _ _ _ _} _.
Arguments pp_half {_ _ _ _ _} _.

(** Where the bytes of the process are: [a] is at [x]. *)
Definition kernel_byte k a x : Prop :=
  D a ∧ ¬ region T PG_SIZE x ∧ ¬ in_pool (get_memst k) x.

Definition page_byte k (i : Z) bs a x : Prop :=
  ∃ (q : nat) b off, bs !! q = Some b ∧ 0 ≤ off < PG_SIZE ∧
    a = heap_page (get_memst k) (i + Z.of_nat q) + off ∧ x = frame (get_memst k) b + off.

Section made.
Context (g : Z → Z) (k : kernel) (i : Z) (bs : list Z) (d : Z) (Hpp : process_pages g k i bs d).
Let F : Z := frame (get_memst k) d.
Let m1 : mmu := with_dir F (k_mmu k).

Lemma process_layout : heap_layout D T N (get_memst k).
Proof using Hpp. exact (ho_layout (pp_heap Hpp)). Qed.

Lemma process_dir_frame : frame_of (cr3 m1) = F.
Proof using Hpp.
  destruct (dw_frame _ _ (pp_words Hpp)) as (HF & Hal & _). fold F in HF, Hal.
  simpl. by rewrite u32_small, frame_of_id.
Qed.

Lemma process_frame (q : nat) b :
  (bs ++ [d]) !! q = Some b → 0 ≤ b < pool_frames (get_memst k) ∧
    maps_page (get_memst k) (i + Z.of_nat q) b ∧ bits_of g (pool_bitmap (kernel_pool (get_memst k))) b = true.
Proof using Hpp. apply (pp_owned Hpp). Qed.

Lemma process_dir_bit :
  0 ≤ d < pool_frames (get_memst k) ∧ bits_of g (pool_bitmap (kernel_pool (get_memst k))) d = true.
Proof using Hpp.
  destruct (process_frame (length bs) d) as (Hd & _ & Ht); [|done]. by apply list_lookup_middle.
Qed.

Lemma process_page_frame (q : nat) b :
  bs !! q = Some b → 0 ≤ b < pool_frames (get_memst k) ∧
    maps_page (get_memst k) (i + Z.of_nat q) b ∧ bits_of g (pool_bitmap (kernel_pool (get_memst k))) b = true ∧ b ≠ d.
Proof using Hpp.
  intros Hq. destruct (process_frame q b) as (Hb & Hm & Ht); [by apply lookup_app_l_Some|]. split_and!; [apply Hb..|done|done|].
  intros ->. destruct (pp_owned Hpp) as [Hnd _]. apply NoDup_app in Hnd as (_ & Hap & _).
  apply (Hap d); [by apply (list_elem_of_lookup_2 _ q)|by apply list_elem_of_singleton].
Qed.

Lemma frame_pool b off : 0 ≤ b < pool_frames (get_memst k) → 0 ≤ off < PG_SIZE → in_pool (get_memst k) (frame (get_memst k) b + off).
Proof. apply frame_in_pool. Qed.

(** The heap's one table is in the kernel's half. *)
Lemma process_mem_via a :
  process_mem k i bs a → kernel_half a ∧ via_table T (get_memst k) a.
Proof using Hpp.
  pose proof (pp_heap Hpp) as Ho. intros [[Ha Hh]|Ha]; [by split; [|apply (ho_via Ho)]|].
  destruct (pp_range Hpp) as [Hi HN]. unfold region in Ha.
  set (q := (a - heap_page (get_memst k) i) / PG_SIZE). set (off := (a - heap_page (get_memst k) i) mod PG_SIZE).
  assert (Hq : 0 ≤ q < Z.of_nat (length bs) ∧ 0 ≤ off < PG_SIZE) by (unfold q, off, PG_SIZE in *; zlia).
  assert (Haq : a = heap_page (get_memst k) (i + q) + off) by (unfold q, off, heap_page, PG_SIZE in *; zlia).
  split; [|rewrite Haq; apply (via_heap_page D T N _ _ _ (i + q) off Ho); lia].
  destruct (heap_page_facts D T N (get_memst k) (i + q) process_layout ltac:(lia)) as (Hp0 & _ & Hal & H22 & _).
  pose proof (pp_half Hpp) as Hst. unfold kernel_half, PG_SIZE in *. zlia.
Qed.

Lemma kernel_byte_at a : D a → ∃ x, translate (k_mmu k) a = Some x ∧ kernel_byte k a x.
Proof using Hpp.
  intros Ha. pose proof (pp_heap Hpp) as Ho.
  destruct (ho_bits Ho) as [(Hmap & _ & _) _]. destruct (Hmap a Ha) as (x & Hx & _). exists x.
  destruct (ho_apart Ho a x Ha Hx) as (HT & _ & Hp). split; [exact Hx|]. by split_and!.
Qed.

Lemma page_byte_at a :
  region (heap_page (get_memst k) i) (Z.of_nat (length bs) * PG_SIZE) a →
  ∃ x, translate (k_mmu k) a = Some x ∧ page_byte k i bs a x.
Proof using Hpp.
  unfold region. intros Ha.
  set (q := (a - heap_page (get_memst k) i) / PG_SIZE). set (off := (a - heap_page (get_memst k) i) mod PG_SIZE).
  assert (Hq : 0 ≤ q < Z.of_nat (length bs) ∧ 0 ≤ off < PG_SIZE) by (unfold q, off, PG_SIZE in *; zlia).
  destruct (lookup_lt_is_Some_2 bs (Z.to_nat q) ltac:(lia)) as [b Hb].
  destruct (process_page_frame _ _ Hb) as (Hbr & Hmp & _). rewrite Z2Nat.id in Hmp by lia.
  assert (Haq : a = heap_page (get_memst k) (i + q) + off) by (unfold q, off, heap_page, PG_SIZE in *; zlia).
  exists (frame (get_memst k) b + off). split; [rewrite Haq; apply (Hmp off); lia|].
  exists (Z.to_nat q), b, off. rewrite Z2Nat.id by lia. split_and!; [done|lia|lia|done|done].
Qed.

Lemma process_mem_byte a :
  process_mem k i bs a →
  ∃ x, translate m1 a = Some x ∧ translate (k_mmu k) a = Some x ∧ (kernel_byte k a x ∨ page_byte k i bs a x).
Proof using Hpp.
  intros Hm. destruct (process_mem_via a Hm) as [Hh _]. pose proof (pp_heap Hpp) as Ho.
  destruct (directory_space _ _ (ho_rec Ho) (pp_words Hpp)) as (_ & _ & Htr).
  fold F in Htr. change (with_dir F (m_mmu (get_memst k))) with m1 in Htr. rewrite (Htr a Hh).
  destruct Hm as [[Ha _]|Ha]; [destruct (kernel_byte_at a Ha) as (x & Hx & Hb)|destruct (page_byte_at a Ha) as (x & Hx & Hb)];
    exists x; (split; [exact Hx|]; split; [exact Hx|]); tauto.
Qed.

(** Two bytes of the process are never at the same place. *)
Lemma process_mem_apart a x b y :
  kernel_byte k a x → page_byte k i bs b y → x ≠ y.
Proof using Hpp.
  intros (_ & _ & Hx) (q & f & off & Hq & Hoff & _ & ->) ->. apply Hx.
  apply frame_in_pool; [by apply (process_page_frame q)|done].
Qed.

Lemma process_mem_inj a b x :
  process_mem k i bs a → process_mem k i bs b → translate m1 a = Some x → translate m1 b = Some x → a = b.
Proof using Hpp.
  intros Ha Hb Hx Hy. destruct (process_mem_byte a Ha) as (x1 & Hx1 & Hxk & HA).
  destruct (process_mem_byte b Hb) as (y1 & Hy1 & Hyk & HB).
  rewrite Hx in Hx1. rewrite Hy in Hy1. injection Hx1 as <-. injection Hy1 as <-.
  destruct HA as [HA|HA], HB as [HB|HB].
  - destruct (ho_bits (pp_heap Hpp)) as [(_ & Hinj & _) _].
    destruct HA as [HA _], HB as [HB _]. apply (Hinj a b HA HB).
    change (m_mmu (get_memst k)) with (k_mmu k). congruence.
  - by destruct (process_mem_apart a x b x HA HB).
  - by destruct (process_mem_apart b x a x HB HA).
  - destruct HA as (q & f & off & Hq & Hoff & -> & ->), HB as (q' & f' & off' & Hq' & Hoff' & -> & Heq).
    assert (f = f' ∧ off = off') as [-> ->] by (unfold frame, PG_SIZE in *; nia).
    destruct (pp_owned Hpp) as [Hnd _]. apply NoDup_app in Hnd as (Hnd & _).
    by rewrite (NoDup_lookup _ _ _ _ Hnd Hq Hq').
Qed.

(** The walks stay in the kernel's part of the directory and in the heap's table. *)
Lemma process_mem_walk a x :
  process_mem k i bs a → walk_bytes m1 a x → region (F + 768 * 4) (255 * 4) x ∨ region T PG_SIZE x.
Proof using Hpp.
  intros Ha. destruct (process_mem_via a Ha) as [Hh [_ Hvia]]. unfold walk_bytes, pde_paddr. rewrite process_dir_frame.
  assert (Hr : 768 ≤ a / 2 ^ 22 < 1023) by (unfold kernel_half in Hh; zlia).
  change (pword m1) with (pword (k_mmu k)). rewrite (dw_kernel _ _ (pp_words Hpp)) by done.
  change (frame_of (cr3 (k_mmu k))) with (dir (get_memst k)). unfold pte_paddr.
  change (pword (k_mmu k)) with (pword (m_mmu (get_memst k))). rewrite Hvia.
  pose proof (Z.mod_pos_bound (a / 2 ^ 12) (2 ^ 10)). unfold region, PG_SIZE. lia.
Qed.

(** Frame [b] of the pool as seen from the bytes of the process. *)
Lemma process_mem_frame a x b :
  process_mem k i bs a → translate m1 a = Some x → 0 ≤ b < pool_frames (get_memst k) → b ∉ bs →
  ¬ region (frame (get_memst k) b) PG_SIZE x.
Proof using Hpp.
  intros Ha Hx Hb Hnot Hin. destruct (process_mem_byte a Ha) as (y & Hy & _ & Hyb). rewrite Hx in Hy. injection Hy as <-.
  destruct Hyb as [(_ & _ & Hp)|(q & f & off & Hq & Hoff & _ & ->)].
  - apply Hp. unfold in_pool, region, frame, PG_SIZE in *. nia.
  - assert (f = b) as -> by (unfold region, frame, PG_SIZE in *; nia). by apply Hnot, (list_elem_of_lookup_2 _ q).
Qed.

Lemma process_mem_table x b :
  region T PG_SIZE x → 0 ≤ b < pool_frames (get_memst k) → ¬ region (frame (get_memst k) b) PG_SIZE x.
Proof using Hpp.
  intros Hx Hb Hin. destruct (hl_apart process_layout x) as [HT _]; [|done].
  unfold in_pool, region, frame, PG_SIZE in *. nia.
Qed.

Definition process_bytes a : Z := default 0 (mload m1 a).

Lemma process_mem_ram a x : process_mem k i bs a → translate m1 a = Some x → Paging.in_ram m1 x 1 = true.
Proof using Hpp.
  intros Ha Hx. destruct (process_mem_byte a Ha) as (y & Hy & Hyk & Hyb). rewrite Hx in Hy. injection Hy as <-.
  change (Paging.in_ram m1) with (Paging.in_ram (k_mmu k)). destruct Hyb as [(HDa & _)|(q & f & off & Hq & Hoff & _ & ->)].
  - destruct (ho_bits (pp_heap Hpp)) as [(Hmap & _ & _) _].
    destruct (Hmap a HDa) as (y & Hy & Hr). change (m_mmu (get_memst k)) with (k_mmu k) in Hy, Hr. by simplify_eq.
  - destruct (process_page_frame q f Hq) as (Hf & _).
    destruct (hl_pool process_layout) as (Hp0 & _ & Hp1 & _).
    apply in_ram_true. change (ram (k_mmu k)) with (ram (m_mmu (get_memst k))). unfold frame, PG_SIZE in *. nia.
Qed.

Lemma process_holds : holds m1 (process_mem k i bs) process_bytes.
Proof using Hpp.
  split; [split_and!|].
  - intros a Ha. destruct (process_mem_byte a Ha) as (x & Hx & _). exists x. split; [done|].
    by apply (process_mem_ram a).
  - intros a b Ha Hb Heq. destruct (process_mem_byte a Ha) as (x & Hx & _).
    apply (process_mem_inj a b x); [done|done|done|congruence].
  - intros a b x Ha Hb Hx Hw. destruct (process_mem_walk b x Hb Hw) as [Hin|Hin].
    + destruct process_dir_bit as [Hd _]. apply (process_mem_frame a x d Ha Hx Hd); [|unfold region, F, PG_SIZE in *; lia].
      intros [q Hq]%list_elem_of_lookup. by destruct (process_page_frame q d Hq) as (_ & _ & _ & ?).
    + destruct (process_mem_byte a Ha) as (y & Hy & _ & Hyb). rewrite Hx in Hy. injection Hy as <-.
      destruct Hyb as [(_ & HT & _)|(q & f & off & Hq & Hoff & _ & ->)]; [done|].
      destruct (process_page_frame q f Hq) as (Hf & _).
      apply (process_mem_table _ f Hin Hf). unfold region. lia.
  - intros a Ha. destruct (process_mem_byte a Ha) as (x & Hx & _). unfold process_bytes. cbn [mload mmu_bytemem].
    unfold vload8. rewrite Hx. cbn. by rewrite (process_mem_ram a x).
Qed.

(** The kernel's own bytes are the same. *)
Lemma process_kernel_bytes a : D a → kernel_half a → process_bytes a = g a.
Proof using Hpp.
  intros Ha Hh. assert (Hm : process_mem k i bs a) by by left.
  destruct (ho_bits (pp_heap Hpp)) as [_ Hg]. specialize (Hg a Ha).
  destruct (process_mem_byte a Hm) as (x & Hx & Hxk & _). unfold process_bytes.
  cbn [mload mmu_bytemem] in *. unfold vload8 in *. rewrite Hx. change (m_mmu (get_memst k)) with (k_mmu k) in Hg.
  rewrite Hxk in Hg. change (Paging.in_ram m1) with (Paging.in_ram (k_mmu k)). change (pbyte m1) with (pbyte (k_mmu k)).
  cbn in *. by rewrite Hg.
Qed.

Lemma process_pages_apart a :
  D a → ¬ region (heap_page (get_memst k) i) (Z.of_nat (length bs) * PG_SIZE) a.
Proof using Hpp.
  intros Ha Hin. destruct (kernel_byte_at a Ha) as (x & Hx & Hb). destruct (page_byte_at a Hin) as (y & Hy & Hb').
  apply (process_mem_apart a x a y Hb Hb'). congruence.
Qed.

(** So there is room for a page of the process below 0xc0000000. *)
Lemma process_room up vb va idx :
  let s := get_memst k in
  (∀ x, region (bm_bits vb) (bm_length vb) x →
     region (heap_page s i) (Z.of_nat (length bs) * PG_SIZE) x) →
  0 ≤ idx < 8 * bm_length vb → 0 ≤ va < 0xc0000000 → va mod PG_SIZE = 0 →
  bitmap_in (λ a, D a ∧ kernel_half a) (pool_bitmap up) →
  bitmap_in (λ a, D a ∧ kernel_half a) (pool_bitmap (kernel_pool s)) →
  apart (in_bitmap (pool_bitmap up)) (in_bitmap (pool_bitmap (kernel_pool s))) →
  0 < phy_addr_start up ∧ phy_addr_start up mod PG_SIZE = 0 ∧
    phy_addr_start up + 8 * bm_length (pool_bitmap up) * PG_SIZE ≤ 2 ^ 32 →
  page_room (process_mem k i bs) process_bytes m1 vb up (kernel_pool s) va idx.
Proof using Hpp.
  intros s Hvb Hidx Hva Hal Hup Hkp Hap Hpu.
  destruct (hl_pool process_layout) as (Hk0 & Hkal & Hkr & Hram).
  destruct (directory_space _ _ (ho_rec (pp_heap Hpp)) (pp_words Hpp)) as (Hrec & _).
  assert (Hin : ∀ bm, bitmap_in (λ a, D a ∧ kernel_half a) bm → bitmap_in (process_mem k i bs) bm).
  { intros bm [Hl HD]. split; [done|]. intros x Hx. left. by apply HD. }
  assert (Hdis : ∀ bm, bitmap_in (λ a, D a ∧ kernel_half a) bm → apart (in_bitmap vb) (in_bitmap bm)).
  { intros bm [_ HD] x Hx Hx'. apply (process_pages_apart x); [|by apply Hvb]. apply HD. unfold in_bitmap, region in *. lia. }
  assert (Hpde : pde_paddr m1 va = F + va / 2 ^ 22 * 4) by (unfold pde_paddr; by rewrite process_dir_frame).
  destruct process_dir_bit as [Hd Hdt].
  assert (Hdbs : d ∉ bs).
  { intros [q Hq]%list_elem_of_lookup. by destruct (process_page_frame q d Hq) as (_ & _ & _ & ?). }
  split; try done.
  - exact process_holds.
  - split; [done|]. right. apply Hvb. unfold region. zlia.
  - split; by apply Hin.
  - split; [unfold s; lia|]. split; [exact Hkal|exact Hkr].
  - by apply Hdis.
  - by apply Hdis.
  - lia.
  - rewrite Hpde. change (pword m1) with (pword (k_mmu k)).
    rewrite (dw_user _ _ (pp_words Hpp)) by zlia. done.
  - intros a x Ha Hx. rewrite process_dir_frame. by apply (process_mem_frame a x d).
  - intros a x Ha Hx. rewrite Hpde. destruct (process_mem_walk a x Ha Hx) as [Hw|Hw].
    + unfold region in *. zlia.
    + intros Hin'. apply (process_mem_table x d Hw Hd). unfold F, region, PG_SIZE in *. zlia.
  - intros b Hb Hfree. change (8 * bm_length _) with (pool_frames s) in Hb.
    assert (Hg : bits_of g (pool_bitmap (kernel_pool s)) b = false).
    { rewrite <- Hfree. apply (bits_same _ process_bytes g); [|done]. intros x Hx. symmetry.
      destruct Hkp as [_ HD]. apply process_kernel_bytes; apply HD; unfold in_bitmap, region in *; lia. }
    assert (Hbd : b ≠ d) by (intros ->; unfold s in Hg; congruence).
    assert (Hbb : b ∉ bs).
    { intros [q Hq]%list_elem_of_lookup. destruct (process_page_frame q b Hq) as (_ & _ & Ht & _). unfold s in *. congruence. }
    change (phy_addr_start (kernel_pool s) + b * PG_SIZE) with (frame s b). split.
    + rewrite process_dir_frame. unfold F, frame, s, PG_SIZE. lia.
    + intros a x Ha Hx. destruct (process_mem_walk a x Ha Hx) as [Hw|Hw]; [|by apply process_mem_table].
      unfold F, region, frame, s, PG_SIZE in *. lia.
    + intros a x Ha Hx. by apply (process_mem_frame a x b).
Qed.
End made.
End process_memory.

(** ** The first process *)

Section first_process.
Context `{FpEval, Layout, Env}.
Implicit Types (g : Z → Z) (k : kernel).

(** A PCB with the directory, the bitmap and the stack of another. *)
Definition same_space (x y : task_struct) : Prop :=
  pgdir x = pgdir y ∧ userprog_vaddr x = userprog_vaddr y ∧ self_kstack x = self_kstack y.

(** In [k1] the first process of [k] runs, with [x] as its PCB and the directory at
    [pa]. *)
Record runs_first k pa x k1 : Prop := {
  rf_mmu : k_mmu k1 = with_dir pa (k_mmu k);
  rf_pools : k_kernel_pool k1 = k_kernel_pool k ∧ k_user_pool k1 = k_user_pool k;
  rf_cur : k_cur k1 = proc_pcb;
  rf_task : k_tasks k1 !! proc_pcb = Some x;
  rf_space : same_space x proc_task;
  rf_lock : k_locks k1 !! user_pool_lock = Some (Lock NULL 1 0);
  rf_waiters : dlist (k_nodes k1) (waiters user_pool_lock) []
}.

Lemma first_process_pages all_mem base pa g k :
  first_frames all_mem base pa g k →
  ∃ bs d, length bs = 24%nat ∧ pa = frame (get_memst k) d ∧
    process_pages (boot_memory all_mem base) loader_table (heap_pages all_mem) g k 0 bs d.
Proof.
  intros [Hps Hh _ Hw (bs & d & Hlen & Hown & ->)]. exists bs, d. split_and!; [done|done|].
  split; [apply Hh|done| |done|].
  - destruct (ha_room Hh) as (_ & HN & _). lia.
  - unfold heap_start. rewrite (ps_vaddr Hps). unfold kernel_half, K_HEAP_START. simpl. lia.
Qed.

Lemma boot_bitmap_in all_mem base n bits :
  0 ≤ n < 2 ^ 28 → MEM_BITMAP_BASE ≤ bits → bits + n ≤ MEM_BITMAP_BASE + bitmap_bytes all_mem →
  bitmap_in (λ a, boot_memory all_mem base a ∧ kernel_half a) (Bitmap n bits).
Proof.
  intros Hn Hb0 Hb1. pose proof (bitmap_bytes_range all_mem) as Hbb. split; [done|]. intros x Hx.
  unfold boot_memory, boot_region, kernel_half, region, MEM_BITMAP_BASE in *. simpl in Hx. lia.
Qed.

Lemma first_process_room all_mem base g k bs d x :
  first_frames all_mem base (frame (get_memst k) d) g k → 0x200000 ≤ all_mem < 2 ^ 32 → length bs = 24%nat →
  process_pages (boot_memory all_mem base) loader_table (heap_pages all_mem) g k 0 bs d →
  same_space x proc_task →
  page_room (process_mem (boot_memory all_mem base) k 0 bs) (process_bytes k d)
    (with_dir (frame (get_memst k) d) (k_mmu k)) (addr_bitmap (userprog_vaddr x))
    (user_pool (get_memst k)) (kernel_pool (get_memst k)) stack_page (page_index x stack_page).
Proof.
  intros [Hps _ _ _ _] H32 Hlen Hpp (_ & Hv & _). pose proof (bitmap_bytes_range all_mem) as Hbb.
  assert (Hub : user_bitmap_bytes = 94199) by by vm_compute.
  assert (Hst : heap_page (get_memst k) 0 = K_HEAP_START).
  { unfold heap_page, heap_start. rewrite (ps_vaddr Hps). simpl. lia. }
  apply (process_room _ _ _ g k 0 bs d Hpp).
  - rewrite Hv, Hst, Hlen. unfold region. simpl. rewrite Hub. unfold proc_bitmap, PG_SIZE. lia.
  - unfold page_index. rewrite Hv. simpl. rewrite Hub. decided.
  - decided.
  - decided.
  - rewrite (ps_user Hps). apply boot_bitmap_in; unfold bitmap_bytes; lia.
  - rewrite (ps_kernel Hps). apply boot_bitmap_in; unfold bitmap_bytes; lia.
  - rewrite (ps_user Hps), (ps_kernel Hps). unfold apart, in_bitmap, region. simpl. lia.
  - rewrite (ps_user Hps). simpl. unfold user_bytes, free_pages, u16, PG_SIZE. rewrite u32_small by lia. zlia.
Qed.

Lemma first_process_frame_room all_mem base k k1 bs pa x :
  pools_set all_mem (get_memst k) → length bs = 24%nat → runs_first k pa x k1 →
  frame_room (process_mem (boot_memory all_mem base) k 0 bs) k1 x.
Proof.
  intros Hps Hlen [_ [Hkk Hku] _ _ (_ & Hv & Hks) _ _]. pose proof (bitmap_bytes_range all_mem) as Hbb.
  assert (Hst : heap_page (get_memst k) 0 = K_HEAP_START).
  { unfold heap_page, heap_start. rewrite (ps_vaddr Hps). simpl. lia. }
  assert (Hus : user_stack x = K_HEAP_START + 3792) by (unfold user_stack; by rewrite Hks).
  assert (Hf : ∀ y, frame_bytes x y → K_HEAP_START + 3792 ≤ y < K_HEAP_START + 3868).
  { unfold frame_bytes, region. rewrite Hus. unfold sizeof_intr_stack. lia. }
  change (k_user_pool k) with (user_pool (get_memst k)) in Hku.
  change (k_kernel_pool k) with (kernel_pool (get_memst k)) in Hkk.
  assert (Hlow : MEM_BITMAP_BASE + bitmap_bytes all_mem < K_HEAP_START) by (unfold MEM_BITMAP_BASE, K_HEAP_START; lia).
  unfold bitmap_bytes in Hlow. split.
  - rewrite Hus, Hks. decided.
  - intros y Hy%Hf. right. rewrite Hst, Hlen. unfold region, PG_SIZE. lia.
  - rewrite Hv. intros y Hy Hy'%Hf. revert Hy. unfold in_bitmap, region. simpl. unfold proc_bitmap. lia.
  - rewrite Hku, (ps_user Hps). intros y Hy Hy'%Hf. revert Hy. unfold in_bitmap, region. simpl. lia.
  - rewrite Hkk, (ps_kernel Hps). intros y Hy Hy'%Hf. revert Hy. unfold in_bitmap, region. simpl. lia.
Qed.

Lemma first_process_owner k k1 pa x : wait_fuel ≠ 0%nat → runs_first k pa x k1 → page_owner k1 x stack_page.
Proof.
  intros Hf [_ _ Hc Hx (Hd & Hv & _) Hl Hw]. split; try done.
  - by rewrite Hc.
  - by rewrite Hc.
  - by rewrite Hd.
  - rewrite Hv. decided.
Qed.

(** Neither pool is used up. *)
Lemma first_process_spare all_mem base g k bs d (f : Z → Z) :
  first_frames all_mem base (frame (get_memst k) d) g k → 64 ≤ free_pages all_mem →
  process_pages (boot_memory all_mem base) loader_table (heap_pages all_mem) g k 0 bs d →
  f = process_bytes k d →
  (∀ i, 0 ≤ i < 8 * user_bytes all_mem → bits_of f (pool_bitmap (user_pool (get_memst k))) i = false) ∧
  ¬ full f (user_pool (get_memst k)) ∧ ¬ full f (kernel_pool (get_memst k)).
Proof.
  intros [Hps Hh Hu _ _] Hfree Hpp ->. pose proof (bitmap_bytes_range all_mem) as Hbb.
  assert (Hbit : ∀ n bits i, 0 ≤ i < 8 * n → n < 2 ^ 28 → MEM_BITMAP_BASE ≤ bits → bits + n ≤ MEM_BITMAP_BASE + bitmap_bytes all_mem →
    bits_of (process_bytes k d) (Bitmap n bits) i = bits_of g (Bitmap n bits) i).
  { intros n bits i Hi Hn H0' H1'. apply bits_same; [|done]. intros y Hy.
    destruct (boot_bitmap_in all_mem base n bits ltac:(lia) H0' H1') as [_ HD].
    apply (process_kernel_bytes _ _ _ g k 0 bs d Hpp); apply HD; unfold in_bitmap, region in *; simpl in *; lia. }
  assert (Huf : ∀ i, 0 ≤ i < 8 * user_bytes all_mem →
    bits_of (process_bytes k d) (pool_bitmap (user_pool (get_memst k))) i = false).
  { intros i Hi. rewrite <- (Hu i Hi), (ps_user Hps). simpl. apply Hbit; unfold bitmap_bytes; lia. }
  assert (Hpos : 0 < pool_bytes all_mem) by (unfold pool_bytes; zlia).
  split_and!; [done| |].
  - intros Hfull. specialize (Hfull 0). rewrite (Huf 0) in Hfull by lia. rewrite (ps_user Hps) in Hfull.
    simpl in Hfull. specialize (Hfull ltac:(lia)). done.
  - intros Hfull. destruct (ha_enough Hh) as (X & Hsize & HX).
    destruct (decide (X = ∅)) as [->|[b Hb]%set_choose_L]; [rewrite size_empty in Hsize; lia|].
    destruct (HX b Hb) as [Hr Hfr]. unfold pool_frames in Hr. specialize (Hfull b Hr).
    rewrite (ps_kernel Hps) in *. simpl in *. rewrite Hbit in Hfull by (unfold bitmap_bytes; lia). congruence.
Qed.

(** Where the frames of the user pool begin. *)
Definition user_frames (all_mem : Z) : Z := 0x200000 + free_pages all_mem / 2 * PG_SIZE.

Lemma first_process_starts all_mem base u_prog_a pa k k1 x :
  wait_fuel ≠ 0%nat → 0x200000 ≤ all_mem < 2 ^ 32 → 64 ≤ free_pages all_mem → booted all_mem base u_prog_a pa k →
  runs_first k pa x k1 →
  wp (start_process u_prog_a) (λ r k2,
    r = proc_pcb + 3792 ∧
    k2 = lput l_kmmu (k_mmu k2) (set_tasks (<[proc_pcb := with_kstack r x]> (k_tasks k1)) k1) ∧
    Forall (λ w, load32 (r + fst w) (k_mmu k2) = Ok (u32 (snd w)) (k_mmu k2)) (user_frame u_prog_a) ∧
    ∀ off, 0 ≤ off < PG_SIZE → translate (k_mmu k2) (stack_page + off) = Some (user_frames all_mem + off)) k1.
Proof.
  intros Hfuel Hmem Hfree Hb Hrf. destruct (bt_heap Hb) as [g Hff].
  pose proof Hrf as [Hmu [Hkp Hup] Hcur Hx Hxs Hl Hw].
  destruct (first_process_pages _ _ _ _ _ Hff) as (bs & d & Hlen & -> & Hpp).
  pose proof (ff_pools Hff) as Hps.
  destruct (first_process_spare _ _ _ _ _ _ _ Hff Hfree Hpp eq_refl) as (Huf & Hnu & Hnk).
  change (k_user_pool k) with (user_pool (get_memst k)) in Hup. change (k_kernel_pool k) with (kernel_pool (get_memst k)) in Hkp.
  eapply wpp_mono; [apply (start_process_ok (process_mem (boot_memory all_mem base) k 0 bs) (process_bytes k d) k1 x u_prog_a)| |].
  - by apply (first_process_owner k k1 (frame (get_memst k) d)).
  - unfold room_for. rewrite Hmu, Hup, Hkp. exact (first_process_room _ _ _ _ _ _ _ Hff Hmem Hlen Hpp Hxs).
  - by apply (first_process_frame_room _ _ _ _ _ (frame (get_memst k) d)).
  - intros r k2 (-> & Hk2 & Hfr & u & c & g' & Hg).
    assert (Hr : user_stack x = proc_pcb + 3792) by (unfold user_stack; by rewrite (proj2 (proj2 Hxs))).
    rewrite Hr, Hcur in *. split_and!; [done|exact Hk2|exact Hfr|].
    intros off Hoff. rewrite (pg_map Hg off Hoff).
    destruct (pg_user Hg) as [_ (Hu0 & Hu1 & _ & Hmin)].
    assert (u = 0) as ->.
    { destruct (decide (u = 0)); [done|]. exfalso. apply (Hmin 0 ltac:(lia)). intros j Hj.
      rewrite Hup in *. apply Huf.
      rewrite (ps_user Hps) in Hu1. simpl in Hu1. lia. }
    rewrite Hup, (ps_user Hps). simpl. unfold user_frames. f_equal. lia.
  - intros s k2 [_ Hf]. rewrite Hup, Hkp in Hf. destruct Hf as [Hf|Hf]; [by apply Hnu|by apply Hnk].
Qed.

(** main's slice is over, and the descriptor of the screen is in the kernel's half:
    schedule switches to the process. *)
Lemma first_switch_runs all_mem base u_prog_a pa k gdtr tr :
  let k0 := set_if false (slice_used (set_gdtr gdtr tr k)) in
  image_ok → booted all_mem base u_prog_a pa k →
  first_mb (video_descriptor k0) → 0xc0000000 ≤ video_descriptor k0 →
  ∃ k1, schedule_out k0 = Ok main_pcb k1 ∧ k_if k1 = false ∧ runs_first k pa (with_status TASK_RUNNING proc_task) k1.
Proof.
  intros k0 Hi Hb Hv Hv'. destruct (slice_used_ready _ _ _ _ _ Hi Hb) as (Hx & Hr & Hni & Hq & Hy & Hdir).
  set (x := with_ticks (ticks main_task - Z.of_nat 31) main_task) in *.
  destruct (bt_dir Hb) as (_ & _ & _ & Hsp). pose proof (bt_low Hb _ Hv) as Hlow.
  assert (Hg : gdt_mapped k0 = true) by (apply bool_decide_eq_true_2; by eexists).
  assert (Hg' : gdt_mapped (with_cr3 pa k0) = true).
  { apply bool_decide_eq_true_2. exists (phys (video_descriptor k0)). rewrite <- Hlow.
    apply (Hsp (video_descriptor k0)). unfold first_mb in Hv. lia. }
  destruct (schedule_out_ok k0 x main_pcb [proc_pcb] proc_pcb [main_pcb] proc_task pa (bt_cur Hb) Hx Hr Hni
    (bt_tag Hb) Hq Hy ltac:(done) Hdir Hg Hg') as (k1 & Hrun & [Hc _ Ht Ho Hl _ Hif Hm _ Hp]).
  exists k1. split; [exact Hrun|]. split; [rewrite Hif; by destruct k as [[]]|].
  destruct (bt_locks Hb user_pool_lock) as [Hlk Hw]; [unfold kernel_locks; rewrite !elem_of_cons; tauto|].
  split; [rewrite Hm; by destruct k as [[]]|exact Hp|exact Hc| |done|by rewrite Hl|].
  - rewrite Ht, lookup_alter_ne by done. rewrite lookup_alter_eq. change (k_tasks k0) with (k_tasks (slice_used k)). by rewrite Hy.
  - apply (dlist_ext (k_nodes k) _ _ _ Hw). intros z Hz. apply Ho. rewrite Hq.
    pose proof (waiters_untouched user_pool_lock z Hi ltac:(unfold kernel_locks; rewrite !elem_of_cons; tauto) Hz) as Hu.
    rewrite !not_elem_of_cons, not_elem_of_app in Hu. destruct Hu as (Hu1 & _ & Hu2 & _).
    assert (Hin : waiters user_pool_lock ∈ kernel_lists) by (apply waiters_in; unfold kernel_locks; rewrite !elem_of_cons; tauto).
    intros [Heq|[Heq|Heq]]%nodes_elem; [apply Hu2, nodes_elem; tauto| |apply Hu2, nodes_elem; tauto].
    simpl in Heq. rewrite !elem_of_cons in Heq. destruct Heq as [Heq|[->|Heq]]; [by apply Hu1| |by apply not_elem_of_nil in Heq].
    exact (proj1 (main_tags_apart _ Hi Hin) Hz).
Qed.

(** main(), its time slice, and the clock interrupt that ends it up to the switch, with
    [gdtr] in the descriptor table register instead of what tss_init leaves there. *)
Definition to_first_switch (gdtr u_prog_a : Z) : prog kernel Z :=
  _ ← main u_prog_a;
  _ ← modify (λ k, set_gdtr gdtr (k_tr k) k);
  _ ← clock_interrupts 31;
  _ ← k_intr_disable;
  schedule_out.

End first_process.

(** *** Witness: 4 MB of memory, the program at 0xc0002000 *)

#[local] Existing Instances x87 demo_layout demo_env.

