(* ===== verification/PoolRace.v ===== *)
(** * The kernel pool under two locks

    A page of either pool may need a new page table, and bind_vaddr_paddr_page of
    kernel/memory.c takes its frame from the kernel pool.  malloc_kernel_pages does so
    with the lock of the kernel pool, get_a_page of a process with the lock of the user
    pool.  Here the clock interrupts the first inside paddr_get_page, and the second
    runs. *)

From Stdlib Require Import ZArith Lia.
From stdpp Require Import base tactics gmap strings fin_maps functions list.
From S2P Require Import Prelude ByteMem CString Bitmap Interrupt DList Format Paging Idt Memory Words.
From S2P Require Import Kernel Sched Sync Alloc Thread Process UserPage.

(** paddr_get_page from the point where the bit is found. *)
Definition claim_page (m_pool : pool) (bit_idx : Z) : prog memst Z :=
  if bit_idx =? -1 then mret NULL else
  _ ← zoom l_mmu (bitmap_set_bit (pool_bitmap m_pool) (u32 bit_idx) 1);
  mret (u32 (phy_addr_start m_pool + PG_SIZE * bit_idx)).

Lemma first_run_unique B limit i j : first_run B 1 limit i → first_run B 1 limit j → i = j.
Proof.
  intros (Hi0 & _ & Hi & Hi') (Hj0 & _ & Hj & Hj').
  destruct (Z.lt_trichotomy i j) as [Hlt|[|Hlt]]; [|done|]; exfalso; [by apply (Hj' i)|by apply (Hi' j)].
Qed.

Section race.
Context `{FpEval, Layout, Env}.
Context (D : Z → Prop).
Implicit Types (f g : Z → Z) (k : kernel).

(** Thread [a] looks for a free frame; the clock gives the processor to [b], which
    gets its page [va] and is interrupted in turn; [a] takes the frame it found. *)
Definition interrupted_claim (a b va : Z) : prog kernel Z :=
  p ← gets k_kernel_pool;
  bit_idx ← zoom l_kmmu (bitmap_request_bits (pool_bitmap p) 1);
  _ ← modify (set_cur b);
  _ ← get_a_page USER_POOL va;
  _ ← modify (set_cur a);
  zoom l_memst (claim_page p bit_idx).

Lemma claim_again f g S k vb up va idx u c :
  0 ≤ va < 2 ^ 32 → bitmap_in D (pool_bitmap (k_kernel_pool k)) → 0 ≤ phy_addr_start (k_kernel_pool k) →
  phy_addr_start (k_kernel_pool k) + 8 * bm_length (pool_bitmap (k_kernel_pool k)) * PG_SIZE ≤ 2 ^ 32 →
  (∃ m, page_given D S f g m (k_mmu k) vb up (k_kernel_pool k) va idx u c) →
  wp (zoom l_memst (claim_page (k_kernel_pool k) c))
    (λ r k', r = phy_addr_start (k_kernel_pool k) + c * PG_SIZE ∧ k_locks k' = k_locks k ∧ k_cur k' = k_cur k ∧
       frame_of (pword (k_mmu k') (pde_paddr (k_mmu k') va)) = r ∧
       translate (k_mmu k') va = translate (k_mmu k) va) k.
Proof.
  intros Hva Hbm H0' H32 (m & Hg). set (p := k_kernel_pool k) in *.
  destruct (pg_kernel Hg) as [[Hc _] _].
  assert (Hlen : bm_length (pool_bitmap p) < 2 ^ 28) by apply Hbm.
  apply wp_zoom. unfold claim_page. rewrite (proj2 (Z.eqb_neq c (-1))) by lia. rewrite (u32_small c) by lia.
  apply wp_bind, wp_zoom. eapply wp_mono.
  { apply (bitmap_set_bit_ok (k_mmu k) D g (pool_bitmap p) c 1); [apply Hg|lia|by apply bitmap_in_byte; [|lia]]. }
  intros [] m2 (Hch & _). apply wpp_ret.
  destruct (page_stays D vb up p va idx f g S m _ m2 u c Hva Hg Hch) as (_ & Hpde & Htr).
  assert (Hmu : k_mmu (lput l_memst (lput l_mmu m2 (lget l_memst k)) k) = m2) by (by destruct k as [[]]).
  rewrite Hmu, u32_small by (unfold PG_SIZE in *; lia). split_and!; [lia|done|done| |done].
  rewrite Hpde, (pg_entry Hg). lia.
Qed.

End race.

(** *** Witness: the kernel thread at 0x21000 asks for a page, the process at 0x20000
    for its stack *)

#[local] Existing Instances x87 demo_layout demo_env.

Definition race_kernel : kernel :=
  set_cur 0x21000 (set_locks (<[0x11000 := Lock 0x21000 0 1]> (k_locks ring3_kernel)) ring3_kernel).

Lemma race_owner : page_owner (set_cur 0x20000 race_kernel) ring3_task stack_page.
Proof. split; first [decided|vm_compute; reflexivity]. Qed.

Lemma race_held : k_locks race_kernel !! kernel_pool_lock = Some (Lock 0x21000 0 1).
Proof. vm_compute. reflexivity. Qed.

