(* ===== verification/Typed.v ===== *)
(** * The C types of the kernel's objects are kept by everything

    An invariant of the whole kernel state: every field of a PCB, a lock, a ring
    buffer and the TSS holds a value of its C type, and every ring buffer has its
    indices inside.  [keeps] lifts it to programs, whatever their outcome; a hint
    database carries it through every function of the kernel up to main. *)

From Stdlib Require Import ZArith Lia.
From stdpp Require Import base tactics gmap strings fin_maps functions list.
From S2P Require Import Prelude ByteMem CString Bitmap Interrupt DList Format Paging Idt Memory.
From S2P Require Import Kernel Sched Sync Alloc Thread Process IoQueue Keyboard Timer Tss Main.

Record task_typed (x : task_struct) : Prop := {
  tt_kstack : 0 ≤ self_kstack x < 2 ^ 32;
  tt_name : length (name x) = 16%nat;
  tt_priority : 0 ≤ priority x < 2 ^ 8;
  tt_ticks : 0 ≤ ticks x < 2 ^ 8
}.

Record lock_typed (x : lock) : Prop := {
  lt_value : 0 ≤ value x < 2 ^ 8;
  lt_repeat : 0 ≤ holder_repeat_nr x < 2 ^ 32
}.

Record queue_typed (q : ioqueue) : Prop := {
  qt_ring : ring q;
  qt_chars : Forall (λ c, -128 ≤ c < 128) (buf q)
}.

Record typed (k : kernel) : Prop := {
  ty_tasks : map_Forall (λ _, task_typed) (k_tasks k);
  ty_locks : map_Forall (λ _, lock_typed) (k_locks k);
  ty_queues : map_Forall (λ _, queue_typed) (k_queues k);
  ty_tss : length (k_tss k) = 27%nat ∧ Forall (λ w, 0 ≤ w < 2 ^ 32) (k_tss k)
}.

(** The state a program leaves, however it ends. *)
Definition final {S A} (r : res S A) : S :=
  match r with Ok _ s | Panic _ s | Fault _ s | Undef _ s | NoFuel s => s end.

Definition keeps {A} (p : prog kernel A) : Prop := ∀ k, typed k → typed (final (p k)).

Create HintDb keeps.

(** ** Structure *)

Section keeps_structure.
Context {A B : Type}.

Lemma keeps_ret (a : A) : keeps (mret a).
Proof. by intros k. Qed.

Lemma keeps_gets (f : kernel → A) : keeps (gets f).
Proof. by intros k. Qed.

Lemma keeps_panic x : keeps (panic x : prog kernel A).
Proof. by intros k. Qed.

Lemma keeps_undef w : keeps (undef w : prog kernel A).
Proof. by intros k. Qed.

Lemma keeps_no_fuel : keeps (no_fuel : prog kernel A).
Proof. by intros k. Qed.

Lemma keeps_bind (p : prog kernel A) (f : A → prog kernel B) :
  keeps p → (∀ a, keeps (f a)) → keeps (p ≫= f).
Proof.
  intros Hp Hf k Hk. specialize (Hp k Hk). rewrite bind_unfold.
  destruct (p k) as [a k'| | | |]; simpl in *; [by apply Hf|done..].
Qed.

Lemma keeps_if (b : bool) (p q : prog kernel A) : keeps p → keeps q → keeps (if b then p else q).
Proof. intros. by destruct b. Qed.

Lemma keeps_when b (p : prog kernel unit) : keeps p → keeps (when b p).
Proof. by destruct b; [|intros _ k]. Qed.

Lemma keeps_assert x b : keeps (c_assert x b).
Proof. by destruct b; intros k. Qed.

Lemma keeps_modify f : (∀ k, typed k → typed (f k)) → keeps (modify f).
Proof. intros Hf k Hk. by apply Hf. Qed.
End keeps_structure.

(** A component that holds none of the typed objects. *)
Lemma keeps_zoom {S A} (l : lens kernel S) (p : prog S A) :
  (∀ s k, k_tasks (lput l s k) = k_tasks k ∧ k_locks (lput l s k) = k_locks k ∧
          k_queues (lput l s k) = k_queues k ∧ k_tss (lput l s k) = k_tss k) →
  keeps (zoom l p).
Proof.
  intros Hl k []. assert (H : ∀ s, typed (lput l s k)).
  { intros s. destruct (Hl s k) as (H1 & H2 & H3 & H4). by split; rewrite ?H1, ?H2, ?H3, ?H4. }
  unfold zoom. by destruct (p (lget l k)); simpl.
Qed.

Lemma keeps_core {A} (p : prog core A) : keeps (zoom l_core p).
Proof. by apply keeps_zoom. Qed.
Lemma keeps_memst {A} (p : prog memst A) : keeps (zoom l_memst p).
Proof. by apply keeps_zoom. Qed.
Lemma keeps_kmmu {A} (p : prog mmu A) : keeps (zoom l_kmmu p).
Proof. by apply keeps_zoom. Qed.
Lemma keeps_intr {A} (p : prog istate A) : keeps (zoom l_intr p).
Proof. by apply keeps_zoom. Qed.

#[export] Hint Resolve keeps_ret keeps_gets keeps_panic keeps_undef keeps_no_fuel keeps_bind keeps_if
  keeps_when keeps_assert keeps_core keeps_memst keeps_kmmu keeps_intr : keeps.

(** ** Accesses *)

Lemma keeps_load_task t : keeps (load_task t).
Proof. intros k Hk. unfold load_task. by destruct (_ !! _). Qed.
Lemma keeps_load_lock l : keeps (load_lock l).
Proof. intros k Hk. unfold load_lock. by destruct (_ !! _). Qed.
Lemma keeps_load_queue q : keeps (load_queue q).
Proof. intros k Hk. unfold load_queue. by destruct (_ !! _). Qed.

Lemma keeps_update_task t f : (∀ x, task_typed x → task_typed (f x)) → keeps (update_task t f).
Proof.
  intros Hf k Hk. unfold update_task, load_task. rewrite bind_unfold.
  destruct (k_tasks k !! t) as [x|] eqn:Hx; [|done]. destruct Hk as [Ht ? ? ?].
  split; [|done..]. simpl. apply map_Forall_insert_2; [|done]. by apply Hf, (Ht t).
Qed.

Lemma keeps_update_lock l f : (∀ x, lock_typed x → lock_typed (f x)) → keeps (update_lock l f).
Proof.
  intros Hf k Hk. unfold update_lock, load_lock. rewrite bind_unfold.
  destruct (k_locks k !! l) as [x|] eqn:Hx; [|done]. destruct Hk as [? Hl ? ?].
  split; [done| |done..]. simpl. apply map_Forall_insert_2; [|done]. by apply Hf, (Hl l).
Qed.

Lemma keeps_update_queue q f : (∀ x, queue_typed x → queue_typed (f x)) → keeps (update_queue q f).
Proof.
  intros Hf k Hk. unfold update_queue, load_queue. rewrite bind_unfold.
  destruct (k_queues k !! q) as [x|] eqn:Hx; [|done]. destruct Hk as [? ? Hq ?].
  split; [done..| |done]. simpl. apply map_Forall_insert_2; [|done]. by apply Hf, (Hq q).
Qed.

#[export] Hint Resolve keeps_load_task keeps_load_lock keeps_load_queue keeps_update_task keeps_update_lock
  keeps_update_queue : keeps.

#[export] Hint Extern 5 (_ ∧ _) => (split; first [done | lia]) : keeps.

(** Walk through a function's body; what is left are the side conditions. *)
Ltac keep := repeat first
  [ solve [auto with keeps nocore]
  | simple apply keeps_bind; [|intros ?]
  | apply keeps_if | apply keeps_when
  | progress (cbv beta zeta)
  | match goal with |- keeps (match ?x with _ => _ end) => destruct x end ].

Section kernel_keeps.
Context `{FpEval, Layout, Env}.
Hypothesis others_keep : ∀ t, keeps (others t).
Hypothesis esp_u32 : ∀ t, 0 ≤ esp_at t < 2 ^ 32.

Lemma keeps_kprint fmt args : keeps (kprint fmt args).
Proof.
  intros k Hk. unfold kprint. pose proof (keeps_intr (zoom l_i_con (kprintf fmt args)) k Hk) as Hz.
  destruct (zoom l_intr _ k); simpl in *; try done. by destruct (_ || _).
Qed.

Lemma keeps_running_thread : keeps running_thread.
Proof. apply keeps_gets. Qed.

Lemma keeps_k_intr_disable : keeps k_intr_disable.
Proof. apply keeps_intr. Qed.
Lemma keeps_k_intr_enable : keeps k_intr_enable.
Proof. apply keeps_intr. Qed.
Lemma keeps_k_intr_set_status s : keeps (k_intr_set_status s).
Proof. apply keeps_intr. Qed.
Lemma keeps_k_intr_get_status : keeps k_intr_get_status.
Proof. apply keeps_intr. Qed.

Hint Resolve keeps_kprint keeps_running_thread keeps_k_intr_disable keeps_k_intr_enable
  keeps_k_intr_set_status keeps_k_intr_get_status others_keep : keeps.

(** The fields the updates write. *)
Lemma typed_kstack v x : 0 ≤ v < 2 ^ 32 → task_typed x → task_typed (with_kstack v x).
Proof. intros Hv []. by split. Qed.
Lemma typed_status s x : task_typed x → task_typed (with_status s x).
Proof. intros []. by split. Qed.
Lemma typed_ticks v x : 0 ≤ v < 2 ^ 8 → task_typed x → task_typed (with_ticks v x).
Proof. intros Hv []. by split. Qed.
Lemma typed_pgdir v x : task_typed x → task_typed (with_pgdir v x).
Proof. intros []. by split. Qed.
Lemma typed_uvaddr v x : task_typed x → task_typed (with_uvaddr v x).
Proof. intros []. by split. Qed.
Lemma typed_set_value v x : 0 ≤ v < 2 ^ 8 → lock_typed x → lock_typed (set_value v x).
Proof. intros Hv []. by split. Qed.
Lemma typed_set_holder t x : lock_typed x → lock_typed (set_holder t x).
Proof. intros []. by split. Qed.
Lemma typed_set_repeat_nr n x : 0 ≤ n < 2 ^ 32 → lock_typed x → lock_typed (set_repeat_nr n x).
Proof. intros Hv []. by split. Qed.

Hint Resolve typed_kstack typed_status typed_ticks typed_pgdir typed_uvaddr typed_set_value typed_set_holder
  typed_set_repeat_nr tt_ticks tt_priority u8_range u32_range esp_u32 : keeps.

(** *** Scheduling *)

Lemma keeps_update_tss_esp t : keeps (update_tss_esp t).
Proof.
  apply keeps_modify. intros k [? ? ? [Hlen Hall]]. split; [done..|]. simpl. split; [by rewrite length_insert|].
  apply Forall_insert; [done|apply u32_range].
Qed.
Hint Resolve keeps_update_tss_esp : keeps.

Lemma keeps_set_cr3 pde : keeps (set_cr3 pde).
Proof. unfold set_cr3. keep. Qed.
Hint Resolve keeps_set_cr3 : keeps.

Lemma keeps_process_activate t : keeps (process_activate t).
Proof. unfold process_activate, page_dir_activate. keep. Qed.
Hint Resolve keeps_process_activate : keeps.

Lemma keeps_switch_out cur next : keeps (switch_out cur next).
Proof. unfold switch_out. keep. apply keeps_modify. by intros k []. Qed.
Hint Resolve keeps_switch_out : keeps.

Lemma keeps_schedule_out : keeps schedule_out.
Proof. unfold schedule_out, ready_find. keep. Qed.
Hint Resolve keeps_schedule_out : keeps.

Lemma keeps_schedule : keeps schedule.
Proof. unfold schedule. keep. Qed.
Hint Resolve keeps_schedule : keeps.

Lemma keeps_thread_block s : keeps (thread_block s).
Proof. unfold thread_block. keep. Qed.
Lemma keeps_thread_unblock t : keeps (thread_unblock t).
Proof. unfold thread_unblock, ready_find. keep. Qed.
Hint Resolve keeps_thread_block keeps_thread_unblock : keeps.

Lemma keeps_clock_interrupt_handler : keeps clock_interrupt_handler.
Proof. unfold clock_interrupt_handler. keep. Qed.

(** *** Semaphores and locks *)

Lemma keeps_enqueue_waiter l : keeps (enqueue_waiter l).
Proof. unfold enqueue_waiter. keep. Qed.
Hint Resolve keeps_enqueue_waiter : keeps.

Lemma keeps_sema_wait fuel l : keeps (sema_wait fuel l).
Proof. induction fuel; simpl; keep. Qed.
Hint Resolve keeps_sema_wait : keeps.

Lemma keeps_sema_take l : keeps (sema_take l).
Proof. unfold sema_take. keep. Qed.
Hint Resolve keeps_sema_take : keeps.

Lemma keeps_sema_dowm l : keeps (sema_dowm l).
Proof. unfold sema_dowm. keep. Qed.
Lemma keeps_sema_up l : keeps (sema_up l).
Proof. unfold sema_up. keep. Qed.
Hint Resolve keeps_sema_dowm keeps_sema_up : keeps.

Lemma keeps_lock_acquire l : keeps (lock_acquire l).
Proof. unfold lock_acquire. keep. Qed.
Lemma keeps_lock_release l : keeps (lock_release l).
Proof. unfold lock_release. keep. Qed.
Lemma keeps_lock_init l : keeps (lock_init l).
Proof. unfold lock_init, sema_init. keep. Qed.
Hint Resolve keeps_lock_acquire keeps_lock_release keeps_lock_init : keeps.

Lemma keeps_console_print_str s : keeps (console_print_str s).
Proof. unfold console_print_str, console_acquire, console_release. keep. Qed.
Lemma keeps_console_print_num n : keeps (console_print_num n).
Proof. unfold console_print_num, console_acquire, console_release. keep. Qed.
Lemma keeps_console_print_char c : keeps (console_print_char c).
Proof. unfold console_print_char, console_acquire, console_release. keep. Qed.
Hint Resolve keeps_console_print_str keeps_console_print_num keeps_console_print_char : keeps.

(** *** Memory *)

Lemma keeps_k_malloc_pages type count : keeps (k_malloc_pages type count).
Proof. unfold k_malloc_pages, cur_vaddr. keep. Qed.
Hint Resolve keeps_k_malloc_pages : keeps.

Lemma keeps_malloc_kernel_pages count : keeps (malloc_kernel_pages count).
Proof. unfold malloc_kernel_pages. keep. Qed.
Lemma keeps_malloc_user_pages count : keeps (malloc_user_pages count).
Proof. unfold malloc_user_pages. keep. Qed.
Lemma keeps_get_a_page pf va : keeps (get_a_page pf va).
Proof. unfold get_a_page, mark_page. keep. Qed.
Lemma keeps_memory_init : keeps memory_init.
Proof. unfold memory_init. keep. Qed.
Hint Resolve keeps_malloc_kernel_pages keeps_malloc_user_pages keeps_get_a_page keeps_memory_init : keeps.

(** *** Threads and processes *)

Lemma typed_zero_task : task_typed zero_task.
Proof. by split. Qed.

Lemma keeps_clear_task t : keeps (clear_task t).
Proof.
  intros k Hk. unfold clear_task. destruct (translate _ _); [|done]. destruct Hk as [Ht ? ? ?].
  split; [|done..]. simpl. apply map_Forall_insert_2; [apply typed_zero_task|done].
Qed.
Hint Resolve keeps_clear_task : keeps.

Lemma length_copy_name nm old : (length nm < 16)%nat → length old = 16%nat → length (copy_name nm old) = 16%nat.
Proof. intros Hn Ho. unfold copy_name. rewrite length_app. simpl. rewrite length_drop. lia. Qed.

Lemma keeps_init_thread t nm prio : keeps (init_thread t nm prio).
Proof.
  unfold init_thread. destruct (Z.ltb_spec (Z.of_nat (length nm)) 16); keep.
  all: apply keeps_update_task; intros x []; split; simpl; auto using u32_range, u8_range.
  apply length_copy_name; [lia|done].
Qed.
Hint Resolve keeps_init_thread : keeps.

Lemma keeps_thread_create t function arg : keeps (thread_create t function arg).
Proof. unfold thread_create. keep. Qed.
Lemma keeps_publish file func n t : keeps (publish file func n t).
Proof. unfold publish, ready_find, all_find. keep. Qed.
Hint Resolve keeps_thread_create keeps_publish : keeps.

Lemma keeps_thread_start nm prio function arg : keeps (thread_start nm prio function arg).
Proof. unfold thread_start. keep. Qed.
Lemma keeps_thread_init : keeps thread_init.
Proof.
  unfold thread_init, make_main_thread, all_find. keep. apply keeps_modify. by intros k [].
Qed.
Hint Resolve keeps_thread_start keeps_thread_init : keeps.

Lemma keeps_start_process filename : keeps (start_process filename).
Proof. unfold start_process. keep. Qed.

Lemma keeps_create_page_dir : keeps create_page_dir.
Proof. unfold create_page_dir. keep. Qed.
Lemma keeps_create_user_vaddr_bitmap t : keeps (create_user_vaddr_bitmap t).
Proof. unfold create_user_vaddr_bitmap. keep. Qed.
Hint Resolve keeps_create_page_dir keeps_create_user_vaddr_bitmap : keeps.

Lemma keeps_process_execute filename nm : keeps (process_execute filename nm).
Proof. unfold process_execute. keep. Qed.
Hint Resolve keeps_process_execute : keeps.

(** *** Queues and the keyboard *)

Lemma typed_set_waiter w t q : queue_typed q → queue_typed (set_waiter w t q).
Proof. intros [[] ?]. destruct w; (split; [by split|done]). Qed.
Hint Resolve typed_set_waiter : keeps.

Lemma typed_next_pos p : 0 ≤ next_pos p < bufsize.
Proof. by apply Z.mod_pos_bound. Qed.

Lemma keeps_assert_intr_off n func : keeps (assert_intr_off n func).
Proof. unfold assert_intr_off. keep. Qed.
Hint Resolve keeps_assert_intr_off : keeps.

Lemma keeps_ioq_full q : keeps (ioq_full q).
Proof. unfold ioq_full. keep. Qed.
Lemma keeps_ioq_empty q : keeps (ioq_empty q).
Proof. unfold ioq_empty. keep. Qed.
Lemma keeps_ioq_wait q w : keeps (ioq_wait q w).
Proof. unfold ioq_wait. keep. Qed.
Lemma keeps_wakeup q w : keeps (wakeup q w).
Proof. unfold wakeup. keep. Qed.
Hint Resolve keeps_ioq_full keeps_ioq_empty keeps_ioq_wait keeps_wakeup : keeps.

Lemma keeps_ioq_block_while fuel test q w : keeps test → keeps (ioq_block_while fuel test q w).
Proof. intros Ht. induction fuel; simpl; keep. Qed.
Hint Resolve keeps_ioq_block_while : keeps.

Lemma keeps_ioq_getchar q : keeps (ioq_getchar q).
Proof.
  unfold ioq_getchar. keep. apply keeps_update_queue. intros x [[] ?].
  split; [split|]; simpl; auto using typed_next_pos.
Qed.

Lemma keeps_ioq_putchar q byte : keeps (ioq_putchar q byte).
Proof.
  unfold ioq_putchar. keep.
  all: apply keeps_update_queue; intros x [[] ?]; split; [split|]; simpl; auto using typed_next_pos.
  - by rewrite length_insert.
  - apply Forall_insert; [done|apply i8_range].
Qed.
Hint Resolve keeps_ioq_getchar keeps_ioq_putchar : keeps.

Lemma keeps_ioq_init q : keeps (ioq_init q).
Proof.
  unfold ioq_init. keep. apply keeps_update_queue. intros x [[] ?]. by split; [split|].
Qed.

Lemma keeps_put_keys s : keeps (put_keys s).
Proof. apply keeps_modify. by intros k []. Qed.
Hint Resolve keeps_ioq_init keeps_put_keys : keeps.

Lemma keeps_intr_keyboard_handler b : keeps (intr_keyboard_handler b).
Proof. unfold intr_keyboard_handler. keep. Qed.
Lemma keeps_keyboard_init : keeps keyboard_init.
Proof. unfold keyboard_init. keep. Qed.
Hint Resolve keeps_keyboard_init : keeps.

(** *** Start-up *)

Lemma keeps_timer_init : keeps timer_init.
Proof. unfold timer_init. keep. Qed.
Lemma keeps_console_init : keeps console_init.
Proof. unfold console_init. keep. Qed.
Lemma keeps_tss_init : keeps tss_init.
Proof.
  unfold tss_init, store_desc. keep.
  all: apply keeps_modify; intros k [? ? ? [Hlen Hall]]; split; try done; simpl.
  - split; [done|]. decided.
  - rewrite length_insert. split; [done|]. by apply Forall_insert.
  - rewrite length_insert. split; [done|]. by apply Forall_insert.
Qed.
Hint Resolve keeps_timer_init keeps_console_init keeps_tss_init : keeps.

Lemma keeps_main u_prog_a : keeps (main u_prog_a).
Proof. unfold main. keep. Qed.

End kernel_keeps.

(** *** Witness *)

#[local] Existing Instances x87 demo_layout demo_env.

Lemma demo_typed : typed demo_kernel.
Proof.
  split.
  - repeat first [apply map_Forall_insert_2 | apply map_Forall_singleton]; by split.
  - repeat first [apply map_Forall_insert_2 | apply map_Forall_singleton]; by split.
  - apply map_Forall_singleton. split; [by split|]. decided.
  - split; [done|]. decided.
Qed.

