(* ===== verification/Switching.v ===== *)
(** * Switching threads: what the interleavings of LockSys and RingSys share

    thread_block cut at the context switch, the clock interrupt up to it, runs that are
    the same up to fuel, and the invariant of the scheduler's data, which a context
    switch keeps. *)

From Stdlib Require Import ZArith Lia.
From stdpp Require Import base tactics gmap strings fin_maps functions list.
From S2P Require Import Prelude ByteMem CString Bitmap Interrupt DList Format Paging Idt Memory.
From S2P Require Import Kernel Sched Sync Alloc Thread Timer.

(** [r'] is [r] unless [r] ran out of fuel. *)
Definition covered {S A} (r r' : res S A) : Prop :=
  match r with NoFuel _ => True | _ => r' = r end.

Lemma covered_refl {S A} (r : res S A) : covered r r.
Proof. by destruct r. Qed.

Lemma covered_bind {S A B} (p : prog S A) (f g : A → prog S B) s :
  (∀ a s', p s = Ok a s' → covered (f a s') (g a s')) → covered ((p ≫= f) s) ((p ≫= g) s).
Proof. rewrite !bind_unfold. intros Hf. destruct (p s); try done. by apply Hf. Qed.

(** ** The code up to the context switch *)

Section switch_steps.
Context `{FpEval, Layout, Env}.

(** thread_block up to the context switch; the thread that left and the status it
    will restore. *)
Definition block_out (st : task_status) : prog kernel (Z * intr_status) :=
  _ ← c_assert (thread_site 120 "thread_block" block_cond) (blocked_status st);
  old_status ← k_intr_disable;
  cur_thread ← running_thread;
  _ ← update_task cur_thread (with_status st);
  cur ← schedule_out;
  mret (cur, old_status).

(** The clock interrupt ends, in this thread, when another thread runs. *)
Definition clock_out : prog kernel unit :=
  @clock_interrupt_handler _ _ {| others := λ _, mret tt; esp_at := esp_at; wait_fuel := wait_fuel |}.

Lemma thread_block_out st k :
  thread_block st k =
    (b ← block_out st; _ ← others (fst b); _ ← k_intr_set_status (snd b); mret tt) k.
Proof.
  unfold thread_block, block_out, schedule. rewrite bind_assoc, !bind_unfold.
  destruct (c_assert _ _ k) as [a k1| | | |]; [|done..].
  rewrite bind_assoc, !bind_unfold. destruct (k_intr_disable k1) as [old k2| | | |]; [|done..].
  rewrite bind_assoc, !bind_unfold. destruct (running_thread k2) as [t k3| | | |]; [|done..].
  rewrite bind_assoc, !bind_unfold. destruct (update_task _ _ k3) as [[] k4| | | |]; [|done..].
  rewrite bind_assoc, !bind_unfold. by destruct (schedule_out k4).
Qed.

(** The thread that leaves is the one that ran. *)
Lemma zoom_core_cur {A} (p : prog core A) k a k' : zoom l_core p k = Ok a k' → k_cur k' = k_cur k.
Proof. unfold zoom. destruct (p _); [|done..]. intros [= _ <-]. done. Qed.

Lemma update_lock_cur l f k a k' : update_lock l f k = Ok a k' → k_cur k' = k_cur k.
Proof.
  unfold update_lock. rewrite bind_unfold. unfold load_lock. destruct (_ !! l); [|done].
  by intros [= _ <-].
Qed.

Lemma load_lock_same l k x k' : load_lock l k = Ok x k' → k' = k.
Proof. unfold load_lock. destruct (_ !! l); [|done]. by intros [= _ <-]. Qed.

Lemma set_status_cur st k : ∃ a b, k_intr_set_status st k = Ok a (set_if b k).
Proof.
  assert (Hst : st = Flag.status_of (bool_decide (st = INTR_ON))) by by destruct st.
  rewrite Hst, k_intr_set_status_ok. eauto.
Qed.

Lemma block_out_cur st k b k' : block_out st k = Ok b k' → fst b = k_cur k.
Proof.
  unfold block_out. rewrite bind_unfold. destruct (c_assert _ _ k) as [[] k1| | | |] eqn:Ha; [|done..].
  assert (k1 = k) as -> by (destruct (blocked_status st); by inversion Ha).
  rewrite (bind_Ok _ _ _ _ _ (k_intr_disable_ok k)). unfold running_thread. rewrite bind_gets, bind_unfold.
  destruct (update_task _ _ _) as [[] k2| | | |] eqn:Hu; [|done..].
  assert (Hc2 : k_cur k2 = k_cur k).
  { unfold update_task in Hu. rewrite bind_unfold in Hu. unfold load_task in Hu.
    destruct (k_tasks _ !! _); [|done]. by inversion Hu. }
  rewrite bind_unfold. destruct (schedule_out k2) as [cur k3| | | |] eqn:Hs; [|done..].
  intros [= <- <-]. simpl. rewrite <- Hc2. unfold schedule_out, running_thread in Hs.
  rewrite bind_gets in Hs. clear -Hs. revert Hs.
  repeat (rewrite bind_unfold; match goal with |- context [match ?p with Ok _ _ => _ | _ => _ end] =>
    destruct p; [|done..] end). by intros [= ->].
Qed.
End switch_steps.

(** ** The scheduler's data *)

(** A kernel thread with status [s]. *)
Definition good (m : gmap Z task_struct) (s : task_status) (t : Z) : Prop :=
  ∃ x, m !! t = Some x ∧ status x = s ∧ pgdir x = NULL ∧ stack_magic x = magic.

Lemma good_keep f c m s t :
  (∀ x, status (f x) = status x ∧ pgdir (f x) = pgdir x ∧ stack_magic (f x) = stack_magic x) →
  good m s t → good (alter f c m) s t.
Proof.
  intros Hf (x & Hx & Hs & Hp & Hm). destruct (decide (c = t)) as [<-|Hne].
  - exists (f x). rewrite lookup_alter_eq, Hx. destruct (Hf x) as (-> & -> & ->). done.
  - exists x. by rewrite lookup_alter_ne.
Qed.

Lemma good_set f m s s' t :
  (∀ x, status (f x) = s' ∧ pgdir (f x) = pgdir x ∧ stack_magic (f x) = stack_magic x) →
  good m s t → good (alter f t m) s' t.
Proof.
  intros Hf (x & Hx & Hs & Hp & Hm). exists (f x). rewrite lookup_alter_eq, Hx.
  destruct (Hf x) as (-> & -> & ->). done.
Qed.

Lemma good_ne f c m s t : c ≠ t → good m s t → good (alter f c m) s t.
Proof. intros Hne (x & ?). exists x. by rewrite lookup_alter_ne. Qed.

(** The ticks a thread has left, and those it gets for its next turn. *)
Definition slices (k : kernel) (t : Z) : option (Z * Z) :=
  (λ x, (ticks x, priority x)) <$> k_tasks k !! t.

Lemma slices_alter f c t (m : gmap Z task_struct) :
  (∀ x, ticks (f x) = ticks x ∧ priority (f x) = priority x) →
  (λ x, (ticks x, priority x)) <$> alter f c m !! t = (λ x, (ticks x, priority x)) <$> m !! t.
Proof.
  intros Hf. rewrite lookup_alter. destruct (decide (c = t)) as [<-|]; [|done].
  destruct (m !! c) as [x|]; [|done]. simpl. by destruct (Hf x) as [-> ->].
Qed.

(** How one event moves the threads: the running one, the slices, the ready list and
    the waiters of the lock; [true] for a clock interrupt. *)
Inductive moved (cur : Z) (sl : Z → option (Z * Z)) (rs ws : list Z) :
    bool → Z → (Z → option (Z * Z)) → list Z → list Z → Prop :=
  | mv_stay sl' : (∀ t, sl' t = sl t) → moved cur sl rs ws false cur sl' rs ws
  | mv_block sl' next q :
      rs = next :: q → (∀ t, sl' t = sl t) → moved cur sl rs ws false next sl' q (ws ++ [cur])
  | mv_wake sl' w ws' :
      ws = w :: ws' → (∀ t, sl' t = sl t) → moved cur sl rs ws false cur sl' (w :: rs) ws'
  | mv_tick sl' n p :
      sl cur = Some (n, p) → n ≠ 0 → sl' cur = Some (u8 (n - 1), p) → (∀ t, t ≠ cur → sl' t = sl t) →
      moved cur sl rs ws true cur sl' rs ws
  | mv_turn sl' p next q :
      sl cur = Some (0, p) → rs ++ [cur] = next :: q → sl' cur = Some (p, p) →
      (∀ t, t ≠ cur → sl' t = sl t) → moved cur sl rs ws true next sl' q ws.

Section scheduling.
Context `{FpEval, Layout, Env}.

(** The nodes a thread of the system brings, apart from the sentinels of the ready
    list and of the waiters of [l]. *)
Definition apart (l : Z) (h : gmap Z list_elem) (t : Z) : Prop :=
  t ≠ NULL ∧ (general_tag t ∉ nodes thread_ready_list [] ++ nodes (waiters l) []) ∧
  is_Some (h !! general_tag t).

Definition lists_apart (l : Z) : Prop :=
  ∀ z, z ∈ nodes thread_ready_list [] → z ∉ nodes (waiters l) [].

Definition activatable (k : kernel) : Prop :=
  gdt_mapped k = true ∧ gdt_mapped (with_cr3 0x100000 k) = true.

(** The running thread, the ready ones [rs] in their list, and those waiting for
    the lock, [ws]. *)
Record sched_ok (l : Z) (k : kernel) (rs ws : list Z) : Prop := {
  so_ready : dlist (k_nodes k) thread_ready_list (general_tag <$> rs);
  so_wait : dlist (k_nodes k) (waiters l) (general_tag <$> ws);
  so_nodup : NoDup (k_cur k :: rs ++ ws);
  so_lists : lists_apart l;
  so_apart : ∀ t, t ∈ k_cur k :: rs ++ ws → apart l (k_nodes k) t;
  so_cur : good (k_tasks k) TASK_RUNNING (k_cur k);
  so_rs : ∀ t, t ∈ rs → good (k_tasks k) TASK_READY t;
  so_ws : ∀ t, t ∈ ws → good (k_tasks k) TASK_BLOCKED t;
  so_gdt : activatable k
}.

Lemma tags_apart l h ts t :
  apart l h t → t ∉ ts → (general_tag t ∉ nodes thread_ready_list (general_tag <$> ts)) ∧
    (general_tag t ∉ nodes (waiters l) (general_tag <$> ts)).
Proof.
  intros (_ & Hni & _) Ht. rewrite elem_of_app, !nodes_elem in Hni. rewrite !nodes_elem.
  assert (general_tag t ∉ general_tag <$> ts).
  { rewrite list_elem_of_fmap. intros (u & ->%(inj general_tag) & Hu). done. }
  set_solver.
Qed.

(** The nodes of the two lists are different. *)
Lemma nodes_apart l h rs ws z :
  lists_apart l → (∀ t, t ∈ rs ++ ws → apart l h t) → NoDup (rs ++ ws) →
  z ∈ nodes thread_ready_list (general_tag <$> rs) →
  z ∉ nodes (waiters l) (general_tag <$> ws).
Proof.
  intros Hl Hap Hnd Hz Hz'. apply NoDup_app in Hnd as (_ & Hdis & _).
  assert (Hsep : ∀ t, t ∈ rs ++ ws →
    (general_tag t ∉ nodes thread_ready_list []) ∧ (general_tag t ∉ nodes (waiters l) [])).
  { intros t Ht. destruct (Hap t Ht) as (_ & Hni & _). set_solver. }
  assert (Hsplit : ∀ l' ts, z ∈ nodes l' (general_tag <$> ts) →
    z ∈ nodes l' [] ∨ ∃ t, z = general_tag t ∧ t ∈ ts).
  { intros l' ts. rewrite !nodes_elem, list_elem_of_fmap. set_solver. }
  apply Hsplit in Hz as [Hz|(t & -> & Ht)]; apply Hsplit in Hz' as [Hz'|(u & Hu & Hu')].
  - by apply (Hl z).
  - rewrite Hu in Hz. destruct (Hsep u) as [Hs _]; [set_solver|by apply Hs].
  - destruct (Hsep t) as [_ Hs]; [set_solver|by apply Hs].
  - apply (inj general_tag) in Hu as <-. by apply (Hdis t).
Qed.

Lemma gdt_mapped_ext k k' : k_mmu k' = k_mmu k → k_gdtr k' = k_gdtr k → gdt_mapped k' = gdt_mapped k.
Proof. intros Hm Hg. unfold gdt_mapped, video_descriptor. by rewrite Hm, Hg. Qed.

Lemma activatable_ext k k' :
  k_mmu k' = k_mmu k → k_gdtr k' = k_gdtr k → activatable k → activatable k'.
Proof.
  intros Hm Hg [Ha Hb]. split; [by rewrite (gdt_mapped_ext k)|].
  rewrite (gdt_mapped_ext (with_cr3 0x100000 k)); [done| |done].
  unfold with_cr3. simpl. by rewrite Hm.
Qed.

Lemma activatable_switch k k' :
  k_mmu k' = k_mmu (with_cr3 0x100000 k) → k_gdtr k' = k_gdtr k → activatable k → activatable k'.
Proof.
  intros Hm Hg [Ha Hb]. split; rewrite (gdt_mapped_ext (with_cr3 0x100000 k)); try done.
  unfold with_cr3. simpl. by rewrite Hm.
Qed.

(** The kernel [k'] after [cur] has handed the CPU of [k] to [next]. *)
Record handed_over (l : Z) (k k' : kernel) (cur next : Z) (q ws : list Z) : Prop := {
  hv_sched : sched_ok l k' q ws;
  hv_cur : k_cur k' = next;
  hv_locks : k_locks k' = k_locks k;
  hv_queues : k_queues k' = k_queues k;
  hv_if : k_if k' = k_if k;
  hv_dom : dom (k_nodes k') = dom (k_nodes k);
  hv_good : ∀ s t, t ≠ cur → t ≠ next → good (k_tasks k) s t → good (k_tasks k') s t
}.

(** The running thread back in the queue with a new slice: who is queued is ready, who
    waits is blocked. *)
Lemma recharge_good cur k x (rs ws q : list Z) :
  k_tasks k !! cur = Some x → pgdir x = NULL → stack_magic x = magic →
  ((status x = TASK_RUNNING ∧ cur ∉ ws) ∨ status x = TASK_BLOCKED) → cur ∉ rs → requeue x cur rs = q →
  (∀ t, t ∈ rs → good (k_tasks k) TASK_READY t) → (∀ t, t ∈ ws → good (k_tasks k) TASK_BLOCKED t) →
  let m1 := recharge x cur (k_tasks k) in
  (∀ s t, t ≠ cur → good (k_tasks k) s t → good m1 s t) ∧
  (∀ t, t ∈ q → good m1 TASK_READY t) ∧ (∀ t, t ∈ ws → good m1 TASK_BLOCKED t).
Proof.
  intros Hx Hpg Hmg Hst Hni Hq Hrs Hws m1.
  assert (Hq_elem : ∀ t, t ∈ q → (t = cur ∧ status x = TASK_RUNNING) ∨ t ∈ rs).
  { rewrite <- Hq. unfold requeue. intros t. case_decide; set_solver. }
  assert (Hm1 : ∀ s t, t ≠ cur → good (k_tasks k) s t → good m1 s t).
  { intros s t Hne Hg. unfold m1, recharge. case_decide; [by apply good_ne|done]. }
  split_and!; [exact Hm1| |].
  - intros t [[-> Hrun]|Ht]%Hq_elem.
    + unfold m1, recharge. rewrite decide_True by done.
      apply (good_set _ _ TASK_RUNNING); [done|]. by exists x.
    + apply Hm1; [set_solver|by apply Hrs].
  - intros t Ht. unfold m1, recharge. case_decide as Hrun; [|by apply Hws].
    apply good_ne; [|by apply Hws]. intros <-. destruct Hst as [[]|]; congruence.
Qed.

(** The context switch: [ws] is the waiters' list with the running thread already
    in it when that has just blocked. *)
Lemma switch_ok l k x rs ws next q :
  let cur := k_cur k in
  k_tasks k !! cur = Some x → pgdir x = NULL → stack_magic x = magic →
  ((status x = TASK_RUNNING ∧ cur ∉ ws) ∨ status x = TASK_BLOCKED) → apart l (k_nodes k) cur →
  cur ∉ rs → requeue x cur rs = next :: q → NoDup (next :: q ++ ws) →
  dlist (k_nodes k) thread_ready_list (general_tag <$> rs) →
  dlist (k_nodes k) (waiters l) (general_tag <$> ws) →
  lists_apart l → (∀ t, t ∈ next :: q ++ ws → apart l (k_nodes k) t) →
  (∀ t, t ∈ rs → good (k_tasks k) TASK_READY t) →
  (∀ t, t ∈ ws → good (k_tasks k) TASK_BLOCKED t) → activatable k →
  ∃ k', schedule_out k = Ok cur k' ∧ handed_over l k k' cur next q ws ∧
    (∀ t, t ≠ cur ∨ status x ≠ TASK_RUNNING → slices k' t = slices k t) ∧
    (status x = TASK_RUNNING → slices k' cur = Some (priority x, priority x)) ∧
    (status x ≠ TASK_RUNNING → cur ≠ next → good (k_tasks k') (status x) cur).
Proof.
  intros cur Hx Hpg Hmg Hst Hapc Hni Hq Hnd Hr Hw Hla Hap Hrs Hws Hact.
  set (m1 := recharge x cur (k_tasks k)).
  destruct (recharge_good cur k x rs ws (next :: q) Hx Hpg Hmg Hst Hni Hq Hrs Hws) as (Hm1 & Hready & Hblocked).
  fold m1 in Hm1, Hready, Hblocked.
  destruct (Hready next ltac:(set_solver)) as (y & Hy & Hys & Hyp & Hym).
  pose proof Hapc as (Hcn & _ & Hcs).
  destruct (schedule_out_ok k x cur rs next q y 0x100000) as (k' & Hrun & [Hc Hr' Ht Hout Hl Hqu Hif Hm Hg]);
    [done..| |done|done|done| | | | |].
  - by apply (tags_apart l (k_nodes k)).
  - by apply (Hap next); set_solver.
  - unfold directory_of. by rewrite Hyp.
  - apply Hact.
  - apply Hact.
  - assert (Hsl : ∀ t, slices k' t = (λ x, (ticks x, priority x)) <$> m1 !! t).
    { intros t. unfold slices. by rewrite Ht, !slices_alter by done. }
    exists k'. split_and!; [done| | | |].
    2: { intros t Hne. rewrite Hsl. unfold m1, recharge. case_decide as Hd; [|done].
         destruct Hne as [Hne|]; [|done]. by rewrite lookup_alter_ne. }
    2: { intros Hrun'. rewrite Hsl. unfold m1, recharge. by rewrite decide_True, lookup_alter_eq, Hx by done. }
    2: { intros Hnr Hne. rewrite Ht. apply good_keep; [done|]. apply good_ne; [done|].
         unfold recharge. rewrite decide_False by done. by exists x. }
    rewrite Hq in Hout. split; [|done|done|done|done|by destruct Hout|].
    2: { intros s t Hne1 Hne2 Hg'. rewrite Ht. apply good_keep; [done|]. apply good_ne; [done|]. by apply Hm1. }
    split.
    + done.
    + eapply dlist_frame; [exact Hw|exact Hout|]. intros z Hz Hz'.
      exact (nodes_apart l (k_nodes k) (next :: q) ws z Hla Hap Hnd Hz' Hz).
    + by rewrite Hc.
    + done.
    + rewrite Hc. intros t Hin. destruct (Hap t Hin) as (? & ? & Hs). split_and!; [done..|].
      destruct Hout as [Hdom _]. by rewrite <- elem_of_dom, Hdom, elem_of_dom.
    + rewrite Hc, Ht. apply good_keep; [done|]. apply (good_set _ _ TASK_READY); [done|].
      apply Hready. set_solver.
    + intros t Hin. rewrite Ht. apply good_keep; [done|]. apply good_ne; [|apply Hready; set_solver].
      intros <-. apply NoDup_cons in Hnd as [Hnx _]. set_solver.
    + intros t Hin. rewrite Ht. apply good_keep; [done|]. apply good_ne; [|by apply Hblocked].
      intros <-. apply NoDup_cons in Hnd as [Hnx _]. set_solver.
    + by apply (activatable_switch k).
Qed.

Lemma sched_ok_ext l k k' rs ws :
  k_nodes k' = k_nodes k → k_tasks k' = k_tasks k → k_cur k' = k_cur k → k_mmu k' = k_mmu k →
  k_gdtr k' = k_gdtr k → sched_ok l k rs ws → sched_ok l k' rs ws.
Proof.
  intros Hn Ht Hc Hm Hg []. split; rewrite ?Hn, ?Ht, ?Hc; try done. by apply (activatable_ext k).
Qed.

(** thread_block with interrupts off, when the running thread may just have been put
    among the waiters, [ws]. *)
Lemma block_out_ok l k h rs ws ws' next q :
  sched_ok l k rs ws → k_if k = false → rs = next :: q →
  dlist h (waiters l) (general_tag <$> ws') →
  same_outside (general_tag (k_cur k) :: nodes (waiters l) (general_tag <$> ws)) (k_nodes k) h →
  (∀ t, t ∈ ws' → t = k_cur k ∨ t ∈ ws) → NoDup (rs ++ ws') →
  ∃ k', block_out TASK_BLOCKED (set_nodes h k) = Ok (k_cur k, INTR_OFF) k' ∧
    handed_over l k k' (k_cur k) next q ws' ∧ good (k_tasks k') TASK_BLOCKED (k_cur k) ∧
    ∀ t, slices k' t = slices k t.
Proof.
  intros Hs Hif Hrs Hd Hout Hws' Hnd2.
  destruct Hs as [Hr Hw Hnd Hla Hap (y & Hy & Hys & Hyp & Hym) Hgr Hgw Hact].
  set (cur := k_cur k) in *. pose proof Hnd as [Hc Hnd']%NoDup_cons. rewrite not_elem_of_app in Hc. destruct Hc as [Hcr Hcw].
  set (k3 := set_tasks (alter (with_status TASK_BLOCKED) cur (k_tasks k)) (set_if false (set_nodes h k))).
  assert (Hdis : ∀ z, z ∈ nodes thread_ready_list (general_tag <$> rs) →
    z ∉ general_tag cur :: nodes (waiters l) (general_tag <$> ws)).
  { intros z Hz [->|Hz']%elem_of_cons.
    - exact (proj1 (tags_apart l (k_nodes k) rs cur (Hap cur ltac:(set_solver)) Hcr) Hz).
    - by apply (nodes_apart l (k_nodes k) rs ws z Hla); [intros; apply Hap; set_solver|..]. }
  assert (Hap' : ∀ t, t ∈ cur :: rs ++ ws → apart l (k_nodes k3) t).
  { intros t Ht. destruct (Hap t Ht) as (? & ? & Hin). split_and!; [done..|].
    destruct Hout as [Hdom _]. simpl. by rewrite <- elem_of_dom, Hdom, elem_of_dom. }
  assert (Hcn : cur ≠ next) by (subst rs; set_solver).
  destruct (switch_ok l k3 (with_status TASK_BLOCKED y) rs ws' next q) as (k' & Hrun & Hho & Hsl & _ & Hgood).
  - simpl. by rewrite lookup_alter_eq, Hy.
  - done.
  - done.
  - by right.
  - apply Hap'. set_solver.
  - done.
  - unfold requeue. by rewrite decide_False.
  - by rewrite app_comm_cons, <- Hrs.
  - simpl. by apply (dlist_frame (k_nodes k) _ _ _ _ Hr Hout).
  - done.
  - done.
  - intros t Ht. apply Hap'. rewrite app_comm_cons, <- Hrs in Ht. set_solver.
  - intros t Ht. simpl. apply good_ne; [set_solver|by apply Hgr].
  - intros t Ht. simpl. destruct (decide (t = cur)) as [->|Hne].
    + apply (good_set _ _ TASK_RUNNING); [done|]. by exists y.
    + apply good_ne; [done|]. apply Hgw. by destruct (Hws' t Ht).
  - done.
  - exists k'. split_and!; [| |by apply Hgood|].
    + unfold block_out. rewrite bind_assert, (bind_Ok _ _ _ _ _ (k_intr_disable_ok _)).
      unfold running_thread. rewrite bind_gets.
      erewrite (bind_Ok (update_task _ _)) by (apply update_task_alter; eauto).
      change (set_tasks _ _) with k3. rewrite (bind_Ok _ _ _ _ _ Hrun).
      change (k_if (set_nodes h k)) with (k_if k). by rewrite Hif.
    + destruct Hho as [H1' H2' H3 H4 H5 H6 H7]. split; [done..|by rewrite H5|by rewrite H6; apply Hout|].
      intros s t Hne1 Hne2 Hg. apply H7; [done|done|]. simpl. by apply good_ne.
    + intros t. rewrite Hsl by (by right). unfold slices. simpl. by rewrite slices_alter.
Qed.

(** The clock interrupt, up to the context switch if it causes one. *)
Record ticked (l : Z) (k : kernel) (rs ws : list Z) (k' : kernel) (rs' : list Z) : Prop := {
  tk_sched : sched_ok l k' rs' ws;
  tk_threads : k_cur k' :: rs' ≡ₚ k_cur k :: rs;
  tk_locks : k_locks k' = k_locks k;
  tk_queues : k_queues k' = k_queues k;
  tk_if : k_if k' = false;
  tk_dom : dom (k_nodes k') = dom (k_nodes k);
  tk_good : ∀ s t, t ∉ k_cur k :: rs → good (k_tasks k) s t → good (k_tasks k') s t;
  tk_moved : moved (k_cur k) (slices k) rs ws true (k_cur k') (slices k') rs' ws
}.

Lemma clock_out_ok l k rs ws :
  sched_ok l k rs ws → ∃ k' rs', (_ ← k_intr_disable; clock_out) k = Ok tt k' ∧ ticked l k rs ws k' rs'.
Proof.
  intros [Hr Hw Hnd Hla Hap (y & Hy & Hys & Hyp & Hym) Hgr Hgw Hact].
  pose proof Hnd as [Hcni Hnd']%NoDup_cons. rewrite not_elem_of_app in Hcni. destruct Hcni as [Hcr Hcw].
  rewrite (bind_Ok _ _ _ _ _ (k_intr_disable_ok k)). set (k0 := set_if false k).
  unfold clock_out, clock_interrupt_handler, running_thread. rewrite bind_gets.
  rewrite (bind_Ok _ _ _ _ _ (load_task_ok _ y k0 Hy)), Hym, Z.eqb_refl, bind_assert.
  destruct (Z.eqb_spec (ticks y) 0) as [Htk|Htk].
  - destruct (rs ++ [k_cur k]) as [|next q] eqn:Hq; [by destruct rs|].
    assert (Hperm : next :: q ≡ₚ k_cur k :: rs) by (by rewrite <- Hq, <- Permutation_cons_append).
    destruct (switch_ok l k0 y rs ws next q) as (k' & Hrun & [Hs Hc Hl Hqu Hif Hdom Hg] & Hsl & Hslc & _);
      [done|done|done|by left|apply Hap; set_solver|done|unfold requeue; by rewrite decide_True| |done|done|done| |done|done|done|].
    { by rewrite app_comm_cons, Hperm. }
    { intros t Ht. apply Hap. rewrite app_comm_cons. by rewrite <- Hperm. }
    exists k', q. split.
    { unfold schedule. cbv zeta. rewrite (bind_Ok (@schedule_out _ _ _) _ _ _ _ Hrun). done. }
    split; [done|by rewrite Hc|done|done|done|done| |].
    + intros s t Ht Hgood. apply Hg; [set_solver| |done]. intros ->. apply Ht. rewrite <- Hperm. set_solver.
    + rewrite Hc. apply (mv_turn _ _ _ _ _ (priority y)); [|done|by apply Hslc|].
      * unfold slices. rewrite Hy. simpl. by rewrite Htk.
      * intros t Hne. by apply Hsl; left.
  - eexists _, rs. rewrite (update_task_ok _ y _ k0 Hy). split; [done|].
    assert (Hgne : ∀ s t, t ≠ k_cur k → good (k_tasks k) s t →
      good (<[k_cur k := with_ticks (u8 (ticks y - 1)) y]> (k_tasks k)) s t).
    { intros s t Hne (z & ?). exists z. by rewrite lookup_insert_ne. }
    split; try done.
    + split; try done; simpl.
      * eexists. rewrite lookup_insert_eq. split_and!; [done..|]. done.
      * intros t Ht. apply Hgne; [set_solver|by apply Hgr].
      * intros t Ht. apply Hgne; [set_solver|by apply Hgw].
    + intros s t Ht Hg. apply Hgne; [set_solver|done].
    + apply (mv_tick _ _ _ _ _ (ticks y) (priority y)); [|done| |].
      * unfold slices. by rewrite Hy.
      * unfold slices. simpl. by rewrite lookup_insert_eq.
      * intros t Hne. unfold slices. simpl. by rewrite lookup_insert_ne.
Qed.

(** thread_unblock of a thread that is in no list. *)
Lemma unblock_ok l k rs ws w :
  sched_ok l k rs ws → good (k_tasks k) TASK_BLOCKED w → apart l (k_nodes k) w → w ∉ k_cur k :: rs ++ ws →
  ∃ k', thread_unblock w k = Ok tt k' ∧ sched_ok l k' (w :: rs) ws ∧ k_cur k' = k_cur k ∧
    k_locks k' = k_locks k ∧ k_queues k' = k_queues k ∧ k_if k' = k_if k ∧ ∀ t, slices k' t = slices k t.
Proof.
  intros [Hr Hw Hnd Hla Hap Hgc Hgr Hgw Hact] (y & Hy & Hys & Hyp & Hym) Hapw Hni.
  assert (Hwr : w ∉ rs) by set_solver. assert (Hww : w ∉ ws) by set_solver.
  destruct (tags_apart l _ rs w Hapw Hwr) as [Htr _]. destruct (tags_apart l _ ws w Hapw Hww) as [_ Htw].
  destruct (thread_unblock_ok k w y (general_tag <$> rs)) as (h2 & Hun & Hr2 & Hout2);
    [done|by rewrite Hys|done|done|apply Hapw|].
  assert (Hgne : ∀ s t, t ≠ w → good (k_tasks k) s t → good (<[w := with_status TASK_READY y]> (k_tasks k)) s t).
  { intros s t Hne (z & ?). exists z. by rewrite lookup_insert_ne. }
  eexists. split; [exact Hun|]. split; [|split_and!; try done].
  2: { intros t. unfold slices. simpl. rewrite lookup_insert. case_decide as Heq; [|done].
       subst t. by rewrite Hy. }
  assert (Hap' : ∀ t, t ∈ w :: k_cur k :: rs ++ ws → apart l (k_nodes k) t).
  { intros t [->|Ht]%elem_of_cons; [done|by apply Hap]. }
  split; simpl.
  - done.
  - eapply dlist_frame; [exact Hw|exact Hout2|]. intros z Hz [->|Hz']%elem_of_cons; [done|].
    apply NoDup_cons in Hnd as [_ Hnd].
    by apply (nodes_apart l (k_nodes k) rs ws z Hla); [intros; apply Hap; set_solver|..].
  - rewrite Permutation_swap. by apply NoDup_cons.
  - done.
  - intros t Ht. destruct (Hap' t) as (? & ? & Hs); [set_solver|]. split_and!; [done..|].
    destruct Hout2 as [Hdom _]. by rewrite <- elem_of_dom, Hdom, elem_of_dom.
  - apply Hgne; [set_solver|done].
  - intros t [->|Ht]%elem_of_cons.
    + eexists. rewrite lookup_insert_eq. split_and!; [done..|]. done.
    + apply Hgne; [set_solver|by apply Hgr].
  - intros t Ht. apply Hgne; [set_solver|by apply Hgw].
  - done.
Qed.
End scheduling.
