(* ===== verification/LockSys.v ===== *)
(** * The lock under preemption: kernel/sync.c as an interleaving of threads

    Sync.v runs lock_acquire and lock_release to their end in one thread, with the
    parameter [others] for whatever happens while it waits.  Here the same code is
    cut into the steps between which the clock interrupt can take the CPU away: one
    step for each C statement while interrupts are on, one step from a thread's
    [intr_disable] to the restore or to the context switch.  [acquire_is_steps] and
    [release_is_steps] say that the steps are the code; the rest runs any number of
    threads, the clock and the scheduler on the shared kernel state. *)

From Stdlib Require Import ZArith Lia.
From stdpp Require Import base tactics gmap strings fin_maps functions list.
From S2P Require Import Prelude ByteMem CString Bitmap Interrupt DList Format Paging Idt Memory.
From S2P Require Import Kernel Sched Sync Alloc Thread Timer Switching.

(** Where a thread is in the code of the lock.  [Wait ob old]: switched out in the
    thread_block of sema_dowm; [ob] and [old] are the [old_status] of thread_block
    and of sema_dowm. *)
Inductive pc :=
  | Run | Acquire | Again | Down | Wait (ob old : intr_status) | SetHolder | CheckNr | SetNr
  | Release | Branch | Decr | CheckOne | ClearHolder | ClearNr | Up.

#[global] Instance pc_eq_dec : EqDecision pc.
Proof. solve_decision. Defined.

Definition is_wait (p : pc) : bool := match p with Wait _ _ => true | _ => false end.

Section lock_steps.
Context `{FpEval, Layout, Env}.

(** One round of the loop of sema_dowm, with interrupts off: the thread queues
    itself and switches away, or takes the semaphore. *)
Definition down_round (l : Z) (old : intr_status) : prog kernel pc :=
  x ← load_lock l;
  if value x =? 0 then
    _ ← enqueue_waiter l;
    b ← block_out TASK_BLOCKED;
    mret (Wait (snd b) old)
  else
    _ ← sema_take l;
    _ ← k_intr_set_status old;
    mret SetHolder.

Definition lock_step (l : Z) (p : pc) : prog kernel pc :=
  match p with
  | Run => mret Run
  | Acquire =>
      x ← load_lock l; cur ← running_thread;
      mret (if negb (holder x =? cur) then Down else Again)
  | Again => _ ← update_lock l (λ x, set_repeat_nr (u32 (holder_repeat_nr x + 1)) x); mret Run
  | Down => old_status ← k_intr_disable; down_round l old_status
  | Wait ob old => _ ← k_intr_set_status ob; down_round l old
  | SetHolder => cur ← running_thread; _ ← update_lock l (set_holder cur); mret CheckNr
  | CheckNr => x ← load_lock l; _ ← c_assert acquire_site (holder_repeat_nr x =? 0); mret SetNr
  | SetNr => _ ← update_lock l (set_repeat_nr 1); mret Run
  | Release =>
      x ← load_lock l; cur ← running_thread;
      _ ← c_assert holder_site (holder x =? cur); mret Branch
  | Branch => x ← load_lock l; mret (if 1 <? holder_repeat_nr x then Decr else CheckOne)
  | Decr => _ ← update_lock l (λ x, set_repeat_nr (u32 (holder_repeat_nr x - 1)) x); mret Run
  | CheckOne => x ← load_lock l; _ ← c_assert nr_site (holder_repeat_nr x =? 1); mret ClearHolder
  | ClearHolder => _ ← update_lock l (set_holder NULL); mret ClearNr
  | ClearNr => _ ← update_lock l (set_repeat_nr 0); mret Up
  | Up => _ ← sema_up l; mret Run
  end.

(** The thread alone: step after step, the rest of the world running while it is
    switched out. *)
Fixpoint drive (fuel : nat) (l : Z) (p : pc) : prog kernel unit :=
  match p, fuel with
  | Run, _ => mret tt
  | _, O => no_fuel
  | _, S fuel' =>
      cur ← running_thread;
      p' ← lock_step l p;
      _ ← when (is_wait p') (others cur);
      drive fuel' l p'
  end.

(** *** The steps are the code *)

Lemma enqueue_waiter_cur l k a k' : enqueue_waiter l k = Ok a k' → k_cur k' = k_cur k.
Proof.
  unfold enqueue_waiter, running_thread. rewrite bind_gets, bind_unfold.
  destruct (zoom l_core _ k) as [found k1| | | |] eqn:Hf; [|done..].
  apply zoom_core_cur in Hf. rewrite bind_unfold.
  destruct (c_assert _ _ k1) as [[] k2| | | |] eqn:Ha; [|done..].
  assert (k2 = k1) as -> by (destruct found; by inversion Ha).
  rewrite bind_gets. intros Hrun%zoom_core_cur. congruence.
Qed.

Lemma drive_S fuel l p k :
  p ≠ Run → drive (S fuel) l p k =
    (p' ← lock_step l p; _ ← when (is_wait p') (others (k_cur k)); drive fuel l p') k.
Proof. by destruct p. Qed.

(** A step that does not wait. *)
Lemma drive_next fuel l p q k k' :
  p ≠ Run → is_wait q = false → lock_step l p k = Ok q k' → drive (S fuel) l p k = drive fuel l q k'.
Proof. intros Hp Hq Hrun. rewrite drive_S, (bind_Ok _ _ _ _ _ Hrun) by done. by rewrite Hq. Qed.

Lemma drive_Run fuel l k : drive fuel l Run k = Ok tt k.
Proof. by destruct fuel. Qed.

Definition acquire_tail (l : Z) : prog kernel unit :=
  cur ← running_thread;
  _ ← update_lock l (set_holder cur);
  x ← load_lock l;
  _ ← c_assert acquire_site (holder_repeat_nr x =? 0);
  update_lock l (set_repeat_nr 1).

Lemma tail_driven fuel l k : covered (acquire_tail l k) (drive (3 + fuel) l SetHolder k).
Proof.
  simpl Nat.add. rewrite drive_S by done. unfold acquire_tail. cbn [lock_step].
  unfold running_thread. rewrite bind_assoc, !bind_gets, bind_assoc.
  apply covered_bind. intros [] k1 _. rewrite bind_ret. cbn [is_wait when]. rewrite bind_ret.
  rewrite drive_S by done. cbn [lock_step]. rewrite bind_assoc.
  apply covered_bind. intros x k2 _. rewrite bind_assoc.
  apply covered_bind. intros [] k3 _. rewrite bind_ret. cbn [is_wait when]. rewrite bind_ret.
  rewrite drive_S by done. cbn [lock_step]. rewrite bind_assoc, bind_unfold.
  destruct (update_lock _ _ k3) as [[]| | | |]; try done. rewrite bind_ret. cbn [is_wait when].
  by rewrite bind_ret, drive_Run.
Qed.

(** The waiting loop of sema_dowm, the rest of lock_acquire behind it, and the
    rounds of the interleaving. *)
Lemma rounds_driven f l old cur k :
  cur = k_cur k →
  covered ((_ ← sema_wait f l; _ ← sema_take l; _ ← k_intr_set_status old; acquire_tail l) k)
    ((p' ← down_round l old; _ ← when (is_wait p') (others cur); drive (f + 3) l p') k).
Proof.
  revert cur k. induction f as [|f IH]; intros cur k Hcur; [done|].
  cbn [sema_wait]. unfold down_round at 1. rewrite !bind_assoc.
  apply covered_bind. intros x k1 Hl. apply load_lock_same in Hl as ->.
  destruct (value x =? 0).
  - rewrite !bind_assoc. apply covered_bind. intros [] k2 He. apply enqueue_waiter_cur in He.
    rewrite !bind_assoc, (bind_unfold (thread_block _)), thread_block_out.
    rewrite <- (bind_unfold (_ ← _; _)), !bind_assoc.
    apply covered_bind. intros b k3 Hb. apply block_out_cur in Hb. rewrite !bind_assoc, bind_ret.
    cbn [is_wait when]. rewrite Hb, He, <- Hcur. apply covered_bind. intros [] k4 _.
    change (S f + 3)%nat with (S (f + 3)). rewrite drive_S by done. cbn [lock_step].
    rewrite !bind_assoc. destruct (set_status_cur (snd b) k4) as (a & i & Hst).
    rewrite !(bind_Ok _ _ _ _ _ Hst), bind_ret. by apply IH.
  - rewrite bind_ret, !bind_assoc. apply covered_bind. intros [] k2 _. rewrite !bind_assoc.
    apply covered_bind. intros st k3 _. rewrite bind_ret. cbn [is_wait when]. rewrite bind_ret.
    replace (S f + 3)%nat with (3 + S f)%nat by lia. apply tail_driven.
Qed.

Lemma acquire_driven l k : covered (lock_acquire l k) (drive (wait_fuel + 5) l Acquire k).
Proof.
  replace (wait_fuel + 5)%nat with (S (S (wait_fuel + 3))) by lia.
  rewrite drive_S by done. unfold lock_acquire. cbn [lock_step]. rewrite bind_assoc.
  apply covered_bind. intros x k1 Hl. apply load_lock_same in Hl as ->.
  unfold running_thread. rewrite bind_assoc, !bind_gets, bind_ret.
  destruct (negb (holder x =? k_cur k)); cbn [is_wait when]; rewrite bind_ret, drive_S by done;
    cbn [lock_step]; rewrite !bind_assoc.
  - unfold sema_dowm. rewrite !bind_assoc, !(bind_Ok _ _ _ _ _ (k_intr_disable_ok k)).
    rewrite !bind_assoc.
    pose proof (rounds_driven wait_fuel l (Flag.status_of (k_if k)) (k_cur k) (set_if false k) eq_refl)
      as Hrounds.
    match type of Hrounds with covered ?a _ => match goal with |- covered ?c _ =>
      replace c with a; [exact Hrounds|] end end.
    rewrite !bind_unfold. destruct (sema_wait _ _ _); [|done..]. rewrite bind_assoc, !bind_unfold.
    destruct (sema_take _ _); [|done..]. rewrite bind_assoc, !bind_unfold.
    by destruct (k_intr_set_status _ _).
  - rewrite bind_unfold. destruct (update_lock _ _ k) as [[] k2| | | |]; try done;
      rewrite bind_ret; cbn [is_wait when]; by rewrite bind_ret, drive_Run.
Qed.

Lemma release_driven l k : covered (lock_release l k) (drive 7 l Release k).
Proof.
  rewrite drive_S by done. unfold lock_release. cbn [lock_step]. rewrite bind_assoc.
  apply covered_bind. intros x k1 Hl. pose proof (load_lock_same _ _ _ _ Hl) as ->.
  unfold running_thread. rewrite bind_assoc, !bind_gets, bind_assoc.
  apply covered_bind. intros [] k1 Ha. assert (k1 = k) as -> by (destruct (_ =? _); by inversion Ha).
  rewrite bind_ret. cbn [is_wait when]. rewrite bind_ret, drive_S by done. cbn [lock_step].
  rewrite bind_assoc, (bind_Ok _ _ _ _ _ Hl), bind_ret.
  destruct (1 <? holder_repeat_nr x); cbn [is_wait when]; rewrite bind_ret, drive_S by done;
    cbn [lock_step]; rewrite bind_assoc.
  - rewrite bind_unfold. destruct (update_lock _ _ k) as [[] k2| | | |]; try done;
      rewrite bind_ret; cbn [is_wait when]; by rewrite bind_ret, drive_Run.
  - rewrite (bind_Ok _ _ _ _ _ Hl), bind_assoc.
    apply covered_bind. intros [] k1 Hb. rewrite bind_ret. cbn [is_wait when]. rewrite bind_ret.
    rewrite drive_S by done. cbn [lock_step]. rewrite bind_assoc. apply covered_bind. intros [] k2 _.
    rewrite bind_ret. cbn [is_wait when]. rewrite bind_ret.
    rewrite drive_S by done. cbn [lock_step]. rewrite bind_assoc. apply covered_bind. intros [] k3 _.
    rewrite bind_ret. cbn [is_wait when]. rewrite bind_ret, drive_S by done. cbn [lock_step].
    rewrite bind_assoc, bind_unfold. destruct (sema_up l k3) as [[] k4| | | |]; try done;
      rewrite bind_ret; cbn [is_wait when]; by rewrite bind_ret, drive_Run.
Qed.
End lock_steps.

(** ** Threads, clock and scheduler *)

Section system.
Context `{FpEval, Layout, Env}.

(** The kernel, and for every thread where it is in the code of the lock and how
    many acquisitions it has not yet released. *)
Record config := Config { kern : kernel; pcs : gmap Z (pc * nat) }.

(** What can happen next.  [Tick] is a clock interrupt, up to the context switch
    if it causes one; [Iret] the end of the interrupt handler in a thread that was
    interrupted; [Code] the next step of the running thread in the lock's code;
    [Call] the start of lock_acquire or lock_release; [Client] anything a thread
    does outside. *)
Inductive event :=
  | Tick
  | Iret
  | Code (p : pc) (n : nat)
  | Call (p : pc) (n : nat)
  | Client (k : kernel).

Definition new_depth (p : pc) (n : nat) : nat :=
  match p with SetNr | Again => S n | Decr | Up => pred n | _ => n end.

Definition exec (l : Z) (e : event) (ps : gmap Z (pc * nat)) : prog kernel (gmap Z (pc * nat)) :=
  match e with
  | Tick => _ ← k_intr_disable; _ ← clock_out; mret ps
  | Iret => _ ← k_intr_enable; mret ps
  | Code p n =>
      cur ← running_thread; p' ← lock_step l p;
      mret (<[cur := (p', new_depth p n)]> ps)
  | Call p n => cur ← running_thread; mret (<[cur := (p, n)]> ps)
  | Client k' => _ ← modify (λ _, k'); mret ps
  end.

(** What a thread may do outside the lock's code: it leaves the scheduler's data,
    this lock, the page tables and the interrupt flag alone. *)
Record client_frame (l : Z) (k k' : kernel) : Prop := {
  cf_nodes : k_nodes k' = k_nodes k;
  cf_tasks : k_tasks k' = k_tasks k;
  cf_lock : k_locks k' !! l = k_locks k !! l;
  cf_cur : k_cur k' = k_cur k;
  cf_if : k_if k' = k_if k;
  cf_mmu : k_mmu k' = k_mmu k;
  cf_gdtr : k_gdtr k' = k_gdtr k
}.

(** When it can happen.  A thread calls lock_release only for a lock it has
    acquired, and does not nest 2^32 acquisitions. *)
Definition enabled (l : Z) (c : config) (e : event) : Prop :=
  let k := kern c in
  match e with
  | Tick => k_if k = true
  | Iret => k_if k = false ∧ ∃ p n, pcs c !! k_cur k = Some (p, n) ∧ is_wait p = false
  | Code p n => pcs c !! k_cur k = Some (p, n) ∧ p ≠ Run ∧ k_if k = negb (is_wait p)
  | Call p n => pcs c !! k_cur k = Some (Run, n) ∧ k_if k = true ∧
      ((p = Acquire ∧ Z.of_nat n + 1 < 2 ^ 32) ∨ (p = Release ∧ (0 < n)%nat))
  | Client k' => (∃ n, pcs c !! k_cur k = Some (Run, n)) ∧ k_if k = true ∧ client_frame l k k'
  end.

Definition step (l : Z) (c c' : config) : Prop :=
  ∃ e, enabled l c e ∧ exec l e (pcs c) (kern c) = Ok (pcs c') (kern c').
End system.

(** ** The invariant *)

(** The lock's [holder] and [holder_repeat_nr] when a thread [t] that owns it is at
    [p]; [None] when a thread at [p] does not own the lock. *)
Definition phase (t : Z) (p : pc) (n : nat) : option (Z * Z) :=
  match p with
  | Run | Acquire => if decide (n = 0%nat) then None else Some (t, Z.of_nat n)
  | Down | Wait _ _ => None
  | SetHolder => Some (NULL, 0)
  | CheckNr | SetNr => Some (t, 0)
  | Again | Release | Branch | Decr | CheckOne | ClearHolder => Some (t, Z.of_nat n)
  | ClearNr => Some (NULL, Z.of_nat n)
  | Up => Some (NULL, 0)
  end.

Definition pc_ok (p : pc) (n : nat) : Prop :=
  match p with
  | Run => Z.of_nat n < 2 ^ 32
  | Acquire => Z.of_nat n + 1 < 2 ^ 32
  | Again => (0 < n)%nat ∧ Z.of_nat n + 1 < 2 ^ 32
  | Down | SetHolder | CheckNr | SetNr => n = 0%nat
  | Wait ob old => n = 0%nat ∧ ob = INTR_OFF ∧ old = INTR_ON
  | Release | Branch => (0 < n)%nat ∧ Z.of_nat n < 2 ^ 32
  | Decr => (1 < n)%nat ∧ Z.of_nat n < 2 ^ 32
  | CheckOne | ClearHolder | ClearNr | Up => n = 1%nat
  end.

(** The lock is free, or one thread owns it and has written what its place in the
    code says. *)
Record protocol (x : lock) (ps : gmap Z (pc * nat)) : Prop := {
  pr_pc : ∀ t p n, ps !! t = Some (p, n) → t ≠ NULL ∧ pc_ok p n;
  pr_lock :
    (x = Lock NULL 1 0 ∧ ∀ t p n, ps !! t = Some (p, n) → phase t p n = None) ∨
    (value x = 0 ∧ ∃ o p n, ps !! o = Some (p, n) ∧
       phase o p n = Some (holder x, holder_repeat_nr x) ∧
       ∀ t p n, t ≠ o → ps !! t = Some (p, n) → phase t p n = None)
}.

Arguments pr_pc {_ _} _.
Arguments pr_lock {_ _} _.

Section protocol_lemmas.
Implicit Types (x : lock) (ps : gmap Z (pc * nat)) (t : Z) (p : pc) (n : nat).

Lemma pcs_insert ps t pn t' p n :
  <[t := pn]> ps !! t' = Some (p, n) → (t' = t ∧ pn = (p, n)) ∨ (t' ≠ t ∧ ps !! t' = Some (p, n)).
Proof. rewrite lookup_insert_Some. naive_solver. Qed.

Lemma protocol_pc x ps t p n p' n' :
  protocol x ps → ps !! t = Some (p, n) → pc_ok p' n' →
  ∀ t0 p0 n0, <[t := (p', n')]> ps !! t0 = Some (p0, n0) → t0 ≠ NULL ∧ pc_ok p0 n0.
Proof.
  intros [Hpc _] Ht Hok t0 p0 n0 [[-> [= <- <-]]|[_ H0]]%pcs_insert; [|by eapply Hpc].
  split; [by eapply Hpc|done].
Qed.

(** The step of a thread that does not own the lock. *)
Lemma protocol_none x ps t p n p' n' :
  protocol x ps → ps !! t = Some (p, n) → phase t p n = None →
  phase t p' n' = None → pc_ok p' n' → protocol x (<[t := (p', n')]> ps).
Proof.
  intros Hpr Ht Hn Hn' Hok. split; [by eapply protocol_pc|].
  destruct Hpr as [_ [[-> Hall]|(Hv & o & po & no & Ho & Hph & Hall)]]; [left|right].
  - split; [done|]. intros t0 p0 n0 [[-> [= <- <-]]|[_ H0]]%pcs_insert; [done|by eapply Hall].
  - split; [done|]. exists o, po, no.
    assert (Hne : o ≠ t) by (intros ->; congruence).
    split_and!; [by rewrite lookup_insert_ne|done|].
    intros t0 p0 n0 Hne0 [[-> [= <- <-]]|[_ H0]]%pcs_insert; [done|by eapply Hall].
Qed.

(** The owner is the thread whose place says so. *)
Lemma protocol_owner x ps t p n h r :
  protocol x ps → ps !! t = Some (p, n) → phase t p n = Some (h, r) →
  value x = 0 ∧ holder x = h ∧ holder_repeat_nr x = r ∧
  ∀ t' p' n', t' ≠ t → ps !! t' = Some (p', n') → phase t' p' n' = None.
Proof.
  intros [_ [[-> Hall]|(Hv & o & po & no & Ho & Hph & Hall)]] Ht Hphase.
  - rewrite (Hall _ _ _ Ht) in Hphase. done.
  - destruct (decide (t = o)) as [->|Hne]; [|by rewrite (Hall _ _ _ Hne Ht) in Hphase].
    rewrite Ho in Ht. by simplify_eq.
Qed.

Lemma protocol_own x x' ps t p n hr p' n' :
  protocol x ps → ps !! t = Some (p, n) → phase t p n = Some hr →
  value x' = 0 → phase t p' n' = Some (holder x', holder_repeat_nr x') → pc_ok p' n' →
  protocol x' (<[t := (p', n')]> ps).
Proof.
  intros Hpr Ht Hph Hv' Hph' Hok. split; [by eapply protocol_pc|]. right.
  destruct hr as [h r]. destruct (protocol_owner _ _ _ _ _ _ _ Hpr Ht Hph) as (_ & _ & _ & Hall).
  split; [done|]. exists t, p', n'. rewrite lookup_insert_eq. split_and!; [done..|].
  intros t0 p0 n0 Hne [[-> _]|[_ H0]]%pcs_insert; [done|by eapply Hall].
Qed.

Lemma protocol_take x x' ps t p n p' n' :
  protocol x ps → ps !! t = Some (p, n) → value x ≠ 0 →
  value x' = 0 → phase t p' n' = Some (holder x', holder_repeat_nr x') → pc_ok p' n' →
  protocol x' (<[t := (p', n')]> ps).
Proof.
  intros Hpr Ht Hv Hv' Hph' Hok. split; [by eapply protocol_pc|]. right.
  destruct Hpr as [_ [[-> Hall]|[? _]]]; [|done].
  split; [done|]. exists t, p', n'. rewrite lookup_insert_eq. split_and!; [done..|].
  intros t0 p0 n0 Hne [[-> _]|[_ H0]]%pcs_insert; [done|by eapply Hall].
Qed.

Lemma protocol_give x ps t p n hr p' n' :
  protocol x ps → ps !! t = Some (p, n) → phase t p n = Some hr →
  phase t p' n' = None → pc_ok p' n' → protocol (Lock NULL 1 0) (<[t := (p', n')]> ps).
Proof.
  intros Hpr Ht Hph Hph' Hok. split; [by eapply protocol_pc|]. left. split; [done|].
  destruct hr as [h r]. destruct (protocol_owner _ _ _ _ _ _ _ Hpr Ht Hph) as (_ & _ & _ & Hall).
  intros t0 p0 n0 [[-> [= <- <-]]|[Hne H0]]%pcs_insert; [done|by eapply Hall].
Qed.

(** The comparison with [holder] finds out whether the thread owns the lock. *)
Lemma protocol_holder x ps t n :
  protocol x ps → ps !! t = Some (Acquire, n) → (holder x =? t) = bool_decide (n ≠ 0%nat).
Proof.
  intros Hpr Ht. destruct (pr_pc Hpr _ _ _ Ht) as [Hnull _].
  destruct (decide (n = 0%nat)) as [->|Hn].
  - rewrite bool_decide_false by (intros []; done). apply Z.eqb_neq.
    destruct (pr_lock Hpr) as [[-> _]|(_ & o & p & n & Ho & Hph & _)]; [done|].
    destruct (decide (o = t)) as [->|Hne].
    + rewrite Ho in Ht. by simplify_eq.
    + destruct p; simpl in Hph; repeat case_decide; simplify_eq; try congruence.
  - rewrite bool_decide_true by done. apply Z.eqb_eq.
    eapply (protocol_owner x ps t Acquire n); [done..|]. simpl. by rewrite decide_False.
Qed.
End protocol_lemmas.

(** *** The whole invariant *)

Definition waiting (ps : gmap Z (pc * nat)) (t : Z) : Prop :=
  ∃ p n, ps !! t = Some (p, n) ∧ is_wait p = true.

Section invariant.
Context `{FpEval, Layout, Env}.

(** The last three: the threads in the waiters' list are in their thread_block; a
    free lock with threads in that list has a woken thread on its way; a thread
    that comes back from thread_block finds interrupts off. *)
Record inv_at (l : Z) (k : kernel) (ps : gmap Z (pc * nat)) (rs ws : list Z) (x : lock) : Prop := {
  in_sched : sched_ok l k rs ws;
  in_lock : k_locks k !! l = Some x;
  in_protocol : protocol x ps;
  in_threads : ∀ t, t ∈ k_cur k :: rs ++ ws ↔ is_Some (ps !! t);
  in_waiters : ∀ t, t ∈ ws → waiting ps t;
  in_wakeup : value x = 1 → ws ≠ [] → ∃ t, t ∈ k_cur k :: rs ∧ waiting ps t;
  in_if : k_if k = true → ¬ waiting ps (k_cur k)
}.

Arguments in_threads {_ _ _ _ _ _} _.
Arguments in_waiters {_ _ _ _ _ _} _.
Arguments in_wakeup {_ _ _ _ _ _} _.
Arguments in_protocol {_ _ _ _ _ _} _.

Definition inv (l : Z) (k : kernel) (ps : gmap Z (pc * nat)) : Prop :=
  ∃ rs ws x, inv_at l k ps rs ws x.

(** The invariant again, and how the threads moved. *)
Definition inv_moved (b : bool) (l : Z) (k : kernel) (rs ws : list Z) (k' : kernel) (ps' : gmap Z (pc * nat)) : Prop :=
  ∃ rs' ws' x', inv_at l k' ps' rs' ws' x' ∧
    moved (k_cur k) (slices k) rs ws b (k_cur k') (slices k') rs' ws'.

Lemma inv_moved_inv b l k rs ws k' ps' : inv_moved b l k rs ws k' ps' → inv l k' ps'.
Proof. intros (rs' & ws' & x' & Hi & _). by exists rs', ws', x'. Qed.

Lemma waiting_insert_ne ps t pn u : t ≠ u → waiting (<[t := pn]> ps) u ↔ waiting ps u.
Proof. intros Hne. unfold waiting. by rewrite lookup_insert_ne. Qed.

Lemma waiting_at ps t p n : ps !! t = Some (p, n) → waiting ps t ↔ is_wait p = true.
Proof. intros Ht. split; [intros (? & ? & ? & ?); by simplify_eq|intros ?; by exists p, n]. Qed.

Lemma cur_not_ws l k ps rs ws x : inv_at l k ps rs ws x → (k_cur k ∉ rs) ∧ (k_cur k ∉ ws).
Proof.
  intros [Hs _ _ _ _ _ _]. apply so_nodup, NoDup_cons in Hs as [Hni _]. set_solver.
Qed.

Lemma threads_insert l k ps rs ws x p n pn t :
  inv_at l k ps rs ws x → ps !! k_cur k = Some (p, n) →
  t ∈ k_cur k :: rs ++ ws ↔ is_Some (<[k_cur k := pn]> ps !! t).
Proof.
  intros Hinv Ht. rewrite (in_threads Hinv). rewrite lookup_insert_is_Some.
  destruct (decide (k_cur k = t)) as [<-|]; [|tauto]. rewrite Ht. naive_solver.
Qed.

(** A step that does not touch the scheduler. *)
Lemma inv_plain l k k' ps rs ws x x' p n p' n' :
  inv_at l k ps rs ws x → ps !! k_cur k = Some (p, n) →
  k_nodes k' = k_nodes k → k_tasks k' = k_tasks k → k_cur k' = k_cur k → k_mmu k' = k_mmu k →
  k_gdtr k' = k_gdtr k → k_locks k' !! l = Some x' →
  protocol x' (<[k_cur k := (p', n')]> ps) → is_wait p' = false →
  (value x' = 0 ∨ (value x' = value x ∧ is_wait p = false)) →
  inv_at l k' (<[k_cur k := (p', n')]> ps) rs ws x'.
Proof.
  intros Hinv Ht Hn Htk Hc Hm Hg Hl Hpr Hp' Hv. pose proof (cur_not_ws _ _ _ _ _ _ Hinv) as [_ Hws].
  split.
  - eapply sched_ok_ext; [done..|apply Hinv].
  - done.
  - done.
  - intros t. rewrite Hc. by eapply threads_insert.
  - intros t Hin. rewrite waiting_insert_ne by (intros <-; done). by apply (in_waiters Hinv).
  - rewrite Hc. intros Hv1 Hne. destruct Hv as [?|[Hveq Hp]]; [lia|]. rewrite Hveq in Hv1.
    destruct (in_wakeup Hinv Hv1 Hne) as (t & Hin & Hwt). exists t. split; [done|].
    rewrite waiting_insert_ne; [done|]. intros <-. apply (waiting_at _ _ _ _ Ht) in Hwt. congruence.
  - rewrite Hc. intros _. rewrite waiting_at by apply lookup_insert_eq. by rewrite Hp'.
Qed.

(** The owner of a taken lock is ready when it does not run. *)
Lemma owner_ready l k ps rs ws x p n :
  inv_at l k ps rs ws x → ps !! k_cur k = Some (p, n) → phase (k_cur k) p n = None →
  value x = 0 → ∃ next q, rs = next :: q.
Proof.
  intros Hinv Ht Hph Hv.
  destruct (pr_lock (in_protocol Hinv)) as [[-> _]|(_ & o & po & no & Ho & Hoph & _)]; [done|].
  assert (Hin : o ∈ k_cur k :: rs ++ ws) by (apply (in_threads Hinv); eauto).
  apply elem_of_cons in Hin as [->|[Hin|Hin]%elem_of_app].
  - rewrite Ho in Ht. by simplify_eq.
  - destruct rs as [|next q]; [set_solver|eauto].
  - apply (in_waiters Hinv) in Hin as (pw & nw & Hw & Hwait).
    rewrite Ho in Hw. simplify_eq. by destruct pw.
Qed.

(** A round of sema_dowm takes the lock or queues the thread and switches. *)
Lemma enqueue_ok l k ps rs ws x :
  inv_at l k ps rs ws x →
  ∃ h', enqueue_waiter l k = Ok tt (set_nodes h' k) ∧
    dlist h' (waiters l) (general_tag <$> ws ++ [k_cur k]) ∧
    same_outside (general_tag (k_cur k) :: nodes (waiters l) (general_tag <$> ws)) (k_nodes k) h'.
Proof.
  intros Hinv. pose proof (cur_not_ws _ _ _ _ _ _ Hinv) as [_ Hws]. destruct Hinv as [[] _ _ _ _ _ _].
  assert (Hap : apart l (k_nodes k) (k_cur k)) by (apply so_apart; set_solver).
  destruct (tags_apart l _ ws _ Hap Hws) as [_ Hni].
  destruct (list_append_ok (i_if (k_intr k)) _ _ _ _ so_wait Hni) as (h' & Happ & Hd & Hout).
  { apply Hap. }
  exists h'. rewrite fmap_app. split_and!; [|done|done].
  unfold enqueue_waiter, running_thread. rewrite bind_gets.
  assert (Hfind : zoom l_core (elem_find (waiters l) (general_tag (k_cur k))) k = Ok false k).
  { apply zoom_core_read. rewrite (elem_find_ok _ _ _ _ _ so_wait).
    - f_equal. apply bool_decide_eq_false_2. rewrite nodes_elem in Hni. tauto.
    - intros Heq. apply Hni, nodes_elem. auto. }
  rewrite (bind_Ok _ _ _ _ _ Hfind), bind_assert, bind_gets. by apply zoom_core.
Qed.

Lemma inv_at_if l k b ps rs ws x p n :
  inv_at l k ps rs ws x → ps !! k_cur k = Some (p, n) → (b = true → is_wait p = false) →
  inv_at l (set_if b k) ps rs ws x.
Proof.
  intros [] Ht Hb. split; try done.
  - by apply (sched_ok_ext l k).
  - intros Hon. change (k_cur (set_if b k)) with (k_cur k). rewrite (waiting_at _ _ _ _ Ht).
    rewrite Hb; [done|exact Hon].
Qed.

Lemma down_round_ok l k ps rs ws x p :
  inv_at l k ps rs ws x → k_if k = false → ps !! k_cur k = Some (p, 0%nat) →
  phase (k_cur k) p 0 = None →
  ∃ p' k', down_round l INTR_ON k = Ok p' k' ∧ inv_moved false l k rs ws k' (<[k_cur k := (p', 0%nat)]> ps).
Proof.
  intros Hinv Hif Ht Hph. pose proof Hinv as [Hs Hl Hpr _ _ _ _].
  unfold down_round. rewrite (bind_Ok _ _ _ _ _ (load_lock_ok _ _ _ Hl)).
  destruct (Z.eqb_spec (value x) 0) as [Hv|Hv].
  - destruct (enqueue_ok _ _ _ _ _ _ Hinv) as (h & Hrun & Hd & Hout).
    rewrite (bind_Ok _ _ _ _ _ Hrun).
    destruct (owner_ready _ _ _ _ _ _ _ _ Hinv Ht Hph Hv) as (next & q & Hrs).
    destruct (block_out_ok l k h rs ws (ws ++ [k_cur k]) next q Hs Hif Hrs Hd Hout)
      as (k' & Hb & [Hs' Hc' Hl' _ Hif' _ _] & _ & Hsl').
    { intros t. rewrite elem_of_app, list_elem_of_singleton. tauto. }
    { rewrite (assoc (++)). apply NoDup_app. pose proof (so_nodup _ _ _ _ Hs) as [Hni ?]%NoDup_cons.
      split_and!; [done| |apply NoDup_singleton]. by intros t Hin ->%list_elem_of_singleton. }
    exists (Wait INTR_OFF INTR_ON), k'. rewrite (bind_Ok _ _ _ _ _ Hb). split; [done|].
    exists q, (ws ++ [k_cur k]), x. split; [|rewrite Hc'; by eapply mv_block].
    split; [done|by rewrite Hl'| | | | |].
    + eapply protocol_none; [done..| |]; by split_and?.
    + intros t. rewrite Hc', <- (threads_insert l k ps rs ws x p 0%nat) by done.
      rewrite Hrs. set_solver.
    + intros t [Hin|Hin]%elem_of_app; [|apply list_elem_of_singleton in Hin as ->].
      * destruct (decide (k_cur k = t)) as [<-|Hne]; [by eapply waiting_at; [apply lookup_insert_eq|]|].
        rewrite waiting_insert_ne by done. by apply (in_waiters Hinv).
      * by eapply waiting_at; [apply lookup_insert_eq|].
    + lia.
    + congruence.
  - destruct (pr_lock Hpr) as [[Hx _]|[? _]]; [|done]. subst x.
    set (k1 := set_locks (<[l := Lock NULL 0 0]> (k_locks k)) k).
    assert (Htake : sema_take l k = Ok tt k1).
    { unfold sema_take. rewrite (bind_Ok _ _ _ _ _ (update_lock_ok _ _ _ _ Hl)).
      change (set_locks _ _) with k1.
      by rewrite (bind_Ok _ _ _ _ _ (load_lock_ok _ _ k1 (set_locks_lookup _ _ _))). }
    rewrite (bind_Ok _ _ _ _ _ Htake). exists SetHolder, (set_if true k1).
    rewrite (bind_Ok _ _ _ _ _ (k_intr_set_status_ok true k1)). split; [done|].
    exists rs, ws, (Lock NULL 0 0). split; [|by apply mv_stay].
    eapply (inv_plain l k); [done|done|done|done|done|done|done| | |done|by left].
    + apply set_locks_lookup.
    + eapply protocol_take; [done..| |]; done.
Qed.

(** sema_up moves the first waiter to the front of the ready list. *)
Lemma wake_ok l k rs w ws :
  sched_ok l k rs (w :: ws) →
  ∃ k', (tag ← zoom l_core (list_pop (waiters l)); thread_unblock (entry_of_tag tag)) k = Ok tt k' ∧
    sched_ok l k' (w :: rs) ws ∧ k_cur k' = k_cur k ∧ k_locks k' = k_locks k ∧ k_if k' = k_if k ∧
    ∀ t, slices k' t = slices k t.
Proof.
  intros Hs. pose proof Hs as [Hr Hw Hnd Hla Hap Hgc Hgr Hgw Hact]. rewrite fmap_cons in Hw.
  destruct (list_pop_ok (i_if (k_intr k)) _ _ _ _ Hw) as (h1 & Hpop & Hw1 & Hout1).
  assert (Hperm : k_cur k :: rs ++ w :: ws ≡ₚ w :: k_cur k :: rs ++ ws).
  { rewrite <- Permutation_middle. apply Permutation_swap. }
  rewrite Hperm in Hnd. apply NoDup_cons in Hnd as [Hwni Hnd].
  assert (Hap' : ∀ t, t ∈ w :: k_cur k :: rs ++ ws → apart l h1 t).
  { intros t Ht. destruct (Hap t) as (? & ? & Hin); [by rewrite Hperm|]. split_and!; [done..|].
    destruct Hout1 as [Hdom _]. by rewrite <- elem_of_dom, Hdom, elem_of_dom. }
  destruct (unblock_ok l (set_nodes h1 k) rs ws w) as (k' & Hun & Hs' & Hc' & Hl' & _ & Hif' & Hsl').
  - split; try done.
    + eapply dlist_frame; [exact Hr|exact Hout1|]. intros z Hz. apply NoDup_cons in Hnd as [_ Hnd].
      by apply (nodes_apart l (k_nodes k) rs ws z Hla); [intros t Ht; apply Hap; set_solver|..].
    + intros t Ht. apply Hap'. set_solver.
    + intros t Ht. apply Hgw. set_solver.
  - apply Hgw. set_solver.
  - apply Hap'. set_solver.
  - done.
  - exists k'. rewrite (bind_Ok _ _ _ _ _ (zoom_core _ k _ h1 Hpop)), entry_general_tag. done.
Qed.

Lemma sema_up_ok l k ps rs ws x n :
  inv_at l k ps rs ws x → ps !! k_cur k = Some (Up, n) → k_if k = true →
  ∃ k', sema_up l k = Ok tt k' ∧ k_cur k' = k_cur k ∧
    inv_moved false l k rs ws k' (<[k_cur k := (Run, pred n)]> ps).
Proof.
  intros Hinv Ht Hif. pose proof (inv_at_if l k false _ _ _ _ _ _ Hinv Ht ltac:(done)) as Hinv0.
  pose proof Hinv0 as [Hs Hl Hpr Hth Hwt _ _]. set (k0 := set_if false k) in *.
  destruct (pr_pc Hpr _ _ _ Ht) as [_ Hn]. simpl in Hn. subst n.
  destruct (protocol_owner _ _ _ _ _ _ _ Hpr Ht eq_refl) as (Hv & Hh & Hnr & _).
  assert (Hwake : ∃ rs' ws' k1,
    (empty ← zoom l_core (list_empty (waiters l));
     when (negb empty) (tag ← zoom l_core (list_pop (waiters l)); thread_unblock (entry_of_tag tag))) k0 =
      Ok tt k1 ∧ sched_ok l k1 rs' ws' ∧ k_cur k1 = k_cur k ∧ k_locks k1 = k_locks k ∧
    (∀ t, t ∈ k_cur k :: rs' ++ ws' ↔ t ∈ k_cur k :: rs ++ ws) ∧ (∀ t, t ∈ ws' → t ∈ ws) ∧
    (ws' ≠ [] → ∃ t, t ∈ rs' ∧ t ∈ ws) ∧
    moved (k_cur k) (slices k) rs ws false (k_cur k) (slices k1) rs' ws').
  { pose proof (zoom_core_read _ k0 _ (list_empty_ok (i_if (k_intr k0)) _ _ _ (so_wait _ _ _ _ Hs))) as He.
    destruct ws as [|w ws].
    - exists rs, [], k0. rewrite (bind_Ok _ _ _ _ _ He). split_and!; try done. by apply mv_stay.
    - rewrite bool_decide_false in He by done. destruct (wake_ok _ _ _ _ _ Hs) as (k1 & Hrun & Hs1 & Hc1 & Hl1 & _ & Hsl1).
      exists (w :: rs), ws, k1. rewrite (bind_Ok _ _ _ _ _ He). split_and!; [done..| | | |by eapply mv_wake]; set_solver. }
  destruct Hwake as (rs' & ws' & k1 & Hrun & Hs1 & Hc1 & Hl1 & Hmem & Hsub & Hwoken & Hmv).
  set (x' := Lock NULL 1 0). set (k2 := set_locks (<[l := x']> (k_locks k1)) k1).
  assert (Hlk1 : k_locks k1 !! l = Some x) by by rewrite Hl1.
  exists (set_if true k2). split_and!.
  - unfold sema_up. rewrite (bind_Ok _ _ _ _ _ (k_intr_disable_ok k)), Hif.
    rewrite (bind_Ok _ _ _ _ _ (load_lock_ok _ _ k0 Hl)), Hv, bind_assert.
    rewrite <- bind_assoc, (bind_Ok _ _ _ _ _ Hrun).
    rewrite (bind_Ok _ _ _ _ _ (update_lock_ok l x _ k1 Hlk1)).
    replace (set_value (u8 (value x + 1)) x) with x' by (destruct x; simpl in *; by subst).
    change (set_locks _ k1) with k2.
    rewrite (bind_Ok _ _ _ _ _ (load_lock_ok _ _ k2 (set_locks_lookup _ _ _))), bind_assert.
    by rewrite (bind_Ok _ _ _ _ _ (k_intr_set_status_ok true k2)).
  - done.
  - exists rs', ws', x'. split; [|change (k_cur (set_if true k2)) with (k_cur k1); by rewrite Hc1].
    split.
    + by apply (sched_ok_ext l k1).
    + apply set_locks_lookup.
    + by eapply protocol_give.
    + intros t. change (k_cur (set_if true k2)) with (k_cur k1). rewrite Hc1, Hmem.
      by apply (threads_insert l k ps rs ws x Up 1%nat).
    + intros t Hin. rewrite waiting_insert_ne; [by apply Hwt, Hsub|]. intros <-.
      pose proof (cur_not_ws _ _ _ _ _ _ Hinv). set_solver.
    + intros _ Hne. destruct (Hwoken Hne) as (t & Hin & Hin'). exists t. split; [set_solver|].
      rewrite waiting_insert_ne; [by apply Hwt|]. intros <-.
      pose proof (cur_not_ws _ _ _ _ _ _ Hinv). set_solver.
    + intros _. change (k_cur (set_if true k2)) with (k_cur k1). rewrite Hc1.
      by rewrite waiting_at by apply lookup_insert_eq.
Qed.

(** A statement of lock_acquire or lock_release that only looks at or writes the
    lock. *)
Lemma plain_code l k ps rs ws x p n p' x' :
  inv_at l k ps rs ws x → ps !! k_cur k = Some (p, n) → is_wait p = false → is_wait p' = false →
  lock_step l p k = Ok p' (set_locks (<[l := x']> (k_locks k)) k) → value x' = value x →
  protocol x' (<[k_cur k := (p', new_depth p n)]> ps) →
  ∃ p' k', lock_step l p k = Ok p' k' ∧ inv_moved false l k rs ws k' (<[k_cur k := (p', new_depth p n)]> ps).
Proof.
  intros Hinv Ht Hp Hp' Hrun Hv Hpr. exists p', (set_locks (<[l := x']> (k_locks k)) k).
  split; [done|]. exists rs, ws, x'. split; [|by apply mv_stay].
  eapply (inv_plain l k); [done..| |done|done|by right]. apply set_locks_lookup.
Qed.

(** The statements that write the lock, for its owner. *)
Lemma owner_code l k ps rs ws x p n f p' :
  inv_at l k ps rs ws x → ps !! k_cur k = Some (p, n) → is_wait p = false → is_wait p' = false →
  lock_step l p = (_ ← update_lock l f; mret p') → value (f x) = value x →
  is_Some (phase (k_cur k) p n) →
  phase (k_cur k) p' (new_depth p n) = Some (holder (f x), holder_repeat_nr (f x)) →
  pc_ok p' (new_depth p n) →
  ∃ p' k', lock_step l p k = Ok p' k' ∧ inv_moved false l k rs ws k' (<[k_cur k := (p', new_depth p n)]> ps).
Proof.
  intros Hinv Ht Hp Hp' Hrun Hv [[h r] Hph] Hph' Hok. pose proof Hinv as [_ Hl Hpr _ _ _ _].
  destruct (protocol_owner _ _ _ _ _ _ _ Hpr Ht Hph) as (Hv0 & _).
  apply (plain_code l k ps rs ws x p n p' (f x)); try done.
  - by rewrite Hrun, (bind_Ok _ _ _ _ _ (update_lock_ok _ _ _ _ Hl)).
  - eapply protocol_own; [done..|congruence|done|done].
Qed.

(** The statements that only test it. *)
Lemma test_code l k ps rs ws x p n p' :
  inv_at l k ps rs ws x → ps !! k_cur k = Some (p, n) → is_wait p = false → is_wait p' = false →
  lock_step l p k = Ok p' k → new_depth p n = n → phase (k_cur k) p' n = phase (k_cur k) p n →
  pc_ok p' n →
  ∃ p' k', lock_step l p k = Ok p' k' ∧ inv_moved false l k rs ws k' (<[k_cur k := (p', new_depth p n)]> ps).
Proof.
  intros Hinv Ht Hp Hp' Hrun Hd Hph Hok. pose proof Hinv as [_ Hl Hpr _ _ _ _].
  apply (plain_code l k ps rs ws x p n p' x); try done.
  - rewrite Hrun. by rewrite set_locks_id.
  - rewrite Hd. destruct (phase (k_cur k) p n) as [[h r]|] eqn:Hpn.
    + destruct (protocol_owner _ _ _ _ _ _ _ Hpr Ht Hpn) as (? & <- & <- & _).
      by eapply protocol_own.
    + by eapply protocol_none.
Qed.

(** What the owner of the lock finds in it. *)
Lemma owner_reads l k ps rs ws x p n h r :
  inv_at l k ps rs ws x → ps !! k_cur k = Some (p, n) → phase (k_cur k) p n = Some (h, r) →
  holder x = h ∧ holder_repeat_nr x = r.
Proof.
  intros [_ _ Hpr _ _ _ _] Ht Hph. by destruct (protocol_owner _ _ _ _ _ _ _ Hpr Ht Hph) as (_ & ? & ? & _).
Qed.

(** The steps of lock_release; the others are those of lock_acquire. *)
Definition releasing (p : pc) : bool :=
  match p with
  | Release | Branch | Decr | CheckOne | ClearHolder | ClearNr | Up => true
  | _ => false
  end.

Lemma acquire_code_ok l k ps rs ws x p n :
  inv_at l k ps rs ws x → ps !! k_cur k = Some (p, n) → p ≠ Run → releasing p = false →
  k_if k = negb (is_wait p) →
  ∃ p' k', lock_step l p k = Ok p' k' ∧ inv_moved false l k rs ws k' (<[k_cur k := (p', new_depth p n)]> ps).
Proof.
  intros Hinv Ht Hrun Hside Hif. pose proof Hinv as [_ Hl Hpr _ _ _ _].
  destruct (pr_pc Hpr _ _ _ Ht) as [Hnull Hok].
  pose proof (load_lock_ok l x k Hl) as Hload.
  pose proof (λ h r, owner_reads l k ps rs ws x p n h r Hinv Ht) as Hown.
  destruct p as [| | | |ob old| | | | | | | | | |]; simpl in Hok, Hown, Hside; try done.
  - (* Acquire *)
    assert (Hstep : lock_step l Acquire k = Ok (if bool_decide (n ≠ 0%nat) then Again else Down) k).
    { simpl. rewrite (bind_Ok _ _ _ _ _ Hload). unfold running_thread. rewrite bind_gets.
      rewrite (protocol_holder _ _ _ _ Hpr Ht). by case_bool_decide. }
    case_bool_decide as Hn;
      refine (test_code l k ps rs ws x Acquire n _ Hinv Ht eq_refl _ Hstep eq_refl _ _); simpl;
      rewrite ?(decide_True (P := n = 0%nat)), ?(decide_False (P := n = 0%nat)) by lia; (done || lia).
  - (* Again *)
    destruct Hok as [Hn0 Hn]. destruct (Hown _ _ eq_refl) as [Hh Hr].
    refine (owner_code l k ps rs ws x Again n
      (λ x, set_repeat_nr (u32 (holder_repeat_nr x + 1)) x) Run Hinv Ht eq_refl eq_refl eq_refl eq_refl _ _ _);
      simpl; [done| |lia].
    rewrite Hh, Hr, u32_small by lia. do 2 f_equal. lia.
  - (* Down *)
    subst n. pose proof (inv_at_if l k false _ _ _ _ _ _ Hinv Ht ltac:(done)) as Hinv0.
    destruct (down_round_ok l (set_if false k) ps rs ws x Down Hinv0 eq_refl Ht eq_refl)
      as (p' & k' & Hk' & Hi'). exists p', k'. split; [|done].
    simpl. by rewrite (bind_Ok _ _ _ _ _ (k_intr_disable_ok k)), Hif.
  - (* Wait *)
    destruct Hok as (-> & -> & ->).
    pose proof (inv_at_if l k false _ _ _ _ _ _ Hinv Ht ltac:(done)) as Hinv0.
    destruct (down_round_ok l (set_if false k) ps rs ws x _ Hinv0 eq_refl Ht eq_refl)
      as (p' & k' & Hk' & Hi'). exists p', k'. split; [|done].
    simpl. by rewrite (bind_Ok _ _ _ _ _ (k_intr_set_status_ok false k)).
  - (* SetHolder *)
    subst n. destruct (Hown _ _ eq_refl) as [Hh Hr].
    apply (plain_code l k ps rs ws x _ _ CheckNr (set_holder (k_cur k) x)); try done.
    + simpl. unfold running_thread. rewrite bind_gets.
      by rewrite (bind_Ok _ _ _ _ _ (update_lock_ok _ _ _ _ Hl)).
    + destruct (protocol_owner _ _ _ _ _ _ _ Hpr Ht eq_refl) as (Hv & _).
      eapply protocol_own; [done..| |done]. simpl. by rewrite Hr.
  - (* CheckNr *)
    subst n. destruct (Hown _ _ eq_refl) as [Hh Hr].
    apply (test_code l k ps rs ws x _ _ SetNr); try done. simpl.
    by rewrite (bind_Ok _ _ _ _ _ Hload), Hr.
  - (* SetNr *)
    subst n. destruct (Hown _ _ eq_refl) as [Hh Hr].
    refine (owner_code l k ps rs ws x SetNr 0 (set_repeat_nr 1) Run Hinv Ht eq_refl eq_refl eq_refl
      eq_refl _ _ _); simpl; [done| |lia]. by rewrite Hh.
Qed.

Lemma release_code_ok l k ps rs ws x p n :
  inv_at l k ps rs ws x → ps !! k_cur k = Some (p, n) → releasing p = true →
  k_if k = negb (is_wait p) →
  ∃ p' k', lock_step l p k = Ok p' k' ∧ inv_moved false l k rs ws k' (<[k_cur k := (p', new_depth p n)]> ps).
Proof.
  intros Hinv Ht Hside Hif. pose proof Hinv as [_ Hl Hpr _ _ _ _].
  destruct (pr_pc Hpr _ _ _ Ht) as [Hnull Hok].
  pose proof (load_lock_ok l x k Hl) as Hload.
  pose proof (λ h r, owner_reads l k ps rs ws x p n h r Hinv Ht) as Hown.
  destruct p as [| | | |ob old| | | | | | | | | |]; simpl in Hok, Hown, Hside; try done.
  - (* Release *)
    destruct (Hown _ _ eq_refl) as [Hh Hr].
    apply (test_code l k ps rs ws x _ _ Branch); try done. simpl.
    rewrite (bind_Ok _ _ _ _ _ Hload). unfold running_thread. by rewrite bind_gets, Hh, Z.eqb_refl.
  - (* Branch *)
    destruct (Hown _ _ eq_refl) as [Hh Hr].
    assert (Hstep : lock_step l Branch k = Ok (if 1 <? holder_repeat_nr x then Decr else CheckOne) k).
    { simpl. by rewrite (bind_Ok _ _ _ _ _ Hload). }
    destruct (Z.ltb_spec 1 (holder_repeat_nr x));
      refine (test_code l k ps rs ws x Branch n _ Hinv Ht eq_refl _ Hstep eq_refl _ _);
      simpl; (done || lia).
  - (* Decr *)
    destruct Hok as [Hn1 Hn]. destruct (Hown _ _ eq_refl) as [Hh Hr].
    refine (owner_code l k ps rs ws x Decr n
      (λ x, set_repeat_nr (u32 (holder_repeat_nr x - 1)) x) Run Hinv Ht eq_refl eq_refl eq_refl eq_refl _ _ _);
      simpl; [done| |lia].
    rewrite decide_False by lia. rewrite Hh, Hr, u32_small by lia. do 2 f_equal. lia.
  - (* CheckOne *)
    subst n. destruct (Hown _ _ eq_refl) as [Hh Hr].
    apply (test_code l k ps rs ws x _ _ ClearHolder); try done. simpl.
    by rewrite (bind_Ok _ _ _ _ _ Hload), Hr.
  - (* ClearHolder *)
    subst n. destruct (Hown _ _ eq_refl) as [Hh Hr].
    refine (owner_code l k ps rs ws x ClearHolder 1 (set_holder NULL) ClearNr Hinv Ht eq_refl eq_refl
      eq_refl eq_refl _ _ _); simpl; [done| |done]. by rewrite Hr.
  - (* ClearNr *)
    subst n. destruct (Hown _ _ eq_refl) as [Hh Hr].
    refine (owner_code l k ps rs ws x ClearNr 1 (set_repeat_nr 0) Up Hinv Ht eq_refl eq_refl
      eq_refl eq_refl _ _ _); simpl; [done| |done]. by rewrite Hh.
  - (* Up *)
    destruct (sema_up_ok l k ps rs ws x n Hinv Ht Hif) as (k' & Hk' & _ & Hi').
    exists Run, k'. split; [|done]. simpl. by rewrite (bind_Ok _ _ _ _ _ Hk').
Qed.

Lemma code_ok l k ps rs ws x p n :
  inv_at l k ps rs ws x → ps !! k_cur k = Some (p, n) → p ≠ Run → k_if k = negb (is_wait p) →
  ∃ p' k', lock_step l p k = Ok p' k' ∧ inv_moved false l k rs ws k' (<[k_cur k := (p', new_depth p n)]> ps).
Proof.
  intros. destruct (releasing p) eqn:?; [by eapply release_code_ok|by eapply acquire_code_ok].
Qed.

Lemma tick_ok l k ps rs ws x :
  inv_at l k ps rs ws x → k_if k = true →
  ∃ k', (_ ← k_intr_disable; clock_out) k = Ok tt k' ∧ inv_moved true l k rs ws k' ps.
Proof.
  intros [Hs Hl Hpr Hth Hwt Hwk Hnw] Hif.
  destruct (clock_out_ok l k rs ws Hs) as (k' & rs' & Hrun & [Hs' Hperm Hl' _ Hif' _ _ Hmv]).
  exists k'. split; [done|]. exists rs', ws, x. split; [|done]. split; [done|by rewrite Hl'|done| |done| |congruence].
  - intros t. by rewrite app_comm_cons, Hperm, <- app_comm_cons, Hth.
  - intros Hv Hne. destruct (Hwk Hv Hne) as (t & Hin & Hwait). exists t. split; [|done]. by rewrite Hperm.
Qed.

Lemma call_ok l k ps rs ws x n p' :
  inv_at l k ps rs ws x → ps !! k_cur k = Some (Run, n) →
  ((p' = Acquire ∧ Z.of_nat n + 1 < 2 ^ 32) ∨ (p' = Release ∧ (0 < n)%nat)) →
  inv_moved false l k rs ws k (<[k_cur k := (p', n)]> ps).
Proof.
  intros Hinv Ht Hp. pose proof Hinv as [_ Hl Hpr _ _ _ _]. exists rs, ws, x. split; [|by apply mv_stay].
  destruct (pr_pc Hpr _ _ _ Ht) as [_ Hok]. simpl in Hok.
  assert (Hpc : pc_ok p' n) by (destruct Hp as [[-> ?]|[-> ?]]; simpl; lia).
  assert (Hw : is_wait p' = false) by by destruct Hp as [[-> _]|[-> _]].
  apply (inv_plain l k k ps rs ws x x Run n p' n Hinv Ht); try done; [|by right].
  destruct n as [|n].
  - destruct Hp as [[-> _]|[_ ?]]; [by eapply protocol_none|lia].
  - destruct (protocol_owner _ _ _ _ _ _ _ Hpr Ht eq_refl) as (? & Hh & Hr & _).
    eapply protocol_own; [done..| |done]. rewrite Hh, Hr. by destruct Hp as [[-> _]|[-> _]].
Qed.

Definition is_tick (e : event) : bool := match e with Tick => true | _ => false end.

(** Every event that can happen runs to its end, keeps the invariant and moves the
    threads as [moved] says. *)
Lemma exec_moved l c e rs ws x :
  inv_at l (kern c) (pcs c) rs ws x → enabled l c e →
  ∃ ps' k', exec l e (pcs c) (kern c) = Ok ps' k' ∧ inv_moved (is_tick e) l (kern c) rs ws k' ps'.
Proof.
  destruct c as [k ps]. simpl. intros Hinv. destruct e as [| |p n|p n|k']; simpl.
  - intros Hif. destruct (tick_ok l k ps rs ws x Hinv Hif) as (k' & Hrun & Hinv').
    exists ps, k'. split; [|done]. revert Hrun. rewrite !bind_unfold.
    destruct (k_intr_disable k) as [st k1| | | |]; [|done..].
    intros Hc. by rewrite (bind_Ok _ _ _ _ _ Hc).
  - intros (Hif & p & n & Ht & Hp).
    exists ps, (set_if true k). split; [by rewrite (bind_Ok _ _ _ _ _ (k_intr_enable_ok k))|].
    exists rs, ws, x. split; [by eapply inv_at_if|by apply mv_stay].
  - intros (Ht & Hp & Hif). destruct (code_ok l k ps rs ws x p n Hinv Ht Hp Hif) as (p' & k' & Hrun & Hinv').
    eexists _, k'. split; [|exact Hinv']. unfold running_thread.
    by rewrite bind_gets, (bind_Ok _ _ _ _ _ Hrun).
  - intros (Ht & _ & Hp). eexists _, k. split; [reflexivity|]. by eapply call_ok.
  - intros ((n & Ht) & Hif & [Hn Htk Hl Hc Hi Hm Hg]). exists ps, k'. split; [done|].
    destruct Hinv as [Hs Hlk Hpr Hth Hwt Hwk Hnw]. exists rs, ws, x. split.
    + split; rewrite ?Hc; try done; [by apply (sched_ok_ext l k)|by rewrite Hl|by rewrite Hi].
    + rewrite Hc. apply mv_stay. intros t. unfold slices. by rewrite Htk.
Qed.

Lemma exec_ok l c e :
  inv l (kern c) (pcs c) → enabled l c e →
  ∃ ps' k', exec l e (pcs c) (kern c) = Ok ps' k' ∧ inv l k' ps'.
Proof.
  intros (rs & ws & x & Hinv) He. destruct (exec_moved l c e rs ws x Hinv He) as (ps' & k' & Hrun & Hinv').
  exists ps', k'. split; [done|]. by eapply inv_moved_inv.
Qed.

Record initial (l : Z) (c : config) : Prop := {
  init_ready : ∃ rs, sched_ok l (kern c) rs [] ∧
    ∀ t, t ∈ k_cur (kern c) :: rs ↔ is_Some (pcs c !! t);
  init_lock : k_locks (kern c) !! l = Some (Lock NULL 1 0);
  init_pcs : ∀ t pn, pcs c !! t = Some pn → pn = (Run, 0%nat)
}.

Lemma initial_inv l c : initial l c → inv l (kern c) (pcs c).
Proof.
  intros [(rs & Hs & Hth) Hl Hpcs]. exists rs, [], (Lock NULL 1 0). split; try done.
  - split.
    + intros t p n Ht. pose proof (Hpcs _ _ Ht) as [= -> ->]. split; [|done].
      apply (so_apart _ _ _ _ Hs). rewrite app_nil_r. apply Hth. eauto.
    + left. split; [done|]. intros t p n Ht. by pose proof (Hpcs _ _ Ht) as [= -> ->].
  - by rewrite app_nil_r.
  - set_solver.
  - intros _ (p & n & Ht & Hw). by pose proof (Hpcs _ _ Ht) as [= -> ->].
Qed.

Lemma reachable_inv l c0 c : initial l c0 → star (step l) c0 c → inv l (kern c) (pcs c).
Proof.
  intros Hinit Hstar. refine (star_invariant (step l) (λ c, inv l (kern c) (pcs c)) _ _ _ Hstar _).
  - intros c1 c2 Hinv (e & He & Hrun). destruct (exec_ok l c1 e Hinv He) as (ps' & k' & Hrun' & Hinv').
    rewrite Hrun in Hrun'. by simplify_eq.
  - by apply initial_inv.
Qed.
End invariant.

Arguments in_threads {_ _ _ _ _ _ _} _.
Arguments in_protocol {_ _ _ _ _ _ _} _.
Arguments in_lock {_ _ _ _ _ _ _} _.
Arguments in_sched {_ _ _ _ _ _ _} _.

(** ** Properties *)

Section properties.
Context `{FpEval, Layout, Env}.


(** C1 Mutual exclusion: however the clock interleaves any number of kernel
    threads, at most one of them is inside the lock; the lock then names it as its
    holder, counts its acquisitions, and is taken. *)
Theorem lock_mutual_exclusion l c0 c t n :
  initial l c0 → star (step l) c0 c → pcs c !! t = Some (Run, S n) →
  k_locks (kern c) !! l = Some (Lock t 0 (Z.of_nat (S n))) ∧
  ∀ u m, pcs c !! u = Some (Run, S m) → u = t.
Proof.
  intros Hinit Hstar Ht. destruct (reachable_inv _ _ _ Hinit Hstar) as (rs & ws & x & Hinv).
  destruct (protocol_owner _ _ _ _ _ _ _ (in_protocol Hinv) Ht eq_refl)
    as (Hv & Hh & Hr & Hall).
  split.
  - rewrite (in_lock Hinv). destruct x. simpl in *. by subst.
  - intros u m Hu. destruct (decide (u = t)) as [|Hne]; [done|]. by specialize (Hall u Run (S m) Hne Hu).
Qed.

(** C2 No run of the system fails: whatever can happen in a reachable state (a
    clock interrupt and the switch it causes, the return from one, a step of lock
    code, a call, other code of a thread) ends without a failed assertion, fault or
    deadlock panic, and something can always happen. *)
Theorem lock_system_safe l c0 c :
  initial l c0 → star (step l) c0 c →
  (∃ e, enabled l c e) ∧
  ∀ e, enabled l c e → ∃ ps k, exec l e (pcs c) (kern c) = Ok ps k.
Proof.
  intros Hinit Hstar. pose proof (reachable_inv _ _ _ Hinit Hstar) as Hinv. split.
  - destruct (k_if (kern c)) eqn:Hif; [by exists Tick|].
    destruct Hinv as (rs & ws & x & Hinv).
    destruct (proj1 (in_threads Hinv (k_cur (kern c))) ltac:(set_solver)) as [[p n] Ht].
    destruct (is_wait p) eqn:Hp; [|exists Iret; split; eauto].
    exists (Code p n). split_and!; [done|by intros ->|by rewrite Hp].
  - intros e He. destruct (exec_ok l c e Hinv He) as (ps & k & ? & _). eauto.
Qed.

(** C3 No wake-up is lost: while a thread waits for the lock there is a thread
    that is running or ready and either owns the lock, or has been woken to take
    the lock, which is free. *)
Theorem lock_no_lost_wakeup l c0 c t :
  initial l c0 → star (step l) c0 c → waiting (pcs c) t →
  ∃ u p n x s, pcs c !! u = Some (p, n) ∧ k_locks (kern c) !! l = Some x ∧
    (status <$> k_tasks (kern c) !! u) = Some s ∧ (s = TASK_RUNNING ∨ s = TASK_READY) ∧
    ((value x = 0 ∧ is_Some (phase u p n)) ∨ (value x = 1 ∧ is_wait p = true)).
Proof.
  intros Hinit Hstar Hwt. destruct (reachable_inv _ _ _ Hinit Hstar) as (rs & ws & x & Hinv).
  pose proof Hinv as [Hs Hl Hpr Hth Hws Hwk _].
  assert (Hrunnable : ∀ u, u ∈ k_cur (kern c) :: rs →
    ∃ s, (status <$> k_tasks (kern c) !! u) = Some s ∧ (s = TASK_RUNNING ∨ s = TASK_READY)).
  { intros u [->|Hu]%elem_of_cons.
    - destruct (so_cur _ _ _ _ Hs) as (y & -> & Hy & _). exists TASK_RUNNING. simpl. rewrite Hy. auto.
    - destruct (so_rs _ _ _ _ Hs u Hu) as (y & -> & Hy & _). exists TASK_READY. simpl. rewrite Hy. auto. }
  destruct (pr_lock Hpr) as [[Hx _]|(Hv & o & p & n & Ho & Hph & _)].
  - assert (Hu : ∃ u, u ∈ k_cur (kern c) :: rs ∧ waiting (pcs c) u).
    { destruct (decide (ws = [])) as [->|Hne]; [|apply Hwk; by subst x].
      exists t. split; [|done]. destruct Hwt as (p & n & Ht & _).
      rewrite app_nil_r in Hth. apply Hth. eauto. }
    destruct Hu as (u & Hu & p & n & Hpu & Hp). destruct (Hrunnable u Hu) as (s & Hst & Hor).
    exists u, p, n, x, s. split_and!; [done..|]. right. by subst x.
  - assert (Hu : o ∈ k_cur (kern c) :: rs).
    { assert (Hin : o ∈ k_cur (kern c) :: rs ++ ws) by (apply Hth; eauto).
      rewrite app_comm_cons, elem_of_app in Hin. destruct Hin as [|(pw & nw & Hw & Hwait)%Hws]; [done|].
      rewrite Ho in Hw. simplify_eq. by destruct pw. }
    destruct (Hrunnable o Hu) as (s & Hst & Hor).
    exists o, p, n, x, s. split_and!; [done..|]. left. rewrite Hph. eauto.
Qed.
End properties.

(** *** Witnesses: two threads, the first acquires the lock, the clock switches to
    the second, which waits for the lock *)

Section runs.
Context `{FpEval, Layout, Env}.

Fixpoint run (l : Z) (es : list event) (c : config) : config :=
  match es with
  | [] => c
  | e :: es' =>
      match exec l e (pcs c) (kern c) with Ok ps k => run l es' (Config k ps) | _ => c end
  end.

Definition enabledb (c : config) (e : event) : bool :=
  let k := kern c in
  match e with
  | Tick => k_if k
  | Iret => negb (k_if k) &&
      match pcs c !! k_cur k with Some (p, _) => negb (is_wait p) | None => false end
  | Code p n => bool_decide (pcs c !! k_cur k = Some (p, n)) && bool_decide (p ≠ Run) &&
      Bool.eqb (k_if k) (negb (is_wait p))
  | Call p n => bool_decide (pcs c !! k_cur k = Some (Run, n)) && k_if k &&
      bool_decide ((p = Acquire ∧ Z.of_nat n + 1 < 2 ^ 32) ∨ (p = Release ∧ (0 < n)%nat))
  | Client _ => false
  end.

Lemma enabledb_sound l c e : enabledb c e = true → enabled l c e.
Proof.
  destruct e as [| |p n|p n|k']; simpl; rewrite ?andb_true_iff, ?bool_decide_eq_true, ?Bool.eqb_true_iff.
  - done.
  - intros [Hif Hp]. destruct (pcs c !! _) as [[p n]|]; [|done].
    apply negb_true_iff in Hif, Hp. split; [done|]. by exists p, n.
  - tauto.
  - tauto.
  - done.
Qed.

Fixpoint trace (l : Z) (es : list event) (c : config) : bool :=
  match es with
  | [] => true
  | e :: es' => enabledb c e &&
      match exec l e (pcs c) (kern c) with Ok ps k => trace l es' (Config k ps) | _ => false end
  end.

Lemma trace_star l es c : trace l es c = true → star (step l) c (run l es c).
Proof.
  revert c. induction es as [|e es IH]; intros c; simpl; [constructor|].
  intros [He%(enabledb_sound l) Ht]%andb_true_iff.
  destruct (exec l e (pcs c) (kern c)) as [ps k| | | |] eqn:Hrun; try done.
  eapply star_cons; [|by apply IH]. by exists e.
Qed.
End runs.

#[local] Existing Instances x87 demo_layout demo_env.

(** The time slices are used up. *)
Definition lock_kernel : kernel :=
  set_tasks (with_ticks 0 <$> k_tasks sched_kernel) sched_kernel.

Definition demo_config : config :=
  Config lock_kernel {[0x20000 := (Run, 0%nat); 0x21000 := (Run, 0%nat)]}.

Definition demo_events : list event :=
  [Iret; Call Acquire 0; Code Acquire 0; Code Down 0; Code SetHolder 0; Code CheckNr 0; Code SetNr 0;
   Tick; Iret; Call Acquire 0; Code Acquire 0; Code Down 0].

Definition contended : config := run 0x11000 demo_events demo_config.

Lemma demo_initial : initial 0x11000 demo_config.
Proof.
  split.
  - exists [0x21000]. split.
    + split; [decided|decided|decided| | | | | |].
      * intros z. unfold nodes. simpl. unfold list_head, list_tail, waiters. simpl. set_solver.
      * intros t. simpl. rewrite !elem_of_cons, elem_of_nil.
        intros [->|[->|[]]]; (split_and!; [done|decided|by eexists]).
      * by eexists.
      * intros t ->%list_elem_of_singleton. by eexists.
      * set_solver.
      * by split; vm_compute.
    + intros t. simpl. split.
      * rewrite !elem_of_cons, elem_of_nil. intros [->|[->|[]]]; by eexists.
      * intros [pn [[<- _]|[_ [<- _]%lookup_singleton_Some]]%lookup_insert_Some]; set_solver.
  - reflexivity.
  - intros t pn. simpl.
    by intros [[_ <-]|[_ [_ <-]%lookup_singleton_Some]]%lookup_insert_Some.
Qed.

Lemma contended_reachable : star (step 0x11000) demo_config contended.
Proof. apply trace_star. vm_compute. reflexivity. Qed.

Lemma lock_mutual_exclusion_witness :
  pcs contended !! 0x20000 = Some (Run, 1%nat) ∧
  k_locks (kern contended) !! 0x11000 = Some (Lock 0x20000 0 1).
Proof.
  assert (Ht : pcs contended !! 0x20000 = Some (Run, 1%nat)) by (vm_compute; reflexivity).
  split; [exact Ht|].
  exact (proj1 (lock_mutual_exclusion 0x11000 demo_config contended 0x20000 0
    demo_initial contended_reachable Ht)).
Defined.

Lemma lock_system_safe_witness :
  ∃ e, enabled 0x11000 contended e ∧ ∃ ps k, exec 0x11000 e (pcs contended) (kern contended) = Ok ps k.
Proof.
  destruct (lock_system_safe 0x11000 demo_config contended demo_initial contended_reachable) as [[e He] Hrun].
  exists e. split; [exact He|exact (Hrun e He)].
Defined.

Lemma lock_no_lost_wakeup_witness :
  waiting (pcs contended) 0x21000 ∧
  ∃ u p n x s, pcs contended !! u = Some (p, n) ∧ k_locks (kern contended) !! 0x11000 = Some x ∧
    (status <$> k_tasks (kern contended) !! u) = Some s ∧ (s = TASK_RUNNING ∨ s = TASK_READY) ∧
    ((value x = 0 ∧ is_Some (phase u p n)) ∨ (value x = 1 ∧ is_wait p = true)).
Proof.
  assert (Hw : waiting (pcs contended) 0x21000).
  { exists (Wait INTR_OFF INTR_ON), 0%nat. split; [vm_compute; reflexivity|reflexivity]. }
  split; [exact Hw|].
  exact (lock_no_lost_wakeup 0x11000 demo_config contended 0x21000 demo_initial contended_reachable Hw).
Defined.
