(* ===== verification/Fair.v ===== *)
(** * No ready thread starves

    A bound on how long a ready thread waits for the processor in the system of
    LockSys.v.  The threads that can run before it are those ahead of it in the ready
    list, and those that wait for the lock, since a woken thread goes to the front.
    Together they have a number of clock ticks left; no event raises it, every clock
    interrupt lowers it, and a thread that has used up its slice goes behind. *)

From Stdlib Require Import ZArith Lia.
From stdpp Require Import base tactics gmap strings fin_maps functions list.
From S2P Require Import Prelude ByteMem CString Bitmap Interrupt DList Format Paging Idt Memory.
From S2P Require Import Kernel Sched Sync Alloc Thread Timer Switching LockSys.

(** ** The ticks left before a thread's turn *)

Section measure.
Implicit Types (t u : Z) (sl : Z → option (Z * Z)) (rs ws : list Z).

(** The threads in front of [t] in the ready list. *)
Fixpoint ahead t rs : list Z :=
  match rs with
  | [] => []
  | u :: rs' => if decide (u = t) then [] else u :: ahead t rs'
  end.

Definition slice_left sl u : nat := (Z.to_nat (default 0%Z (fst <$> sl u)) + 1)%nat.

Arguments slice_left : simpl never.

Definition ticks_before t sl (us : list Z) : nat := sum_list_with (slice_left sl) us.

(** The clock ticks that can pass before [t], a ready thread, runs. *)
Definition turn_bound cur sl rs ws t : nat := ticks_before t sl (cur :: ahead t rs ++ ws).

Definition slices_typed sl : Prop := ∀ u n p, sl u = Some (n, p) → 0 ≤ n < 2 ^ 8 ∧ 0 ≤ p < 2 ^ 8.

Lemma ticks_before_ext t sl sl' us :
  (∀ u, u ∈ us → sl' u = sl u) → ticks_before t sl' us = ticks_before t sl us.
Proof.
  unfold ticks_before. induction us as [|u us IH]; intros Heq; [done|]. simpl.
  assert (Hu : slice_left sl' u = slice_left sl u) by (unfold slice_left; by rewrite Heq by set_solver).
  rewrite Hu. f_equal. apply IH. set_solver.
Qed.

Lemma ticks_before_perm t sl us us' : us ≡ₚ us' → ticks_before t sl us = ticks_before t sl us'.
Proof. intros Hp. unfold ticks_before. by rewrite Hp. Qed.

Lemma ahead_sub t rs u : u ∈ ahead t rs → u ∈ rs.
Proof. induction rs as [|v rs IH]; simpl; [done|]. case_decide; set_solver. Qed.

Lemma ahead_app t rs us : t ∈ rs → ahead t (rs ++ us) = ahead t rs.
Proof.
  induction rs as [|v rs IH]; simpl; [by intros ?%not_elem_of_nil|].
  intros Hin. case_decide; [done|]. apply elem_of_cons in Hin as [?|Hin]; [congruence|]. by rewrite IH.
Qed.

Lemma length_ahead t rs : (length (ahead t rs) ≤ length rs)%nat.
Proof. induction rs as [|v rs IH]; simpl; [done|]. case_decide; simpl; lia. Qed.

Lemma moved_typed cur sl rs ws b cur' sl' rs' ws' :
  moved cur sl rs ws b cur' sl' rs' ws' → slices_typed sl → slices_typed sl'.
Proof.
  intros Hm Hsl u n p Hu. destruct Hm as [sl' Heq|sl' nx q Hrs Heq|sl' w ws' Hws Heq|
    sl' n0 p0 Hc Hn Hc' Heq|sl' p0 nx q Hc Hq Hc' Heq]; try (rewrite Heq in Hu; by eapply Hsl).
  - destruct (decide (u = cur)) as [->|Hne]; [|rewrite Heq in Hu by done; by eapply Hsl].
    rewrite Hc' in Hu. injection Hu as <- <-. split; [apply u8_range|]. by eapply Hsl.
  - destruct (decide (u = cur)) as [->|Hne]; [|rewrite Heq in Hu by done; by eapply Hsl].
    rewrite Hc' in Hu. injection Hu as <- <-. split; by eapply Hsl.
Qed.

(** Each event gives [t] the processor, or leaves it ready with no more ticks before
    it, and fewer after a clock interrupt. *)
Lemma moved_bound cur sl rs ws b cur' sl' rs' ws' t :
  moved cur sl rs ws b cur' sl' rs' ws' → slices_typed sl → NoDup (cur :: rs ++ ws) → t ∈ rs →
  cur' = t ∨
  (t ∈ rs' ∧ (turn_bound cur' sl' rs' ws' t + (if b then 1 else 0) ≤ turn_bound cur sl rs ws t)%nat).
Proof.
  intros Hm Hty Hnd Ht. unfold turn_bound.
  destruct Hm as [sl' Heq|sl' nx q Hrs Heq|sl' w ws' Hws Heq|sl' n p Hc Hn Hc' Heq|sl' p nx q Hc Hq Hc' Heq].
  - right. split; [done|]. rewrite (ticks_before_ext t sl sl') by auto. lia.
  - subst rs. destruct (decide (nx = t)) as [|Hne]; [by left|right].
    apply elem_of_cons in Ht as [?|Ht]; [done|]. split; [done|].
    rewrite (ticks_before_ext t sl sl') by auto. simpl ahead. rewrite decide_False by done.
    rewrite (ticks_before_perm t sl _ (cur :: (nx :: ahead t q) ++ ws)); [lia|].
    simpl. rewrite (assoc (++)). rewrite <- (Permutation_cons_append (ahead t q ++ ws) cur). apply Permutation_swap.
  - subst ws. right. split; [set_solver|]. rewrite (ticks_before_ext t sl sl') by auto. simpl ahead.
    assert (w ≠ t).
    { intros ->. apply NoDup_cons in Hnd as [_ Hnd]. apply NoDup_app in Hnd as (_ & Hd & _).
      apply (Hd t Ht). set_solver. }
    rewrite decide_False by done.
    rewrite (ticks_before_perm t sl _ (cur :: ahead t rs ++ w :: ws')); [lia|].
    apply Permutation_skip. simpl. apply Permutation_middle.
  - right. split; [done|]. unfold ticks_before. simpl. apply NoDup_cons in Hnd as [Hni _].
    fold (ticks_before t sl' (ahead t rs ++ ws)). fold (ticks_before t sl (ahead t rs ++ ws)).
    rewrite (ticks_before_ext t sl sl').
    2: { intros u Hu. apply Heq. intros ->. apply Hni. apply elem_of_app in Hu as [Hu%ahead_sub|Hu]; set_solver. }
    destruct (Hty _ _ _ Hc) as [Hr _]. unfold slice_left. rewrite Hc, Hc'. simpl. rewrite u8_small by lia. lia.
  - destruct rs as [|r rs]; [by apply not_elem_of_nil in Ht|]. simpl in Hq. injection Hq as <- <-.
    destruct (decide (r = t)) as [|Hne]; [by left|right].
    apply elem_of_cons in Ht as [?|Ht]; [done|]. split; [set_solver|].
    rewrite ahead_app by done. unfold ticks_before. simpl. rewrite decide_False by done. simpl.
    apply NoDup_cons in Hnd as [Hni _].
    assert (Hr : slice_left sl' r = slice_left sl r) by (unfold slice_left; rewrite Heq; [done|set_solver]).
    rewrite Hr. fold (ticks_before t sl' (ahead t rs ++ ws)). fold (ticks_before t sl (ahead t rs ++ ws)).
    rewrite (ticks_before_ext t sl sl').
    2: { intros u Hu. apply Heq. intros ->. apply Hni. apply elem_of_app in Hu as [Hu%ahead_sub|Hu]; set_solver. }
    unfold slice_left. lia.
Qed.

(** Every thread has at most 255 ticks left. *)
Lemma turn_bound_size cur sl rs ws t :
  slices_typed sl → (turn_bound cur sl rs ws t ≤ 256 * length (cur :: rs ++ ws))%nat.
Proof.
  intros Hty. assert (Hone : ∀ u, (slice_left sl u ≤ 256)%nat).
  { intros u. unfold slice_left. destruct (sl u) as [[n p]|] eqn:Hu; [|simpl; lia].
    destruct (Hty _ _ _ Hu). simpl. lia. }
  assert (Hsum : ∀ us, (ticks_before t sl us ≤ 256 * length us)%nat).
  { unfold ticks_before. induction us as [|u us IH]; simpl; [lia|]. pose proof (Hone u). lia. }
  unfold turn_bound. etransitivity; [apply Hsum|]. simpl. rewrite !length_app.
  pose proof (length_ahead t rs). lia.
Qed.
End measure.

(** ** Executions *)

Section executions.
Context `{FpEval, Layout, Env}.

Inductive execution (l : Z) : config → list event → config → Prop :=
  | execution_nil c : execution l c [] c
  | execution_cons c e c1 es c' :
      enabled l c e → exec l e (pcs c) (kern c) = Ok (pcs c1) (kern c1) → execution l c1 es c' →
      execution l c (e :: es) c'.

Definition clock_ticks (es : list event) : nat := length (filter (λ e, is_tick e = true) es).

Lemma clock_ticks_cons e es :
  clock_ticks (e :: es) = ((if is_tick e then 1 else 0) + clock_ticks es)%nat.
Proof. unfold clock_ticks. rewrite filter_cons. by destruct (is_tick e). Qed.

Lemma execution_runs l t : ∀ es c c' rs ws x,
  inv_at l (kern c) (pcs c) rs ws x → slices_typed (slices (kern c)) → t ∈ rs → execution l c es c' →
  (turn_bound (k_cur (kern c)) (slices (kern c)) rs ws t ≤ clock_ticks es)%nat →
  ∃ es1 c1 es2, es = es1 ++ es2 ∧ execution l c es1 c1 ∧ execution l c1 es2 c' ∧ k_cur (kern c1) = t.
Proof.
  induction es as [|e es IH]; intros c c' rs ws x Hinv Hty Ht Htr Hb.
  - unfold turn_bound, ticks_before in Hb. simpl in Hb. unfold slice_left at 1 in Hb. unfold clock_ticks in Hb. simpl in Hb. lia.
  - inversion Htr as [|? ? c1 ? ? He Hrun Htr1]; subst.
    destruct (exec_moved l c e rs ws x Hinv He) as (ps' & k' & Hrun' & rs' & ws' & x' & Hinv' & Hmv).
    rewrite Hrun in Hrun'. injection Hrun' as Hps Hk. subst ps' k'.
    destruct (moved_bound _ _ _ _ _ _ _ _ _ t Hmv Hty (so_nodup _ _ _ _ (in_sched Hinv)) Ht)
      as [Hcur|[Ht' Hle]].
    + exists [e], c1, es. split_and!; [done| |done|done]. econstructor; [done|done|constructor].
    + destruct (IH c1 c' rs' ws' x') as (es1 & c2 & es2 & -> & H1' & H2' & H3'); try done.
      * by eapply moved_typed.
      * rewrite clock_ticks_cons in Hb. lia.
      * exists (e :: es1), c2, es2. split_and!; [done| |done|done]. by econstructor.
Qed.

(** The lists hold exactly the threads of the system. *)
Lemma threads_size l k ps rs ws x :
  inv_at l k ps rs ws x → length (k_cur k :: rs ++ ws) = size ps.
Proof.
  intros Hinv. pose proof (so_nodup _ _ _ _ (in_sched Hinv)) as Hnd.
  rewrite <- size_dom, <- (size_list_to_set (C := gset Z) _ Hnd). f_equal. apply set_eq. intros t.
  rewrite elem_of_list_to_set, elem_of_dom. by apply (in_threads Hinv).
Qed.

(** C4 No ready thread starves: take any execution of the system of threads, clock
    and lock that starts in a reachable state in which thread [t] is ready, with
    slices and priorities of type u8.  Once 256 clock interrupts per thread have
    passed, [t] has run, however often other threads were woken to the front of the
    queue in the meantime. *)
Theorem ready_thread_runs l c0 c es c' t :
  initial l c0 → star (step l) c0 c → slices_typed (slices (kern c)) →
  is_Some (pcs c !! t) → (status <$> k_tasks (kern c) !! t) = Some TASK_READY →
  execution l c es c' → (256 * size (pcs c) ≤ clock_ticks es)%nat →
  ∃ es1 c1 es2, es = es1 ++ es2 ∧ execution l c es1 c1 ∧ execution l c1 es2 c' ∧ k_cur (kern c1) = t.
Proof.
  intros Hinit Hstar Hty Hin Hst Htr Hb. destruct (reachable_inv _ _ _ Hinit Hstar) as (rs & ws & x & Hinv).
  assert (Ht : t ∈ rs).
  { apply (in_threads Hinv) in Hin. pose proof (in_sched Hinv) as Hs.
    apply elem_of_cons in Hin as [->|[Hin|Hin]%elem_of_app]; [|done|].
    - destruct (so_cur _ _ _ _ Hs) as (y & Hy & Hys & _). rewrite Hy in Hst. simpl in Hst. congruence.
    - destruct (so_ws _ _ _ _ Hs t Hin) as (y & Hy & Hys & _). rewrite Hy in Hst. simpl in Hst. congruence. }
  apply (execution_runs l t es c c' rs ws x Hinv Hty Ht Htr).
  etransitivity; [by apply turn_bound_size|]. by rewrite (threads_size l _ _ _ _ _ Hinv).
Qed.
End executions.

(** *** Witness: 512 clock interrupts with two threads *)

Section witness.
Context `{FpEval, Layout, Env}.

Lemma trace_execution l es c : trace l es c = true → execution l c es (run l es c).
Proof.
  revert c. induction es as [|e es IH]; intros c; simpl; [constructor|].
  intros [He%(enabledb_sound l) Ht]%andb_true_iff.
  destruct (exec l e (pcs c) (kern c)) as [ps k| | | |] eqn:Hrun; try done.
  eapply (execution_cons l c e (Config k ps)); [done|done|by apply IH].
Qed.

Lemma tasks_slices_typed k :
  map_Forall (λ _ x, (0 ≤ ticks x < 2 ^ 8) ∧ (0 ≤ priority x < 2 ^ 8)) (k_tasks k) → slices_typed (slices k).
Proof.
  intros Hall u n p Hu. unfold slices in Hu. destruct (k_tasks k !! u) as [x|] eqn:Hx; [|done].
  simpl in Hu. injection Hu as <- <-. exact (Hall u x Hx).
Qed.
End witness.

#[local] Existing Instances x87 demo_layout demo_env.

Definition many_ticks : list event := mjoin (replicate 512 [Iret; Tick]).

Lemma ready_thread_runs_witness :
  ∃ es1 c1 es2, many_ticks = es1 ++ es2 ∧ execution 0x11000 demo_config es1 c1 ∧
    execution 0x11000 c1 es2 (run 0x11000 many_ticks demo_config) ∧ k_cur (kern c1) = 0x21000.
Proof.
  apply (ready_thread_runs 0x11000 demo_config demo_config many_ticks).
  - exact demo_initial.
  - constructor.
  - apply tasks_slices_typed. decided.
  - decided.
  - vm_compute. reflexivity.
  - apply trace_execution. vm_compute. reflexivity.
  - vm_compute. lia.
Defined.
