(* ===== verification/RingSys.v ===== *)
(** * The keyboard's queue under preemption: kernel/ioqueue.c between the keyboard
      interrupt and a thread that reads

    IoQueue.v runs ioq_getchar to its end in one thread.  Here it is cut where it
    switches away, in the thread_block of ioq_wait, and the rest of the system goes on
    there: keyboard interrupts, clock interrupts, other threads.  [getchar_is_rounds]
    says that the pieces are the code. *)

From Stdlib Require Import ZArith Lia.
From stdpp Require Import base tactics gmap strings fin_maps functions list.
From S2P Require Import Prelude ByteMem CString Bitmap Interrupt DList Format Paging Idt Memory.
From S2P Require Import Kernel Sched Sync Alloc Thread IoQueue Keyboard Timer Switching.

(** One round of the loop of ioq_getchar: the thread has switched away in ioq_wait
    ([Waits], with itself and the status thread_block will restore), or has its
    character. *)
Inductive round := Waits (b : Z * intr_status) | Got (c : Z).

Section rounds.
Context `{FpEval, Layout, Env}.

(** ioq_wait up to the context switch. *)
Definition ioq_wait_out (ioq : Z) (waiter : waiter_field) : prog kernel (Z * intr_status) :=
  q ← load_queue ioq;
  _ ← c_assert (ioq_site 28 "ioq_wait" "*waiter == NULL && waiter != NULL")
        (get_waiter waiter q =? NULL);
  cur ← running_thread;
  _ ← update_queue ioq (set_waiter waiter cur);
  block_out TASK_BLOCKED.

(** ioq_getchar behind its loop. *)
Definition take_char (ioq : Z) : prog kernel Z :=
  q ← load_queue ioq;
  byte ← match buf q !! Z.to_nat (tail q) with
         | Some b => mret b
         | None => undef "ioq_getchar: index out of bounds"
         end;
  _ ← update_queue ioq (λ q, IoQueue (producer q) (consumer q) (buf q) (head q) (next_pos (tail q)));
  q ← load_queue ioq;
  _ ← when (negb (producer q =? NULL)) (wakeup ioq PRODUCER);
  mret byte.

Definition getchar_round (ioq : Z) : prog kernel round :=
  empty ← ioq_empty ioq;
  if empty : bool then
    _ ← lock_acquire ioq;
    b ← ioq_wait_out ioq CONSUMER;
    mret (Waits b)
  else c ← take_char ioq; mret (Got c).

(** The thread runs again after the switch. *)
Definition getchar_wake (ioq : Z) (ob : intr_status) : prog kernel round :=
  _ ← k_intr_set_status ob;
  _ ← lock_release ioq;
  getchar_round ioq.

(** The thread alone, the rest of the world running while it is switched out. *)
Fixpoint getchar_rounds (fuel : nat) (ioq : Z) (r : round) : prog kernel Z :=
  match r, fuel with
  | Got c, _ => mret c
  | Waits _, O => no_fuel
  | Waits b, S fuel' =>
      _ ← others (fst b);
      r ← getchar_wake ioq (snd b);
      getchar_rounds fuel' ioq r
  end.

Lemma ioq_wait_cut ioq w k :
  ioq_wait ioq w k =
    (b ← ioq_wait_out ioq w; _ ← others (fst b); _ ← k_intr_set_status (snd b); mret tt : prog kernel unit) k.
Proof.
  unfold ioq_wait, ioq_wait_out. rewrite bind_assoc, !bind_unfold.
  destruct (load_queue ioq k) as [q k1| | | |]; [|done..]. rewrite bind_assoc, !bind_unfold.
  destruct (c_assert _ _ k1) as [[] k2| | | |]; [|done..]. rewrite bind_assoc, !bind_unfold.
  destruct (running_thread k2) as [t k3| | | |]; [|done..]. rewrite bind_assoc, !bind_unfold.
  destruct (update_queue _ _ k3) as [[] k4| | | |]; [|done..]. by rewrite thread_block_out.
Qed.

Lemma loop_is_rounds f ioq k :
  covered ((_ ← ioq_block_while f (ioq_empty ioq) ioq CONSUMER; take_char ioq) k)
    ((r ← getchar_round ioq; getchar_rounds f ioq r) k).
Proof.
  revert k. induction f as [|f IH]; intros k; [done|].
  cbn [ioq_block_while]. unfold getchar_round at 1. rewrite !bind_assoc.
  apply covered_bind. intros [] k1 _.
  - rewrite !bind_assoc. apply covered_bind. intros [] k2 _.
    rewrite !bind_assoc, (bind_unfold (ioq_wait _ _)), ioq_wait_cut.
    rewrite <- (bind_unfold (_ ← _; _)), !bind_assoc. apply covered_bind. intros b k3 _.
    rewrite !bind_assoc, bind_ret. cbn [getchar_rounds]. apply covered_bind. intros [] k4 _.
    unfold getchar_wake. rewrite !bind_assoc. apply covered_bind. intros st k5 _.
    rewrite bind_ret, !bind_assoc. apply covered_bind. intros [] k6 _. apply IH.
  - rewrite bind_ret, !bind_assoc, !bind_unfold. by destruct (take_char ioq k1).
Qed.

(** *** Pieces of a round *)

Lemma take_char_ok ioq q c cs k :
  k_queues k !! ioq = Some q → ring q → contents q = c :: cs → producer q = NULL →
  take_char ioq k = Ok c (with_queue ioq (advance_tail q) k).
Proof.
  intros Hq Hr Hc Hp. destruct (ring_get q c cs Hr Hc) as (Hbyte & _ & _). unfold take_char.
  rewrite (bind_Ok _ _ _ _ _ (load_queue_ok _ _ _ Hq)), Hbyte, bind_ret.
  erewrite (bind_Ok (update_queue _ _)) by (apply update_queue_ok; exact Hq).
  change (set_queues _ k) with (with_queue ioq (advance_tail q) k).
  rewrite (bind_Ok _ _ _ _ _ (load_queue_ok ioq (advance_tail q) _ (lookup_insert_eq _ _ _))).
  simpl producer. by rewrite Hp.
Qed.

Lemma round_got ioq q c cs k :
  k_if k = false → k_queues k !! ioq = Some q → ring q → contents q = c :: cs → producer q = NULL →
  getchar_round ioq k = Ok (Got c) (with_queue ioq (advance_tail q) k).
Proof.
  intros Hif Hq Hr Hc Hp. unfold getchar_round. rewrite (bind_Ok _ _ _ _ _ (ioq_empty_ok _ _ _ Hif Hq Hr)), bool_decide_eq_false_2 by (rewrite Hc; done).
  by rewrite (bind_Ok _ _ _ _ _ (take_char_ok _ _ _ _ _ Hq Hr Hc Hp)).
Qed.
End rounds.

(** ** The reader, the keyboard, the clock and the other threads *)

(** Where the reader is: outside ioq_getchar, or switched out in it, with the status
    thread_block will restore and the one its caller will. *)
Inductive place := Outside | Asleep (ob old : intr_status).

Section system.
Context `{FpEval, Layout, Env}.

(** The kernel, the reader's place, the characters it has read, and those the
    keyboard has put into the queue. *)
Record rconfig := RConfig { rkern : kernel; rat : place; got : list Z; put : list Z }.

(** What can happen next.  [Tick] and [Iret] are as in LockSys; [Key b] is a keyboard
    interrupt with the byte [b]; [Read] the reader's call of ioq_getchar with
    interrupts off, up to the switch if it waits; [Resume] what it does when it runs
    again after the switch; [Other] anything a thread does outside. *)
Inductive ring_event := Tick | Iret | Key (b : Z) | Read | Resume | Other (k : kernel).

(** The characters byte [b] adds to the queue. *)
Definition accepted (k : kernel) (b : Z) : list Z :=
  match snd (decode (k_keys k) b), k_queues k !! kbd_buf with
  | Type_char c, Some q => if decide (length (contents q) < 63)%nat then [c] else []
  | _, _ => []
  end.

(** The caller restores the interrupt flag when it has its character. *)
Definition finish (old : intr_status) (c : rconfig) (r : round) : prog kernel (place * list Z * list Z) :=
  match r with
  | Waits b => mret (Asleep (snd b) old, got c, put c)
  | Got ch => _ ← k_intr_set_status old; mret (Outside, got c ++ [ch], put c)
  end.

Definition ring_exec (e : ring_event) (c : rconfig) : prog kernel (place * list Z * list Z) :=
  match e with
  | Tick => _ ← k_intr_disable; _ ← clock_out; mret (rat c, got c, put c)
  | Iret => _ ← k_intr_enable; mret (rat c, got c, put c)
  | Key b =>
      _ ← k_intr_disable;
      _ ← intr_keyboard_handler b;
      _ ← k_intr_enable;
      mret (rat c, got c, put c ++ accepted (rkern c) b)
  | Read =>
      old ← k_intr_disable;
      _ ← assert_intr_off 40 "ioq_getchar";
      r ← getchar_round kbd_buf;
      finish old c r
  | Resume =>
      match rat c with
      | Asleep ob old => r ← getchar_wake kbd_buf ob; finish old c r
      | Outside => mret (rat c, got c, put c)
      end
  | Other k' => _ ← modify (λ _, k'); mret (rat c, got c, put c)
  end.

(** What threads may do outside: they leave the scheduler's data, the queue and its
    lock, the page tables and the interrupt flag alone. *)
Record other_frame (k k' : kernel) : Prop := {
  of_nodes : k_nodes k' = k_nodes k;
  of_tasks : k_tasks k' = k_tasks k;
  of_lock : k_locks k' !! kbd_buf = k_locks k !! kbd_buf;
  of_queue : k_queues k' !! kbd_buf = k_queues k !! kbd_buf;
  of_cur : k_cur k' = k_cur k;
  of_if : k_if k' = k_if k;
  of_mmu : k_mmu k' = k_mmu k;
  of_gdtr : k_gdtr k' = k_gdtr k
}.

Definition ring_enabled (r : Z) (c : rconfig) (e : ring_event) : Prop :=
  let k := rkern c in
  let outside := k_cur k = r → rat c = Outside in
  match e with
  | Tick => k_if k = true
  | Iret => k_if k = false ∧ outside
  | Key b => k_if k = true ∧ 0 ≤ b < 256
  | Read => k_cur k = r ∧ rat c = Outside ∧ k_if k = true
  | Resume => k_cur k = r ∧ rat c ≠ Outside
  | Other k' => outside ∧ k_if k = true ∧ other_frame k k'
  end.

Definition ring_step (r : Z) (c c' : rconfig) : Prop :=
  ∃ e, ring_enabled r c e ∧ ring_exec e c (rkern c) = Ok (rat c', got c', put c') (rkern c').

(** ** The invariant *)

(** The reader outside, asleep on an empty queue that will wake it, or woken with
    something to read. *)
Inductive reader_at (r : Z) (k : kernel) (q : ioqueue) (rs : list Z) : place → Prop :=
  | at_outside :
      k_locks k !! kbd_buf = Some (Lock NULL 1 0) → consumer q = NULL → r ∈ k_cur k :: rs →
      reader_at r k q rs Outside
  | at_asleep :
      k_locks k !! kbd_buf = Some (Lock r 0 1) → consumer q = r → contents q = [] → r ∉ k_cur k :: rs →
      good (k_tasks k) TASK_BLOCKED r → apart kbd_buf (k_nodes k) r →
      reader_at r k q rs (Asleep INTR_OFF INTR_ON)
  | at_woken :
      k_locks k !! kbd_buf = Some (Lock r 0 1) → consumer q = NULL → contents q ≠ [] → r ∈ k_cur k :: rs →
      (k_cur k = r → k_if k = false) →
      reader_at r k q rs (Asleep INTR_OFF INTR_ON).

Record rinv_at (r : Z) (c : rconfig) (rs : list Z) (q : ioqueue) : Prop := {
  ri_sched : sched_ok kbd_buf (rkern c) rs [];
  ri_queue : k_queues (rkern c) !! kbd_buf = Some q;
  ri_ring : ring q;
  ri_producer : producer q = NULL;
  ri_fifo : got c ++ contents q = put c;
  ri_other : ∃ o, o ≠ r ∧ o ∈ k_cur (rkern c) :: rs;
  ri_reader : reader_at r (rkern c) q rs (rat c)
}.

Definition rinv (r : Z) (c : rconfig) : Prop := ∃ rs q, rinv_at r c rs q.

(** What the step of [e] from [c] must do. *)
Definition steps_to (r : Z) (c : rconfig) (e : ring_event) : Prop :=
  ∃ c', ring_exec e c (rkern c) = Ok (rat c', got c', put c') (rkern c') ∧ rinv r c'.

Context (r : Z) (Hfuel : wait_fuel ≠ 0%nat) (Hr : r ≠ NULL).

Lemma apart_dom l h h' t : dom h' = dom h → apart l h t → apart l h' t.
Proof. intros Hd (? & ? & Hs). split_and!; [done..|]. by rewrite <- elem_of_dom, Hd, elem_of_dom. Qed.

(** A step that leaves the queue and the lock alone. *)
Lemma reader_same p k k' q rs rs' :
  reader_at r k q rs p → k_locks k' !! kbd_buf = k_locks k !! kbd_buf → k_cur k' :: rs' ≡ₚ k_cur k :: rs →
  (∀ s, r ∉ k_cur k :: rs → good (k_tasks k) s r → good (k_tasks k') s r) → dom (k_nodes k') = dom (k_nodes k) →
  (p ≠ Outside → k_cur k' = r → k_if k' = false) → reader_at r k' q rs' p.
Proof.
  intros Hrd Hl Hperm Hg Hdom Hif. destruct Hrd as [Hlk Hc Hin|Hlk Hc He Hni Hb Ha|Hlk Hc He Hin Hi].
  - apply at_outside; [by rewrite Hl|done|by rewrite Hperm].
  - apply at_asleep; [by rewrite Hl|done|done|by rewrite Hperm|by apply Hg|by eapply apart_dom].
  - apply at_woken; [by rewrite Hl|done|done|by rewrite Hperm|by apply Hif].
Qed.

Lemma rinv_intro k p g u rs q :
  sched_ok kbd_buf k rs [] → k_queues k !! kbd_buf = Some q → ring q → producer q = NULL → g ++ contents q = u →
  (∃ o, o ≠ r ∧ o ∈ k_cur k :: rs) → reader_at r k q rs p → rinv r (RConfig k p g u).
Proof. intros. by exists rs, q. Qed.

Lemma ring_tick_ok c : rinv r c → steps_to r c Tick.
Proof.
  intros (rs & q & [Hs Hq Hri Hp Hf (o & Ho & Hoin) Hrd]).
  destruct (clock_out_ok kbd_buf (rkern c) rs [] Hs) as (k' & rs' & Hrun & [Hs' Hperm Hl Hqu Hif' Hdom Hg _]).
  exists (RConfig k' (rat c) (got c) (put c)). split.
  - unfold ring_exec. etransitivity; [symmetry; apply bind_assoc|]. by rewrite (bind_Ok _ _ _ _ _ Hrun).
  - apply (rinv_intro _ _ _ _ rs' q); [done|by rewrite Hqu|done|done|done| |].
    + exists o. by rewrite Hperm.
    + apply (reader_same _ (rkern c) _ _ rs); [done|by rewrite Hl|done| |done|done]. intros s. apply Hg.
Qed.

Lemma ring_iret_ok c : rinv r c → ring_enabled r c Iret → steps_to r c Iret.
Proof.
  intros (rs & q & [Hs Hq Hri Hp Hf Ho Hrd]) [Hif Hout].
  exists (RConfig (set_if true (rkern c)) (rat c) (got c) (put c)). split.
  - unfold ring_exec. by rewrite (bind_Ok _ _ _ _ _ (k_intr_enable_ok _)).
  - apply (rinv_intro _ _ _ _ rs q); try done; [by apply (sched_ok_ext _ (rkern c))|].
    apply (reader_same _ (rkern c) _ _ rs); try done. intros Hne Hc. by apply Hout in Hc.
Qed.

Lemma other_ok c k' : rinv r c → ring_enabled r c (Other k') → steps_to r c (Other k').
Proof.
  intros (rs & q & [Hs Hq Hri Hp Hf Ho Hrd]) (Hout & Hif & [Hn Ht Hl Hqu Hc Hi Hm Hg]).
  exists (RConfig k' (rat c) (got c) (put c)). split; [done|].
  apply (rinv_intro _ _ _ _ rs q); try done; [by apply (sched_ok_ext _ (rkern c))|by rewrite Hqu|by rewrite Hc|].
  apply (reader_same _ (rkern c) _ _ rs); try done.
  - by rewrite Hc.
  - by rewrite Ht.
  - by rewrite Hn.
  - rewrite Hc. intros Hne Hcr. by apply Hout in Hcr.
Qed.

(** *** The keyboard *)

(** Only flags of the keyboard, the interrupt flag and the screen change. *)
Lemma calm_ok c k' :
  rinv r c → (rat c ≠ Outside → k_cur (rkern c) ≠ r) →
  k_nodes k' = k_nodes (rkern c) → k_tasks k' = k_tasks (rkern c) → k_locks k' = k_locks (rkern c) →
  k_queues k' = k_queues (rkern c) → k_cur k' = k_cur (rkern c) → k_mmu k' = k_mmu (rkern c) →
  k_gdtr k' = k_gdtr (rkern c) → rinv r (RConfig k' (rat c) (got c) (put c)).
Proof.
  intros (rs & q & [Hs Hq Hri Hp Hf Ho Hrd]) Hne Hn Ht Hl Hqu Hc Hm Hg.
  apply (rinv_intro _ _ _ _ rs q); try done; [by apply (sched_ok_ext _ (rkern c))|by rewrite Hqu|by rewrite Hc|].
  apply (reader_same _ (rkern c) _ _ rs); try done.
  - by rewrite Hl.
  - by rewrite Hc.
  - by rewrite Ht.
  - by rewrite Hn.
  - rewrite Hc. intros Hp' Hcr. by apply Hne in Hp'.
Qed.

(** A character into a queue with room. *)
Lemma putchar_ok c k rs q ch :
  rinv_at r c rs q → k_if k = false → k_nodes k = k_nodes (rkern c) → k_tasks k = k_tasks (rkern c) →
  k_locks k = k_locks (rkern c) → k_queues k = k_queues (rkern c) → k_cur k = k_cur (rkern c) →
  k_mmu k = k_mmu (rkern c) → k_gdtr k = k_gdtr (rkern c) → (rat c ≠ Outside → k_cur (rkern c) ≠ r) →
  (length (contents q) < 63)%nat → i8 ch = ch →
  ∃ k', ioq_putchar kbd_buf ch k = Ok tt k' ∧ k_if k' = false ∧
    rinv r (RConfig (set_if true k') (rat c) (got c) (put c ++ [ch])).
Proof using Hfuel Hr.
  intros [Hs Hq Hri Hp Hf Ho Hrd] Hif Hn Ht Hl Hqu Hc Hm Hg Hne Hroom Hch.
  assert (Hsk : sched_ok kbd_buf k rs []) by (by apply (sched_ok_ext _ (rkern c))).
  destruct (ring_put q ch Hri) as [Hri' Hc']. { pose proof (length_contents q). lia. }
  rewrite (ioq_putchar_run kbd_buf q ch k) by (first [lia|by rewrite ?Hqu]). rewrite Hch.
  set (q1 := put_head ch q). set (k1 := with_queue kbd_buf q1 k).
  assert (Hs1 : sched_ok kbd_buf k1 rs []) by (by apply (sched_ok_ext _ k)).
  assert (Hf1 : got c ++ contents q1 = put c ++ [ch]) by (unfold q1; by rewrite Hc', (assoc (++)), Hf).
  assert (Hne1 : contents q1 ≠ []) by (unfold q1; rewrite Hc'; by destruct (contents q)).
  destruct Hrd as [Hlk Hcn Hin|Hlk Hcn He Hni Hb Ha|Hlk Hcn He Hin Hi].
  1, 3: change (consumer q1) with (consumer q); rewrite Hcn; exists k1; split; [done|]; split; [done|];
    apply (rinv_intro _ _ _ _ rs q1); try done; [by apply (sched_ok_ext _ k1)|apply lookup_insert_eq|by simpl; rewrite Hc|].
  - apply at_outside; simpl; rewrite ?Hl, ?Hc; done.
  - apply at_woken; simpl; rewrite ?Hl, ?Hc; try done. intros Hcr. by apply Hne in Hcr.
  - change (consumer q1) with (consumer q). rewrite Hcn, (proj2 (Z.eqb_neq r NULL) Hr). simpl when. unfold wakeup.
    rewrite (bind_Ok _ _ _ _ _ (load_queue_ok kbd_buf q1 k1 (lookup_insert_eq _ _ _))).
    simpl get_waiter. rewrite Hcn, (proj2 (Z.eqb_neq r NULL) Hr), bind_assert.
    destruct (unblock_ok kbd_buf k1 rs [] r) as (k2 & Hun & Hs2 & Hc2 & Hl2 & Hq2 & Hi2 & _);
      [done|by simpl; rewrite Ht|by simpl; rewrite Hn|by simpl; rewrite app_nil_r, Hc|].
    rewrite (bind_Ok _ _ _ _ _ Hun), (update_queue_ok kbd_buf q1) by (rewrite Hq2; apply lookup_insert_eq).
    eexists. split; [done|]. split; [exact (eq_trans Hi2 Hif)|].
    apply (rinv_intro _ _ _ _ (r :: rs) (set_waiter CONSUMER NULL q1)); try done; simpl.
    + by apply (sched_ok_ext _ k2).
    + apply lookup_insert_eq.
    + by destruct Hri'.
    + destruct Ho as (o & Ho & Hoin). exists o. split; [done|]. rewrite Hc2. simpl. rewrite Hc. set_solver.
    + apply at_woken; simpl; rewrite ?Hl2, ?Hc2; simpl; rewrite ?Hl, ?Hc; try done; [set_solver|].
      intros Hcr. exfalso. apply Hni. rewrite <- Hcr. set_solver.
Qed.
Lemma key_ok c b : rinv r c → ring_enabled r c (Key b) → steps_to r c (Key b).
Proof using Hfuel Hr.
  intros Hinv [Hif Hb]. pose proof Hinv as (rs & q & Hat). pose proof Hat as [Hs Hq Hri Hp Hf Ho Hrd].
  assert (Hne : rat c ≠ Outside → k_cur (rkern c) ≠ r).
  { intros Hout Hc. destruct Hrd as [|? ? ? Hni|? ? ? ? Hi]; [done| |].
    - apply Hni. rewrite <- Hc. apply elem_of_cons. by left.
    - specialize (Hi Hc). congruence. }
  set (k := rkern c) in *. set (k0 := set_if false k). set (d := decode (k_keys k) b).
  assert (Hh : intr_keyboard_handler b k0 = perform (snd d) (set_keys (fst d) k0)).
  { rewrite (handler_performs b k0 Hb), (decision_decode _ _ Hb). done. }
  set (k1 := set_keys (fst d) k0) in *.
  assert (Hgdt : gdt_mapped k1 = true) by exact (proj1 (so_gdt _ _ _ _ Hs)).
  assert (Hfin : ∀ k2 cs, perform (snd d) k1 = Ok tt k2 → accepted k b = cs →
    rinv r (RConfig (set_if true k2) (rat c) (got c) (put c ++ cs)) → steps_to r c (Key b)).
  { intros k2 cs Hrun <- Hinv'. eexists. split; [|exact Hinv']. unfold ring_exec.
    rewrite (bind_Ok _ _ _ _ _ (k_intr_disable_ok k)), (bind_Ok _ _ _ _ _ (eq_trans Hh Hrun)).
    by rewrite (bind_Ok _ _ _ _ _ (k_intr_enable_ok k2)). }
  unfold accepted in Hfin. fold d in Hfin. rewrite Hq in Hfin.
  destruct (snd d) as [|ch|] eqn:Hd; simpl perform in *.
  - apply (Hfin k1 []); [done|done|]. rewrite app_nil_r. by apply calm_ok.
  - assert (Hch : i8 ch = ch) by by apply (decode_char_range (k_keys k) b).
    rewrite (bind_Ok _ _ _ _ _ (ioq_full_ok kbd_buf q k1 eq_refl Hq Hri)) in Hfin.
    destruct (decide (length (contents q) < 63)%nat) as [Hroom|Hfull].
    + rewrite bool_decide_false in Hfin by lia. simpl negb in Hfin. simpl when in Hfin.
      destruct (putchar_ok c k1 rs q ch Hat) as (k2 & Hrun & _ & Hinv'); try done. by apply (Hfin k2 [ch]).
    + assert (Hlen : length (contents q) = 63%nat).
      { pose proof (length_contents q). pose proof (used_range q). unfold bufsize in *. lia. }
      rewrite bool_decide_true in Hfin by done. apply (Hfin k1 []); [done|done|]. rewrite app_nil_r. by apply calm_ok.
  - destruct (kprint_lit (line "unknown key") k1) as [o Hp']; [done|done|done|].
    apply (Hfin (add_output o k1) []); [done|done|]. rewrite app_nil_r. by apply calm_ok.
Qed.

(** *** The reader *)

(** A round with something to read. *)
Lemma got_ok c k rs q ch cs old :
  sched_ok kbd_buf k rs [] → k_if k = false → k_queues k !! kbd_buf = Some q → ring q → producer q = NULL →
  consumer q = NULL → contents q = ch :: cs → got c ++ contents q = put c → (∃ o, o ≠ r ∧ o ∈ k_cur k :: rs) →
  k_locks k !! kbd_buf = Some (Lock NULL 1 0) → r ∈ k_cur k :: rs → old = INTR_ON →
  ∃ c', (rd ← getchar_round kbd_buf; finish old c rd) k = Ok (rat c', got c', put c') (rkern c') ∧ rinv r c'.
Proof.
  intros Hs Hif Hq Hri Hp Hcn Hc Hf Ho Hl Hin ->. destruct (ring_get q ch cs Hri Hc) as (_ & Hri' & Hc').
  set (k1 := with_queue kbd_buf (advance_tail q) k).
  exists (RConfig (set_if true k1) Outside (got c ++ [ch]) (put c)). split.
  - rewrite (bind_Ok _ _ _ _ _ (round_got _ _ _ _ _ Hif Hq Hri Hc Hp)). unfold finish.
    by rewrite (bind_Ok _ _ _ _ _ (k_intr_set_status_ok true k1)).
  - apply (rinv_intro _ _ _ _ rs (advance_tail q)); try done; [by apply (sched_ok_ext _ k)|apply lookup_insert_eq| |].
    + by rewrite Hc', <- (assoc (++)), <- Hf, Hc.
    + by apply at_outside.
Qed.

(** The call of ioq_getchar. *)
Lemma read_ok c : rinv r c → ring_enabled r c Read → steps_to r c Read.
Proof using Hfuel Hr.
  intros (rs & q & [Hs Hq Hri Hp Hf Ho Hrd]) (Hc & Hout & Hif). rewrite Hout in Hrd.
  assert (k_locks (rkern c) !! kbd_buf = Some (Lock NULL 1 0) ∧ consumer q = NULL ∧ r ∈ k_cur (rkern c) :: rs)
    as (Hl & Hcn & Hin) by (by inversion Hrd). clear Hrd. set (k := rkern c) in *. set (k0 := set_if false k).
  assert (Hs0 : sched_ok kbd_buf k0 rs []) by (by apply (sched_ok_ext _ k)).
  unfold steps_to, ring_exec. rewrite (bind_Ok _ _ _ _ _ (k_intr_disable_ok k)), Hif.
  rewrite (bind_Ok _ _ _ _ _ (assert_intr_off_ok 40 "ioq_getchar" k0 eq_refl)).
  destruct (contents q) as [|ch cs] eqn:Hcs.
  2: { apply (got_ok c k0 rs q ch cs); try done. by rewrite Hcs. }
  set (k1 := set_locks (<[kbd_buf := Lock (k_cur k0) 0 1]> (k_locks k0)) k0).
  set (k2 := with_queue kbd_buf (set_waiter CONSUMER (k_cur k) q) k1).
  destruct Ho as (o & Ho & Hoin). assert (Hrs : ∃ next rest, rs = next :: rest).
  { destruct rs as [|next rest]; [|eauto]. apply list_elem_of_singleton in Hoin. congruence. }
  destruct Hrs as (next & rest & Hrs).
  assert (Hs2 : sched_ok kbd_buf k2 rs []) by (by apply (sched_ok_ext _ k)).
  destruct (block_out_ok kbd_buf k2 (k_nodes k2) rs [] [] next rest Hs2 eq_refl Hrs)
    as (k3 & Hb & [Hs3 Hc3 Hl3 Hq3 Hi3 Hd3 _] & Hg3 & _).
  { apply Hs2. } { apply same_outside_refl. } { set_solver. } { rewrite app_nil_r. apply so_nodup, NoDup_cons in Hs2 as [_ Hnd].
    by rewrite app_nil_r in Hnd. }
  exists (RConfig k3 (Asleep INTR_OFF INTR_ON) (got c) (put c)). split.
  - unfold getchar_round. rewrite bind_assoc, (bind_Ok _ _ _ _ _ (ioq_empty_ok _ _ k0 eq_refl Hq Hri)).
    rewrite bool_decide_true by done. rewrite bind_assoc.
    rewrite (bind_Ok _ _ _ _ _ (lock_acquire_free kbd_buf k0 Hfuel ltac:(simpl; congruence) Hl)).
    fold k1. rewrite bind_assoc.
    assert (Hw : ioq_wait_out kbd_buf CONSUMER k1 = Ok (k_cur k2, INTR_OFF) k3).
    { unfold ioq_wait_out. rewrite (bind_Ok _ _ _ _ _ (load_queue_ok kbd_buf q k1 Hq)). simpl get_waiter.
      rewrite Hcn, bind_assert. unfold running_thread. rewrite bind_gets.
      rewrite (bind_Ok _ _ _ _ _ (update_queue_ok kbd_buf q _ k1 Hq)). exact Hb. }
    by rewrite (bind_Ok _ _ _ _ _ Hw).
  - apply (rinv_intro _ _ _ _ rest (set_waiter CONSUMER (k_cur k) q)); try done.
    + by rewrite Hq3; apply lookup_insert_eq.
    + by destruct Hri.
    + change (contents (set_waiter CONSUMER (k_cur k) q)) with (contents q). by rewrite Hcs.
    + exists o. split; [done|]. rewrite Hc3, <- Hrs. apply elem_of_cons in Hoin as [->|]; [congruence|done].
    + apply at_asleep; try done.
      * rewrite Hl3. simpl. rewrite lookup_insert_eq. by rewrite Hc.
      * rewrite Hc3, <- Hrs. pose proof (so_nodup _ _ _ _ Hs) as [Hni _]%NoDup_cons. rewrite app_nil_r, Hc in Hni. done.
      * by rewrite <- Hc.
      * apply (apart_dom _ (k_nodes k)); [done|]. apply (so_apart _ _ _ _ Hs). rewrite Hc. apply elem_of_cons. by left.
Qed.
(** The reader runs again. *)
Lemma resume_ok c : rinv r c → ring_enabled r c Resume → steps_to r c Resume.
Proof using Hfuel Hr.
  intros (rs & q & [Hs Hq Hri Hp Hf Ho Hrd]) (Hc & Hout). unfold steps_to, ring_exec.
  destruct Hrd as [|? ? ? Hni|Hl Hcn Hne Hin Hi]; [done| |].
  { exfalso. apply Hni. rewrite <- Hc. apply elem_of_cons. by left. }
  set (k := rkern c) in *. specialize (Hi Hc). destruct (contents q) as [|ch cs] eqn:Hcs; [done|].
  set (k1 := set_locks (<[kbd_buf := Lock NULL 1 0]> (k_locks k)) k).
  assert (Hw : getchar_wake kbd_buf INTR_OFF k = getchar_round kbd_buf k1).
  { unfold getchar_wake. rewrite (bind_Ok _ _ _ _ _ (k_intr_set_status_ok false k)).
    assert (Hk : set_if false k = k) by (rewrite <- Hi; apply set_if_id). rewrite Hk.
    rewrite <- Hc in Hl. by rewrite (bind_Ok _ _ _ _ _ (lock_release_last kbd_buf k Hl (so_wait _ _ _ _ Hs))). }
  destruct (got_ok c k1 rs q ch cs INTR_ON) as (c' & Hrun & Hinv); try done.
  - by apply (sched_ok_ext _ k).
  - by rewrite Hcs.
  - apply lookup_insert_eq.
  - exists c'. split; [|done]. rewrite bind_unfold, Hw, <- bind_unfold. exact Hrun.
Qed.

Lemma ring_exec_ok c e : rinv r c → ring_enabled r c e → steps_to r c e.
Proof using Hfuel Hr.
  destruct e; intros Hinv He;
    [by apply ring_tick_ok|by apply ring_iret_ok|by apply key_ok|by apply read_ok|by apply resume_ok|by apply other_ok].
Qed.

Lemma step_inv c c' : rinv r c → ring_step r c c' → rinv r c'.
Proof using Hfuel Hr.
  intros Hinv (e & He & Hrun). destruct (ring_exec_ok c e Hinv He) as (c1 & Hrun1 & Hinv1).
  rewrite Hrun1 in Hrun. destruct c', c1. by injection Hrun as <- <- <- <-.
Qed.

(** Nothing read or typed yet, nobody in the queue. *)
Record ring_start (c : rconfig) : Prop := {
  it_sched : ∃ rs, sched_ok kbd_buf (rkern c) rs [] ∧ r ∈ k_cur (rkern c) :: rs ∧ ∃ o, o ≠ r ∧ o ∈ k_cur (rkern c) :: rs;
  it_queue : ∃ q, k_queues (rkern c) !! kbd_buf = Some q ∧ ring q ∧ producer q = NULL ∧ consumer q = NULL ∧ contents q = [];
  it_lock : k_locks (rkern c) !! kbd_buf = Some (Lock NULL 1 0);
  it_place : rat c = Outside;
  it_chars : got c = [] ∧ put c = []
}.

Lemma ring_start_inv c : ring_start c → rinv r c.
Proof.
  intros [(rs & Hs & Hin & Ho) (q & Hq & Hri & Hp & Hcn & Hcs) Hl Hat [Hg Hpt]]. exists rs, q. split; try done.
  - by rewrite Hg, Hpt, Hcs.
  - rewrite Hat. by apply at_outside.
Qed.

Lemma ring_reachable c0 c : ring_start c0 → star (ring_step r) c0 c → rinv r c.
Proof using Hfuel Hr.
  intros Hi Hstar. apply (star_invariant (ring_step r) (rinv r) step_inv _ _ Hstar), ring_start_inv, Hi.
Qed.
End system.

(** ** Properties *)

Section properties.
Context `{FpEval, Layout, Env}.


(** C6 One thread reads the keyboard's queue while keyboard interrupts, clock
    interrupts and the other threads come in any order.  At every moment the
    characters it has read, followed by those in the queue, are the characters typed
    that found room, in their order: none is lost, doubled or overtaken.  The reader
    sleeps only while the queue is empty and remembers it; with a character in the
    queue it runs or is ready. *)
Theorem ring_delivers r c0 c :
  wait_fuel ≠ 0%nat → r ≠ NULL → ring_start r c0 → star (ring_step r) c0 c →
  ∃ q ts, k_queues (rkern c) !! kbd_buf = Some q ∧ dlist (k_nodes (rkern c)) thread_ready_list (general_tag <$> ts) ∧
    got c ++ contents q = put c ∧ (length (contents q) ≤ 63)%nat ∧
    (contents q ≠ [] → r ∈ k_cur (rkern c) :: ts) ∧
    (rat c ≠ Outside → contents q = [] → consumer q = r ∧ (status <$> k_tasks (rkern c) !! r) = Some TASK_BLOCKED).
Proof.
  intros Hf Hr Hi Hstar. destruct (ring_reachable r Hf Hr c0 c Hi Hstar) as (rs & q & [Hs Hq Hri Hp Hfi Ho Hrd]).
  exists q, rs. split_and!; [done|apply Hs|done| | |].
  - pose proof (length_contents q). pose proof (used_range q). unfold bufsize in *. lia.
  - intros Hne. by destruct Hrd.
  - intros Hout He. destruct Hrd as [|? ? ? ? (x & Hx & Hst & _)|]; [done| |done].
    split; [done|]. rewrite Hx. simpl. by rewrite Hst.
Qed.

(** C7 In every reachable state something can happen, and whatever can happen ends
    without a failed assertion or a fault. *)
Theorem ring_system_safe r c0 c :
  wait_fuel ≠ 0%nat → r ≠ NULL → ring_start r c0 → star (ring_step r) c0 c →
  (∃ e, ring_enabled r c e) ∧ ∀ e, ring_enabled r c e → ∃ a k, ring_exec e c (rkern c) = Ok a k.
Proof.
  intros Hf Hr Hi Hstar. pose proof (ring_reachable r Hf Hr c0 c Hi Hstar) as Hinv. split.
  - destruct (k_if (rkern c)) eqn:Hif; [by exists Tick|].
    destruct (decide (k_cur (rkern c) = r)) as [Hc|Hc]; [|by exists Iret].
    destruct (rat c) eqn:Hat; [by exists Iret|]. exists Resume. split; [done|]. by rewrite Hat.
  - intros e He. destruct (ring_exec_ok r Hf Hr c e Hinv He) as (c' & Hrun & _). eauto.
Qed.
End properties.

(** *** Witnesses: the reader finds the queue empty and sleeps, a key is typed, the
    reader runs again and reads it *)

Section runs.
Context `{FpEval, Layout, Env}.

Definition is_outside (p : place) : bool := match p with Outside => true | _ => false end.

Definition ring_enabledb (r : Z) (c : rconfig) (e : ring_event) : bool :=
  let k := rkern c in
  match e with
  | Tick => k_if k
  | Iret => negb (k_if k) && (negb (k_cur k =? r) || is_outside (rat c))
  | Key b => k_if k && bool_decide (0 ≤ b < 256)
  | Read => (k_cur k =? r) && is_outside (rat c) && k_if k
  | Resume => (k_cur k =? r) && negb (is_outside (rat c))
  | Other _ => false
  end.

Lemma ring_enabledb_sound r c e : ring_enabledb r c e = true → ring_enabled r c e.
Proof.
  destruct e; simpl; rewrite ?andb_true_iff, ?orb_true_iff, ?negb_true_iff, ?Z.eqb_eq, ?Z.eqb_neq, ?bool_decide_eq_true;
    destruct (rat c); simpl; try naive_solver.
Qed.

Fixpoint ring_run (r : Z) (es : list ring_event) (c : rconfig) : option rconfig :=
  match es with
  | [] => Some c
  | e :: es' =>
      if ring_enabledb r c e then
        match ring_exec e c (rkern c) with Ok (p, g, u) k => ring_run r es' (RConfig k p g u) | _ => None end
      else None
  end.

Lemma ring_run_star r es c c' : ring_run r es c = Some c' → star (ring_step r) c c'.
Proof.
  revert c. induction es as [|e es IH]; intros c; simpl; [intros [= ->]; constructor|].
  destruct (ring_enabledb r c e) eqn:He; [|done]. apply ring_enabledb_sound in He.
  destruct (ring_exec e c (rkern c)) as [[[p g] u] k| | | |] eqn:Hrun; try done. intros Hrest.
  eapply star_cons; [|by apply IH]. by exists e.
Qed.
End runs.

#[local] Existing Instances x87 demo_layout demo_env.

(** The time slices are used up. *)
Definition ring_kernel : kernel := set_tasks (with_ticks 0 <$> k_tasks sched_kernel) sched_kernel.

Definition ring_config : rconfig := RConfig ring_kernel Outside [] [].

Lemma ring_config_start : ring_start 0x20000 ring_config.
Proof.
  split; [|eexists; split_and!; [vm_compute; reflexivity|by split|done|done|done]|reflexivity|done|done].
  exists [0x21000]. split_and!; [|decided|by exists 0x21000; split; [done|decided]].
  split; [decided|decided|decided| | | | | |].
  - intros z. unfold nodes. simpl. unfold list_head, list_tail, waiters. simpl. set_solver.
  - intros t. simpl. rewrite !elem_of_cons, elem_of_nil.
    intros [->|[->|[]]]; (split_and!; [done|decided|by eexists]).
  - by eexists.
  - intros t ->%list_elem_of_singleton. by eexists.
  - set_solver.
  - by split; vm_compute.
Qed.

(** The reader, asleep; and after the key has woken it and it has run. *)
Definition asleep_events : list ring_event := [Iret; Read].
Definition served_events : list ring_event := [Iret; Read; Iret; Key 0x1e; Tick; Resume].

Lemma ring_delivers_witness :
  ∃ c, ring_run 0x20000 served_events ring_config = Some c ∧ got c = [97] ∧ put c = [97] ∧
    ∃ q, k_queues (rkern c) !! kbd_buf = Some q ∧ got c ++ contents q = put c.
Proof.
  destruct (ring_run 0x20000 served_events ring_config) as [c|] eqn:Hrun; [|by vm_compute in Hrun].
  exists c. split; [done|].
  destruct (ring_delivers 0x20000 ring_config c ltac:(decided) ltac:(decided) ring_config_start (ring_run_star _ _ _ _ Hrun))
    as (q & ts & Hq & _ & Hf & _).
  assert (Hgp : got c = [97] ∧ put c = [97]) by (vm_compute in Hrun; injection Hrun as <-; done).
  split_and!; [apply Hgp|apply Hgp|]. exists q. split; [exact Hq|exact Hf].
Defined.

Lemma ring_system_safe_witness :
  ∃ c, ring_run 0x20000 asleep_events ring_config = Some c ∧ rat c = Asleep INTR_OFF INTR_ON ∧ ∃ e, ring_enabled 0x20000 c e.
Proof.
  destruct (ring_run 0x20000 asleep_events ring_config) as [c|] eqn:Hrun; [|by vm_compute in Hrun].
  exists c. split; [done|].
  destruct (ring_system_safe 0x20000 ring_config c ltac:(decided) ltac:(decided) ring_config_start (ring_run_star _ _ _ _ Hrun))
    as [He _].
  assert (Hat : rat c = Asleep INTR_OFF INTR_ON) by (vm_compute in Hrun; injection Hrun as <-; done).
  split; [exact Hat|exact He].
Defined.

(** ** Two readers *)

(** A keyboard interrupt with byte [b]. *)
Definition key_press (b : Z) : prog kernel unit :=
  _ ← k_intr_disable; _ ← intr_keyboard_handler b; _ ← k_intr_enable; mret tt.

(** A clock interrupt up to the switch. *)
Definition clock_tick : prog kernel unit := _ ← k_intr_disable; clock_out.

(** While the second reader waits for the queue's lock: the idle thread runs, [a] is
    typed, which wakes the first reader; it releases the lock and reads its [a]; [b] is
    typed; the second reader's turn comes. *)
Definition meanwhile : prog kernel unit :=
  _ ← k_intr_enable;
  _ ← key_press 0x1e;
  _ ← clock_tick;
  r ← getchar_wake kbd_buf INTR_OFF;
  match r with
  | Got _ => _ ← k_intr_enable; _ ← key_press 0x30; clock_tick
  | Waits _ => undef "the first reader has its character"
  end.

Definition readers_env : Env := {| others := λ _, meanwhile; esp_at := @esp_at demo_env; wait_fuel := 4 |}.

(** The thread at 0x22000 joins the ready ones; the running one, at 0x20000, reads
    first, then that at 0x22000. *)
Definition two_readers : prog kernel round :=
  _ ← thread_unblock 0x22000;
  _ ← k_intr_disable;
  _ ← getchar_round kbd_buf;
  _ ← k_intr_enable;
  _ ← k_intr_disable;
  @getchar_round x87 demo_layout readers_env kbd_buf.

